(* ===== verification/_CoqProject ===== *)
-Q . S2P
Prelude.v
Float64.v
NumberText.v
Utils.v
Coop.v
ThreadPinning.v
Types.v
ArrayQueue.v
Pipeline.v
PipelineConc.v
OpportunityQueue.v
SymbolMap.v
SymbolMapConc.v
MarketData.v
ExchangeFees.v
Branchless.v
Confluence.v
Positions.v
Portfolio.v
Detector.v
FillProbability.v
Backend.v
DepthChecker.v
PriceChaser.v
ScriptedBackend.v
AtomicExecution.v
Entry.v
EntryReal.v
EntryRealSpec.v
EntryFills.v
ConfigStorage.v
FloatError.v
RateLimiter.v
RateBound.v
LatencyTracker.v
BufferPool.v
ExchangeParser.v
PriceSimd.v
SymbolNames.v
Ingest.v
Feed.v
Persistence.v
Connectors.v
ConnectorSpec.v
Sessions.v
JsonValue.v
SessionSpec.v
OpenInterest.v
Terminal.v
PortfolioStore.v
TradingMonitor.v
Dashboard.v
Runner.v
RunnerMonitor.v
RunnerLoop.v
ScriptedRunner.v
RunnerSpec.v
RunnerOpportunity.v
RunnerExits.v
RunnerHedge.v
RunnerGaps.v
RunnerReturns.v
RunnerDraft.v
Startup.v
Shutdown.v
BybitClient.v
BitgetClient.v
BinanceClient.v
BinanceSpec.v
TestnetBackend.v
TestnetSpec.v
TestnetRouting.v
TestnetTimeout.v
Configs.v
TestMetrics.v
Monitor.v
EntryPoints.v
