(* ===== verification/Prelude.v ===== *)
(** * Funding-spread arbitrage: a verification of the trading program

    The program (Rust, [src/src]) looks for price spreads of one symbol between
    exchanges, enters a long leg on one and a short leg on the other, and keeps
    books about it.  The WebSocket connectors send what the exchanges publish to a
    bridge, which writes it to Redis through a queue and turns prices into updates
    of the [MarketPipeline].  The [OpportunityDetector] keeps the newest prices in a
    [MarketDataStore], names symbols by ids from the [SymbolMap], filters pairs of
    exchanges and publishes opportunities on the [OpportunityQueue].  The
    [StrategyRunner] takes them one by one: the entry code turns one into two filled
    orders through an [ExecutionBackend], with repricing, depth checks, hedging and
    an emergency close; the runner's loop then watches the open trades and closes
    them, and the [PortfolioManager] keeps the books.  The backend is a paper
    simulation or the Bybit demo exchange.

    ** Files, in dependency order
    - [Prelude.v]: machine integers with their wrap-around, [result], the state
      transformers with their [wp] and [respects] rules, reachability, automation.
    - [Float64.v]: binary64 by the Standard Library's [SpecFloat], kernel-computable,
      with decimal literals, Rust's [min]/[max]/[clamp]/[as] casts and order lemmas.
    - [NumberText.v]: the texts of numbers, [parse::<f64>], and the string functions
      of the standard library the code uses.  [Coop.v]: cooperative tasks that run
      interleaved at their awaits, with rules for what they keep.
    - [Utils.v] ([utils.rs]): chunks, batches, reconnect delays.  [ThreadPinning.v]
      ([thread_pinning.rs]): the cores of the threads.
    - [Types.v] ([strategy/types.rs]): the data, the typed order states, the
      confidence score, the portfolio state.
    - [ArrayQueue.v]: the interface of [crossbeam]'s bounded queue and its laws,
      with a list instance; [Pipeline.v] and [PipelineConc.v] ([pipeline.rs]): the
      two pipelines, sequentially as a refinement of a bounded FIFO, and as an
      interleaving of producer and consumer; [OpportunityQueue.v].
    - [SymbolMap.v], [SymbolMapConc.v] ([symbol_map.rs]): ids of (exchange, symbol)
      pairs over the interface of [DashMap], sequentially and with any number of
      threads.  [MarketData.v] ([market_data.rs]): the structure of arrays.
    - [ExchangeFees.v], [Branchless.v] (also [scanner.rs]), [Confluence.v],
      [Positions.v], [Portfolio.v], [FillProbability.v]: the files of those names.
    - [Detector.v] ([opportunity_detector.rs]): the loop that consumes updates and
      publishes opportunities, over the queue and map interfaces.
    - [Backend.v] ([execution_backend.rs], [paper_trading_backend.rs]): the backend
      as a class over an abstract state, the world (backend, hedge locks, halt flag,
      history of calls), the paper backend.  [ScriptedBackend.v]: a backend that
      answers from a script, for concrete runs only.
    - [DepthChecker.v], [PriceChaser.v], [AtomicExecution.v], [Entry.v],
      [EntryReal.v], [EntryRealSpec.v], [EntryFills.v]: the execution code; the last
      two have the theorems about [execute_atomic_entry_real].
    - [ConfigStorage.v], [RateLimiter.v], [LatencyTracker.v], [BufferPool.v].
      [FloatError.v]: rounding errors of the [f64] operations against rationals;
      [RateBound.v]: how many requests the rate limiter lets through in a stretch of
      time.
    - [ExchangeParser.v], [SymbolNames.v] ([exchange_parser.rs]): number parser,
      message fields, Redis keys, names of symbols.  [PriceSimd.v]: the number parser
      for processors with AVX-512, on its registers.
    - [Ingest.v] ([main.rs]): [parse_to_market_update] and [redis_bridge].
      [Persistence.v]: the Redis writer thread next to the bridge.
      [Feed.v]: the bridge, the detector and the runner's consumer as [main] joins
      them.  [OpenInterest.v]: the open-interest poller.
    - [Connectors.v], [ConnectorSpec.v], [Sessions.v], [SessionSpec.v]
      ([binance.rs], [bitget.rs], [bybit.rs], [hyperliquid.rs], [kucoin.rs],
      [okx.rs], [paradex.rs], [lighter.rs]): the symbols the connectors follow and their
      subscriptions; what they do with a message and the loop of a connection.
    - [Runner.v], [RunnerMonitor.v], [RunnerLoop.v] ([runner.rs]): the runner's
      state and one opportunity; the watch over open trades; closing them, and the
      loop.  [RunnerSpec.v], [RunnerOpportunity.v], [RunnerExits.v],
      [RunnerHedge.v], [RunnerGaps.v], [RunnerReturns.v] have the theorems,
      [ScriptedRunner.v] surroundings for concrete runs.  [RunnerDraft.v]
      ([execute_opportunity_impl.rs]): the decisions of the draft of
      [execute_opportunity], against the program's.
    - [Startup.v] ([main.rs]): the runner as the program starts it.  [Shutdown.v]: the
      signal and the graceful shutdown next to all the program's tasks.
    - [BybitClient.v] ([testnet/bybit_testnet.rs]): the Bybit demo client over an
      interface of the transport.  [BitgetClient.v] ([testnet/bitget_demo.rs]): the
      Bitget client.  [BinanceClient.v], [BinanceSpec.v] ([testnet/binance_demo.rs]):
      the Binance client behind its rate limiter.  [TestnetBackend.v] ([testnet_backend.rs]): the
      demo backend over an interface of clients; [TestnetSpec.v],
      [TestnetRouting.v], [TestnetTimeout.v] have the theorems.
    - [Configs.v] ([synthetic_config.rs], [testnet_config.rs]), [TestMetrics.v].
    - [JsonValue.v] ([types.rs]): the JSON values of trades and portfolio;
      [PortfolioStore.v] ([portfolio.rs]): what the portfolio manager writes to
      Redis, over an interface of its commands.
    - [Terminal.v], [Dashboard.v] ([bin/dashboard.rs]), [TradingMonitor.v]
      ([bin/trading-monitor.rs]): the two terminal programs that read Redis.
      [Monitor.v] ([bin/monitor.rs]): the metrics server and its collector.
    - [EntryPoints.v] ([bin/demo-runner.rs], [bin/bybit-synthetic-test.rs]): the two
      other programs that put a runner together.

    ** How the code is rendered
    Synchronous code is a pure function or an explicit state transformer; code that
    awaits a backend is a state transformer of the world, the [?] operator is
    [let?].  Atomics shared between threads are read and written one access per step
    of a relation; the theorems about them hold in every reachable state.  Integers
    are [Z] with [wrap64], [wrap32] or [wrap8] where the source adds; floats are
    bit-exact [f64] including NaN and infinities.  Error messages are kept as
    strings or as constructors with the data they print.  Library code the source
    calls is an interface with its documented laws ([ArrayQueueLaws],
    [DashMapLaws], [BackendClock]), and every theorem that uses one has a witness at
    an instance; [serde_json] is a parameter with nothing assumed, except that values
    come back as they were written: those of the trades and the portfolio
    ([JsonTextLaws]), and the strings inside a message ([JsonReadBack], which follows
    from it).

    ** What the theorems show
    - Entry: a trade is booked on reports of the exchanges only, each leg's size from
      its own order's report, a cut, or the reports of the hedge's orders, which
      cover the other leg; the polling loop never hands one filled leg on; an entry that
      fails its checks sends no order, locks are always released, trading halts
      exactly on a failed emergency close, exit orders match the recorded legs, and
      the function returns.  Runs on scripts show where it surprises: partial fills
      that are not counted, a partial hedge left open, a busy lock.
    - The runner: no symbol ever has two live trades, whatever the interleaving; what
      each verdict about an opportunity means; the orders of one look at a trade
      close exactly what the reported fills leave open; an opportunity and a look at
      the trades return when nobody holds a reference into the trades, while closing
      a trade never does: it ends in the very error of a write Redis refused, or in
      a wait for its own lock; and the runner
      as [main] starts it never trades, for it is given no prices.
    - The programs: the answer of [main] says what has ended by then, but the graceful
      shutdown of [main] never completes, for it waits for the runner's loop; the demo
      runner never scans; the detector and the runner of the synthetic test split the
      updates between them, each read once or dropped by a full queue.
    - The demo backend: an accepted order, limit or market, is found where it was
      placed for as long as the backend runs, its bookkeeping stays well formed; hedges of simulated legs fail and the exit timeout of a
      Bybit order never fires.
    - Ingestion: from an exchange's listing, every tradeable symbol is subscribed once
      on every channel, as long as the connections take the messages; the text
      stored for a ticker has the newest value of every field; a price message
      reaches the pipeline with the prices of its own fields, under the plain symbol
      name if the coin has a [base_name]; the AVX-512 parser reads what the scalar
      one reads; the store holds the last quote of the pairs it has room for; the
      writer thread loses nothing it did not have to drop, and after a shutdown
      request ends with every waiting text handed to Redis, or still in its buffer
      if Redis refused it.
    - From messages to opportunities: whatever interleaves, both prices of an
      opportunity were the newest quotes of its own exchanges at one moment of the
      messages the detector had taken, which are all those heard but as many as the
      pipeline dropped.
    - What the operator sees: the monitor reads what the portfolio manager wrote and
      values every open trade at its own exchanges; the dashboard shows exactly the
      entries among the tickers it can read, sorted and bounded, and never one of
      KuCoin or Hyperliquid; a scrape of the metrics is one moment of the collector,
      and a request that names a path is answered completely.
    - Placement: bounds on the orders sent by the retry loops, the emergency close
      and the price chaser, what [Ok] and [Err] mean, mutual exclusion of hedges.
    - Requests: no stretch of time sees more requests through the rate limiter than
      the rate allows for its length, the burst and one more, with the rounding of
      the seconds counted; the same for whatever the Binance client is asked, its
      order book apart, which it fetches past the limiter.
    - The draft of [execute_opportunity] enters a trade exactly when the program does,
      if the opportunity's own constraints hold, its confidence is 70 and no exchange
      refuses: the program checks none of these again.
    - Queues, ids and statistics: conservation and order of updates under every
      interleaving, agreement of ids, exactness of the concurrent maximum, counters.
    - Data and decisions: last-write-wins of the store, filters of the detector,
      balance of the books, priority of exit reasons, bounds of the probability,
      round trips of names and ids.

    ** Fuel
    [chase_until_filled] and the polling loop of the entry recurse on fuel.
    [chase_terminates] and [entry_terminates] show that timeout divided by interval
    plus one turns are enough (31 for the presets, 201 for anything the validator
    accepts), from the one fact that a sleep lasts at least its duration.

    [execute_opportunity] passes the entry its fuel; [opportunity_returns] shows
    that 31 is enough.  The pages of Bybit's instrument list are the server's choice:
    [fetch_pages] has fuel and answers [None] when the server never ends.  Every call
    of the Binance client has fuel for the turns of the limiter's loop; for a caller
    on its own three are enough ([acquire_ends]).

    ** Not modelled
    The sockets, HTTP and Redis themselves, HMAC and JSON texts are interfaces.
    [gateio.rs] is commented out as a whole.  Of [execute_opportunity_impl.rs] the entry
    under a timeout is left out: the timeout drops it at whatever it awaits.  That
    file, [binance_demo.rs] and [lighter.rs] are in no module and are not compiled;
    they are modelled as they stand.  The copies of
    [price_chaser.rs]'s repricing types at the end of [types.rs] are used by nothing, the
    functions [bybit-synthetic-test.rs] repeats from [main.rs] are modelled once, and
    [HedgeLogger] and the drawing of the terminal programs only print.
    Logging and memory prefetching do not change the state; memory orderings weaker
    than sequential consistency are not distinguished. *)
From Stdlib Require Import ZArith Lia Bool.
From stdpp Require Import base option list gmap strings pretty.

(** ** Machine integers

    Integers of the program are kept as [Z] inside their Rust type's range;
    [wrap_w] is what [fetch_add] and the release-profile [+] do on overflow. *)
Definition U8_MAX : Z := 2 ^ 8 - 1.
Definition U32_MAX : Z := 2 ^ 32 - 1.
Definition U64_MAX : Z := 2 ^ 64 - 1.

Definition wrap8 (z : Z) : Z := z mod 2 ^ 8.
Definition wrap32 (z : Z) : Z := z mod 2 ^ 32.
Definition wrap64 (z : Z) : Z := z mod 2 ^ 64.

Definition in_u8 (z : Z) : Prop := (0 <= z < 2 ^ 8)%Z.
Definition in_u32 (z : Z) : Prop := (0 <= z < 2 ^ 32)%Z.
Definition in_u64 (z : Z) : Prop := (0 <= z < 2 ^ 64)%Z.

(** ** Results *)

Inductive result (A E : Type) : Type :=
| Ok (a : A)
| Err (e : E).
Arguments Ok {A E} a.
Arguments Err {A E} e.

Definition is_ok {A E} (r : result A E) : bool :=
  match r with Ok _ => true | Err _ => false end.

Definition map_err {A E F} (f : E -> F) (r : result A E) : result A F :=
  match r with Ok a => Ok a | Err e => Err (f e) end.

Definition unwrap_or {A E} (r : result A E) (d : A) : A :=
  match r with Ok a => a | Err _ => d end.

(** ** State transformers

    A handler that reads and changes a state [W] is a function
    [W -> A * W]; the notations below are the sequencing the source writes
    with [;] and with [?]. *)
Definition ST (W A : Type) : Type := W -> A * W.

Definition ret {W A} (a : A) : ST W A := fun w => (a, w).

Definition bind {W A B} (m : ST W A) (k : A -> ST W B) : ST W B :=
  fun w => let '(a, w') := m w in k a w'.

(** [m?]: an [Err] ends the function, an [Ok] continues. *)
Definition bind_ok {W A B E} (m : ST W (result A E)) (k : A -> ST W (result B E))
  : ST W (result B E) :=
  fun w => match m w with
           | (Ok a, w') => k a w'
           | (Err e, w') => (Err e, w')
           end.

Definition get {W} : ST W W := fun w => (w, w).
Definition modify {W} (f : W -> W) : ST W unit := fun w => (tt, f w).

Declare Scope st_scope.
Delimit Scope st_scope with st.
Notation "'let!' x ':=' c 'in' k" := (bind c (fun x => k))
  (at level 10, x name, c at level 100, k at level 200) : st_scope.
Notation "'let!' ' p ':=' c 'in' k" := (bind c (fun x => match x with p => k end))
  (at level 10, p pattern, c at level 100, k at level 200) : st_scope.
Notation "'let?' x ':=' c 'in' k" := (bind_ok c (fun x => k))
  (at level 10, x name, c at level 100, k at level 200) : st_scope.
Notation "'let?' ' p ':=' c 'in' k" := (bind_ok c (fun x => match x with p => k end))
  (at level 10, p pattern, c at level 100, k at level 200) : st_scope.
Notation "'do!' c 'in' k" := (bind c (fun _ => k))
  (at level 10, c at level 100, k at level 200) : st_scope.

(** ** Reachability of a step relation *)
Inductive star {S : Type} (step : S -> S -> Prop) : S -> S -> Prop :=
| star_refl s : star step s s
| star_step s1 s2 s3 : star step s1 s2 -> step s2 s3 -> star step s1 s3.

(** An invariant that holds initially and that every step preserves holds in
    every reachable state. *)
Lemma star_invariant {S} (step : S -> S -> Prop) (I : S -> Prop) s0 s :
  I s0 -> (forall a b, I a -> step a b -> I b) -> star step s0 s -> I s.
Proof. intros H0 Hs Hr. induction Hr; eauto. Qed.

Lemma star_trans {S} (step : S -> S -> Prop) a b c :
  star step a b -> star step b c -> star step a c.
Proof. intros H1 H2. induction H2; eauto using star. Qed.

(** ** Automation shared by the components *)
Create HintDb arb discriminated.
Create Rewrite HintDb arb.

#[export] Hint Constructors star : arb.

Ltac destruct_if :=
  match goal with
  | |- context [if ?b then _ else _] => let E := fresh "E" in destruct b eqn:E
  | H : context [if ?b then _ else _] |- _ => let E := fresh "E" in destruct b eqn:E
  end.

(** Case analysis on the innermost scrutinee of the goal or a hypothesis. *)
Ltac destruct_match_in_goal :=
  match goal with
  | |- context [match ?x with _ => _ end] =>
      lazymatch x with
      | context [match _ with _ => _ end] => fail
      | _ => let E := fresh "E" in destruct x eqn:E
      end
  end.

Ltac bool_simpl :=
  repeat match goal with
  | H : (_ && _)%bool = true |- _ => apply andb_true_iff in H; destruct H
  | H : (_ || _)%bool = false |- _ => apply orb_false_iff in H; destruct H
  | H : negb _ = true |- _ => apply negb_true_iff in H
  | H : negb _ = false |- _ => apply negb_false_iff in H
  end.

(** ** Generic lemmas *)

Lemma wrap64_small z : in_u64 z -> wrap64 z = z.
Proof. unfold in_u64, wrap64. intros. apply Z.mod_small. lia. Qed.

Lemma wrap32_small z : in_u32 z -> wrap32 z = z.
Proof. unfold in_u32, wrap32. intros. apply Z.mod_small. lia. Qed.

Lemma wrap64_range z : in_u64 (wrap64 z).
Proof. unfold in_u64, wrap64. apply Z.mod_pos_bound. lia. Qed.

Lemma wrap32_range z : in_u32 (wrap32 z).
Proof. unfold in_u32, wrap32. apply Z.mod_pos_bound. lia. Qed.

Lemma wrap64_add_l a b : wrap64 (wrap64 a + b) = wrap64 (a + b).
Proof. unfold wrap64. apply Zplus_mod_idemp_l. Qed.

Lemma wrap64_add_r a b : wrap64 (a + wrap64 b) = wrap64 (a + b).
Proof. unfold wrap64. apply Zplus_mod_idemp_r. Qed.

#[export] Hint Resolve wrap64_range wrap32_range : arb.

(** [map_err(f)] on the result of a computation. *)
Definition mapE {W A E F} (f : E -> F) (m : ST W (result A E)) : ST W (result A F) :=
  fun w => let '(r, w) := m w in (map_err f r, w).

(** ** Reasoning about state transformers

    [wp m Q w]: running [m] from [w] ends in an answer and a state that
    satisfy [Q]. *)
Definition wp {W A} (m : ST W A) (Q : A -> W -> Prop) (w : W) : Prop :=
  let '(a, w') := m w in Q a w'.

Lemma wp_ret {W A} (a : A) (Q : A -> W -> Prop) w : Q a w -> wp (ret a) Q w.
Proof. auto. Qed.

Lemma wp_bind {W A B} (m : ST W A) (k : A -> ST W B) (Q : B -> W -> Prop) w :
  wp m (fun a w' => wp (k a) Q w') w -> wp (bind m k) Q w.
Proof. unfold wp, bind. destruct (m w) as [a w']. auto. Qed.

Lemma wp_bind_ok {W A B E} (m : ST W (result A E)) (k : A -> ST W (result B E))
  (Q : result B E -> W -> Prop) w :
  wp m (fun r w' => match r with Ok a => wp (k a) Q w' | Err e => Q (Err e) w' end) w ->
  wp (bind_ok m k) Q w.
Proof. unfold wp, bind_ok. destruct (m w) as [[a | e] w']; auto. Qed.

Lemma wp_mapE {W A E F} (f : E -> F) (m : ST W (result A E)) (Q : result A F -> W -> Prop) w :
  wp m (fun r w' => Q (map_err f r) w') w -> wp (mapE f m) Q w.
Proof. unfold wp, mapE. destruct (m w) as [r w']. auto. Qed.

Lemma wp_mono {W A} (m : ST W A) (P Q : A -> W -> Prop) w :
  wp m P w -> (forall a w', P a w' -> Q a w') -> wp m Q w.
Proof. unfold wp. destruct (m w). auto. Qed.

(** [respects R m]: every run of [m] moves the state along the preorder [R]. *)
Definition respects {W A} (R : W -> W -> Prop) (m : ST W A) : Prop :=
  forall w, R w (snd (m w)).

Section respects.
Context {W : Type} (R : W -> W -> Prop) `{!PreOrder R}.

Lemma respects_ret {A} (a : A) : respects R (ret a).
Proof. intros w. cbn. reflexivity. Qed.

Lemma respects_bind {A B} (m : ST W A) (k : A -> ST W B) :
  respects R m -> (forall a, respects R (k a)) -> respects R (bind m k).
Proof.
  intros Hm Hk w. unfold bind. specialize (Hm w). destruct (m w) as [a w1].
  etransitivity; [exact Hm | apply Hk].
Qed.

Lemma respects_bind_ok {A B E} (m : ST W (result A E)) (k : A -> ST W (result B E)) :
  respects R m -> (forall a, respects R (k a)) -> respects R (bind_ok m k).
Proof.
  intros Hm Hk w. unfold bind_ok. specialize (Hm w). destruct (m w) as [[a | e] w1]; [| exact Hm].
  etransitivity; [exact Hm | apply Hk].
Qed.

Lemma respects_mapE {A E F} (f : E -> F) (m : ST W (result A E)) :
  respects R m -> respects R (mapE f m).
Proof. intros Hm w. unfold mapE. specialize (Hm w). now destruct (m w). Qed.

(** A postcondition together with the relation that every run respects. *)
Lemma wp_respects {A} (m : ST W A) (Q : A -> W -> Prop) w :
  respects R m -> (forall a w', m w = (a, w') -> R w w' -> Q a w') -> wp m Q w.
Proof.
  intros Hm HQ. unfold wp. specialize (Hm w). destruct (m w) as [a w'] eqn:E. now apply HQ.
Qed.
End respects.

(** Decomposes a monadic body into its calls. *)
Ltac respects_step :=
  lazymatch goal with
  | |- respects _ (ret _) => apply respects_ret; exact _
  | |- respects _ (bind _ _) => apply respects_bind; [exact _ | | intros ?]
  | |- respects _ (bind_ok _ _) => apply respects_bind_ok; [exact _ | | intros ?]
  | |- respects _ (mapE _ _) => apply respects_mapE
  | |- respects _ (if ?b then _ else _) => destruct b
  | |- respects _ (match ?x with _ => _ end) => destruct x
  end.

Lemma bind_ret_l {W A B} (a : A) (k : A -> ST W B) w : bind (ret a) k w = k a w.
Proof. reflexivity. Qed.

Lemma bind_ok_Ok {W A B E} (m : ST W (result A E)) (k : A -> ST W (result B E)) w b w' :
  bind_ok m k w = (Ok b, w') -> exists a w1, m w = (Ok a, w1) /\ k a w1 = (Ok b, w').
Proof.
  unfold bind_ok. destruct (m w) as [[a | e] w1] eqn:Hm; [| discriminate].
  intros H. exists a, w1. auto.
Qed.

(** A property that every body of a loop over [l] preserves. *)
Lemma fold_left_preserves {S X} (f : S -> X -> S) (P : S -> Prop) (l : list X) (s : S) :
  (forall s x, x ∈ l -> P s -> P (f s x)) -> P s -> P (fold_left f l s).
Proof.
  revert s. induction l as [| x l IH]; intros s Hf Hs; cbn; [exact Hs |].
  apply IH; [intros; apply Hf; auto; now constructor |]. apply Hf; auto. constructor.
Qed.

(** Reading a list of thread states after one of them changed. *)
Lemma insert_lookup_cases {X} (l : list X) i x x0 j y :
  l !! i = Some x0 -> <[i := x]> l !! j = Some y ->
  (j = i /\ y = x) \/ (j <> i /\ l !! j = Some y).
Proof.
  intros Hi Hj. destruct (decide (j = i)) as [-> | Hne].
  - rewrite list_lookup_insert_eq in Hj by eauto using lookup_lt_Some. left. split; congruence.
  - rewrite list_lookup_insert_ne in Hj by congruence. auto.
Qed.

(** Case analysis on every such reading in the context. *)
Ltac insert_cases Hi :=
  repeat match goal with
  | Hj : <[_ := _]> _ !! _ = Some _ |- _ =>
      apply (insert_lookup_cases _ _ _ _ _ _ Hi) in Hj; destruct Hj as [[? ?] | [? Hj]]; simplify_eq
  end.
