(* ===== verification/Float64.v ===== *)
(** IEEE-754 binary64: the program's [f64].

    A float is the standard library's [spec_float] with 53 bits of precision
    and largest exponent 1024, so every arithmetic operation rounds to nearest,
    ties to even, exactly as the hardware does; NaN payloads are not
    distinguished.  A decimal literal in [%f64] is read as Rust reads it, to
    the nearest float.  The lemmas describe the comparison order (a total
    preorder once NaN is excluded) through an explicit sort key. *)
From Corelib Require Export SpecFloat.
From Stdlib Require Import ZArith Lia Bool Decimal.
From stdpp Require Import base list.
From S2P Require Import Prelude.

Abbreviation f64 := spec_float.

Definition PREC : Z := 53.
Definition EMAX : Z := 1024.

(** ** Literals and conversions *)

(** [z as f64] *)
Definition f_of_Z (z : Z) : f64 := binary_normalize PREC EMAX z 0 false.

Definition f_of_decimal (d : Decimal.decimal) : f64 :=
  let lit (neg : bool) (i f : Decimal.uint) (ex : Z) :=
    let m := Z.of_uint (Decimal.app i f) in
    let k := (ex - Z.of_nat (Decimal.nb_digits f))%Z in
    let x := if (k <? 0)%Z
             then SFdiv PREC EMAX (f_of_Z m) (f_of_Z (10 ^ (- k)))
             else f_of_Z (m * 10 ^ k) in
    if neg then SFopp x else x in
  match d with
  | Decimal.Decimal (Decimal.Pos i) f => lit false i f 0%Z
  | Decimal.Decimal (Decimal.Neg i) f => lit true i f 0%Z
  | Decimal.DecimalExp (Decimal.Pos i) f ex => lit false i f (Z.of_int ex)
  | Decimal.DecimalExp (Decimal.Neg i) f ex => lit true i f (Z.of_int ex)
  end.

Definition f_parse (n : Number.number) : option f64 :=
  match n with Number.Decimal d => Some (f_of_decimal d) | _ => None end.
Definition f_print (x : f64) : option Number.number := None.

Declare Scope f64_scope.
Delimit Scope f64_scope with f64.
Number Notation spec_float f_parse f_print : f64_scope.

(** ** Operations *)
Definition fadd (x y : f64) : f64 := SFadd PREC EMAX x y.
Definition fsub (x y : f64) : f64 := SFsub PREC EMAX x y.
Definition fmul (x y : f64) : f64 := SFmul PREC EMAX x y.
Definition fdiv (x y : f64) : f64 := SFdiv PREC EMAX x y.
Definition fneg (x : f64) : f64 := SFopp x.
(** [f64::abs] *)
Definition fabs (x : f64) : f64 := SFabs x.

(** [a < b], [a <= b], [a == b]; all false on NaN.  [a > b] is [fltb b a]. *)
Definition fltb (x y : f64) : bool := SFltb x y.
Definition fleb (x y : f64) : bool := SFleb x y.
Definition feqb (x y : f64) : bool := SFeqb x y.

Definition is_nan (x : f64) : bool :=
  match x with S754_nan => true | _ => false end.

Definition is_finite (x : f64) : bool :=
  match x with S754_zero _ | S754_finite _ _ _ => true | _ => false end.

(** [f64::min] and [f64::max]: a NaN operand is ignored.  When both operands
    are zeros of opposite sign Rust leaves the sign of the result open; the
    first operand is taken here. *)
Definition fmin (x y : f64) : f64 :=
  if is_nan x then y else if is_nan y then x else if fltb y x then y else x.
Definition fmax (x y : f64) : f64 :=
  if is_nan x then y else if is_nan y then x else if fltb x y then y else x.

(** [f64::clamp(lo, hi)] for [lo <= hi]: a NaN stays NaN. *)
Definition fclamp (x lo hi : f64) : f64 :=
  let x := if fltb x lo then lo else x in
  if fltb hi x then hi else x.

(** Truncation toward zero of a finite float. *)
Definition ftrunc_Z (x : f64) : Z :=
  match x with
  | S754_finite s m e =>
      let a := if (0 <=? e)%Z then (Zpos m * 2 ^ e)%Z else (Zpos m / 2 ^ (- e))%Z in
      if s then (- a)%Z else a
  | _ => 0%Z
  end.

(** [x as uN] for [max] the largest value of the type: saturating, NaN is 0. *)
Definition f_to_uint (max : Z) (x : f64) : Z :=
  match x with
  | S754_nan => 0
  | S754_infinity true => 0
  | S754_infinity false => max
  | _ => Z.max 0 (Z.min max (ftrunc_Z x))
  end.
Definition f_to_u8 (x : f64) : Z := f_to_uint U8_MAX x.
Definition f_to_u32 (x : f64) : Z := f_to_uint U32_MAX x.
Definition f_to_u64 (x : f64) : Z := f_to_uint U64_MAX x.

(** [f64::floor] *)
Definition ffloor (x : f64) : f64 :=
  match x with
  | S754_finite s m e =>
      if (0 <=? e)%Z then x
      else if s then
        let q := (- ((- Zpos m) / 2 ^ (- e)))%Z in
        binary_normalize PREC EMAX (- q) 0 true
      else binary_normalize PREC EMAX (Zpos m / 2 ^ (- e)) 0 false
  | _ => x
  end.

(** [iter().sum::<f64>()] *)
Definition fsum (l : list f64) : f64 := fold_left fadd l (S754_zero false).

Declare Scope fop_scope.
Delimit Scope fop_scope with F.
Infix "+" := fadd : fop_scope.
Infix "-" := fsub : fop_scope.
Infix "*" := fmul : fop_scope.
Infix "/" := fdiv : fop_scope.
Infix "<?" := fltb : fop_scope.
Infix "<=?" := fleb : fop_scope.
Infix "=?" := feqb : fop_scope.
Notation "x >? y" := (fltb y x) (at level 70, no associativity) : fop_scope.
Notation "x >=? y" := (fleb y x) (at level 70, no associativity) : fop_scope.

(** ** The order of floats

    [fkey] sends a non-NaN float to a triple of integers whose lexicographic
    order is the order of the floats. *)
Definition fkey (x : f64) : Z * Z * Z :=
  match x with
  | S754_nan => (0, 0, 0)
  | S754_infinity true => (-2, 0, 0)
  | S754_infinity false => (2, 0, 0)
  | S754_zero _ => (0, 0, 0)
  | S754_finite true m e => (-1, - e, Zneg m)
  | S754_finite false m e => (1, e, Zpos m)
  end%Z.

Definition key_lt (a b : Z * Z * Z) : Prop :=
  let '(a1, a2, a3) := a in
  let '(b1, b2, b3) := b in
  (a1 < b1 \/ (a1 = b1 /\ (a2 < b2 \/ (a2 = b2 /\ a3 < b3))))%Z.

Lemma SFcompare_key x y :
  is_nan x = false -> is_nan y = false ->
  exists c, SFcompare x y = Some c /\
    match c with
    | Lt => key_lt (fkey x) (fkey y)
    | Eq => fkey x = fkey y
    | Gt => key_lt (fkey y) (fkey x)
    end.
Proof.
  destruct x as [[]|[]| |[] m e], y as [[]|[]| |[] m' e']; intros Hx Hy;
    try discriminate; cbn [SFcompare fkey key_lt];
    try (eexists; split; [reflexivity | first [reflexivity | cbn; lia]]);
    destruct (Z.compare_spec e e') as [-> | |];
    try (eexists; split; [reflexivity | first [reflexivity | cbn; lia]]).
  - fold (Pos.compare m m'). eexists; split; [reflexivity |].
    destruct (Pos.compare_spec m m'); cbn; [congruence | lia | lia].
  - fold (Pos.compare m m'). eexists; split; [reflexivity |].
    destruct (Pos.compare_spec m m'); cbn; [congruence | lia | lia].
Qed.

Lemma key_lt_irrefl a : ~ key_lt a a.
Proof. destruct a as [[]]; cbn; lia. Qed.

Lemma key_lt_trans a b c : key_lt a b -> key_lt b c -> key_lt a c.
Proof. destruct a as [[]], b as [[]], c as [[]]; cbn; lia. Qed.

Lemma key_lt_total a b : key_lt a b \/ a = b \/ key_lt b a.
Proof.
  destruct a as [[a1 a2] a3], b as [[b1 b2] b3]. cbn.
  assert ((a1, a2, a3) = (b1, b2, b3) <-> a1 = b1 /\ a2 = b2 /\ a3 = b3) as ->.
  { split; [intros H; inversion H; auto | intros (-> & -> & ->); reflexivity]. }
  lia.
Qed.

Lemma SFcompare_nan_l y : SFcompare S754_nan y = None.
Proof. reflexivity. Qed.

Lemma SFcompare_nan_r x : SFcompare x S754_nan = None.
Proof. destruct x as [[]|[]| |[] m e]; reflexivity. Qed.

(** [fltb], [fleb], [feqb] in terms of the key. *)
Lemma fltb_spec x y :
  fltb x y = true <-> is_nan x = false /\ is_nan y = false /\ key_lt (fkey x) (fkey y).
Proof.
  unfold fltb, SFltb.
  destruct (is_nan x) eqn:Hx.
  { destruct x; try discriminate. cbn. intuition discriminate. }
  destruct (is_nan y) eqn:Hy.
  { destruct y; try discriminate. rewrite SFcompare_nan_r. intuition discriminate. }
  destruct (SFcompare_key x y Hx Hy) as (c & -> & Hc).
  destruct c; split; try discriminate; auto.
  - intros (_ & _ & H). rewrite Hc in H. destruct (key_lt_irrefl _ H).
  - intros (_ & _ & H). destruct (key_lt_irrefl _ (key_lt_trans _ _ _ H Hc)).
Qed.

Lemma fleb_spec x y :
  fleb x y = true <->
  is_nan x = false /\ is_nan y = false /\ (key_lt (fkey x) (fkey y) \/ fkey x = fkey y).
Proof.
  unfold fleb, SFleb.
  destruct (is_nan x) eqn:Hx.
  { destruct x; try discriminate. cbn. intuition discriminate. }
  destruct (is_nan y) eqn:Hy.
  { destruct y; try discriminate. rewrite SFcompare_nan_r. intuition discriminate. }
  destruct (SFcompare_key x y Hx Hy) as (c & -> & Hc).
  destruct c; split; try discriminate; auto.
  intros (_ & _ & [H | H]).
  - destruct (key_lt_irrefl _ (key_lt_trans _ _ _ H Hc)).
  - rewrite H in Hc. destruct (key_lt_irrefl _ Hc).
Qed.

Lemma fltb_fleb x y : fltb x y = true -> fleb x y = true.
Proof. rewrite fltb_spec, fleb_spec. tauto. Qed.

Lemma fleb_trans x y z : fleb x y = true -> fleb y z = true -> fleb x z = true.
Proof.
  rewrite !fleb_spec. intros (Hx & Hy & H1) (_ & Hz & H2). repeat split; auto.
  destruct H1 as [H1 | H1], H2 as [H2 | H2]; try rewrite H1; try rewrite <- H2; auto.
  left. eapply key_lt_trans; eauto.
Qed.

Lemma fltb_trans x y z : fltb x y = true -> fltb y z = true -> fltb x z = true.
Proof.
  rewrite !fltb_spec. intros (Hx & Hy & H1) (_ & Hz & H2). repeat split; auto.
  eapply key_lt_trans; eauto.
Qed.

Lemma fltb_fleb_trans x y z : fltb x y = true -> fleb y z = true -> fltb x z = true.
Proof.
  rewrite fleb_spec, !fltb_spec. intros (Hx & Hy & H1) (_ & Hz & [H2 | H2]);
    repeat split; auto; [eapply key_lt_trans; eauto | rewrite <- H2; auto].
Qed.

Lemma fleb_fltb_trans x y z : fleb x y = true -> fltb y z = true -> fltb x z = true.
Proof.
  rewrite fleb_spec, !fltb_spec. intros (Hx & Hy & [H1 | H1]) (_ & Hz & H2);
    repeat split; auto; [eapply key_lt_trans; eauto | rewrite H1; auto].
Qed.

Lemma fleb_refl x : is_nan x = false -> fleb x x = true.
Proof. intros H. rewrite fleb_spec. auto. Qed.

Lemma fltb_irrefl x : fltb x x = false.
Proof.
  destruct (fltb x x) eqn:H; auto. apply fltb_spec in H as (_ & _ & H).
  destruct (key_lt_irrefl _ H).
Qed.

(** Without NaN the order is total. *)
Lemma fleb_not_fltb x y :
  is_nan x = false -> is_nan y = false -> fleb x y = negb (fltb y x).
Proof.
  intros Hx Hy. destruct (fltb y x) eqn:H; cbn.
  - apply fltb_spec in H as (_ & _ & H). destruct (fleb x y) eqn:H'; auto.
    apply fleb_spec in H' as (_ & _ & [H' | H']).
    + destruct (key_lt_irrefl _ (key_lt_trans _ _ _ H H')).
    + rewrite H' in H. destruct (key_lt_irrefl _ H).
  - apply fleb_spec. repeat split; auto.
    destruct (key_lt_total (fkey x) (fkey y)) as [? | [? | H']]; auto.
    exfalso. rewrite <- not_true_iff_false in H. apply H, fltb_spec. auto.
Qed.

Lemma fltb_not_fleb x y :
  is_nan x = false -> is_nan y = false -> fltb x y = negb (fleb y x).
Proof. intros Hx Hy. rewrite fleb_not_fltb by auto. now rewrite negb_involutive. Qed.

Lemma fleb_nan_l x y : fleb x y = true -> is_nan x = false.
Proof. rewrite fleb_spec. tauto. Qed.
Lemma fleb_nan_r x y : fleb x y = true -> is_nan y = false.
Proof. rewrite fleb_spec. tauto. Qed.
Lemma fltb_nan_l x y : fltb x y = true -> is_nan x = false.
Proof. rewrite fltb_spec. tauto. Qed.
Lemma fltb_nan_r x y : fltb x y = true -> is_nan y = false.
Proof. rewrite fltb_spec. tauto. Qed.

Lemma fltb_fleb_false x y : fltb x y = true -> fleb y x = false.
Proof.
  intros H. pose proof (fltb_nan_l _ _ H). pose proof (fltb_nan_r _ _ H).
  rewrite fltb_not_fleb in H by assumption. now apply negb_true_iff in H.
Qed.

#[export] Hint Resolve fltb_fleb fleb_nan_l fleb_nan_r fltb_nan_l fltb_nan_r : arb.

(** ** [min], [max], [clamp] *)

Lemma fmin_le_l x y : is_nan x = false -> fleb (fmin x y) x = true.
Proof.
  intros Hx. unfold fmin. rewrite Hx. destruct (is_nan y) eqn:Hy; [auto using fleb_refl |].
  destruct (fltb y x) eqn:H; auto using fleb_refl with arb.
Qed.

Lemma fmin_le_r x y : is_nan y = false -> fleb (fmin x y) y = true.
Proof.
  intros Hy. unfold fmin. destruct (is_nan x) eqn:Hx; [auto using fleb_refl |].
  rewrite Hy. destruct (fltb y x) eqn:H; auto using fleb_refl.
  rewrite fleb_not_fltb by auto. now rewrite H.
Qed.

Lemma fmax_ge_l x y : is_nan x = false -> fleb x (fmax x y) = true.
Proof.
  intros Hx. unfold fmax. rewrite Hx. destruct (is_nan y) eqn:Hy; [auto using fleb_refl |].
  destruct (fltb x y) eqn:H; auto using fleb_refl with arb.
Qed.

Lemma fmax_ge_r x y : is_nan y = false -> fleb y (fmax x y) = true.
Proof.
  intros Hy. unfold fmax. destruct (is_nan x) eqn:Hx; [auto using fleb_refl |].
  rewrite Hy. destruct (fltb x y) eqn:H; auto using fleb_refl.
  rewrite fleb_not_fltb by auto. now rewrite H.
Qed.

Lemma fmin_cases x y : fmin x y = x \/ fmin x y = y.
Proof. unfold fmin. repeat destruct_if; auto. Qed.

Lemma fmax_cases x y : fmax x y = x \/ fmax x y = y.
Proof. unfold fmax. repeat destruct_if; auto. Qed.

Lemma fclamp_bounds x lo hi :
  is_nan x = false -> fleb lo hi = true ->
  fleb lo (fclamp x lo hi) = true /\ fleb (fclamp x lo hi) hi = true.
Proof.
  intros Hx Hle. unfold fclamp.
  destruct (fltb x lo) eqn:H1; cbn.
  - destruct (fltb hi lo) eqn:H2.
    + eauto using fleb_refl with arb.
    + eauto using fleb_refl with arb.
  - destruct (fltb hi x) eqn:H2.
    + eauto using fleb_refl with arb.
    + rewrite !fleb_not_fltb by eauto with arb. now rewrite H1, H2.
Qed.

Lemma f_to_uint_range max x : (0 <= max)%Z -> (0 <= f_to_uint max x <= max)%Z.
Proof. intros H. unfold f_to_uint. destruct x as [|[]| |]; lia. Qed.

Lemma fabs_nonneg x : is_nan x = false -> fleb (S754_zero false) (fabs x) = true.
Proof. destruct x as [| | |]; easy. Qed.

Lemma fabs_nan x : is_nan (fabs x) = is_nan x.
Proof. now destruct x. Qed.

Lemma fsub_zero x : fsub x (S754_zero false) = x.
Proof. destruct x as [[]|[]| |[]]; reflexivity. Qed.
