(* ===== verification/NumberText.v ===== *)
(** Numbers and strings as Rust's standard library reads and writes them:
    [str::parse] for floats and integers, [f64::round], [{:.N}], and the
    trimming of suffixes.  Strings are ASCII. *)
From Stdlib Require Import ZArith Lia Bool Ascii String.
From stdpp Require Import base option list strings pretty.
From S2P Require Import Prelude Float64.

#[local] Open Scope string_scope.
#[local] Open Scope Z_scope.

(** ** Concatenation *)
Lemma append_assoc (a b c : string) : (a ++ b) ++ c = a ++ (b ++ c).
Proof. induction a as [| x a IH]; [reflexivity |].
  change (String x ((a ++ b) ++ c) = String x (a ++ (b ++ c))). now rewrite IH.
Qed.

Lemma app_nil_string (b : string) : b ++ EmptyString = b.
Proof. induction b as [| c b IH]; [reflexivity |]. change (String c (b ++ EmptyString) = String c b). now rewrite IH. Qed.

(** ** Case *)

(** [str::to_lowercase] on ASCII. *)
Definition lower_ascii (c : ascii) : ascii :=
  let n := nat_of_ascii c in
  if ((65 <=? n) && (n <=? 90))%nat then ascii_of_nat (n + 32) else c.

Fixpoint lower (s : string) : string :=
  match s with
  | EmptyString => EmptyString
  | String c s => String (lower_ascii c) (lower s)
  end.

(** [str::to_uppercase] on ASCII. *)
Definition upper_ascii (c : ascii) : ascii :=
  let n := nat_of_ascii c in
  if ((97 <=? n) && (n <=? 122))%nat then ascii_of_nat (n - 32) else c.
Fixpoint upper (s : string) : string :=
  match s with EmptyString => EmptyString | String c s => String (upper_ascii c) (upper s) end.

Lemma lower_ascii_idem c : lower_ascii (lower_ascii c) = lower_ascii c.
Proof. destruct c as [[] [] [] [] [] [] [] []]; reflexivity. Qed.

Lemma lower_idem s : lower (lower s) = lower s.
Proof. induction s as [| c s IH]; cbn; [reflexivity |]. now rewrite lower_ascii_idem, IH. Qed.

(** ** [str::parse::<f64>]

    The standard library's number syntax, and the nearest float to the decimal
    it denotes. *)

(** The nearest float to [m / n], for [0 <= m] and [0 < n]: a quotient of at
    least 65 bits whose last bit is sticky is rounded once. *)
Definition f_of_ratio (m n : Z) : f64 :=
  if m =? 0 then S754_zero false else
  let k := Z.max 0 (Z.log2 n - Z.log2 m + 66) in
  let q := (m * 2 ^ k) / n in
  let r := (m * 2 ^ k) mod n in
  binary_normalize PREC EMAX (2 * q + (if r =? 0 then 0 else 1)) (- k - 1) false.

(** [digits * 10 ^ exp10]. *)
Definition f_of_scientific (digits exp10 : Z) : f64 :=
  if 0 <=? exp10 then f_of_Z (digits * 10 ^ exp10) else f_of_ratio digits (10 ^ (- exp10)).

Definition digit_of (c : ascii) : option Z :=
  let n := Z.of_nat (nat_of_ascii c) in
  if (48 <=? n) && (n <=? 57) then Some (n - 48) else None.

(** The digits at the front of a string: their value after [acc], how many, and
    the rest. *)
Fixpoint take_digits (s : string) (acc : Z) (n : Z) : Z * Z * string :=
  match s with
  | String c s' =>
      match digit_of c with
      | Some d => take_digits s' (acc * 10 + d) (n + 1)
      | None => (acc, n, s)
      end
  | EmptyString => (acc, n, s)
  end.

(** An exponent part or the end of the string. *)
Definition parse_exponent (s : string) : option Z :=
  match s with
  | EmptyString => Some 0
  | String c s =>
      if bool_decide (lower_ascii c = "e"%char) then
        let '(neg, s) := match s with
                         | String "-" s => (true, s)
                         | String "+" s => (false, s)
                         | s => (false, s)
                         end in
        let '(v, n, rest) := take_digits s 0 0 in
        match rest with
        | EmptyString => if n =? 0 then None else Some (if neg then - v else v)
        | _ => None
        end
      else None
  end.

Definition parse_unsigned (s : string) : option f64 :=
  if bool_decide (lower s = "inf" \/ lower s = "infinity") then Some (S754_infinity false)
  else if bool_decide (lower s = "nan") then Some S754_nan
  else
    let '(v, n, rest) := take_digits s 0 0 in
    let '(v', n', rest) := match rest with
                           | String "." rest => take_digits rest v 0
                           | rest => (v, 0, rest)
                           end in
    if n + n' =? 0 then None
    else (fun e => f_of_scientific v' (e - n')) <$> parse_exponent rest.

Definition std_parse_f64 (s : string) : option f64 :=
  match s with
  | String "-" s => fneg <$> parse_unsigned s
  | String "+" s => parse_unsigned s
  | s => parse_unsigned s
  end.

(** ** Suffixes *)

Definition ends_with (suffix s : string) : bool :=
  let n := String.length s in
  let k := String.length suffix in
  ((k <=? n)%nat && String.eqb (String.substring (n - k) k s) suffix)%bool.

(** The first [n] bytes. *)
Definition truncate (n : nat) (s : string) : string := String.substring 0 n s.
Definition drop_end (k : nat) (s : string) : string := truncate (String.length s - k) s.

(** [trim_end_matches(suffix)]: every copy of a non-empty suffix at the end goes. *)
Fixpoint trim_end_fuel (fuel : nat) (suffix s : string) : string :=
  match fuel with
  | O => s
  | S fuel => if ends_with suffix s
              then trim_end_fuel fuel suffix (drop_end (String.length suffix) s) else s
  end.
Definition trim_end_matches (suffix s : string) : string :=
  trim_end_fuel (String.length s) suffix s.

(** [split(sep)]: one piece more than there are separators. *)
Fixpoint split_char (sep : ascii) (s : string) : list string :=
  match s with
  | EmptyString => [EmptyString]
  | String c s =>
      if Ascii.eqb c sep then EmptyString :: split_char sep s
      else match split_char sep s with
           | p :: ps => String c p :: ps
           | [] => [String c EmptyString]
           end
  end.

Lemma split_char_nonempty sep s : split_char sep s <> [].
Proof.
  induction s as [| c s IH]; cbn; [discriminate |]. destruct (Ascii.eqb c sep); [discriminate |].
  now destruct (split_char sep s).
Qed.

(** ** Integers *)

Definition I64_MIN : Z := - 2 ^ 63.
Definition I64_MAX : Z := 2 ^ 63 - 1.
(** What the release-profile [+] does on overflow of an [i64]. *)
Definition wrap_i64 (z : Z) : Z := (z + 2 ^ 63) mod 2 ^ 64 - 2 ^ 63.

(** A number of digits only; [None] when there is none or it exceeds [max]. *)
Definition parse_digits (max : Z) (s : string) : option Z :=
  let '(v, n, rest) := take_digits s 0 0 in
  match rest with
  | EmptyString => if (n =? 0) || (max <? v) then None else Some v
  | _ => None
  end.

(** [parse::<u64>()] and [parse::<i64>()]. *)
Definition parse_u64 (s : string) : option Z :=
  match s with String "+" s => parse_digits U64_MAX s | s => parse_digits U64_MAX s end.
Definition parse_i64 (s : string) : option Z :=
  match s with
  | String "-" s => Z.opp <$> parse_digits (2 ^ 63) s
  | String "+" s => parse_digits I64_MAX s
  | s => parse_digits I64_MAX s
  end.

(** The text of a natural number reads back as the number. *)
Lemma take_digits_pretty x : forall s acc n,
  exists k, 0 <= k /\ take_digits (pretty_N_go x s) acc n = take_digits s (acc * 10 ^ k + Z.of_N x) (n + k) /\
    ((0 < x)%N -> 0 < k).
Proof.
  induction (N.lt_wf_0 x) as [x _ IH]. intros s acc n. destruct (decide (0 < x)%N) as [Hx | Hx].
  - rewrite pretty_N_go_step by exact Hx. assert (Hlt : (x `div` 10 < x)%N) by (apply N.div_lt; lia).
    destruct (IH _ Hlt (String (pretty_N_char (x `mod` 10)) s) acc n) as (k & Hk & Ht & _).
    exists (k + 1). split; [lia |]. split; [| lia]. rewrite Ht.
    assert (Hd : digit_of (pretty_N_char (x `mod` 10)) = Some (Z.of_N (x `mod` 10))).
    { assert (Hm : (x `mod` 10 < 10)%N) by now apply N.mod_lt.
      destruct (x `mod` 10)%N as [| p]; [reflexivity |].
      do 4 (destruct p as [p | p |]; try reflexivity); lia. }
    cbn [take_digits]. rewrite Hd. f_equal; [| lia].
    pose proof (N.div_mod x 10 ltac:(lia)) as Hdm. rewrite Z.pow_add_r, Z.pow_1_r by lia.
    replace (Z.of_N x) with (10 * Z.of_N (x `div` 10) + Z.of_N (x `mod` 10)) by lia. lia.
  - assert (x = 0)%N as -> by lia. exists 0. split; [lia |]. rewrite pretty_N_go_0. split; [f_equal; lia | lia].
Qed.

Lemma parse_digits_pretty max z : 0 <= z <= max -> parse_digits max (pretty z) = Some z.
Proof.
  intros Hz. unfold parse_digits.
  assert (Hp : exists k, 0 < k /\ take_digits (pretty z) 0 0 = (z, k, "")).
  { destruct z as [| p | p]; [exists 1; split; [lia | reflexivity] | | lia].
    change (pretty (Z.pos p)) with (pretty (N.pos p)). unfold pretty, pretty_N. rewrite decide_False by lia.
    destruct (take_digits_pretty (N.pos p) "" 0 0) as (k & _ & Ht & Hk). exists k. split; [apply Hk; lia |].
    rewrite Ht. reflexivity. }
  destruct Hp as (k & Hk & ->). replace (k =? 0) with false by lia. cbn [orb].
  now replace (max <? z) with false by lia.
Qed.

Lemma pretty_not_plus (z : Z) s : pretty z <> String "+" s.
Proof.
  destruct z as [| p | p]; [discriminate | | discriminate].
  change (pretty (Z.pos p)) with (pretty (N.pos p)). unfold pretty, pretty_N. rewrite decide_False by lia.
  enough (Hg : forall x t, (forall u, t <> String "+" u) -> forall u, pretty_N_go x t <> String "+" u) by now apply Hg.
  clear. induction x as [x IH] using (well_founded_induction N.lt_wf_0). intros t Ht.
  destruct (decide (0 < x)%N) as [Hx | Hx].
  - rewrite pretty_N_go_step by exact Hx. apply IH; [apply N.div_lt; lia |]. intros u [= Hc _].
    revert Hc. unfold pretty_N_char. repeat case_match; discriminate.
  - assert (x = 0)%N as -> by lia. now rewrite pretty_N_go_0.
Qed.

Lemma parse_u64_pretty z : in_u64 z -> parse_u64 (pretty z) = Some z.
Proof.
  intros Hz. rewrite <- (parse_digits_pretty U64_MAX z) by (unfold in_u64, U64_MAX in *; lia).
  unfold parse_u64. pose proof (pretty_not_plus z) as Hp.
  destruct (pretty z) as [| c s]; [reflexivity |].
  destruct c as [[] [] [] [] [] [] [] []]; try reflexivity. now destruct (Hp s).
Qed.

(** ** Rounding and fixed decimals *)

(** [f64::round]: to the nearest integer, halves away from zero. *)
Definition fround (x : f64) : f64 :=
  match x with
  | S754_finite s m e =>
      if 0 <=? e then x
      else
        let d := 2 ^ (- e) in
        let q := Zpos m / d in
        let n := if d <=? 2 * (Zpos m mod d) then q + 1 else q in
        if n =? 0 then S754_zero s else binary_normalize PREC EMAX (if s then - n else n) 0 s
  | _ => x
  end.

(** [n] as text, with zeros in front up to [width] digits. *)
Fixpoint zeros (n : nat) : string := match n with O => "" | S n => String "0" (zeros n) end.
Definition pad (width : nat) (n : Z) : string :=
  let s := pretty n in zeros (width - String.length s) ++ s.

(** [{:.places}]: the exact value rounded to nearest, ties to even. *)
Definition fixed_abs (places : nat) (m : positive) (e : Z) : string :=
  let p := 10 ^ Z.of_nat places in
  let scaled :=
    if 0 <=? e then Zpos m * 2 ^ e * p
    else
      let d := 2 ^ (- e) in
      let q := (Zpos m * p) / d in
      let r := (Zpos m * p) mod d in
      if (d <? 2 * r) || ((d =? 2 * r) && Z.odd q) then q + 1 else q in
  pretty (scaled / p) ++ (if (places =? 0)%nat then "" else "." ++ pad places (scaled mod p)).

Definition fixed (places : nat) (x : f64) : string :=
  match x with
  | S754_nan => "NaN"
  | S754_infinity s => if s then "-inf" else "inf"
  | S754_zero s => (if s then "-" else "") ++ "0" ++ (if (places =? 0)%nat then "" else "." ++ zeros places)
  | S754_finite s m e => (if s then "-" else "") ++ fixed_abs places m e
  end.

Example fixed_examples :
  fixed 8 0.001%f64 = "0.00100000" /\ fixed 2 12.345%f64 = "12.35" /\ fixed 2 0.125%f64 = "0.12" /\
  fixed 2 (-0.001)%f64 = "-0.00" /\ fixed 8 123456789.5%f64 = "123456789.50000000".
Proof. vm_compute. auto 10. Qed.

Example fround_examples :
  fround 2.5%f64 = 3.0%f64 /\ fround (-2.5)%f64 = (-3.0)%f64 /\ fround 0.49%f64 = 0.0%f64 /\ fround 7.2%f64 = 7.0%f64.
Proof. vm_compute. auto 10. Qed.

(** ** [{}] for floats *)

(** How many decimal digits a natural number has; none for 0. *)
Definition count_digits (z : Z) : Z := if z =? 0 then 0 else Z.of_nat (String.length (pretty z)).

(** The [k] with [10 ^ (k - 1) <= num / den < 10 ^ k]. *)
Definition decimal_exponent (num den : Z) : Z :=
  if den <=? num then count_digits (num / den)
  else 1 - count_digits ((num + den - 1) / num - 1).

(** The shortest digits that read back as [x], with their exponent: of the two
    neighbours with [n] digits the one that reads back, the nearer one of two. *)
Fixpoint shortest_digits (fuel : nat) (n : Z) (num den : Z) (x : f64) : option (Z * Z) :=
  match fuel with
  | O => None
  | S fuel =>
      let s := decimal_exponent num den - n in
      let a := if 0 <=? s then num else num * 10 ^ (- s) in
      let d := if 0 <=? s then den * 10 ^ s else den in
      let q := a / d in
      let reads c := (f_of_scientific c s =? x)%F in
      let chosen := if reads q
                    then Some (if reads (q + 1) && (d <=? 2 * (a mod d)) then q + 1 else q)
                    else if reads (q + 1) then Some (q + 1) else None in
      match chosen with
      | Some c => Some (if c =? 10 ^ n then (1, s + n) else (c, s))
      | None => shortest_digits fuel (n + 1) num den x
      end
  end.

(** [digits * 10 ^ s] without an exponent. *)
Definition plain_decimal (digits s : Z) : string :=
  if 0 <=? s then pretty (digits * 10 ^ s)
  else let p := 10 ^ (- s) in pretty (digits / p) ++ "." ++ pad (Z.to_nat (- s)) (digits mod p).

(** Seventeen digits are enough for a binary64; after them the exact decimal. *)
Definition display_abs (m : positive) (e : Z) : string :=
  let num := if 0 <=? e then Zpos m * 2 ^ e else Zpos m in
  let den := if 0 <=? e then 1 else 2 ^ (- e) in
  match shortest_digits 17 1 num den (S754_finite false m e) with
  | Some (digits, s) => plain_decimal digits s
  | None => plain_decimal (num * 5 ^ Z.max 0 (- e)) (Z.min 0 e)
  end.

Definition display_f64 (x : f64) : string :=
  match x with
  | S754_nan => "NaN"
  | S754_infinity s => if s then "-inf" else "inf"
  | S754_zero s => if s then "-0" else "0"
  | S754_finite s m e => (if s then "-" else "") ++ display_abs m e
  end.

Example display_examples :
  display_f64 0.1%f64 = "0.1" /\ display_f64 100.0%f64 = "100" /\ display_f64 97123.45%f64 = "97123.45" /\
  display_f64 (0.1 + 0.2)%F%f64 = "0.30000000000000004" /\ display_f64 1e23%f64 = "100000000000000000000000" /\
  display_f64 0.00001234%f64 = "0.00001234" /\ display_f64 (1.0 / 3.0)%F%f64 = "0.3333333333333333" /\
  display_f64 (-2.5)%f64 = "-2.5" /\ display_f64 0.001%f64 = "0.001" /\ display_f64 (S754_finite false 1 (-1074)) = "0." ++ zeros 323 ++ "5".
Proof. vm_compute. repeat split; reflexivity. Qed.
