(* ===== verification/Utils.v ===== *)
(** The helpers of the WebSocket connectors ([src/src/utils.rs]): chunks of a
    list, subscriptions sent in batches, and the delay before a reconnect.

    Durations are in milliseconds; the clock and the console are left out. *)
From Stdlib Require Import ZArith Lia Bool.
From stdpp Require Import base option list.
From S2P Require Import Prelude.

#[local] Open Scope Z_scope.

(** ** Chunks *)
Section chunks.
Context {T : Type}.

(** [while idx < items.len()] *)
Fixpoint chunk_loop (fuel idx chunk_size : nat) (items : list T) : list (list T) :=
  match fuel with
  | O => []
  | S fuel =>
      if (idx <? length items)%nat then
        let end_ := Nat.min (idx + chunk_size) (length items) in
        take (end_ - idx) (drop idx items) :: chunk_loop fuel end_ chunk_size items
      else []
  end.

Definition chunk_vec (items : list T) (chunk_size : nat) : list (list T) :=
  if (chunk_size =? 0)%nat then [] else chunk_loop (length items) 0 chunk_size items.

(** The standard library's [items.chunks(n)] for [n > 0]. *)
Fixpoint chunks_fuel (fuel n : nat) (items : list T) : list (list T) :=
  match fuel, items with
  | S fuel, _ :: _ => take n items :: chunks_fuel fuel n (drop n items)
  | _, _ => []
  end.
Definition chunks (n : nat) (items : list T) : list (list T) := chunks_fuel (length items) n items.
End chunks.

(** ** Reconnects *)
Definition reset_backoff (backoff_ms : Z) : Z := 0.

(** The sleep, if there is one, and the delay kept for the next time. *)
Definition apply_backoff (backoff_ms : Z) : option Z * Z :=
  if 0 <? backoff_ms then (Some backoff_ms, Z.min (wrap64 (backoff_ms * 2)) 10000)
  else (None, 250).

(** What a worker does after a connection ended. *)
Definition after_connection {E} (res : result unit E) (backoff_ms : Z) : option Z * Z :=
  match res with
  | Ok _ => (None, reset_backoff backoff_ms)
  | Err _ => apply_backoff backoff_ms
  end.

(** The sleeps of a worker whose connections end with the given results. *)
Fixpoint worker_sleeps {E} (rs : list (result unit E)) (backoff_ms : Z) : list (option Z) :=
  match rs with
  | [] => []
  | r :: rs => let '(sleep, backoff_ms) := after_connection r backoff_ms in
               sleep :: worker_sleeps rs backoff_ms
  end.

(** ** Subscriptions *)
Section subscribe.
Context {W T E : Type} (sleep : Z -> ST W unit).

Fixpoint subscribe_chunks (cs : list (list T)) (delay_ms : Z) (f : list T -> ST W (result unit E))
  : ST W (result unit E) :=
  match cs with
  | [] => ret (Ok tt)
  | chunk :: cs =>
      (let? _ := f chunk in
       do! (if 0 <? delay_ms then sleep delay_ms else ret tt) in
       subscribe_chunks cs delay_ms f)%st
  end.

Definition subscribe_in_batches (items : list T) (batch_size : nat) (delay_ms : Z)
  (f : list T -> ST W (result unit E)) : ST W (result unit E) :=
  if (batch_size =? 0)%nat then ret (Ok tt)
  else subscribe_chunks (chunks batch_size items) delay_ms f.
End subscribe.

(** ** Properties *)
Section chunk_facts.
Context {T : Type}.

Lemma drop_nonempty (l : list T) i : (i < length l)%nat -> exists x t, drop i l = x :: t.
Proof.
  intros Hi. destruct (drop i l) as [| x t] eqn:E; [| eauto].
  apply (f_equal length) in E. rewrite length_drop in E. cbn in E. lia.
Qed.

Lemma chunk_loop_chunks fuel f2 idx n (items : list T) :
  (0 < n)%nat -> (length items - idx <= fuel)%nat -> (length items - idx <= f2)%nat ->
  chunk_loop fuel idx n items = chunks_fuel f2 n (drop idx items).
Proof.
  intros Hn. revert f2 idx. induction fuel as [| fuel IH]; intros f2 idx Hf Hf2; cbn [chunk_loop].
  { rewrite drop_ge by lia. now destruct f2. }
  destruct (Nat.ltb_spec idx (length items)) as [Hi | Hi]; [| rewrite drop_ge by lia; now destruct f2].
  destruct (drop_nonempty items idx Hi) as (x & t & Ed). destruct f2 as [| f2]; [lia |].
  cbn [chunks_fuel]. rewrite Ed. cbv zeta. rewrite <- Ed. f_equal.
  - destruct (Nat.le_ge_cases (idx + n) (length items)) as [Hle | Hge].
    + rewrite Nat.min_l by lia. f_equal. lia.
    + rewrite Nat.min_r by lia. rewrite !take_ge; rewrite ?length_drop; auto; lia.
  - rewrite (IH f2) by lia. rewrite drop_drop. destruct (Nat.le_ge_cases (idx + n) (length items)) as [Hle | Hge].
    + now rewrite Nat.min_l by lia.
    + rewrite Nat.min_r by lia. now rewrite !drop_ge by lia.
Qed.

Lemma concat_chunks fuel n (items : list T) :
  (0 < n)%nat -> (length items <= fuel)%nat ->
  concat (chunks_fuel fuel n items) = items /\
  Forall (fun c => (0 < length c <= n)%nat) (chunks_fuel fuel n items).
Proof.
  intros Hn. revert items. induction fuel as [| fuel IH]; intros [| x items] Hf; cbn in Hf |- *; try lia; [now repeat constructor.. |].
  destruct (IH (drop n (x :: items))) as [Hc Ha]; [rewrite length_drop; cbn; lia |].
  rewrite Hc, take_drop. split; [reflexivity |]. constructor; [| exact Ha].
  rewrite length_take. cbn. lia.
Qed.

(** The hand-written chunking agrees with the standard library's [chunks]: every
    item is in exactly one chunk, in the original order, no chunk is empty and
    none is larger than asked for; a chunk size of zero gives no chunk, where the
    library would panic. *)
Theorem chunk_vec_chunks (items : list T) n :
  (n <> 0%nat -> chunk_vec items n = chunks n items /\ concat (chunk_vec items n) = items /\
     Forall (fun c => (0 < length c <= n)%nat) (chunk_vec items n)) /\
  chunk_vec items 0 = [].
Proof.
  split; [| reflexivity]. intros Hn. unfold chunk_vec, chunks.
  destruct (Nat.eqb_spec n 0); [contradiction |].
  rewrite (chunk_loop_chunks _ (length items)) by lia. rewrite drop_0.
  destruct (concat_chunks (length items) n items) as [Hc Ha]; [lia.. |]. auto.
Qed.
End chunk_facts.

(** The delay kept between failed connections. *)
Definition backoff_ok (b : Z) : Prop := b = 0 \/ 250 <= b <= 10000.

Lemma after_connection_ok {E} (r : result unit E) b :
  backoff_ok b ->
  backoff_ok (snd (after_connection r b)) /\
  forall s, fst (after_connection r b) = Some s -> 250 <= s <= 10000 /\ is_ok r = false.
Proof.
  intros Hb. destruct r as [[] | e]; cbn.
  - split; [now left | discriminate].
  - unfold apply_backoff. destruct (Z.ltb_spec 0 b); cbn.
    + destruct Hb as [-> | Hb]; [lia |]. split; [| intros s [= <-]; auto].
      right. rewrite wrap64_small by (unfold in_u64; lia). lia.
    + split; [right; lia | discriminate].
Qed.

(** Every sleep of a worker that starts without a delay is between 250 and
    10,000 ms and follows a failed connection; [n] failures in a row sleep 250 ms
    doubled each time up to 10,000 ms, the first one not at all. *)
Lemma worker_sleeps_bounded {E} (rs : list (result unit E)) b :
  backoff_ok b -> Forall (fun s => forall ms, s = Some ms -> 250 <= ms <= 10000) (worker_sleeps rs b).
Proof.
  revert b. induction rs as [| r rs IH]; intros b Hb; cbn; [constructor |].
  destruct (after_connection_ok r b Hb) as [Hn Hs]. destruct (after_connection r b) as [s b'].
  constructor; [| now apply IH]. intros ms Hm. now apply Hs.
Qed.

Example eight_failures :
  worker_sleeps (replicate 8 (Err tt)) 0 =
    [None; Some 250; Some 500; Some 1000; Some 2000; Some 4000; Some 8000; Some 10000].
Proof. reflexivity. Qed.

(** A server that closes every connection cleanly is asked again at once, for ever. *)
Lemma clean_ends_never_wait n b :
  worker_sleeps (E:=unit) (replicate n (Ok tt)) b = replicate n None.
Proof. revert b. induction n as [| n IH]; intros b; cbn; [reflexivity |]. now rewrite IH. Qed.
