(* ===== verification/Coop.v ===== *)
(** Cooperative tasks: the [async] functions of the strategy runner.

    A task is a tree of synchronous steps separated by await points.  The
    runner polls its tasks on one thread, so only an [Await] lets another task
    run; a [Sync] step runs to its end.  A step that answers [None] waits for a
    lock held by a task of this very thread: it never returns, and neither does
    anything else on the thread.

    [run] is a task that runs alone; [join_step] is [tokio::join!] of two
    tasks, switching at any await point.  [safe] is the rule that a relation
    kept by every synchronous step is kept however the tasks are interleaved. *)
From Stdlib Require Import ZArith Lia Bool.
From stdpp Require Import base option list.
From S2P Require Import Prelude.

(** ** Tasks *)
#[local] Unset Elimination Schemes.
Inductive task (W A : Type) : Type :=
| Done (a : A)
| Sync (step : W -> option (W * task W A))
| Await (t : task W A).
#[local] Set Elimination Schemes.
Arguments Done {W A} a.
Arguments Sync {W A} step.
Arguments Await {W A} t.

Section tasks.
Context {W : Type}.

Fixpoint tbind {A C} (t : task W A) (k : A -> task W C) : task W C :=
  match t with
  | Done a => k a
  | Sync step => Sync (fun w => match step w with
                                | Some (w', t') => Some (w', tbind t' k)
                                | None => None
                                end)
  | Await t => Await (tbind t k)
  end.

(** A synchronous computation, and one whose answer is awaited. *)
Definition sync {A} (m : ST W A) : task W A := Sync (fun w => let '(a, w') := m w in Some (w', Done a)).
Definition await {A} (m : ST W A) : task W A :=
  Sync (fun w => let '(a, w') := m w in Some (w', Await (Done a))).

(** A synchronous computation that needs a lock. *)
Definition locking {A} (free : W -> bool) (m : ST W A) : task W A :=
  Sync (fun w => if free w then let '(a, w') := m w in Some (w', Done a) else None).

(** A task that runs alone; [None] when it blocks for ever. *)
Fixpoint run {A} (t : task W A) (w : W) : option (A * W) :=
  match t with
  | Done a => Some (a, w)
  | Sync step => match step w with Some (w', t') => run t' w' | None => None end
  | Await t => run t w
  end.

(** The state in which a task that runs alone stops, blocked or not. *)
Fixpoint last_state {A} (t : task W A) (w : W) : W :=
  match t with
  | Done _ => w
  | Sync step => match step w with Some (w', t') => last_state t' w' | None => w end
  | Await t => last_state t w
  end.

(** [for x in l { body }] where [body] can end the function with an error. *)
Fixpoint tforeach {X E} (l : list X) (body : X -> task W (result unit E)) : task W (result unit E) :=
  match l with
  | [] => Done (Ok tt)
  | x :: l => tbind (body x) (fun r => match r with Ok _ => tforeach l body | Err e => Done (Err e) end)
  end.
End tasks.

Declare Scope task_scope.
Delimit Scope task_scope with task.
Notation "'let*' x ':=' c 'in' k" := (tbind c (fun x => k))
  (at level 10, x name, c at level 100, k at level 200) : task_scope.
Notation "'let*' ' p ':=' c 'in' k" := (tbind c (fun x => match x with p => k end))
  (at level 10, p pattern, c at level 100, k at level 200) : task_scope.
Notation "'do*' c 'in' k" := (tbind c (fun _ => k))
  (at level 10, c at level 100, k at level 200) : task_scope.

(** ** Two tasks on one thread

    [turn] is the task being polled. *)
Record joined (W A C : Type) := {
  jn_state : W;
  jn_left : task W A;
  jn_right : task W C;
  jn_turn : bool
}.
Arguments jn_state {W A C} _.
Arguments jn_left {W A C} _.
Arguments jn_right {W A C} _.
Arguments jn_turn {W A C} _.

Definition join_tasks {W A C} (l : task W A) (r : task W C) (w : W) : joined W A C :=
  {| jn_state := w; jn_left := l; jn_right := r; jn_turn := true |}.

Inductive join_step {W A C} : joined W A C -> joined W A C -> Prop :=
| step_left w step w' l r :
    step w = Some (w', l) ->
    join_step {| jn_state := w; jn_left := Sync step; jn_right := r; jn_turn := true |}
              {| jn_state := w'; jn_left := l; jn_right := r; jn_turn := true |}
| step_right w l step w' r :
    step w = Some (w', r) ->
    join_step {| jn_state := w; jn_left := l; jn_right := Sync step; jn_turn := false |}
              {| jn_state := w'; jn_left := l; jn_right := r; jn_turn := false |}
| ready_left w l r :
    join_step {| jn_state := w; jn_left := Await l; jn_right := r; jn_turn := true |}
              {| jn_state := w; jn_left := l; jn_right := r; jn_turn := true |}
| ready_right w l r :
    join_step {| jn_state := w; jn_left := l; jn_right := Await r; jn_turn := false |}
              {| jn_state := w; jn_left := l; jn_right := r; jn_turn := false |}
| switch_left w l r :
    join_step {| jn_state := w; jn_left := Await l; jn_right := r; jn_turn := true |}
              {| jn_state := w; jn_left := Await l; jn_right := r; jn_turn := false |}
| switch_right w l r :
    join_step {| jn_state := w; jn_left := l; jn_right := Await r; jn_turn := false |}
              {| jn_state := w; jn_left := l; jn_right := Await r; jn_turn := true |}
| end_left w a r :
    join_step {| jn_state := w; jn_left := Done a; jn_right := r; jn_turn := true |}
              {| jn_state := w; jn_left := Done a; jn_right := r; jn_turn := false |}
| end_right w l c :
    join_step {| jn_state := w; jn_left := l; jn_right := Done c; jn_turn := false |}
              {| jn_state := w; jn_left := l; jn_right := Done c; jn_turn := true |}.

(** The task being polled waits for a lock its own thread holds. *)
Definition stuck {W A C} (j : joined W A C) : Prop :=
  if jn_turn j
  then exists step, jn_left j = Sync step /\ step (jn_state j) = None
  else exists step, jn_right j = Sync step /\ step (jn_state j) = None.

Lemma stuck_no_step {W A C} (j j' : joined W A C) : stuck j -> ~ join_step j j'.
Proof.
  unfold stuck. intros Hs Hj. destruct Hj; cbn in Hs;
    destruct Hs as (st & He & Hn); congruence.
Qed.

(** ** Safety *)
Section safe.
Context {W : Type} (R : W -> W -> Prop) `{!PreOrder R}.

Inductive safe {A} : task W A -> Prop :=
| safe_done a : safe (Done a)
| safe_sync step :
    (forall w w' t, step w = Some (w', t) -> R w w') ->
    (forall w w' t, step w = Some (w', t) -> safe t) -> safe (Sync step)
| safe_await t : safe t -> safe (Await t).

Lemma safe_bind {A C} (t : task W A) (k : A -> task W C) :
  safe t -> (forall a, safe (k a)) -> safe (tbind t k).
Proof.
  intros Ht Hk. induction Ht as [a | step Hw _ IH | t _ IH]; cbn; [apply Hk | | now constructor].
  constructor; intros w w' t' He; destruct (step w) as [[w1 t1] |] eqn:E; try discriminate;
    injection He as <- <-; [exact (Hw _ _ _ E) | exact (IH _ _ _ E)].
Qed.

Lemma safe_sync_st {A} (m : ST W A) : respects R m -> safe (sync m).
Proof.
  intros Hm. constructor; intros w w' t He; specialize (Hm w); destruct (m w) as [a w1];
    injection He as <- <-; [exact Hm | constructor].
Qed.

Lemma safe_await_st {A} (m : ST W A) : respects R m -> safe (await m).
Proof.
  intros Hm. constructor; intros w w' t He; specialize (Hm w); destruct (m w) as [a w1];
    injection He as <- <-; [exact Hm | repeat constructor].
Qed.

Lemma safe_locking {A} free (m : ST W A) : respects R m -> safe (locking free m).
Proof.
  intros Hm. constructor; intros w w' t He; specialize (Hm w); (destruct (free w); [| discriminate]);
    destruct (m w) as [a w1]; injection He as <- <-; [exact Hm | constructor].
Qed.

Lemma safe_foreach {X E} (l : list X) (body : X -> task W (result unit E)) :
  (forall x, safe (body x)) -> safe (tforeach l body).
Proof.
  intros Hb. induction l as [| x l IH]; cbn; [constructor |].
  apply safe_bind; [apply Hb |]. intros [|]; [exact IH | constructor].
Qed.

Lemma safe_run {A} (t : task W A) w a w' : safe t -> run t w = Some (a, w') -> R w w'.
Proof.
  intros Ht. revert w. induction Ht as [b | step Hs _ IH | t _ IH]; intros w; cbn.
  - intros [= _ ->]. reflexivity.
  - destruct (step w) as [[w1 t1] |] eqn:E; [| discriminate]. intros Hr.
    transitivity w1; [exact (Hs _ _ _ E) | exact (IH _ _ _ E _ Hr)].
  - apply IH.
Qed.

Lemma safe_last {A} (t : task W A) w : safe t -> R w (last_state t w).
Proof.
  intros Ht. revert w. induction Ht as [b | step Hs _ IH | t _ IH]; intros w; cbn; [reflexivity | | apply IH].
  destruct (step w) as [[w1 t1] |] eqn:E; [| reflexivity].
  transitivity w1; [exact (Hs _ _ _ E) | exact (IH _ _ _ E w1)].
Qed.

(** Two safe tasks are safe however they are interleaved. *)
Lemma safe_join {A C} (l : task W A) (r : task W C) w j :
  safe l -> safe r -> star join_step (join_tasks l r w) j -> R w (jn_state j).
Proof.
  intros Hl Hr Hj.
  enough (H : R w (jn_state j) /\ safe (jn_left j) /\ safe (jn_right j)) by apply H.
  revert Hj. apply (star_invariant _ (fun j => R w (jn_state j) /\ safe (jn_left j) /\ safe (jn_right j))).
  { cbn. split; [reflexivity | auto]. }
  intros a b (Hw & Hal & Har) Hs. destruct Hs; cbn in *; auto.
  - inversion Hal as [| st Hr1 Hs1 |]; subst. split; [etransitivity; eauto | eauto].
  - inversion Har as [| st Hr1 Hs1 |]; subst. split; [etransitivity; eauto | eauto].
  - inversion Hal; subst. auto.
  - inversion Har; subst. auto.
Qed.
End safe.

(** ** Running a task alone *)

(** Induction on a task, with the hypothesis for what a step goes on with. *)
Lemma task_step_ind {W A} (P : task W A -> Prop) :
  (forall a, P (Done a)) ->
  (forall step, (forall w w' t, step w = Some (w', t) -> P t) -> P (Sync step)) ->
  (forall t, P t -> P (Await t)) -> forall t, P t.
Proof.
  intros Hd Hs Ha. fix IH 1. intros [a | step | t]; [apply Hd | | apply Ha, IH].
  apply Hs. intros w w' t. destruct (step w) as [[w1 t1] |]; [| discriminate].
  intros [= _ <-]. apply IH.
Qed.

Section running.
Context {W : Type}.

Lemma run_bind {A C} (t : task W A) (k : A -> task W C) w :
  run (tbind t k) w = match run t w with Some (a, w') => run (k a) w' | None => None end.
Proof.
  revert w. induction t as [a | step IH | t IH] using task_step_ind; intros w; cbn; [reflexivity | | apply IH].
  destruct (step w) as [[w1 t1] |] eqn:E; [exact (IH _ _ _ E w1) | reflexivity].
Qed.

Lemma last_bind {A C} (t : task W A) (k : A -> task W C) w :
  last_state (tbind t k) w =
    match run t w with Some (a, w') => last_state (k a) w' | None => last_state t w end.
Proof.
  revert w. induction t as [a | step IH | t IH] using task_step_ind; intros w; cbn; [reflexivity | | apply IH].
  destruct (step w) as [[w1 t1] |] eqn:E; [exact (IH _ _ _ E w1) | reflexivity].
Qed.

Lemma run_last {A} (t : task W A) w a w' : run t w = Some (a, w') -> last_state t w = w'.
Proof.
  revert w. induction t as [b | step IH | t IH] using task_step_ind; intros w; cbn; [congruence | | apply IH].
  destruct (step w) as [[w1 t1] |] eqn:E; [exact (IH _ _ _ E w1) | discriminate].
Qed.

Lemma run_sync {A} (m : ST W A) w : run (sync m) w = Some (m w).
Proof. cbn. destruct (m w). reflexivity. Qed.
Lemma run_await {A} (m : ST W A) w : run (await m) w = Some (m w).
Proof. cbn. destruct (m w). reflexivity. Qed.
Lemma run_locking {A} free (m : ST W A) w :
  run (locking free m) w = if free w then Some (m w) else None.
Proof. cbn. destruct (free w); [| reflexivity]. destruct (m w). reflexivity. Qed.
End running.

(** ** Rely and guarantee

    [rg t Q w]: from [w], every synchronous step of [t] stays in [G], provided
    the other task moves the state along [Rely] while [t] awaits and the other
    threads move it along [Env] at any time; when [t] ends, [Q] holds. *)
Section rely_guarantee.
Context {W : Type} (Env Rely G : W -> W -> Prop).

Fixpoint rg {A} (t : task W A) (Q : A -> W -> Prop) (w : W) : Prop :=
  match t with
  | Done a => Q a w
  | Sync step => forall w1, Env w w1 ->
      match step w1 with Some (w', t') => G w1 w' /\ rg t' Q w' | None => True end
  | Await t => forall w', Rely w w' -> rg t Q w'
  end.

Lemma rg_mono {A} (t : task W A) (P Q : A -> W -> Prop) w :
  (forall a w', P a w' -> Q a w') -> rg t P w -> rg t Q w.
Proof.
  intros HPQ. revert w. induction t as [a | step IH | t IH] using task_step_ind; intros w; cbn; [auto | | auto].
  intros Hr w1 Hw. specialize (Hr w1 Hw). destruct (step w1) as [[w2 t2] |] eqn:E; [| exact I].
  destruct Hr as [Hg Hr]. split; [exact Hg | exact (IH _ _ _ E _ Hr)].
Qed.

Lemma rg_bind {A C} (t : task W A) (k : A -> task W C) (Q : C -> W -> Prop) w :
  rg t (fun a w' => rg (k a) Q w') w -> rg (tbind t k) Q w.
Proof.
  revert w. induction t as [a | step IH | t IH] using task_step_ind; intros w; cbn; [auto | | auto].
  intros Hr w1 Hw. specialize (Hr w1 Hw). destruct (step w1) as [[w2 t2] |] eqn:E; [| exact I].
  destruct Hr as [Hg Hr]. split; [exact Hg | exact (IH _ _ _ E _ Hr)].
Qed.

Lemma rg_sync {A} (m : ST W A) (Q : A -> W -> Prop) w :
  (forall w1, Env w w1 -> wp m (fun a w' => G w1 w' /\ Q a w') w1) -> rg (sync m) Q w.
Proof. intros Hm w1 Hw. specialize (Hm w1 Hw). unfold wp in Hm. now destruct (m w1). Qed.

Lemma rg_await {A} (m : ST W A) (Q : A -> W -> Prop) w :
  (forall w1, Env w w1 -> wp m (fun a w' => G w1 w' /\ forall w2, Rely w' w2 -> Q a w2) w1) ->
  rg (await m) Q w.
Proof. intros Hm w1 Hw. specialize (Hm w1 Hw). unfold wp in Hm. now destruct (m w1). Qed.

Lemma rg_locking {A} free (m : ST W A) (Q : A -> W -> Prop) w :
  (forall w1, Env w w1 -> free w1 = true -> wp m (fun a w' => G w1 w' /\ Q a w') w1) ->
  rg (locking free m) Q w.
Proof.
  intros Hm w1 Hw. specialize (Hm w1 Hw). destruct (free w1); [| exact I].
  specialize (Hm eq_refl). unfold wp in Hm. now destruct (m w1).
Qed.

(** A loop keeps what its body keeps. *)
Lemma rg_foreach {X E} (l : list X) (body : X -> task W (result unit E)) (I : W -> Prop) w :
  (forall x w, I w -> rg (body x) (fun _ w' => I w') w) -> I w ->
  rg (tforeach l body) (fun _ w' => I w') w.
Proof.
  intros Hb. revert w. induction l as [| x l IH]; intros w Hw; cbn; [exact Hw |].
  apply rg_bind. eapply rg_mono; [| exact (Hb x w Hw)]. intros [] w' Hw'; [now apply IH | exact Hw'].
Qed.

(** A fact the task's steps, the other threads and the other task all keep. *)
Lemma rg_keep {A} (G' : W -> W -> Prop) (P : W -> Prop) (t : task W A) w :
  safe G' t -> (forall a b, P a -> G' a b -> G a b /\ P b) ->
  (forall a b, P a -> Env a b -> P b) -> (forall a b, P a -> Rely a b -> P b) ->
  P w -> rg t (fun _ w' => P w') w.
Proof.
  intros Hs HG HE HR. revert w. induction Hs as [a | step Hg _ IH | t _ IH]; intros w Hw; cbn; [exact Hw | |].
  - intros w1 H1. destruct (step w1) as [[w2 t2] |] eqn:E; [| exact I].
    destruct (HG w1 w2 (HE _ _ Hw H1) (Hg _ _ _ E)) as [? ?]. split; [assumption | eapply IH; eauto].
  - intros w' H1. apply IH. eauto.
Qed.

Lemma rg_env {A} `{!PreOrder Env} `{!PreOrder Rely} (t : task W A) Q w w' :
  (forall a b, Env a b -> Rely a b) -> (forall a x y, Q a x -> Rely x y -> Q a y) -> Env w w' ->
  rg t Q w -> rg t Q w'.
Proof.
  intros Hsub HQ Hw. destruct t; cbn; [eauto | |].
  - intros Hr w1 H1. apply Hr. etransitivity; eauto.
  - intros Hr w1 H1. apply Hr. etransitivity; [apply Hsub |]; eauto.
Qed.
End rely_guarantee.

(** Two tasks that rely on each other's guarantee: whichever is polled, the
    other one is ready for whatever the polled one does.  [QL] and [QR] hold
    once they have ended. *)
Section joined.
Context {W A C : Type} (Env GL GR : W -> W -> Prop) `{!PreOrder Env} `{!PreOrder GL} `{!PreOrder GR}.
Context (env_left : forall a b, Env a b -> GL a b) (env_right : forall a b, Env a b -> GR a b).
Context (QL : A -> W -> Prop) (QR : C -> W -> Prop).
Context (QL_stable : forall a x y, QL a x -> GR x y -> QL a y)
        (QR_stable : forall c x y, QR c x -> GL x y -> QR c y).

Definition joined_safe (j : joined W A C) : Prop :=
  if jn_turn j
  then rg Env GR GL (jn_left j) QL (jn_state j) /\
       forall w, GL (jn_state j) w -> rg Env GL GR (jn_right j) QR w
  else rg Env GL GR (jn_right j) QR (jn_state j) /\
       forall w, GR (jn_state j) w -> rg Env GR GL (jn_left j) QL w.

Lemma joined_safe_start l r w :
  rg Env GR GL l QL w -> (forall w', GL w w' -> rg Env GL GR r QR w') ->
  joined_safe (join_tasks l r w).
Proof. split; auto. Qed.

(** Every step is a step of one guarantee, and keeps the tasks safe. *)
Lemma joined_safe_step j j' :
  joined_safe j -> join_step j j' ->
  joined_safe j' /\ (GL (jn_state j) (jn_state j') \/ GR (jn_state j) (jn_state j')).
Proof.
  intros Hj Hs. destruct Hs as [w step w' l r E | w l step w' r E | w l r | w l r | w l r | w l r | w a r | w l c];
    unfold joined_safe in *; cbn in *; destruct Hj as [H1 H2].
  - specialize (H1 w ltac:(reflexivity)). rewrite E in H1. destruct H1 as [Hg H1].
    split; [| auto]. split; [exact H1 |]. intros w'' Hw. apply H2. etransitivity; eauto.
  - specialize (H1 w ltac:(reflexivity)). rewrite E in H1. destruct H1 as [Hg H1].
    split; [| auto]. split; [exact H1 |]. intros w'' Hw. apply H2. etransitivity; eauto.
  - split; [| left; reflexivity]. split; [apply H1; reflexivity | exact H2].
  - split; [| left; reflexivity]. split; [apply H1; reflexivity | exact H2].
  - split; [| left; reflexivity]. split; [apply H2; reflexivity |].
    intros w' Hw w'' Hw'. apply H1. etransitivity; eauto.
  - split; [| left; reflexivity]. split; [apply H2; reflexivity |].
    intros w' Hw w'' Hw'. apply H1. etransitivity; eauto.
  - split; [| left; reflexivity]. split; [apply H2; reflexivity |]. eauto.
  - split; [| left; reflexivity]. split; [apply H2; reflexivity |]. eauto.
Qed.

Lemma joined_safe_env l r w w' b :
  Env w w' ->
  joined_safe {| jn_state := w; jn_left := l; jn_right := r; jn_turn := b |} ->
  joined_safe {| jn_state := w'; jn_left := l; jn_right := r; jn_turn := b |}.
Proof.
  intros He. unfold joined_safe. cbn. destruct b; intros [H1 H2]; split.
  - eapply rg_env; eauto.
  - intros w'' Hw. apply H2. etransitivity; eauto.
  - eapply rg_env; eauto.
  - intros w'' Hw. apply H2. etransitivity; eauto.
Qed.

Lemma joined_safe_end w a c b :
  joined_safe {| jn_state := w; jn_left := Done a; jn_right := Done c; jn_turn := b |} ->
  QL a w /\ QR c w.
Proof.
  unfold joined_safe. cbn. destruct b; intros [H1 H2]; (split; [| ]); auto; apply H2; reflexivity.
Qed.
End joined.

(** [twp t Q w]: alone from [w], the task ends, in an answer and a state that
    satisfy [Q]. *)
Definition twp {W A} (t : task W A) (Q : A -> W -> Prop) (w : W) : Prop :=
  match run t w with Some (a, w') => Q a w' | None => False end.

Lemma twp_done {W A} (a : A) (Q : A -> W -> Prop) w : Q a w -> twp (Done a) Q w.
Proof. auto. Qed.

Lemma twp_bind {W A C} (t : task W A) (k : A -> task W C) (Q : C -> W -> Prop) w :
  twp t (fun a w' => twp (k a) Q w') w -> twp (tbind t k) Q w.
Proof. unfold twp. rewrite run_bind. destruct (run t w) as [[a w'] |]; auto. Qed.

Lemma twp_sync {W A} (m : ST W A) (Q : A -> W -> Prop) w : wp m Q w -> twp (sync m) Q w.
Proof. unfold twp, wp. rewrite run_sync. auto. Qed.

Lemma twp_await {W A} (m : ST W A) (Q : A -> W -> Prop) w : wp m Q w -> twp (await m) Q w.
Proof. unfold twp, wp. rewrite run_await. auto. Qed.

Lemma twp_locking {W A} free (m : ST W A) (Q : A -> W -> Prop) w :
  free w = true -> wp m Q w -> twp (locking free m) Q w.
Proof. unfold twp, wp. rewrite run_locking. intros ->. auto. Qed.

Lemma twp_mono {W A} (t : task W A) (P Q : A -> W -> Prop) w :
  twp t P w -> (forall a w', P a w' -> Q a w') -> twp t Q w.
Proof. unfold twp. destruct (run t w) as [[a w'] |]; auto. Qed.

(** [tpp t Q w]: if the task, alone from [w], ends, it is in an answer and a
    state that satisfy [Q]. *)
Definition tpp {W A} (t : task W A) (Q : A -> W -> Prop) (w : W) : Prop :=
  match run t w with Some (a, w') => Q a w' | None => True end.

Lemma tpp_run {W A} (t : task W A) (Q : A -> W -> Prop) w a w' :
  tpp t Q w -> run t w = Some (a, w') -> Q a w'.
Proof. unfold tpp. intros H E. now rewrite E in H. Qed.

Lemma tpp_done {W A} (a : A) (Q : A -> W -> Prop) w : Q a w -> tpp (Done a) Q w.
Proof. auto. Qed.

Lemma tpp_bind {W A C} (t : task W A) (k : A -> task W C) (Q : C -> W -> Prop) w :
  tpp t (fun a w' => tpp (k a) Q w') w -> tpp (tbind t k) Q w.
Proof. unfold tpp. rewrite run_bind. destruct (run t w) as [[a w'] |]; auto. Qed.

Lemma tpp_sync {W A} (m : ST W A) (Q : A -> W -> Prop) w : wp m Q w -> tpp (sync m) Q w.
Proof. unfold tpp, wp. rewrite run_sync. auto. Qed.

Lemma tpp_await {W A} (m : ST W A) (Q : A -> W -> Prop) w : wp m Q w -> tpp (await m) Q w.
Proof. unfold tpp, wp. rewrite run_await. auto. Qed.

Lemma tpp_locking {W A} free (m : ST W A) (Q : A -> W -> Prop) w :
  (free w = true -> wp m Q w) -> tpp (locking free m) Q w.
Proof.
  unfold tpp, wp. rewrite run_locking. intros Hm. destruct (free w); [exact (Hm eq_refl) | exact I].
Qed.

Lemma tpp_mono {W A} (t : task W A) (P Q : A -> W -> Prop) w :
  tpp t P w -> (forall a w', P a w' -> Q a w') -> tpp t Q w.
Proof. unfold tpp. destruct (run t w) as [[a w'] |]; auto. Qed.

Lemma tpp_safe {W A} (R : W -> W -> Prop) `{!PreOrder R} (t : task W A) (Q : A -> W -> Prop) w :
  safe R t -> (forall a w', R w w' -> Q a w') -> tpp t Q w.
Proof.
  intros Hs HQ. unfold tpp. pose proof (safe_run R t w) as Hr. destruct (run t w) as [[a w'] |]; [| exact I].
  apply HQ. now apply (Hr a).
Qed.

(** [upto t I Q w]: alone from [w], the task ends with [Q] or stops for ever in a
    state that satisfies [I]. *)
Definition upto {W A} (t : task W A) (I : W -> Prop) (Q : A -> W -> Prop) (w : W) : Prop :=
  match run t w with Some (a, w') => Q a w' | None => I (last_state t w) end.

Lemma upto_done {W A} (a : A) I (Q : A -> W -> Prop) w : Q a w -> upto (Done a) I Q w.
Proof. auto. Qed.

Lemma upto_bind {W A C} (t : task W A) (k : A -> task W C) I (Q : C -> W -> Prop) w :
  upto t I (fun a w' => upto (k a) I Q w') w -> upto (tbind t k) I Q w.
Proof. unfold upto. rewrite run_bind, last_bind. destruct (run t w) as [[a w'] |]; auto. Qed.

Lemma upto_sync {W A} (m : ST W A) I (Q : A -> W -> Prop) w : wp m Q w -> upto (sync m) I Q w.
Proof. unfold upto, wp. rewrite run_sync. auto. Qed.

Lemma upto_await {W A} (m : ST W A) I (Q : A -> W -> Prop) w : wp m Q w -> upto (await m) I Q w.
Proof. unfold upto, wp. rewrite run_await. auto. Qed.

Lemma upto_locking {W A} free (m : ST W A) (I : W -> Prop) (Q : A -> W -> Prop) w :
  I w -> wp m Q w -> upto (locking free m) I Q w.
Proof. intros Hi Hm. unfold upto. rewrite run_locking. cbn. unfold wp in Hm. now destruct (free w). Qed.

Lemma upto_mono {W A} (t : task W A) I (P Q : A -> W -> Prop) w :
  upto t I P w -> (forall a w', P a w' -> Q a w') -> upto t I Q w.
Proof. unfold upto. destruct (run t w) as [[a w'] |]; auto. Qed.

(** Blocked or not, what holds at the end. *)
Lemma upto_last {W A} (t : task W A) (I : W -> Prop) (Q : A -> W -> Prop) w :
  upto t I Q w -> (forall a w', Q a w' -> I w') -> I (last_state t w).
Proof.
  unfold upto. intros Hu HQ. destruct (run t w) as [[a w'] |] eqn:E; [| exact Hu].
  rewrite (run_last _ _ _ _ E). eauto.
Qed.

(** [blocks t Q w]: alone from [w], the task stops for ever at a lock its own
    thread holds, in a state that satisfies [Q]. *)
Definition blocks {W A} (t : task W A) (Q : W -> Prop) (w : W) : Prop :=
  run t w = None /\ Q (last_state t w).

Lemma blocks_locking {W A} free (m : ST W A) (Q : W -> Prop) w :
  free w = false -> Q w -> blocks (locking free m) Q w.
Proof. intros Hf Hq. unfold blocks. cbn. now rewrite Hf. Qed.

Lemma blocks_here {W A C} (t : task W A) (k : A -> task W C) (Q : W -> Prop) w :
  blocks t Q w -> blocks (tbind t k) Q w.
Proof. intros [Hr Hq]. unfold blocks. now rewrite run_bind, last_bind, Hr. Qed.

Lemma blocks_later {W A C} (t : task W A) (k : A -> task W C) (Q : W -> Prop) w :
  twp t (fun a w' => blocks (k a) Q w') w -> blocks (tbind t k) Q w.
Proof.
  unfold twp, blocks. rewrite run_bind, last_bind. destruct (run t w) as [[a w'] |]; [auto | intros []].
Qed.

Lemma twp_run {W A} (t : task W A) (Q : A -> W -> Prop) w :
  twp t Q w -> exists a w', run t w = Some (a, w') /\ Q a w'.
Proof. unfold twp. destruct (run t w) as [[a w'] |]; [eauto | intros []]. Qed.

Lemma run_tpp {W A} (t : task W A) (Q : A -> W -> Prop) w a w' :
  run t w = Some (a, w') -> Q a w' -> tpp t Q w.
Proof. unfold tpp. now intros ->. Qed.

Lemma twp_tpp {W A} (t : task W A) (Q : A -> W -> Prop) w : twp t Q w -> tpp t Q w.
Proof. unfold twp, tpp. destruct (run t w) as [[a w'] |]; [auto | intros []]. Qed.

(** ** Schedules

    [drive choices j] follows one interleaving: at an await the next choice says
    whether the task goes on at once or the other one is polled. *)
Fixpoint drive {W A C} (choices : list bool) (fuel : nat) (j : joined W A C) : joined W A C :=
  match fuel with
  | O => j
  | S fuel =>
      let w := jn_state j in let l := jn_left j in let r := jn_right j in
      let go w l r b choices :=
        drive choices fuel {| jn_state := w; jn_left := l; jn_right := r; jn_turn := b |} in
      if jn_turn j then
        match l with
        | Done _ => go w l r false choices
        | Sync step => match step w with Some (w', l') => go w' l' r true choices | None => j end
        | Await l' => match choices with
                      | true :: choices => go w l' r true choices
                      | false :: choices => go w l r false choices
                      | [] => j
                      end
        end
      else
        match r with
        | Done _ => go w l r true choices
        | Sync step => match step w with Some (w', r') => go w' l r' false choices | None => j end
        | Await r' => match choices with
                      | true :: choices => go w l r' false choices
                      | false :: choices => go w l r true choices
                      | [] => j
                      end
        end
  end.

Lemma star_left {S} (step : S -> S -> Prop) a b c : step a b -> star step b c -> star step a c.
Proof. intros Hab Hbc. exact (star_trans step _ _ _ (star_step step _ _ _ (star_refl _ _) Hab) Hbc). Qed.

Lemma drive_star {W A C} fuel : forall (choices : list bool) (j : joined W A C),
  star join_step j (drive choices fuel j).
Proof.
  induction fuel as [| fuel IH]; intros choices [w l r b]; cbn; [constructor |].
  destruct b; cbn.
  - destruct l as [a | step | l].
    + eapply star_left; [apply end_left | apply IH].
    + destruct (step w) as [[w' l'] |] eqn:E; [| constructor].
      eapply star_left; [apply step_left, E | apply IH].
    + destruct choices as [| [|] choices]; [constructor | |]; (eapply star_left; [| apply IH]); constructor.
  - destruct r as [c | step | r].
    + eapply star_left; [apply end_right | apply IH].
    + destruct (step w) as [[w' r'] |] eqn:E; [| constructor].
      eapply star_left; [apply step_right, E | apply IH].
    + destruct choices as [| [|] choices]; [constructor | |]; (eapply star_left; [| apply IH]); constructor.
Qed.

Definition is_stuck {W A C} (j : joined W A C) : bool :=
  if jn_turn j
  then match jn_left j with
       | Sync step => match step (jn_state j) with None => true | Some _ => false end
       | _ => false end
  else match jn_right j with
       | Sync step => match step (jn_state j) with None => true | Some _ => false end
       | _ => false end.

Lemma is_stuck_stuck {W A C} (j : joined W A C) : is_stuck j = true -> stuck j.
Proof.
  unfold is_stuck, stuck. destruct (jn_turn j).
  - destruct (jn_left j) as [| step |]; try discriminate. destruct (step (jn_state j)) eqn:E; [discriminate | eauto].
  - destruct (jn_right j) as [| step |]; try discriminate. destruct (step (jn_state j)) eqn:E; [discriminate | eauto].
Qed.

#[export] Hint Resolve safe_bind safe_sync_st safe_await_st safe_locking safe_foreach : arb.
#[export] Hint Constructors safe : arb.
