(* ===== verification/ThreadPinning.v ===== *)
(** Pinning of threads to cores ([src/src/strategy/thread_pinning.rs]).

    [CoreAffinity] is what the code calls of the crate [core_affinity], as state
    transformers of an operating system; a [CoreId] is its number. *)
From Stdlib Require Import ZArith Lia Bool Ascii String.
From stdpp Require Import base option list strings pretty.
From S2P Require Import Prelude.

#[local] Open Scope string_scope.
#[local] Open Scope Z_scope.

Class CoreAffinity (O : Type) := {
  set_for_current : Z -> ST O bool;
  get_core_ids : ST O (option (list Z))
}.

Record CoreAssignment := { strategy_core : Z; websocket_cores : list Z }.

Definition default_assignment : CoreAssignment :=
  {| strategy_core := 1; websocket_cores := seqZ 2 6 |}.

Definition custom_assignment (strategy_core : Z) (websocket_cores : list Z) : CoreAssignment :=
  {| strategy_core := strategy_core; websocket_cores := websocket_cores |}.

Section pinning.
Context {O : Type} `{CoreAffinity O}.

Definition pin_current_thread (core : Z) (thread_name : string) : ST O (result unit string) :=
  (let! pinned := set_for_current core in
   if negb pinned then ret (Err ("Failed to pin " ++ thread_name ++ " thread to core " ++ pretty core))
   else
     let! core_ids := get_core_ids in
     ret match core_ids ≫= List.find (fun c => c =? core) with
         | Some _ => Ok tt
         | None => Err ("Failed to verify pinning for " ++ thread_name ++ " thread to core " ++ pretty core)
         end)%st.

Definition pin_strategy_thread : ST O (result unit string) := pin_current_thread 1 "strategy".

Definition pin_websocket_thread (worker_id : Z) : ST O (result unit string) :=
  let core_id := wrap64 (2 + worker_id) in
  pin_current_thread core_id ("websocket-" ++ pretty worker_id).

Definition get_core_count : ST O Z :=
  (let! core_ids := get_core_ids in ret (Z.of_nat (default 0%nat (length <$> core_ids))))%st.

Definition has_sufficient_cores : ST O bool := (let! count := get_core_count in ret (8 <=? count))%st.

(** The thread runs [f] whether it could be pinned or not. *)
Definition spawn_pinned_thread {T} (core : Z) (name : string) (f : ST O T) : ST O T :=
  (do! pin_current_thread core name in f)%st.

(** A thread is pinned exactly if the system took the core and lists it. *)
Lemma pin_current_thread_spec core name o :
  is_ok (fst (pin_current_thread core name o)) = true <->
  fst (set_for_current core o) = true /\
  exists cores, fst (get_core_ids (snd (set_for_current core o))) = Some cores /\ core ∈ cores.
Proof.
  unfold pin_current_thread, bind. destruct (set_for_current core o) as [[] o1]; cbn.
  - destruct (get_core_ids o1) as [[cores |] o2]; cbn.
    + destruct (List.find _ cores) as [c |] eqn:Ef; cbn.
      * apply List.find_some in Ef as [Hin ->%Z.eqb_eq]. split; [| auto]. intros _. split; [auto |].
        exists cores. split; [auto | now apply list_elem_of_In].
      * split; [discriminate |]. intros (_ & cores' & [= <-] & Hin%list_elem_of_In).
        apply (List.find_none _ _ Ef) in Hin. apply Z.eqb_neq in Hin. congruence.
    + split; [discriminate |]. now intros (_ & ? & ? & _).
  - split; [discriminate |]. now intros [? _].
Qed.
End pinning.

(** The default cores of the threads are different, and core 0 is left free. *)
Lemma default_cores_distinct :
  NoDup (0 :: strategy_core default_assignment :: websocket_cores default_assignment).
Proof. change (NoDup [0; 1; 2; 3; 4; 5; 6; 7]). now apply (bool_decide_unpack _). Qed.

(** Workers 0 to 5 get the cores of the default assignment, later ones cores outside it. *)
Lemma websocket_core w : in_u64 w -> wrap64 (2 + w) ∈ websocket_cores default_assignment <-> w < 6.
Proof.
  intros [H1 H2]. change (websocket_cores default_assignment) with (seqZ 2 6). rewrite elem_of_seqZ.
  unfold wrap64. destruct (Z.ltb_spec (2 + w) (2 ^ 64)).
  - rewrite Z.mod_small by lia. lia.
  - replace (2 + w) with (w - (2 ^ 64 - 2) + 1 * 2 ^ 64) by lia.
    rewrite Z.mod_add, Z.mod_small by lia. lia.
Qed.
