(* ===== verification/Types.v ===== *)
(** The shared data types of [src/src/strategy/types.rs]: market updates,
    order requests, simulated orders, opportunities, trades and the portfolio
    state, with the methods that [types.rs] gives them.  Alignment padding
    fields carry no information and are left out; a [usize], [u64], [u32] or
    [u8] is a [Z]. *)
From Stdlib Require Import ZArith Lia Bool.
From stdpp Require Import base option list gmap strings.
From S2P Require Import Prelude Float64.

#[local] Open Scope string_scope.

(** ** Market updates *)
Record MarketUpdate := {
  mu_bid : f64;
  mu_ask : f64;
  mu_timestamp_us : Z;
  mu_symbol_id : Z
}.

Definition MarketUpdate_new (symbol_id : Z) (bid ask : f64) (timestamp_us : Z) : MarketUpdate :=
  {| mu_bid := bid; mu_ask := ask; mu_timestamp_us := timestamp_us; mu_symbol_id := symbol_id |}.

Definition MarketUpdate_spread_bps (u : MarketUpdate) : f64 :=
  (((mu_ask u - mu_bid u) / mu_bid u) * 10000.0%f64)%F.

Definition MarketUpdate_mid_price (u : MarketUpdate) : f64 :=
  ((mu_bid u + mu_ask u) / 2.0%f64)%F.

(** ** The static symbol tables *)
Definition SYMBOL_TO_ID : gmap string Z :=
  list_to_map [("BTCUSDT", 1); ("ETHUSDT", 2); ("SOLUSDT", 3); ("BNBUSDT", 4);
               ("XRPUSDT", 5); ("ADAUSDT", 6); ("DOGEUSDT", 7); ("MATICUSDT", 8);
               ("DOTUSDT", 9); ("AVAXUSDT", 10)]%Z.

Definition ID_TO_SYMBOL : list string :=
  [""; "BTCUSDT"; "ETHUSDT"; "SOLUSDT"; "BNBUSDT"; "XRPUSDT"; "ADAUSDT";
   "DOGEUSDT"; "MATICUSDT"; "DOTUSDT"; "AVAXUSDT"].

Definition symbol_to_id (symbol : string) : option Z := SYMBOL_TO_ID !! symbol.
Definition id_to_symbol (id : Z) : option string := ID_TO_SYMBOL !! Z.to_nat id.

(** ** Orders with a type-level state *)
Inductive order_state := Pending_st | Filled_st | Cancelled_st.

Record Order (s : order_state) := {
  ord_id : Z;
  ord_symbol_id : Z;
  ord_price : f64;
  ord_size : f64
}.
Arguments ord_id {s} _.
Arguments ord_symbol_id {s} _.
Arguments ord_price {s} _.
Arguments ord_size {s} _.

Definition Order_new (id symbol_id : Z) (price size : f64) : Order Pending_st :=
  {| ord_id := id; ord_symbol_id := symbol_id; ord_price := price; ord_size := size |}.

Definition Order_fill (o : Order Pending_st) (_fill_price : f64) (_fill_time : Z)
  : Order Filled_st :=
  {| ord_id := ord_id o; ord_symbol_id := ord_symbol_id o;
     ord_price := ord_price o; ord_size := ord_size o |}.

Definition Order_cancel (o : Order Pending_st) (_reason : string) : Order Cancelled_st :=
  {| ord_id := ord_id o; ord_symbol_id := ord_symbol_id o;
     ord_price := ord_price o; ord_size := ord_size o |}.

Definition Order_get_fill_price (o : Order Filled_st) : f64 := ord_price o.
Definition Order_get_reason (_ : Order Cancelled_st) : string := "Order cancelled".

(** ** Confluence metrics *)
Record HardConstraints := {
  order_book_depth_sufficient : bool;
  exchange_latency_ok : bool;
  funding_delta_substantial : bool
}.

Definition passes_all (h : HardConstraints) : bool :=
  order_book_depth_sufficient h && exchange_latency_ok h && funding_delta_substantial h.

Record ConfluenceMetrics := {
  cm_funding_delta : f64;
  cm_funding_delta_projected : f64;
  cm_obi_ratio : f64;
  cm_oi_current : f64;
  cm_oi_24h_avg : f64;
  cm_vwap_deviation : f64;
  cm_atr : f64;
  cm_atr_trend : bool;
  cm_liquidation_cluster_distance : f64;
  cm_hard_constraints : HardConstraints
}.

Definition confidence_weights : list f64 := [9.0%f64; 8.0%f64; 7.0%f64; 6.0%f64; 5.0%f64; 5.0%f64].

Definition calculate_confidence_score (m : ConfluenceMetrics) : Z :=
  (if negb (passes_all (cm_hard_constraints m)) then 0%Z else
  let total_weight := fsum confidence_weights in
  let funding_score := (fmin (fabs (cm_funding_delta m) / 0.01%f64) 1.0%f64 * 100.0%f64)%F in
  let score := (0.0%f64 + (funding_score * 9.0%f64) / total_weight)%F in
  let obi_score := (fmin (fabs (cm_obi_ratio m)) 1.0%f64 * 100.0%f64)%F in
  let score := (score + (obi_score * 8.0%f64) / total_weight)%F in
  let oi_score :=
    if (cm_oi_current m >? cm_oi_24h_avg m)%F
    then ((fmin (cm_oi_current m / cm_oi_24h_avg m - 1.0%f64) 0.5%f64 / 0.5%f64) * 100.0%f64)%F
    else 0.0%f64 in
  let score := (score + (oi_score * 7.0%f64) / total_weight)%F in
  let vwap_score := (fmin (fabs (cm_vwap_deviation m)) 3.0%f64 / 3.0%f64 * 100.0%f64)%F in
  let score := (score + (vwap_score * 6.0%f64) / total_weight)%F in
  let atr_score := if cm_atr_trend m then 100.0%f64 else 0.0%f64 in
  let score := (score + (atr_score * 5.0%f64) / total_weight)%F in
  let liq_score :=
    ((1.0%f64 - fmin (cm_liquidation_cluster_distance m / 100.0%f64) 1.0%f64) * 100.0%f64)%F in
  let score := (score + (liq_score * 5.0%f64) / total_weight)%F in
  Z.min (f_to_u8 score) 100).

(** ** Order requests (the execution queue's element) *)
Record OrderRequest := {
  or_order_id : Z;
  or_symbol_id : Z;
  or_exchange_id : Z;
  or_side : Z;
  or_order_type : Z;
  or_price : f64;
  or_size : f64;
  or_timestamp_us : Z
}.

Definition OrderRequest_market (order_id symbol_id exchange_id side : Z) (size : f64)
  (timestamp_us : Z) : OrderRequest :=
  {| or_order_id := order_id; or_symbol_id := symbol_id; or_exchange_id := exchange_id;
     or_side := side; or_order_type := 0; or_price := 0.0%f64; or_size := size;
     or_timestamp_us := timestamp_us |}.

Definition OrderRequest_limit (order_id symbol_id exchange_id side : Z) (price size : f64)
  (timestamp_us : Z) : OrderRequest :=
  {| or_order_id := order_id; or_symbol_id := symbol_id; or_exchange_id := exchange_id;
     or_side := side; or_order_type := 1; or_price := price; or_size := size;
     or_timestamp_us := timestamp_us |}.

Definition OrderRequest_is_market (o : OrderRequest) : bool := (or_order_type o =? 0)%Z.
Definition OrderRequest_is_limit (o : OrderRequest) : bool := (or_order_type o =? 1)%Z.
Definition OrderRequest_is_buy (o : OrderRequest) : bool := (or_side o =? 0)%Z.
Definition OrderRequest_is_sell (o : OrderRequest) : bool := (or_side o =? 1)%Z.

(** ** Simulated orders *)
Inductive OrderSide := Long | Short.
Inductive OrderType := Limit | Market.
Inductive OrderStatus := Pending | Filled | Cancelled.

#[export] Instance OrderSide_eq_dec : EqDecision OrderSide.
Proof. solve_decision. Defined.
#[export] Instance OrderType_eq_dec : EqDecision OrderType.
Proof. solve_decision. Defined.
#[export] Instance OrderStatus_eq_dec : EqDecision OrderStatus.
Proof. solve_decision. Defined.

Record OrderStatusInfo := {
  osi_status : OrderStatus;
  osi_filled_quantity : f64;
  osi_total_quantity : f64
}.

Definition is_fully_filled (i : OrderStatusInfo) : bool :=
  bool_decide (osi_status i = Filled) && (osi_filled_quantity i >=? osi_total_quantity i)%F.

Definition is_partially_filled (i : OrderStatusInfo) : bool :=
  (osi_filled_quantity i >? 0.0%f64)%F && (osi_filled_quantity i <? osi_total_quantity i)%F.

Definition fill_percentage (i : OrderStatusInfo) : f64 :=
  if (osi_total_quantity i >? 0.0%f64)%F
  then ((osi_filled_quantity i / osi_total_quantity i) * 100.0%f64)%F
  else 0.0%f64.

Record QueuePosition := {
  qp_price : f64;
  qp_cumulative_volume_at_price : f64;
  qp_resting_depth_at_entry : f64;
  qp_fill_threshold_pct : f64;
  qp_is_filled : bool
}.

Record SimulatedOrder := {
  so_id : string;
  so_exchange : string;
  so_symbol : string;
  so_side : OrderSide;
  so_order_type : OrderType;
  so_price : f64;
  so_size : f64;
  so_queue_position : option QueuePosition;
  so_created_at : Z;
  so_filled_at : option Z;
  so_fill_price : option f64;
  so_status : OrderStatus
}.

(** Assignments to one field, [order.f = v]. *)
Definition set_so_id (v : string) (o : SimulatedOrder) : SimulatedOrder :=
  {| so_id := v; so_exchange := so_exchange o; so_symbol := so_symbol o; so_side := so_side o;
     so_order_type := so_order_type o; so_price := so_price o; so_size := so_size o;
     so_queue_position := so_queue_position o; so_created_at := so_created_at o;
     so_filled_at := so_filled_at o; so_fill_price := so_fill_price o; so_status := so_status o |}.
Definition set_so_price (v : f64) (o : SimulatedOrder) : SimulatedOrder :=
  {| so_id := so_id o; so_exchange := so_exchange o; so_symbol := so_symbol o; so_side := so_side o;
     so_order_type := so_order_type o; so_price := v; so_size := so_size o;
     so_queue_position := so_queue_position o; so_created_at := so_created_at o;
     so_filled_at := so_filled_at o; so_fill_price := so_fill_price o; so_status := so_status o |}.
Definition set_so_size (v : f64) (o : SimulatedOrder) : SimulatedOrder :=
  {| so_id := so_id o; so_exchange := so_exchange o; so_symbol := so_symbol o; so_side := so_side o;
     so_order_type := so_order_type o; so_price := so_price o; so_size := v;
     so_queue_position := so_queue_position o; so_created_at := so_created_at o;
     so_filled_at := so_filled_at o; so_fill_price := so_fill_price o; so_status := so_status o |}.
Definition set_so_queue_position (v : option QueuePosition) (o : SimulatedOrder) : SimulatedOrder :=
  {| so_id := so_id o; so_exchange := so_exchange o; so_symbol := so_symbol o; so_side := so_side o;
     so_order_type := so_order_type o; so_price := so_price o; so_size := so_size o;
     so_queue_position := v; so_created_at := so_created_at o;
     so_filled_at := so_filled_at o; so_fill_price := so_fill_price o; so_status := so_status o |}.
Definition set_so_created_at (v : Z) (o : SimulatedOrder) : SimulatedOrder :=
  {| so_id := so_id o; so_exchange := so_exchange o; so_symbol := so_symbol o; so_side := so_side o;
     so_order_type := so_order_type o; so_price := so_price o; so_size := so_size o;
     so_queue_position := so_queue_position o; so_created_at := v;
     so_filled_at := so_filled_at o; so_fill_price := so_fill_price o; so_status := so_status o |}.
Definition set_so_filled_at (v : option Z) (o : SimulatedOrder) : SimulatedOrder :=
  {| so_id := so_id o; so_exchange := so_exchange o; so_symbol := so_symbol o; so_side := so_side o;
     so_order_type := so_order_type o; so_price := so_price o; so_size := so_size o;
     so_queue_position := so_queue_position o; so_created_at := so_created_at o;
     so_filled_at := v; so_fill_price := so_fill_price o; so_status := so_status o |}.
Definition set_so_fill_price (v : option f64) (o : SimulatedOrder) : SimulatedOrder :=
  {| so_id := so_id o; so_exchange := so_exchange o; so_symbol := so_symbol o; so_side := so_side o;
     so_order_type := so_order_type o; so_price := so_price o; so_size := so_size o;
     so_queue_position := so_queue_position o; so_created_at := so_created_at o;
     so_filled_at := so_filled_at o; so_fill_price := v; so_status := so_status o |}.
Definition set_so_status (v : OrderStatus) (o : SimulatedOrder) : SimulatedOrder :=
  {| so_id := so_id o; so_exchange := so_exchange o; so_symbol := so_symbol o; so_side := so_side o;
     so_order_type := so_order_type o; so_price := so_price o; so_size := so_size o;
     so_queue_position := so_queue_position o; so_created_at := so_created_at o;
     so_filled_at := so_filled_at o; so_fill_price := so_fill_price o; so_status := v |}.

(** ** Opportunities and trades *)
Record ArbitrageOpportunity := {
  ao_symbol : string;
  ao_long_exchange : string;
  ao_short_exchange : string;
  ao_long_price : f64;
  ao_short_price : f64;
  ao_spread_bps : f64;
  ao_funding_delta_8h : f64;
  ao_confidence_score : Z;
  ao_projected_profit_usd : f64;
  ao_projected_profit_after_slippage : f64;
  ao_metrics : ConfluenceMetrics;
  ao_order_book_depth_long : f64;
  ao_order_book_depth_short : f64;
  ao_timestamp : option Z
}.

Inductive TradeStatus := TPending | TActive | TExiting | TClosed.

#[export] Instance TradeStatus_eq_dec : EqDecision TradeStatus.
Proof. solve_decision. Defined.

Record LegOutEvent := {
  lo_filled_leg : string;
  lo_filled_at : Z;
  lo_unfilled_leg : string;
  lo_hedge_executed : bool;
  lo_hedge_price : f64
}.

Record PaperTrade := {
  pt_id : string;
  pt_symbol : string;
  pt_long_exchange : string;
  pt_short_exchange : string;
  pt_entry_time : Z;
  pt_entry_long_price : f64;
  pt_entry_short_price : f64;
  pt_entry_spread_bps : f64;
  pt_position_size_usd : f64;
  pt_funding_delta_entry : f64;
  pt_projected_profit_usd : f64;
  pt_actual_profit_usd : f64;
  pt_status : TradeStatus;
  pt_exit_reason : option string;
  pt_exit_spread_bps : option f64;
  pt_exit_time : option Z;
  pt_long_order : SimulatedOrder;
  pt_short_order : SimulatedOrder;
  pt_long_exit_order : option SimulatedOrder;
  pt_short_exit_order : option SimulatedOrder;
  pt_stop_loss_triggered : bool;
  pt_stop_loss_long_price : f64;
  pt_stop_loss_short_price : f64;
  pt_leg_out_event : option LegOutEvent
}.

(** ** Portfolio state; the three counters are atomics. *)
Record PortfolioState := {
  ps_starting_capital : f64;
  ps_available_capital : f64;
  ps_total_open_positions : f64;
  ps_active_trades : list PaperTrade;
  ps_closed_trades : list PaperTrade;
  ps_cumulative_pnl : f64;
  ps_win_count : Z;
  ps_loss_count : Z;
  ps_leg_out_count : Z;
  ps_leg_out_total_loss : f64;
  ps_last_updated : Z
}.

Definition PortfolioState_new (starting_capital : f64) : PortfolioState :=
  {| ps_starting_capital := starting_capital;
     ps_available_capital := starting_capital;
     ps_total_open_positions := 0.0%f64;
     ps_active_trades := [];
     ps_closed_trades := [];
     ps_cumulative_pnl := 0.0%f64;
     ps_win_count := 0; ps_loss_count := 0; ps_leg_out_count := 0;
     ps_leg_out_total_loss := 0.0%f64;
     ps_last_updated := 0 |}.

Definition with_counters (s : PortfolioState) (w l o : Z) : PortfolioState :=
  {| ps_starting_capital := ps_starting_capital s;
     ps_available_capital := ps_available_capital s;
     ps_total_open_positions := ps_total_open_positions s;
     ps_active_trades := ps_active_trades s;
     ps_closed_trades := ps_closed_trades s;
     ps_cumulative_pnl := ps_cumulative_pnl s;
     ps_win_count := w; ps_loss_count := l; ps_leg_out_count := o;
     ps_leg_out_total_loss := ps_leg_out_total_loss s;
     ps_last_updated := ps_last_updated s |}.

Definition increment_wins (s : PortfolioState) : PortfolioState :=
  with_counters s (wrap64 (ps_win_count s + 1)) (ps_loss_count s) (ps_leg_out_count s).
Definition increment_losses (s : PortfolioState) : PortfolioState :=
  with_counters s (ps_win_count s) (wrap64 (ps_loss_count s + 1)) (ps_leg_out_count s).
Definition increment_leg_outs (s : PortfolioState) : PortfolioState :=
  with_counters s (ps_win_count s) (ps_loss_count s) (wrap64 (ps_leg_out_count s + 1)).

Record PortfolioMetrics := {
  pm_total_trades : Z;
  pm_win_rate : f64;
  pm_cumulative_pnl : f64;
  pm_pnl_percentage : f64;
  pm_available_capital : f64;
  pm_utilization_pct : f64;
  pm_leg_out_count : Z;
  pm_leg_out_loss_pct : f64;
  pm_realistic_apr : f64
}.

(** ** Order books *)
Record PriceLevel := { pl_price : f64; pl_quantity : f64 }.
Record OrderBookDepth := {
  obd_bids : list PriceLevel;
  obd_asks : list PriceLevel;
  obd_timestamp : Z
}.

(** ** Lemmas *)

(** Every symbol of the forward table is found again through its ID. *)
Lemma symbol_roundtrip s id : symbol_to_id s = Some id -> id_to_symbol id = Some s.
Proof.
  unfold symbol_to_id, SYMBOL_TO_ID. intros H.
  apply elem_of_list_to_map_2 in H.
  repeat (apply elem_of_cons in H as [[= -> ->] | H]; [reflexivity |]).
  inversion H.
Qed.

Lemma confidence_score_range m : (0 <= calculate_confidence_score m <= 100)%Z.
Proof.
  unfold calculate_confidence_score. destruct_if; [lia |].
  cbv zeta. match goal with |- context [f_to_u8 ?x] =>
    pose proof (f_to_uint_range U8_MAX x ltac:(easy)) end.
  unfold f_to_u8. lia.
Qed.

Lemma confidence_score_gate m :
  passes_all (cm_hard_constraints m) = false -> calculate_confidence_score m = 0%Z.
Proof. intros H. unfold calculate_confidence_score. now rewrite H. Qed.

Lemma is_fully_filled_status i : is_fully_filled i = true -> osi_status i = Filled.
Proof. unfold is_fully_filled. intros H. bool_simpl. now apply bool_decide_eq_true in H. Qed.

#[export] Hint Resolve is_fully_filled_status confidence_score_range : arb.
