(* ===== verification/ArrayQueue.v ===== *)
(** The interface of the third-party bounded lock-free queue
    ([crossbeam_queue::ArrayQueue]) that the pipelines are built on.

    The queue itself is not part of the program, so it is a parameter: the
    class [ArrayQueue] lists the operations the program calls and
    [ArrayQueueLaws] states the documented behaviour the pipelines rely on,
    through the sequence [aq_view] of the elements in the queue, oldest
    first.  [list_queue] is one implementation that satisfies the laws. *)
From Stdlib Require Import ZArith Lia Bool.
From stdpp Require Import base option list.
From S2P Require Import Prelude.

Class ArrayQueue (Q A : Type) := {
  aq_new : Z -> Q;
  aq_push : A -> Q -> result unit A * Q;
  aq_pop : Q -> option A * Q;
  aq_len : Q -> Z;
  aq_capacity : Q -> Z
}.

Definition aq_is_full {Q A} `{ArrayQueue Q A} (q : Q) : bool := (aq_len q =? aq_capacity q)%Z.
Definition aq_is_empty {Q A} `{ArrayQueue Q A} (q : Q) : bool := (aq_len q =? 0)%Z.

Class ArrayQueueLaws (Q A : Type) `{ArrayQueue Q A} := {
  aq_view : Q -> list A;
  aq_new_view c : (0 < c)%Z -> aq_view (aq_new c) = [];
  aq_new_capacity c : (0 < c)%Z -> aq_capacity (aq_new c) = c;
  aq_len_view q : aq_len q = Z.of_nat (length (aq_view q));
  aq_bounded q : (Z.of_nat (length (aq_view q)) <= aq_capacity q)%Z;
  aq_capacity_pos q : (0 < aq_capacity q)%Z;
  (** [push] appends when there is room and hands the element back otherwise. *)
  aq_push_room a q : (Z.of_nat (length (aq_view q)) < aq_capacity q)%Z ->
    fst (aq_push a q) = Ok tt /\
    aq_view (snd (aq_push a q)) = aq_view q ++ [a] /\
    aq_capacity (snd (aq_push a q)) = aq_capacity q;
  aq_push_full a q : (aq_capacity q <= Z.of_nat (length (aq_view q)))%Z ->
    aq_push a q = (Err a, q);
  (** [pop] removes the oldest element. *)
  aq_pop_some q a l : aq_view q = a :: l ->
    fst (aq_pop q) = Some a /\ aq_view (snd (aq_pop q)) = l /\
    aq_capacity (snd (aq_pop q)) = aq_capacity q;
  aq_pop_none q : aq_view q = [] -> aq_pop q = (None, q)
}.

(** A capacity paired with a list that never outgrows it. *)
Record list_queue (A : Type) := {
  lq_cap : positive;
  lq_items : list A;
  lq_ok : (length lq_items <=? Pos.to_nat lq_cap)%nat = true
}.
Arguments lq_cap {A} _.
Arguments lq_items {A} _.
Arguments lq_ok {A} _.

Definition lq_new {A} (c : Z) : list_queue A :=
  {| lq_cap := Z.to_pos c; lq_items := []; lq_ok := eq_refl |}.

Definition lq_make {A} (c : positive) (l : list A) (fallback : list_queue A) : list_queue A :=
  match Bool.bool_dec (length l <=? Pos.to_nat c)%nat true with
  | left H => {| lq_cap := c; lq_items := l; lq_ok := H |}
  | right _ => fallback
  end.

Definition lq_push {A} (a : A) (q : list_queue A) : result unit A * list_queue A :=
  if (length (lq_items q) <? Pos.to_nat (lq_cap q))%nat
  then (Ok tt, lq_make (lq_cap q) (lq_items q ++ [a]) q)
  else (Err a, q).

Definition lq_pop {A} (q : list_queue A) : option A * list_queue A :=
  match lq_items q with
  | [] => (None, q)
  | a :: l => (Some a, lq_make (lq_cap q) l q)
  end.

#[export] Instance list_array_queue {A} : ArrayQueue (list_queue A) A := {
  aq_new := lq_new;
  aq_push := lq_push;
  aq_pop := lq_pop;
  aq_len q := Z.of_nat (length (lq_items q));
  aq_capacity q := Zpos (lq_cap q)
}.

Lemma lq_make_ok {A} c (l : list A) f :
  (length l <= Pos.to_nat c)%nat ->
  lq_items (lq_make c l f) = l /\ lq_cap (lq_make c l f) = c.
Proof.
  intros H. unfold lq_make. apply Nat.leb_le in H.
  destruct (Bool.bool_dec _ true); [now split | contradiction].
Qed.

#[export] Instance list_array_queue_laws {A} : ArrayQueueLaws (list_queue A) A.
Proof.
  refine {| aq_view := lq_items |}; cbn.
  - reflexivity.
  - intros c Hc. apply Z2Pos.id. lia.
  - reflexivity.
  - intros q. pose proof (lq_ok q) as H. apply Nat.leb_le in H. lia.
  - lia.
  - intros a q H. unfold lq_push. destruct (Nat.ltb_spec (length (lq_items q)) (Pos.to_nat (lq_cap q)));
      [| lia]. cbn. destruct (lq_make_ok (lq_cap q) (lq_items q ++ [a]) q) as [-> ->]; auto.
    rewrite length_app. cbn. lia.
  - intros a q H. unfold lq_push. destruct (Nat.ltb_spec (length (lq_items q)) (Pos.to_nat (lq_cap q)));
      [lia | reflexivity].
  - intros q a l H. unfold lq_pop. pose proof (lq_ok q) as Hq. apply Nat.leb_le in Hq.
    rewrite H in *. cbn in *. destruct (lq_make_ok (lq_cap q) l q) as [-> ->]; auto. lia.
  - intros q H. unfold lq_pop. now rewrite H.
Defined.

(** ** Consequences shared by the pipelines *)
Section derived.
Context {Q A : Type} `{ArrayQueueLaws Q A}.

Lemma aq_is_full_spec q :
  aq_is_full q = true <-> Z.of_nat (length (aq_view q)) = aq_capacity q.
Proof. unfold aq_is_full. rewrite aq_len_view. apply Z.eqb_eq. Qed.

Lemma aq_is_empty_spec q : aq_is_empty q = true <-> aq_view q = [].
Proof.
  unfold aq_is_empty. rewrite aq_len_view, Z.eqb_eq.
  destruct (aq_view q); cbn; split; intros; try lia; congruence.
Qed.

(** A full queue is not empty, so popping it frees exactly one slot. *)
Lemma aq_full_pop q :
  (aq_capacity q <= Z.of_nat (length (aq_view q)))%Z ->
  exists a l, aq_view q = a :: l /\ fst (aq_pop q) = Some a /\
    aq_view (snd (aq_pop q)) = l /\ aq_capacity (snd (aq_pop q)) = aq_capacity q /\
    (Z.of_nat (length l) < aq_capacity q)%Z.
Proof.
  intros Hf. pose proof (aq_capacity_pos q). pose proof (aq_bounded q).
  destruct (aq_view q) as [|a l] eqn:Hv; cbn in *; [lia |].
  destruct (aq_pop_some q a l Hv) as (Hp & Ht & Hc).
  exists a, l. repeat split; auto. lia.
Qed.

Lemma aq_pop_view q :
  aq_view (snd (aq_pop q)) = tail (aq_view q) /\
  fst (aq_pop q) = head (aq_view q) /\
  aq_capacity (snd (aq_pop q)) = aq_capacity q.
Proof.
  destruct (aq_view q) as [|a l] eqn:Hv.
  - rewrite aq_pop_none by auto. cbn. rewrite Hv. auto.
  - destruct (aq_pop_some q a l Hv) as (Hp & Ht & Hc). rewrite Hp, Ht. auto.
Qed.

(** Both outcomes of a [push]; a rejected element is handed back. *)
Lemma aq_push_view a q :
  match fst (aq_push a q) with Ok _ => True | Err x => x = a end /\
  aq_view (snd (aq_push a q)) =
    aq_view q ++ match fst (aq_push a q) with Ok _ => [a] | Err _ => [] end.
Proof.
  destruct (Z.lt_ge_cases (Z.of_nat (length (aq_view q))) (aq_capacity q)) as [Hr | Hf].
  - destruct (aq_push_room a q Hr) as (-> & Hv & _). auto.
  - rewrite aq_push_full by lia. cbn. now rewrite app_nil_r.
Qed.

Lemma aq_push_capacity a q : aq_capacity (snd (aq_push a q)) = aq_capacity q.
Proof.
  destruct (Z.lt_ge_cases (Z.of_nat (length (aq_view q))) (aq_capacity q)) as [Hr | Hf].
  - now destruct (aq_push_room a q Hr) as (_ & _ & ->).
  - now rewrite aq_push_full by lia.
Qed.
End derived.
