(* ===== verification/Pipeline.v ===== *)
(** The market-data and order-execution pipelines
    ([src/src/strategy/pipeline.rs]).

    Both are a bounded queue with four monitoring counters, a producer handle
    that drops the oldest element when the queue is full, and a consumer
    handle.  [CountedQueue] is that component over an arbitrary element type;
    the market pipeline instantiates it with [MarketUpdate], the execution
    pipeline with [OrderRequest].  The sequential operations are here, with
    their refinement to a drop-oldest FIFO; [PipelineConc.v] interleaves the
    producer's and the consumer's atomic steps. *)
From Stdlib Require Import ZArith Lia Bool.
From stdpp Require Import base option list.
From S2P Require Import Prelude Float64 Types ArrayQueue.

Definition MARKET_QUEUE_CAPACITY : Z := 10000.
Definition ORDER_QUEUE_CAPACITY : Z := 1000.

(** ** State and operations *)
Record CountedQueue (Q : Type) := {
  cq_queue : Q;
  cq_push_count : Z;
  cq_enqueue_count : Z;
  cq_drop_count : Z;
  cq_pop_count : Z
}.
Arguments cq_queue {Q} _.
Arguments cq_push_count {Q} _.
Arguments cq_enqueue_count {Q} _.
Arguments cq_drop_count {Q} _.
Arguments cq_pop_count {Q} _.

Section operations.
Context {Q A : Type} `{ArrayQueue Q A}.

Definition set_queue (q : Q) (s : CountedQueue Q) : CountedQueue Q :=
  {| cq_queue := q; cq_push_count := cq_push_count s; cq_enqueue_count := cq_enqueue_count s;
     cq_drop_count := cq_drop_count s; cq_pop_count := cq_pop_count s |}.

(** The four [fetch_add(1, Relaxed)]. *)
Definition inc_push (s : CountedQueue Q) : CountedQueue Q :=
  {| cq_queue := cq_queue s; cq_push_count := wrap64 (cq_push_count s + 1);
     cq_enqueue_count := cq_enqueue_count s; cq_drop_count := cq_drop_count s;
     cq_pop_count := cq_pop_count s |}.
Definition inc_enqueue (s : CountedQueue Q) : CountedQueue Q :=
  {| cq_queue := cq_queue s; cq_push_count := cq_push_count s;
     cq_enqueue_count := wrap64 (cq_enqueue_count s + 1); cq_drop_count := cq_drop_count s;
     cq_pop_count := cq_pop_count s |}.
Definition inc_drop (s : CountedQueue Q) : CountedQueue Q :=
  {| cq_queue := cq_queue s; cq_push_count := cq_push_count s;
     cq_enqueue_count := cq_enqueue_count s; cq_drop_count := wrap64 (cq_drop_count s + 1);
     cq_pop_count := cq_pop_count s |}.
Definition inc_pop (s : CountedQueue Q) : CountedQueue Q :=
  {| cq_queue := cq_queue s; cq_push_count := cq_push_count s;
     cq_enqueue_count := cq_enqueue_count s; cq_drop_count := cq_drop_count s;
     cq_pop_count := wrap64 (cq_pop_count s + 1) |}.

Definition with_capacity (capacity : Z) : CountedQueue Q :=
  {| cq_queue := aq_new capacity; cq_push_count := 0; cq_enqueue_count := 0;
     cq_drop_count := 0; cq_pop_count := 0 |}.

Definition depth (s : CountedQueue Q) : Z := aq_len (cq_queue s).
Definition capacity (s : CountedQueue Q) : Z := aq_capacity (cq_queue s).
Definition is_full (s : CountedQueue Q) : bool := aq_is_full (cq_queue s).
Definition is_empty (s : CountedQueue Q) : bool := aq_is_empty (cq_queue s).

Definition push (update : A) (s : CountedQueue Q) : CountedQueue Q :=
  let s := inc_push s in
  match aq_push update (cq_queue s) with
  | (Err _, q) =>
      let s := set_queue q s in
      let s := set_queue (snd (aq_pop (cq_queue s))) s in
      let '(r, q) := aq_push update (cq_queue s) in
      let s := set_queue q s in
      let s := if is_ok r then inc_enqueue s else s in
      inc_drop s
  | (Ok _, q) => inc_enqueue (set_queue q s)
  end.

Definition try_push (update : A) (s : CountedQueue Q) : result unit A * CountedQueue Q :=
  let s := inc_push s in
  match aq_push update (cq_queue s) with
  | (Ok _, q) => (Ok tt, inc_enqueue (set_queue q s))
  | (Err update, q) => (Err update, set_queue q s)
  end.

Definition pop (s : CountedQueue Q) : option A * CountedQueue Q :=
  match aq_pop (cq_queue s) with
  | (Some update, q) => (Some update, inc_pop (set_queue q s))
  | (None, q) => (None, set_queue q s)
  end.

(** [for _ in 0..max_batch] with the [break] on an empty queue. *)
Fixpoint pop_batch (max_batch : nat) (s : CountedQueue Q) : list A * CountedQueue Q :=
  match max_batch with
  | O => ([], s)
  | S n =>
      match pop s with
      | (Some update, s') => let '(batch, s'') := pop_batch n s' in (update :: batch, s'')
      | (None, s') => ([], s')
      end
  end.
End operations.

(** ** Metrics snapshot *)
Record PipelineMetrics := {
  mt_push_count : Z;
  mt_enqueue_count : Z;
  mt_drop_count : Z;
  mt_pop_count : Z;
  mt_queue_depth : Z;
  mt_queue_capacity : Z
}.

Definition metrics {Q A} `{ArrayQueue Q A} (s : CountedQueue Q) : PipelineMetrics :=
  {| mt_push_count := cq_push_count s; mt_enqueue_count := cq_enqueue_count s;
     mt_drop_count := cq_drop_count s; mt_pop_count := cq_pop_count s;
     mt_queue_depth := depth s; mt_queue_capacity := capacity s |}.

Definition drop_rate (m : PipelineMetrics) : f64 :=
  if (mt_push_count m =? 0)%Z then 0.0%f64
  else ((f_of_Z (mt_drop_count m) / f_of_Z (mt_push_count m)) * 100.0%f64)%F.

Definition utilization (m : PipelineMetrics) : f64 :=
  ((f_of_Z (mt_queue_depth m) / f_of_Z (mt_queue_capacity m)) * 100.0%f64)%F.

Definition is_backpressure (m : PipelineMetrics) : bool :=
  (utilization m >? 80.0%f64)%F || (drop_rate m >? 1.0%f64)%F.

(** ** The two pipelines *)
Section instances.
Context {MQ OQ : Type} `{ArrayQueue MQ MarketUpdate} `{ArrayQueue OQ OrderRequest}.

Definition MarketPipeline_new : CountedQueue MQ := with_capacity MARKET_QUEUE_CAPACITY.
Definition MarketProducer_push : MarketUpdate -> CountedQueue MQ -> CountedQueue MQ := push.
Definition MarketProducer_try_push :
  MarketUpdate -> CountedQueue MQ -> result unit MarketUpdate * CountedQueue MQ := try_push.
Definition MarketConsumer_pop : CountedQueue MQ -> option MarketUpdate * CountedQueue MQ := pop.
Definition MarketConsumer_pop_batch :
  nat -> CountedQueue MQ -> list MarketUpdate * CountedQueue MQ := pop_batch.

Definition ExecutionPipeline_new : CountedQueue OQ := with_capacity ORDER_QUEUE_CAPACITY.
Definition OrderProducer_submit : OrderRequest -> CountedQueue OQ -> CountedQueue OQ := push.
Definition OrderProducer_try_submit :
  OrderRequest -> CountedQueue OQ -> result unit OrderRequest * CountedQueue OQ := try_push.
Definition OrderConsumer_pop : CountedQueue OQ -> option OrderRequest * CountedQueue OQ := pop.
Definition OrderConsumer_pop_batch :
  nat -> CountedQueue OQ -> list OrderRequest * CountedQueue OQ := pop_batch.
End instances.

(** ** Abstract specification: a drop-oldest FIFO over lists *)
Definition fifo_append {A} (cap : nat) (l : list A) (a : A) : list A :=
  if (length l <? cap)%nat then l ++ [a] else tail l ++ [a].

(** Pushing a sequence keeps the newest elements that fit. *)
Lemma fifo_append_lastn {A} c (l : list A) a :
  (0 < c)%nat -> (length l <= c)%nat ->
  fifo_append c l a = drop (length (l ++ [a]) - c) (l ++ [a]).
Proof.
  intros Hc Hl. unfold fifo_append. rewrite length_app. cbn [length].
  destruct (Nat.ltb_spec (length l) c).
  - replace (length l + 1 - c)%nat with 0%nat by lia. now rewrite drop_0.
  - replace (length l + 1 - c)%nat with 1%nat by lia.
    destruct l; cbn in *; [lia | reflexivity].
Qed.

Lemma fifo_appends_lastn {A} c (l l0 : list A) :
  (0 < c)%nat -> (length l0 <= c)%nat ->
  fold_left (fifo_append c) l l0 = drop (length (l0 ++ l) - c) (l0 ++ l).
Proof.
  intros Hc. revert l0. induction l as [| a l IH]; intros l0 Hl; cbn.
  - rewrite app_nil_r. replace (length l0 - c)%nat with 0%nat by lia. now rewrite drop_0.
  - rewrite fifo_append_lastn by assumption.
    replace (l0 ++ a :: l) with ((l0 ++ [a]) ++ l) by now rewrite <- app_assoc.
    set (x := l0 ++ [a]).
    assert (Hx : (length x <= S c)%nat) by (unfold x; rewrite length_app; cbn; lia).
    rewrite IH by (rewrite length_drop; lia). rewrite !length_app, length_drop.
    destruct (Nat.le_gt_cases (length x) c).
    + replace (length x - c)%nat with 0%nat by lia. rewrite drop_0. do 2 f_equal. lia.
    + rewrite <- (drop_app_le x l) by lia. rewrite drop_drop. f_equal. lia.
Qed.

(** ** Refinement lemmas *)
Section refinement.
Context {Q A : Type} `{ArrayQueueLaws Q A}.

Abbreviation view s := (aq_view (cq_queue s)).
Abbreviation cap s := (Z.to_nat (capacity s)).

Lemma cap_pos (s : CountedQueue Q) : (0 < cap s)%nat.
Proof. unfold capacity. pose proof (aq_capacity_pos (cq_queue s)). lia. Qed.

Lemma view_bound (s : CountedQueue Q) : (length (view s) <= cap s)%nat.
Proof. unfold capacity. pose proof (aq_bounded (cq_queue s)). lia. Qed.

(** The two outcomes of [push]. *)
Lemma push_room (a : A) (s : CountedQueue Q) :
  (length (view s) < cap s)%nat ->
  view (push a s) = view s ++ [a] /\ capacity (push a s) = capacity s /\
  cq_enqueue_count (push a s) = wrap64 (cq_enqueue_count s + 1) /\
  cq_drop_count (push a s) = cq_drop_count s.
Proof.
  intros Hr. unfold capacity in Hr. unfold push. cbn.
  destruct (aq_push_room a (cq_queue s)) as (Hp & Hv & Hc); [lia |].
  destruct (aq_push a (cq_queue s)) as [r q]. cbn in *. subst r. cbn. auto.
Qed.

Lemma push_full (a : A) (s : CountedQueue Q) :
  length (view s) = cap s ->
  view (push a s) = tail (view s) ++ [a] /\ capacity (push a s) = capacity s /\
  cq_enqueue_count (push a s) = wrap64 (cq_enqueue_count s + 1) /\
  cq_drop_count (push a s) = wrap64 (cq_drop_count s + 1).
Proof.
  intros Hr. unfold capacity in Hr. unfold push. cbn.
  assert (Hfull : (aq_capacity (cq_queue s) <= Z.of_nat (length (view s)))%Z) by lia.
  rewrite aq_push_full by exact Hfull. cbn.
  destruct (aq_full_pop _ Hfull) as (x & l & Hv & _ & Hv' & Hc' & Hlt).
  destruct (aq_push_room a (snd (aq_pop (cq_queue s)))) as (Hp & Hw & Hc).
  { rewrite Hv', Hc'. lia. }
  destruct (aq_push a (snd (aq_pop (cq_queue s)))) as [r q]. cbn in *. subst r. cbn.
  rewrite Hw, Hv', Hv. unfold capacity. cbn. rewrite Hc, Hc'. auto.
Qed.

Lemma push_push_count (a : A) (s : CountedQueue Q) :
  cq_push_count (push a s) = wrap64 (cq_push_count s + 1) /\
  cq_pop_count (push a s) = cq_pop_count s.
Proof.
  unfold push. destruct (aq_push a _) as [[[]|?] q]; cbn; auto.
  destruct (aq_push a _) as [[[]|?] q']; cbn; auto.
Qed.

Lemma push_view (a : A) (s : CountedQueue Q) :
  view (push a s) = fifo_append (cap s) (view s) a.
Proof.
  unfold fifo_append. destruct (Nat.ltb_spec (length (view s)) (cap s)).
  - now apply push_room.
  - apply push_full. pose proof (view_bound s). lia.
Qed.

Lemma push_capacity (a : A) (s : CountedQueue Q) : capacity (push a s) = capacity s.
Proof.
  destruct (Nat.ltb_spec (length (view s)) (cap s)) as [Hr | Hr].
  - now apply push_room.
  - apply push_full. pose proof (view_bound s). lia.
Qed.

Lemma pop_spec (s : CountedQueue Q) :
  fst (pop s) = head (view s) /\ view (snd (pop s)) = tail (view s) /\
  capacity (snd (pop s)) = capacity s.
Proof.
  unfold pop. destruct (aq_pop_view (cq_queue s)) as (Ht & Hh & Hc).
  destruct (aq_pop (cq_queue s)) as [[a|] q]; cbn in *; auto.
Qed.

Lemma pop_batch_spec n (s : CountedQueue Q) :
  fst (pop_batch n s) = take n (view s) /\ view (snd (pop_batch n s)) = drop n (view s).
Proof.
  revert s. induction n as [| n IH]; intros s; [now rewrite take_0, drop_0 |].
  cbn. destruct (pop_spec s) as (Hh & Ht & _).
  destruct (pop s) as [[a|] s'] eqn:Hp; cbn in *.
  - destruct (IH s') as [IH1 IH2]. destruct (pop_batch n s') as [b s'']; cbn in *.
    destruct (view s) as [| x l]; cbn in *; [discriminate |].
    injection Hh as ->. rewrite IH1, IH2, Ht. auto.
  - destruct (view s) as [| x l]; cbn in *; [| discriminate]. auto.
Qed.

Lemma pushes_view (l : list A) (s : CountedQueue Q) :
  view (fold_left (fun s a => push a s) l s) =
    drop (length (view s ++ l) - cap s) (view s ++ l) /\
  capacity (fold_left (fun s a => push a s) l s) = capacity s.
Proof.
  rewrite <- fifo_appends_lastn by auto using cap_pos, view_bound.
  revert s. induction l as [| a l IH]; intros s; cbn; [auto |].
  destruct (IH (push a s)) as [-> ->]. now rewrite push_capacity, push_view.
Qed.
End refinement.

#[export] Hint Resolve push_capacity : arb.
