(* ===== verification/PipelineConc.v ===== *)
(** One producer thread and one consumer thread on a shared pipeline
    ([src/src/strategy/pipeline.rs], [MarketProducer::push] and
    [MarketConsumer::pop]).

    Every atomic action of the two handles (a counter [fetch_add], a queue
    [push], a queue [pop]) is one step, and the steps of the two threads
    interleave freely.  The configuration carries history variables: the
    elements sent, enqueued, and removed in order with who removed them. *)
From Stdlib Require Import ZArith Lia Bool.
From stdpp Require Import base option list.
From S2P Require Import Prelude Float64 Types ArrayQueue Pipeline.

(** Where the producer is inside [push]. *)
Inductive producer_pc (A : Type) :=
| PIdle                       (* between calls *)
| PPush (a : A)               (* before the first [queue.push] *)
| PEvict (a : A)              (* the queue was full: before [queue.pop] *)
| PRetry (a : A)              (* before the second [queue.push] *)
| PCountEnq (retried : bool)  (* before [enqueue_count.fetch_add] *)
| PCountDrop.                 (* before [drop_count.fetch_add] *)
Arguments PIdle {A}.
Arguments PPush {A} a.
Arguments PEvict {A} a.
Arguments PRetry {A} a.
Arguments PCountEnq {A} retried.
Arguments PCountDrop {A}.

(** Where the consumer is inside [pop]. *)
Inductive consumer_pc := CIdle | CCount.

Inductive remover := ByConsumer | ByProducer.

#[export] Instance remover_eq_dec : EqDecision remover.
Proof. solve_decision. Defined.

Record config (Q A : Type) := {
  cf_pipe : CountedQueue Q;
  cf_prod : producer_pc A;
  cf_cons : consumer_pc;
  cf_sent : list A;                (* arguments of the [push] calls so far *)
  cf_enq : list A;                 (* elements the queue accepted *)
  cf_out : list (remover * A);     (* elements removed, in order *)
  cf_retries : Z                   (* [push] calls that found the queue full *)
}.
Arguments cf_pipe {Q A} _.
Arguments cf_prod {Q A} _.
Arguments cf_cons {Q A} _.
Arguments cf_sent {Q A} _.
Arguments cf_enq {Q A} _.
Arguments cf_out {Q A} _.
Arguments cf_retries {Q A} _.

Section interleaving.
Context {Q A : Type} `{ArrayQueueLaws Q A}.

Definition conf := config Q A.

Definition init (c : Z) : conf :=
  {| cf_pipe := with_capacity c; cf_prod := PIdle; cf_cons := CIdle;
     cf_sent := []; cf_enq := []; cf_out := []; cf_retries := 0 |}.

Definition log_out (r : remover) (x : option A) (out : list (remover * A)) : list (remover * A) :=
  match x with Some a => out ++ [(r, a)] | None => out end.

(** The producer's next atomic action; [None] when it is between calls. *)
Definition producer_step (s : conf) : option conf :=
  let p := cf_pipe s in
  match cf_prod s with
  | PIdle => None
  | PPush a =>
      match aq_push a (cq_queue p) with
      | (Ok _, q) =>
          Some {| cf_pipe := set_queue q p; cf_prod := PCountEnq false; cf_cons := cf_cons s;
                  cf_sent := cf_sent s; cf_enq := cf_enq s ++ [a]; cf_out := cf_out s;
                  cf_retries := cf_retries s |}
      | (Err _, q) =>
          Some {| cf_pipe := set_queue q p; cf_prod := PEvict a; cf_cons := cf_cons s;
                  cf_sent := cf_sent s; cf_enq := cf_enq s; cf_out := cf_out s;
                  cf_retries := cf_retries s + 1 |}
      end
  | PEvict a =>
      let '(x, q) := aq_pop (cq_queue p) in
      Some {| cf_pipe := set_queue q p; cf_prod := PRetry a; cf_cons := cf_cons s;
              cf_sent := cf_sent s; cf_enq := cf_enq s; cf_out := log_out ByProducer x (cf_out s);
              cf_retries := cf_retries s |}
  | PRetry a =>
      match aq_push a (cq_queue p) with
      | (Ok _, q) =>
          Some {| cf_pipe := set_queue q p; cf_prod := PCountEnq true; cf_cons := cf_cons s;
                  cf_sent := cf_sent s; cf_enq := cf_enq s ++ [a]; cf_out := cf_out s;
                  cf_retries := cf_retries s |}
      | (Err _, q) =>
          Some {| cf_pipe := set_queue q p; cf_prod := PCountDrop; cf_cons := cf_cons s;
                  cf_sent := cf_sent s; cf_enq := cf_enq s; cf_out := cf_out s;
                  cf_retries := cf_retries s |}
      end
  | PCountEnq retried =>
      Some {| cf_pipe := inc_enqueue p; cf_prod := if retried then PCountDrop else PIdle;
              cf_cons := cf_cons s; cf_sent := cf_sent s; cf_enq := cf_enq s;
              cf_out := cf_out s; cf_retries := cf_retries s |}
  | PCountDrop =>
      Some {| cf_pipe := inc_drop p; cf_prod := PIdle; cf_cons := cf_cons s;
              cf_sent := cf_sent s; cf_enq := cf_enq s; cf_out := cf_out s;
              cf_retries := cf_retries s |}
  end.

(** A call of [push(a)]: the counter is bumped and the first attempt is next. *)
Definition call_push (a : A) (s : conf) : conf :=
  {| cf_pipe := inc_push (cf_pipe s); cf_prod := PPush a; cf_cons := cf_cons s;
     cf_sent := cf_sent s ++ [a]; cf_enq := cf_enq s; cf_out := cf_out s;
     cf_retries := cf_retries s |}.

(** The consumer's next atomic action. *)
Definition consumer_step (s : conf) : conf :=
  let p := cf_pipe s in
  match cf_cons s with
  | CIdle =>
      let '(x, q) := aq_pop (cq_queue p) in
      {| cf_pipe := set_queue q p; cf_prod := cf_prod s;
         cf_cons := match x with Some _ => CCount | None => CIdle end;
         cf_sent := cf_sent s; cf_enq := cf_enq s; cf_out := log_out ByConsumer x (cf_out s);
         cf_retries := cf_retries s |}
  | CCount =>
      {| cf_pipe := inc_pop p; cf_prod := cf_prod s; cf_cons := CIdle;
         cf_sent := cf_sent s; cf_enq := cf_enq s; cf_out := cf_out s;
         cf_retries := cf_retries s |}
  end.

Inductive step : conf -> conf -> Prop :=
| step_call a s : cf_prod s = PIdle -> step s (call_push a s)
| step_producer s s' : producer_step s = Some s' -> step s s'
| step_consumer s : step s (consumer_step s).

Definition reachable (c : Z) (s : conf) : Prop := star step (init c) s.

(** ** Observations *)
Definition received (s : conf) : list A := (filter (fun x => x.1 = ByConsumer) (cf_out s)).*2.
Definition evicted (s : conf) : list A := (filter (fun x => x.1 = ByProducer) (cf_out s)).*2.

(** The element a [push] in progress has not placed yet. *)
Definition in_hand (pc : producer_pc A) : list A :=
  match pc with PPush a | PEvict a | PRetry a => [a] | _ => [] end.

Definition owed_enq (pc : producer_pc A) : Z :=
  match pc with PCountEnq _ => 1 | _ => 0 end.
Definition owed_drop (pc : producer_pc A) : Z :=
  match pc with PEvict _ | PRetry _ | PCountEnq true | PCountDrop => 1 | _ => 0 end.
Definition owed_pop (pc : consumer_pc) : Z :=
  match pc with CCount => 1 | CIdle => 0 end.

Record invariant (c : Z) (s : conf) : Prop := {
  inv_capacity : aq_capacity (cq_queue (cf_pipe s)) = c;
  inv_order : (cf_out s).*2 ++ aq_view (cq_queue (cf_pipe s)) = cf_enq s;
  inv_no_loss : cf_enq s ++ in_hand (cf_prod s) = cf_sent s;
  inv_room : forall a, cf_prod s = PRetry a ->
    (Z.of_nat (length (aq_view (cq_queue (cf_pipe s)))) < c)%Z;
  inv_push : cq_push_count (cf_pipe s) = wrap64 (Z.of_nat (length (cf_sent s)));
  inv_enqueue : cq_enqueue_count (cf_pipe s) =
    wrap64 (Z.of_nat (length (cf_enq s)) - owed_enq (cf_prod s));
  inv_drop : cq_drop_count (cf_pipe s) = wrap64 (cf_retries s - owed_drop (cf_prod s));
  inv_pop : cq_pop_count (cf_pipe s) =
    wrap64 (Z.of_nat (length (received s)) - owed_pop (cf_cons s));
  inv_evicted : (Z.of_nat (length (evicted s)) +
    match cf_prod s with PEvict _ => 1 | _ => 0 end <= cf_retries s)%Z
}.

Lemma init_invariant c : (0 < c)%Z -> invariant c (init c).
Proof.
  intros Hc. split; cbn; try reflexivity; try discriminate.
  - now apply aq_new_capacity.
  - now apply aq_new_view.
Qed.

Lemma log_out_received r x out :
  (filter (fun y => y.1 = ByConsumer) (log_out r x out)).*2 =
  (filter (fun y => y.1 = ByConsumer) out).*2 ++
    match r, x with ByConsumer, Some a => [a] | _, _ => [] end.
Proof.
  destruct x as [a|]; cbn; [| now destruct r; rewrite app_nil_r].
  rewrite filter_app, fmap_app. f_equal.
  destruct r; [now rewrite filter_cons_True | now rewrite filter_cons_False].
Qed.

Lemma log_out_evicted r x out :
  (filter (fun y => y.1 = ByProducer) (log_out r x out)).*2 =
  (filter (fun y => y.1 = ByProducer) out).*2 ++
    match r, x with ByProducer, Some a => [a] | _, _ => [] end.
Proof.
  destruct x as [a|]; cbn; [| now destruct r; rewrite app_nil_r].
  rewrite filter_app, fmap_app. f_equal.
  destruct r; [now rewrite filter_cons_False | now rewrite filter_cons_True].
Qed.

Lemma log_out_pop r (q : Q) out :
  (log_out r (fst (aq_pop q)) out).*2 ++ aq_view (snd (aq_pop q)) = out.*2 ++ aq_view q.
Proof.
  destruct (aq_pop_view q) as (-> & -> & _).
  destruct (aq_view q) as [|a l]; cbn; [reflexivity |].
  rewrite fmap_app. cbn. now rewrite <- app_assoc.
Qed.

Lemma call_invariant c a s :
  cf_prod s = PIdle -> invariant c s -> invariant c (call_push a s).
Proof.
  intros Hp [Hc Ho Hn Hr Hpu He Hd Hpo Hev]. rewrite Hp in *. cbn in *.
  split; cbn; auto; try discriminate.
  - rewrite <- Hn, app_nil_r. reflexivity.
  - rewrite Hpu, wrap64_add_l, length_app. cbn. f_equal. lia.
Qed.

Lemma consumer_invariant c s : invariant c s -> invariant c (consumer_step s).
Proof.
  intros [Hc Ho Hn Hr Hpu He Hd Hpo Hev]. unfold consumer_step.
  destruct (cf_cons s) eqn:Hcons; cbn in Hpo.
  - destruct (aq_pop_view (cq_queue (cf_pipe s))) as (Ht & Hh & Hcap).
    pose proof (log_out_pop ByConsumer (cq_queue (cf_pipe s)) (cf_out s)) as Hlog.
    destruct (aq_pop (cq_queue (cf_pipe s))) as [x q]. cbn in *.
    split; cbn; auto; try congruence.
    + intros a Ha. specialize (Hr a Ha). rewrite Ht.
      destruct (aq_view (cq_queue (cf_pipe s))); cbn in *; lia.
    + unfold received in *. cbn. rewrite log_out_received, length_app, Hpo.
      destruct x; cbn; f_equal; lia.
    + unfold evicted in *. cbn. rewrite log_out_evicted, length_app. destruct x; cbn; lia.
  - split; cbn; auto. unfold received in *. cbn. rewrite Hpo, wrap64_add_l. f_equal. lia.
Qed.

Lemma producer_invariant c s s' :
  producer_step s = Some s' -> invariant c s -> invariant c s'.
Proof.
  intros Hs [Hc Ho Hn Hr Hpu He Hd Hpo Hev]. unfold producer_step in Hs.
  destruct (cf_prod s) as [| a | a | a | retried |] eqn:Hp; cbn in *; [discriminate | ..].
  - (* first attempt *)
    destruct (Z.lt_ge_cases (Z.of_nat (length (aq_view (cq_queue (cf_pipe s))))) c) as [Hlt | Hge].
    + destruct (aq_push_room a (cq_queue (cf_pipe s))) as (Hok & Hv & Hcap); [lia |].
      destruct (aq_push a _) as [r q]. cbn in *. subst r. injection Hs as <-.
      split; cbn; auto; try discriminate.
      * congruence.
      * rewrite Hv, app_assoc. congruence.
      * now rewrite app_nil_r.
      * rewrite He, length_app. cbn. f_equal. lia.
    + rewrite aq_push_full in Hs by lia. injection Hs as <-.
      split; cbn; auto; try discriminate.
      * rewrite Hd. f_equal. lia.
      * unfold evicted in *. cbn. lia.
  - (* eviction *)
    destruct (aq_pop_view (cq_queue (cf_pipe s))) as (Ht & Hh & Hcap).
    pose proof (log_out_pop ByProducer (cq_queue (cf_pipe s)) (cf_out s)) as Hlog.
    pose proof (aq_bounded (cq_queue (cf_pipe s))) as Hbd.
    pose proof (aq_capacity_pos (cq_queue (cf_pipe s))) as Hpos.
    destruct (aq_pop (cq_queue (cf_pipe s))) as [x q]. cbn in *. injection Hs as <-.
    split; cbn; auto; try congruence.
    + intros _ _. rewrite Ht. destruct (aq_view (cq_queue (cf_pipe s))); cbn in *; lia.
    + unfold received in *. cbn. rewrite log_out_received, length_app, Hpo.
      destruct x; cbn; f_equal; lia.
    + unfold evicted in *. cbn. rewrite log_out_evicted, length_app. destruct x; cbn; lia.
  - (* retry: there is room, so it cannot fail *)
    specialize (Hr a eq_refl).
    destruct (aq_push_room a (cq_queue (cf_pipe s))) as (Hok & Hv & Hcap); [lia |].
    destruct (aq_push a _) as [r q]. cbn in *. subst r. injection Hs as <-.
    split; cbn; auto; try discriminate.
    * congruence.
    * rewrite Hv, app_assoc. congruence.
    * now rewrite app_nil_r.
    * rewrite He, length_app. cbn. f_equal. lia.
  - injection Hs as <-. destruct retried; cbn in *; split; cbn; auto; try discriminate.
    all: rewrite He, wrap64_add_l; f_equal; lia.
  - injection Hs as <-. split; cbn; auto; try discriminate.
    rewrite Hd, wrap64_add_l. f_equal. lia.
Qed.

Lemma step_invariant c s s' : invariant c s -> step s s' -> invariant c s'.
Proof. intros Hi Hs. inversion Hs; subst; eauto using call_invariant, producer_invariant, consumer_invariant. Qed.

Lemma reachable_invariant c s : (0 < c)%Z -> reachable c s -> invariant c s.
Proof. intros Hc. apply star_invariant; eauto using init_invariant, step_invariant. Qed.

Lemma received_sublist (s : conf) : received s `sublist_of` (cf_out s).*2.
Proof.
  unfold received. induction (cf_out s) as [| [r a] l IH]; [constructor |].
  rewrite filter_cons. case_decide; cbn; now constructor.
Qed.

(** C20. Single producer, single consumer: in every reachable interleaving with
    no [push] in progress, no update is lost, duplicated or reordered: what the
    consumer popped and what backpressure evicted, followed by what is still
    queued, is exactly the sequence of updates pushed; the retry after an
    eviction therefore never fails. *)
Theorem spsc_no_loss c s :
  (0 < c)%Z -> reachable c s -> cf_prod s = PIdle ->
  (cf_out s).*2 ++ aq_view (cq_queue (cf_pipe s)) = cf_sent s /\
  received s `sublist_of` cf_sent s /\
  (Z.of_nat (length (aq_view (cq_queue (cf_pipe s)))) <= c)%Z.
Proof.
  intros Hc Hr Hp. destruct (reachable_invariant c s Hc Hr) as [Hcap Ho Hn _ _ _ _ _ _].
  rewrite Hp in Hn. cbn in Hn. rewrite app_nil_r in Hn.
  pose proof (aq_bounded (cq_queue (cf_pipe s))).
  split; [congruence |]. split; [| lia].
  rewrite <- Hn, <- Ho. apply sublist_inserts_r, received_sublist.
Qed.

(** Counters: with neither thread inside a call, [push_count] and
    [enqueue_count] both count the updates pushed, [pop_count] counts the
    updates received, and [drop_count] counts the calls that found the queue
    full, which is at least the number of updates really evicted (all modulo
    2^64, the width of the counters). *)
Theorem spsc_counters c s :
  (0 < c)%Z -> reachable c s -> cf_prod s = PIdle -> cf_cons s = CIdle ->
  cq_push_count (cf_pipe s) = wrap64 (Z.of_nat (length (cf_sent s))) /\
  cq_enqueue_count (cf_pipe s) = cq_push_count (cf_pipe s) /\
  cq_pop_count (cf_pipe s) = wrap64 (Z.of_nat (length (received s))) /\
  cq_drop_count (cf_pipe s) = wrap64 (cf_retries s) /\
  (Z.of_nat (length (evicted s)) <= cf_retries s)%Z.
Proof.
  intros Hc Hr Hp Hcs. destruct (reachable_invariant c s Hc Hr) as [_ _ Hn _ Hpu He Hd Hpo Hev].
  rewrite Hp, Hcs in *. cbn in *. rewrite app_nil_r in Hn. subst.
  rewrite Hpu, He, Hn, Hpo, Hd. repeat split; try (f_equal; lia).
Qed.
End interleaving.

(** ** Witnesses on a two-slot queue *)
Section witness.
#[local] Open Scope Z_scope.
Let LQ := list_queue Z.

(** Executes [n] producer actions. *)
Fixpoint run_producer (n : nat) (s : config LQ Z) : config LQ Z :=
  match n with
  | O => s
  | S n => match producer_step s with Some s' => run_producer n s' | None => s end
  end.

Lemma run_producer_star n (a s : config LQ Z) : star step a s -> star step a (run_producer n s).
Proof.
  revert s. induction n as [| n IH]; intros s H; cbn; [exact H |].
  destruct (producer_step s) as [s' |] eqn:E; [| exact H].
  apply IH. eapply star_step; [exact H | now constructor].
Qed.

Definition three_pushes : config LQ Z :=
  run_producer 6 (call_push 3 (run_producer 6 (call_push 2 (run_producer 6 (call_push 1 (init 2)))))).

Lemma three_pushes_reachable : reachable 2 three_pushes.
Proof.
  unfold reachable, three_pushes.
  apply run_producer_star; eapply star_step; [| now constructor].
  apply run_producer_star; eapply star_step; [| now constructor].
  apply run_producer_star; eapply star_step; [constructor | now constructor].
Qed.

(** The schedule in which the consumer empties the slot between the failed
    attempt and the eviction. *)
Definition raced : config LQ Z :=
  consumer_step (run_producer 6 (consumer_step (consumer_step (run_producer 1
    (call_push 2 (run_producer 6 (call_push 1 (init 1)))))))).

Lemma raced_reachable : reachable 1 raced.
Proof.
  unfold reachable, raced.
  eapply star_step; [| apply step_consumer].
  apply run_producer_star.
  eapply star_step; [| apply step_consumer]. eapply star_step; [| apply step_consumer].
  apply run_producer_star; eapply star_step; [| now constructor].
  apply run_producer_star; eapply star_step; [constructor | now constructor].
Qed.

Lemma spsc_no_loss_witness :
  aq_view (cq_queue (cf_pipe three_pushes)) = [2; 3] /\
  (cf_out three_pushes).*2 ++ aq_view (cq_queue (cf_pipe three_pushes)) = [1; 2; 3].
Proof.
  split; [reflexivity |].
  exact (proj1 (spsc_no_loss 2 three_pushes eq_refl three_pushes_reachable eq_refl)).
Defined.

Lemma spsc_counters_witness :
  cq_drop_count (cf_pipe three_pushes) = 1 /\ cq_enqueue_count (cf_pipe three_pushes) = 3.
Proof.
  destruct (spsc_counters 2 three_pushes eq_refl three_pushes_reachable eq_refl eq_refl)
    as (H1 & H2 & _ & H4 & _).
  split; [exact H4 | rewrite H2; exact H1].
Defined.

(** [drop_count] is not the number of updates dropped: in a reachable
    interleaving of one producer and one consumer it is 1 although every
    update pushed was received or is on its way to the consumer. *)
Theorem drop_count_overcounts :
  exists s : config (list_queue Z) Z, reachable 1 s /\ cf_prod s = PIdle /\
    cq_drop_count (cf_pipe s) = 1 /\ evicted s = [] /\ received s = cf_sent s.
Proof. exists raced. split; [exact raced_reachable | repeat split; reflexivity]. Qed.
End witness.
