(* ===== verification/OpportunityQueue.v ===== *)
(** The opportunity queue ([src/src/strategy/opportunity_queue.rs]): the
    detector pushes, any number of consumers compete for the elements.

    The sequential operations come first, with their refinement to the
    drop-oldest FIFO of [Pipeline.v].  The documentation allows several
    producers, so the second part interleaves the atomic actions of any number
    of producer threads with those of the consumers. *)
From Stdlib Require Import ZArith Lia Bool.
From stdpp Require Import base option list sorting.
From S2P Require Import Prelude Float64 Types ArrayQueue Pipeline.

(** ** State and operations *)
Record OpportunityQueue (Q : Type) := {
  oq_queue : Q;
  oq_push_count : Z;
  oq_pop_count : Z;
  oq_drop_count : Z
}.
Arguments oq_queue {Q} _.
Arguments oq_push_count {Q} _.
Arguments oq_pop_count {Q} _.
Arguments oq_drop_count {Q} _.

Section operations.
Context {Q A : Type} `{ArrayQueue Q A}.

Definition oq_with_capacity (capacity : Z) : OpportunityQueue Q :=
  {| oq_queue := aq_new capacity; oq_push_count := 0; oq_pop_count := 0; oq_drop_count := 0 |}.

Definition oq_new : OpportunityQueue Q := oq_with_capacity 1024.

Definition oq_set (q : Q) (s : OpportunityQueue Q) : OpportunityQueue Q :=
  {| oq_queue := q; oq_push_count := oq_push_count s; oq_pop_count := oq_pop_count s;
     oq_drop_count := oq_drop_count s |}.
Definition oq_inc_push (s : OpportunityQueue Q) : OpportunityQueue Q :=
  {| oq_queue := oq_queue s; oq_push_count := wrap64 (oq_push_count s + 1);
     oq_pop_count := oq_pop_count s; oq_drop_count := oq_drop_count s |}.
Definition oq_inc_pop (s : OpportunityQueue Q) : OpportunityQueue Q :=
  {| oq_queue := oq_queue s; oq_push_count := oq_push_count s;
     oq_pop_count := wrap64 (oq_pop_count s + 1); oq_drop_count := oq_drop_count s |}.
Definition oq_inc_drop (s : OpportunityQueue Q) : OpportunityQueue Q :=
  {| oq_queue := oq_queue s; oq_push_count := oq_push_count s;
     oq_pop_count := oq_pop_count s; oq_drop_count := wrap64 (oq_drop_count s + 1) |}.

Definition oq_len (s : OpportunityQueue Q) : Z := aq_len (oq_queue s).
Definition oq_is_empty (s : OpportunityQueue Q) : bool := aq_is_empty (oq_queue s).

Definition oq_push (opportunity : A) (s : OpportunityQueue Q) : OpportunityQueue Q :=
  let s := oq_inc_push s in
  match aq_push opportunity (oq_queue s) with
  | (Err rejected, q) =>
      let s := oq_inc_drop (oq_set (snd (aq_pop q)) s) in
      oq_set (snd (aq_push rejected (oq_queue s))) s
  | (Ok _, q) => oq_set q s
  end.

Definition oq_pop (s : OpportunityQueue Q) : option A * OpportunityQueue Q :=
  let '(opp, q) := aq_pop (oq_queue s) in
  let s := oq_set q s in
  (opp, if bool_decide (is_Some opp) then oq_inc_pop s else s).

Fixpoint oq_pop_batch (max_batch : nat) (s : OpportunityQueue Q)
  : list A * OpportunityQueue Q :=
  match max_batch with
  | O => ([], s)
  | S n =>
      match oq_pop s with
      | (Some opp, s') => let '(batch, s'') := oq_pop_batch n s' in (opp :: batch, s'')
      | (None, s') => ([], s')
      end
  end.
End operations.

(** ** Sequential refinement *)
Section refinement.
Context {Q A : Type} `{ArrayQueueLaws Q A}.

Abbreviation view s := (aq_view (oq_queue s)).
Abbreviation cap s := (Z.to_nat (aq_capacity (oq_queue s))).

Lemma oq_push_spec (a : A) (s : OpportunityQueue Q) :
  view (oq_push a s) = fifo_append (cap s) (view s) a /\
  aq_capacity (oq_queue (oq_push a s)) = aq_capacity (oq_queue s) /\
  oq_drop_count (oq_push a s) =
    (if (length (view s) <? cap s)%nat then oq_drop_count s else wrap64 (oq_drop_count s + 1)).
Proof.
  unfold oq_push, fifo_append.
  destruct (Nat.ltb_spec (length (view s)) (cap s)) as [Hr | Hr]; cbn.
  - destruct (aq_push_room a (oq_queue s)) as (Hp & Hv & Hc); [lia |].
    destruct (aq_push a (oq_queue s)) as [r q]. cbn in *. subst r. cbn. auto.
  - pose proof (aq_capacity_pos (oq_queue s)).
    assert (Hfull : (aq_capacity (oq_queue s) <= Z.of_nat (length (view s)))%Z) by lia.
    rewrite aq_push_full by exact Hfull. cbn.
    destruct (aq_full_pop _ Hfull) as (x & l & Hv & _ & Hv' & Hc' & Hlt); cbn in Hv'.
    destruct (aq_push_room a (snd (aq_pop (oq_queue s)))) as (Hp & Hw & Hc).
    { rewrite Hv', Hc'. lia. }
    rewrite Hw, Hv', Hv, Hc, Hc'. auto.
Qed.

Lemma oq_pop_spec (s : OpportunityQueue Q) :
  fst (oq_pop s) = head (view s) /\ view (snd (oq_pop s)) = tail (view s) /\
  oq_pop_count (snd (oq_pop s)) =
    (if bool_decide (view s = []) then oq_pop_count s else wrap64 (oq_pop_count s + 1)).
Proof.
  unfold oq_pop. destruct (aq_pop_view (oq_queue s)) as (Ht & Hh & _).
  destruct (aq_pop (oq_queue s)) as [x q]. cbn in *. subst x.
  destruct (view s) as [| y l]; cbn; auto.
Qed.

(** Batches drain the queue from the front. *)
Lemma oq_pop_batch_spec n (s : OpportunityQueue Q) :
  fst (oq_pop_batch n s) = take n (view s) /\ view (snd (oq_pop_batch n s)) = drop n (view s).
Proof.
  revert s. induction n as [| n IH]; intros s; [now rewrite take_0, drop_0 |].
  cbn. destruct (oq_pop_spec s) as (Hh & Ht & _).
  destruct (oq_pop s) as [[a|] s'] eqn:Hp; cbn in *.
  - destruct (IH s') as [IH1 IH2]. destruct (oq_pop_batch n s') as [b s'']; cbn in *.
    destruct (view s) as [| x l]; cbn in *; [discriminate |].
    injection Hh as ->. rewrite IH1, IH2, Ht. auto.
  - destruct (view s) as [| x l]; cbn in *; [| discriminate]. auto.
Qed.

Lemma oq_pushes_view (l : list A) (s : OpportunityQueue Q) :
  view (fold_left (fun s a => oq_push a s) l s) =
    drop (length (view s ++ l) - cap s) (view s ++ l).
Proof.
  pose proof (aq_bounded (oq_queue s)). pose proof (aq_capacity_pos (oq_queue s)).
  rewrite <- fifo_appends_lastn by lia. clear.
  revert s. induction l as [| a l IH]; intros s; cbn; [reflexivity |].
  destruct (oq_push_spec a s) as (Hv & Hc & _). now rewrite IH, Hc, Hv.
Qed.

(** A burst of pushes into an empty queue, then one batch as large as the
    capacity: the consumer gets exactly the newest opportunities, in order,
    and the queue is empty. *)
Theorem burst_keeps_newest (l : list A) (s : OpportunityQueue Q) :
  view s = [] ->
  let s' := fold_left (fun s a => oq_push a s) l s in
  fst (oq_pop_batch (cap s) s') = drop (length l - cap s) l /\
  view (snd (oq_pop_batch (cap s) s')) = [].
Proof.
  intros He s'. destruct (oq_pop_batch_spec (cap s) s') as [-> ->].
  unfold s'. rewrite oq_pushes_view, He. cbn.
  pose proof (length_drop l (length l - cap s)).
  split; [apply take_ge; lia | apply drop_ge; lia].
Qed.
End refinement.

Lemma burst_keeps_newest_witness :
  let s' := fold_left (fun s a => oq_push a s) [1; 2; 3]%Z
              (oq_with_capacity 2 : OpportunityQueue (list_queue Z)) in
  fst (oq_pop_batch 2 s') = [2; 3]%Z.
Proof.
  exact (proj1 (burst_keeps_newest [1; 2; 3]%Z
    (oq_with_capacity 2 : OpportunityQueue (list_queue Z)) eq_refl)).
Defined.

(** ** Several producers *)

(** Where a producer thread is inside [push]. *)
Inductive opp_pc (A : Type) :=
| OIdle
| OPush (a : A)        (* before the first [queue.push] *)
| OEvict (a : A)       (* rejected: before [queue.pop] *)
| OCountDrop (a : A)   (* before [drop_count.fetch_add] *)
| ORetry (a : A).      (* before the second [queue.push], whose result is ignored *)
Arguments OIdle {A}.
Arguments OPush {A} a.
Arguments OEvict {A} a.
Arguments OCountDrop {A} a.
Arguments ORetry {A} a.

Record opp_config (Q A : Type) := {
  oc_queue : OpportunityQueue Q;
  oc_pcs : list (opp_pc A);      (* one per producer thread *)
  oc_sent : list A;
  oc_received : list A;          (* popped by consumers *)
  oc_evicted : list A;           (* popped by producers *)
  oc_lost : list A               (* rejected by the second [queue.push] *)
}.
Arguments oc_queue {Q A} _.
Arguments oc_pcs {Q A} _.
Arguments oc_sent {Q A} _.
Arguments oc_received {Q A} _.
Arguments oc_evicted {Q A} _.
Arguments oc_lost {Q A} _.

Section interleaving.
Context {Q A : Type} `{ArrayQueueLaws Q A}.
Abbreviation conf := (opp_config Q A).

Definition oc_init (c : Z) (producers : nat) : conf :=
  {| oc_queue := oq_with_capacity c; oc_pcs := replicate producers OIdle; oc_sent := [];
     oc_received := []; oc_evicted := []; oc_lost := [] |}.

Definition oc_call (i : nat) (a : A) (s : conf) : conf :=
  {| oc_queue := oq_inc_push (oc_queue s); oc_pcs := <[i := OPush a]> (oc_pcs s);
     oc_sent := oc_sent s ++ [a]; oc_received := oc_received s;
     oc_evicted := oc_evicted s; oc_lost := oc_lost s |}.

(** The next atomic action of producer [i], at [pc]. *)
Definition oc_producer (i : nat) (pc : opp_pc A) (s : conf) : conf :=
  let p := oc_queue s in
  match pc with
  | OIdle => s
  | OPush a =>
      let '(r, q) := aq_push a (oq_queue p) in
      {| oc_queue := oq_set q p;
         oc_pcs := <[i := match r with Ok _ => OIdle | Err rejected => OEvict rejected end]> (oc_pcs s);
         oc_sent := oc_sent s; oc_received := oc_received s;
         oc_evicted := oc_evicted s; oc_lost := oc_lost s |}
  | OEvict a =>
      let '(x, q) := aq_pop (oq_queue p) in
      {| oc_queue := oq_set q p; oc_pcs := <[i := OCountDrop a]> (oc_pcs s);
         oc_sent := oc_sent s; oc_received := oc_received s;
         oc_evicted := oc_evicted s ++ option_list x; oc_lost := oc_lost s |}
  | OCountDrop a =>
      {| oc_queue := oq_inc_drop p; oc_pcs := <[i := ORetry a]> (oc_pcs s);
         oc_sent := oc_sent s; oc_received := oc_received s;
         oc_evicted := oc_evicted s; oc_lost := oc_lost s |}
  | ORetry a =>
      let '(r, q) := aq_push a (oq_queue p) in
      {| oc_queue := oq_set q p; oc_pcs := <[i := OIdle]> (oc_pcs s);
         oc_sent := oc_sent s; oc_received := oc_received s; oc_evicted := oc_evicted s;
         oc_lost := oc_lost s ++ match r with Ok _ => [] | Err x => [x] end |}
  end.

Definition oc_consumer (s : conf) : conf :=
  let '(x, q) := oq_pop (oc_queue s) in
  {| oc_queue := q; oc_pcs := oc_pcs s; oc_sent := oc_sent s;
     oc_received := oc_received s ++ option_list x;
     oc_evicted := oc_evicted s; oc_lost := oc_lost s |}.

Inductive oc_step : conf -> conf -> Prop :=
| oc_step_call i a s : oc_pcs s !! i = Some OIdle -> oc_step s (oc_call i a s)
| oc_step_producer i pc s : oc_pcs s !! i = Some pc -> oc_step s (oc_producer i pc s)
| oc_step_consumer s : oc_step s (oc_consumer s).

Definition opp_in_hand (pc : opp_pc A) : list A :=
  match pc with OIdle => [] | OPush a | OEvict a | OCountDrop a | ORetry a => [a] end.

Definition oc_held (s : conf) : list A := oc_pcs s ≫= opp_in_hand.

(** Where every opportunity sent is now. *)
Definition oc_everything (s : conf) : list A :=
  oc_received s ++ oc_evicted s ++ oc_lost s ++ aq_view (oq_queue (oc_queue s)) ++ oc_held s.

Lemma in_hand_insert (pcs : list (opp_pc A)) i pc pc' :
  pcs !! i = Some pc ->
  opp_in_hand pc ++ (<[i := pc']> pcs ≫= opp_in_hand) ≡ₚ
  opp_in_hand pc' ++ (pcs ≫= opp_in_hand).
Proof.
  intros Hi. rewrite (insert_take_drop pcs i pc') by eauto using lookup_lt_Some.
  rewrite <- (take_drop_middle pcs i pc Hi) at 3.
  rewrite !bind_app, !bind_cons. solve_Permutation.
Qed.

(** An element moves from one place to another: the total is unchanged. *)
Lemma conserved_step (s s' : conf) : oc_step s s' ->
  oc_sent s ≡ₚ oc_everything s -> oc_sent s' ≡ₚ oc_everything s'.
Proof.
  intros Hs Hc. unfold oc_everything, oc_held in *. destruct Hs as [i a s Hi | i pc s Hi | s].
  - pose proof (in_hand_insert _ i _ (OPush a) Hi) as Hh. cbn in *.
    rewrite Hh, Hc. solve_Permutation.
  - destruct pc as [| a | a | a | a]; cbn; [exact Hc | ..].
    + destruct (aq_push_view a (oq_queue (oc_queue s))) as [Hp Hv].
      destruct (aq_push a _) as [r q]; cbn in *. rewrite Hv.
      destruct r as [u | x]; cbn in *.
      * pose proof (in_hand_insert _ i _ OIdle Hi) as Hh. cbn in Hh. rewrite Hc, <- Hh.
        solve_Permutation.
      * pose proof (in_hand_insert _ i _ (OEvict x) Hi) as Hh. cbn in Hh. subst x.
        apply Permutation_cons_inv in Hh. rewrite Hc, Hh. solve_Permutation.
    + destruct (aq_pop_view (oq_queue (oc_queue s))) as (Ht & Hhd & _).
      destruct (aq_pop _) as [x q]; cbn in *.
      pose proof (in_hand_insert _ i _ (OCountDrop a) Hi) as Hh. cbn in Hh.
      apply Permutation_cons_inv in Hh. rewrite Hc, Hh, Ht, Hhd.
      destruct (aq_view (oq_queue (oc_queue s))); cbn; solve_Permutation.
    + pose proof (in_hand_insert _ i _ (ORetry a) Hi) as Hh. cbn in Hh.
      apply Permutation_cons_inv in Hh. now rewrite Hc, Hh.
    + destruct (aq_push_view a (oq_queue (oc_queue s))) as [Hp Hv].
      pose proof (in_hand_insert _ i _ OIdle Hi) as Hh. cbn in Hh.
      destruct (aq_push a _) as [r q]; cbn in *. rewrite Hv, Hc, <- Hh.
      destruct r as [u | x]; cbn in *; [| subst x]; solve_Permutation.
  - unfold oc_consumer. destruct (oq_pop_spec (oc_queue s)) as (Hh & Ht & _).
    destruct (oq_pop _) as [x q]; cbn in *. rewrite Hc, Ht, Hh.
    destruct (aq_view (oq_queue (oc_queue s))); cbn; solve_Permutation.
Qed.

Definition oc_reachable (c : Z) (n : nat) (s : conf) : Prop := star oc_step (oc_init c n) s.

Lemma bind_idle n : (replicate n OIdle : list (opp_pc A)) ≫= opp_in_hand = [].
Proof. induction n; cbn; auto. Qed.

Lemma reachable_conserved c n s :
  (0 < c)%Z -> oc_reachable c n s -> oc_sent s ≡ₚ oc_everything s.
Proof.
  intros Hc. apply (star_invariant oc_step (fun s => oc_sent s ≡ₚ oc_everything s)); [| eauto using conserved_step].
  unfold oc_everything, oc_held. cbn. rewrite aq_new_view, bind_idle by exact Hc. reflexivity.
Qed.

(** The invariant of a single producer: a retry always finds room. *)
Definition single_ok (c : Z) (s : conf) : Prop :=
  aq_capacity (oq_queue (oc_queue s)) = c /\ oc_lost s = [] /\
  exists pc, oc_pcs s = [pc] /\
    match pc with
    | OCountDrop _ | ORetry _ =>
        (Z.of_nat (length (aq_view (oq_queue (oc_queue s)))) < c)%Z
    | _ => True
    end.

Ltac solve_single_ok :=
  split; [congruence |]; split; [congruence |]; eexists; split; [reflexivity | cbn; auto].

Lemma single_ok_step c s s' : single_ok c s -> oc_step s s' -> single_ok c s'.
Proof.
  intros (Hc & Hl & pc & Hp & Hm) Hs. unfold single_ok. destruct Hs as [i a s Hi | i pc' s Hi | s].
  - rewrite Hp in *. destruct i; [| discriminate]. cbn. rewrite Hp. solve_single_ok.
  - rewrite Hp in *. destruct i; [| discriminate]. cbn in Hi. injection Hi as <-.
    destruct pc as [| a | a | a | a]; cbn; rewrite ?Hp; [solve_single_ok | ..].
    + pose proof (aq_push_capacity a (oq_queue (oc_queue s))).
      destruct (aq_push a _) as [[u|x] q]; cbn in *; rewrite ?Hp; cbn; solve_single_ok.
    + destruct (aq_pop_view (oq_queue (oc_queue s))) as (Ht & _ & Hcap).
      pose proof (aq_bounded (oq_queue (oc_queue s))).
      pose proof (aq_capacity_pos (oq_queue (oc_queue s))).
      destruct (aq_pop _) as [x q]; cbn in *. rewrite ?Hp; cbn. solve_single_ok.
      rewrite Ht. destruct (aq_view (oq_queue (oc_queue s))); cbn in *; lia.
    + solve_single_ok.
    + destruct (aq_push_room a (oq_queue (oc_queue s))) as (Hpp & Hv & Hcap); [lia |].
      destruct (aq_push a _) as [r q]; cbn in *. subst r. rewrite ?Hp, Hl. cbn. solve_single_ok.
  - unfold oc_consumer. pose proof (aq_pop_view (oq_queue (oc_queue s))) as (Ht & _ & Hcap).
    unfold oq_pop. destruct (aq_pop (oq_queue (oc_queue s))) as [x q].
    destruct (bool_decide (is_Some x)); cbn in *; (split; [congruence |]; split; [exact Hl |]);
      exists pc; split; auto; destruct pc; auto; rewrite Ht;
      destruct (aq_view (oq_queue (oc_queue s))); cbn in *; lia.
Qed.

(** C21. Any number of producers and consumers: every opportunity sent is in
    exactly one place, whatever the interleaving; and with one producer the
    ignored result of the retry is never an error, so the only opportunities
    that do not reach a consumer are the evicted ones. *)
Theorem mpsc_conservation c n s :
  (0 < c)%Z -> oc_reachable c n s -> oc_held s = [] ->
  oc_sent s ≡ₚ oc_received s ++ oc_evicted s ++ oc_lost s ++ aq_view (oq_queue (oc_queue s)) /\
  (n = 1%nat -> oc_lost s = []).
Proof.
  intros Hc Hr Hh. split.
  - rewrite (reachable_conserved c n s Hc Hr) at 1. unfold oc_everything. rewrite Hh.
    now rewrite app_nil_r.
  - intros ->. assert (Hs : single_ok c s) by
      (refine (star_invariant oc_step (single_ok c) _ s _ (single_ok_step c) Hr);
       unfold single_ok; cbn; rewrite aq_new_capacity by exact Hc; solve_single_ok).
    apply Hs.
Qed.
End interleaving.

(** ** The two-producer race *)
Section race.
#[local] Open Scope Z_scope.
Abbreviation conf := (opp_config (list_queue Z) Z).

(** Lets producer [i] take one action. *)
Definition act (i : nat) (s : conf) : conf :=
  match oc_pcs s !! i with Some pc => oc_producer i pc s | None => s end.

Lemma act_star i (a s : conf) : star oc_step a s -> star oc_step a (act i s).
Proof.
  intros Hs. unfold act. destruct (oc_pcs s !! i) as [pc |] eqn:E; [| exact Hs].
  eapply star_step; [exact Hs | now constructor].
Qed.

(** Producer 0 fills the only slot with 1.  Producer 0 is rejected with 2 and
    evicts; producer 1 takes the freed slot with 3; the retry of 2 fails. *)
Definition race_before : conf := act 0 (oc_call 0 1 (oc_init 1 2)).
Definition race_mid : conf := act 0 (act 0 (act 0 (oc_call 0 2 race_before))).
Definition race : conf := act 0 (act 1 (oc_call 1 3 race_mid)).

Lemma race_reachable : oc_reachable 1 2 race.
Proof.
  unfold oc_reachable, race, race_mid, race_before.
  do 2 apply act_star. eapply star_step; [| now constructor].
  do 3 apply act_star. eapply star_step; [| now constructor].
  apply act_star. eapply star_step; [| now constructor]. constructor.
Qed.

Lemma mpsc_conservation_witness :
  oc_sent race ≡ₚ oc_received race ++ oc_evicted race ++ oc_lost race ++
                   aq_view (oq_queue (oc_queue race)).
Proof. exact (proj1 (mpsc_conservation 1 2 race eq_refl race_reachable eq_refl)). Defined.

(** With two producers an opportunity is lost without being counted: the retry
    that "should succeed now" can fail, the new opportunity 2 disappears, and
    [drop_count] is 1 although two of the three opportunities are gone. *)
Theorem two_producers_lose_silently :
  exists s : conf, oc_reachable 1 2 s /\ oc_held s = [] /\ oc_sent s = [1; 2; 3] /\
    oc_evicted s = [1] /\ oc_lost s = [2] /\ aq_view (oq_queue (oc_queue s)) = [3] /\
    oq_drop_count (oc_queue s) = 1.
Proof. exists race. split; [exact race_reachable | repeat split; reflexivity]. Qed.
End race.
