(* ===== verification/SymbolMap.v ===== *)
(** The dynamic symbol map ([src/src/strategy/symbol_map.rs]): ids handed out
    to (exchange, symbol) pairs on first use, by any number of threads.

    The concurrent hash map ([dashmap::DashMap]) is a third-party type: a
    class gives the operations the code calls, each atomic, and their
    documented meaning as a finite map.  The file has the sequential
    operations and the interleaving of the atomic actions of concurrent
    [get_or_insert] calls. *)
From Stdlib Require Import ZArith Lia Bool.
From stdpp Require Import base option list gmap strings.
From S2P Require Import Prelude.

#[local] Open Scope string_scope.
#[local] Open Scope Z_scope.

(** ** The concurrent map *)
Class DashMap (M K V : Type) := {
  dm_new : M;
  dm_get : K -> M -> option V;
  dm_insert : K -> V -> M -> M;
  dm_len : M -> Z
}.

Class DashMapLaws (M K V : Type) `{Countable K} `{DashMap M K V} := {
  dm_view : M -> gmap K V;
  dm_view_new : dm_view dm_new = ∅;
  dm_get_view k m : dm_get k m = dm_view m !! k;
  dm_view_insert k v m : dm_view (dm_insert k v m) = <[k := v]> (dm_view m);
  dm_len_view m : dm_len m = Z.of_nat (size (dm_view m))
}.

#[export] Instance gmap_dash_map {K V} `{Countable K} : DashMap (gmap K V) K V := {
  dm_new := ∅;
  dm_get k m := m !! k;
  dm_insert k v m := <[k := v]> m;
  dm_len m := Z.of_nat (size m)
}.

#[export] Instance gmap_dash_map_laws {K V} `{Countable K} : DashMapLaws (gmap K V) K V.
Proof. refine {| dm_view := fun m => m |}; reflexivity. Defined.

Abbreviation key := (string * string)%type.

(** ** State and operations *)
Record SymbolMap (T F : Type) := {
  to_id : T;
  from_id : F;
  next_id : Z
}.
Arguments to_id {T F} _.
Arguments from_id {T F} _.
Arguments next_id {T F} _.

Definition prealloc_exchanges : list string :=
  ["bybit"; "okx"; "kucoin"; "bitget"; "hyperliquid"; "paradex"].
Definition prealloc_symbols : list string :=
  ["BTCUSDT"; "ETHUSDT"; "SOLUSDT"; "BNBUSDT"; "XRPUSDT";
   "ADAUSDT"; "DOGEUSDT"; "MATICUSDT"; "DOTUSDT"; "AVAXUSDT"].

Section operations.
Context {T F : Type} `{DashMap T key Z} `{DashMap F Z key}.
Abbreviation state := (SymbolMap T F).

(** [next_id.fetch_add(1)]: the old value, and the counter advanced. *)
Definition fetch_next_id (s : state) : Z * state :=
  (next_id s, {| to_id := to_id s; from_id := from_id s; next_id := wrap32 (next_id s + 1) |}).

(** The [entry] match: an occupied entry wins, a vacant one takes the new id. *)
Definition entry_insert (k : key) (new_id : Z) (s : state) : Z * bool * state :=
  match dm_get k (to_id s) with
  | Some id => (id, false, s)
  | None =>
      (new_id, true,
       {| to_id := dm_insert k new_id (to_id s); from_id := from_id s; next_id := next_id s |})
  end.

Definition reverse_insert (k : key) (new_id : Z) (s : state) : state :=
  {| to_id := to_id s; from_id := dm_insert new_id k (from_id s); next_id := next_id s |}.

Definition get_or_insert (exchange symbol : string) (s : state) : Z * state :=
  let k := (exchange, symbol) in
  match dm_get k (to_id s) with
  | Some id => (id, s)
  | None =>
      let '(new_id, s) := fetch_next_id s in
      let '(id, vacant, s) := entry_insert k new_id s in
      (id, if vacant then reverse_insert k new_id s else s)
  end.

Definition sm_get (symbol_id : Z) (s : state) : option key := dm_get symbol_id (from_id s).
Definition sm_len (s : state) : Z := dm_len (to_id s).
Definition sm_is_empty (s : state) : bool := dm_len (to_id s) =? 0.

Definition preallocate_common_symbols (s : state) : state :=
  fold_left (fun s exchange =>
    fold_left (fun s symbol => snd (get_or_insert exchange symbol s)) prealloc_symbols s)
  prealloc_exchanges s.

Definition sm_empty : state := {| to_id := dm_new; from_id := dm_new; next_id := 1 |}.
Definition SymbolMap_new : state := preallocate_common_symbols sm_empty.
End operations.

(** ** The sequential invariant *)
Section sequential.
Context {T F : Type} `{DashMap T key Z} `{DashMap F Z key}
  `{!DashMapLaws T key Z} `{!DashMapLaws F Z key}.
Abbreviation state := (SymbolMap T F).
Abbreviation ids s := (dm_view (to_id s)).
Abbreviation keys s := (dm_view (from_id s)).

(** The two maps are inverse to each other, and the ids in use are exactly
    those below the counter. *)
Record sm_wf (s : state) : Prop := {
  wf_inverse : forall k id, ids s !! k = Some id <-> keys s !! id = Some k;
  wf_range : forall id, is_Some (keys s !! id) <-> 1 <= id < next_id s;
  wf_next : 1 <= next_id s < 2 ^ 32
}.

Lemma get_or_insert_hit e y id (s : state) :
  ids s !! (e, y) = Some id -> get_or_insert e y s = (id, s).
Proof. intros Hk. unfold get_or_insert. now rewrite dm_get_view, Hk. Qed.

Lemma get_or_insert_miss e y (s : state) :
  ids s !! (e, y) = None ->
  fst (get_or_insert e y s) = next_id s /\
  ids (snd (get_or_insert e y s)) = <[(e, y) := next_id s]> (ids s) /\
  keys (snd (get_or_insert e y s)) = <[next_id s := (e, y)]> (keys s) /\
  next_id (snd (get_or_insert e y s)) = wrap32 (next_id s + 1).
Proof.
  intros Hk. rewrite <- dm_get_view in Hk. unfold get_or_insert, entry_insert.
  rewrite Hk. cbn. rewrite Hk. cbn. now rewrite !dm_view_insert.
Qed.

Lemma get_or_insert_lookup e y (s : state) :
  ids (snd (get_or_insert e y s)) !! (e, y) = Some (fst (get_or_insert e y s)).
Proof.
  destruct (ids s !! (e, y)) as [id |] eqn:Hk.
  - now rewrite (get_or_insert_hit _ _ _ _ Hk).
  - destruct (get_or_insert_miss _ _ _ Hk) as (-> & -> & _ & _). apply lookup_insert_eq.
Qed.

(** Ids already given out never change. *)
Lemma get_or_insert_stable e y (s : state) k id :
  ids s !! k = Some id -> ids (snd (get_or_insert e y s)) !! k = Some id.
Proof.
  intros Hk. destruct (ids s !! (e, y)) as [id' |] eqn:E.
  - now rewrite (get_or_insert_hit _ _ _ _ E).
  - destruct (get_or_insert_miss _ _ _ E) as (_ & -> & _ & _).
    rewrite lookup_insert_ne; congruence.
Qed.

Lemma sm_empty_wf : sm_wf (sm_empty : state).
Proof.
  split; cbn; rewrite ?dm_view_new; intros; rewrite ?lookup_empty; try lia.
  - split; discriminate.
  - split; [intros [? ?]; discriminate | lia].
Qed.

Lemma get_or_insert_wf e y (s : state) :
  sm_wf s -> next_id s < U32_MAX -> sm_wf (snd (get_or_insert e y s)).
Proof.
  intros [Hi Hr Hn] Hmax. destruct (ids s !! (e, y)) as [id' |] eqn:E.
  { now rewrite (get_or_insert_hit _ _ _ _ E). }
  destruct (get_or_insert_miss _ _ _ E) as (_ & Hids & Hkeys & Hnext).
  unfold U32_MAX in Hmax.
  assert (Hw : wrap32 (next_id s + 1) = next_id s + 1) by (apply wrap32_small; unfold in_u32; lia).
  assert (Hfresh : keys s !! next_id s = None).
  { apply eq_None_not_Some. rewrite Hr. lia. }
  split; rewrite ?Hids, ?Hkeys, ?Hnext, ?Hw.
  - intros k id. rewrite !lookup_insert_Some, Hi. split.
    + intros [[<- <-] | [Hne Hk]]; [auto |]. right. split; [congruence | exact Hk].
    + intros [[<- <-] | [Hne Hk]]; [auto |]. right. split; [| exact Hk].
      intros <-. apply Hi in Hk. congruence.
  - intros id. rewrite lookup_insert_is_Some, Hr. destruct (Z.eq_dec (next_id s) id); lia.
  - lia.
Qed.

Lemma get_or_insert_next e y (s : state) :
  sm_wf s -> next_id s + 1 <= U32_MAX -> next_id (snd (get_or_insert e y s)) <= next_id s + 1.
Proof.
  intros Hwf Hmax. destruct (ids s !! (e, y)) as [id |] eqn:E.
  - rewrite (get_or_insert_hit _ _ _ _ E). cbn. lia.
  - destruct (get_or_insert_miss _ _ _ E) as (_ & _ & _ & ->). pose proof (wf_next s Hwf).
    unfold U32_MAX in *. rewrite wrap32_small; unfold in_u32; lia.
Qed.

(** A loop whose body uses at most [c] ids. *)
Lemma fold_budget {X} (f : state -> X -> state) (c : Z) (l : list X) (s : state) :
  0 <= c ->
  (forall s x, sm_wf s -> next_id s + c <= U32_MAX ->
     sm_wf (f s x) /\ next_id (f s x) <= next_id s + c) ->
  sm_wf s -> next_id s + c * Z.of_nat (length l) <= U32_MAX ->
  sm_wf (fold_left f l s) /\ next_id (fold_left f l s) <= next_id s + c * Z.of_nat (length l).
Proof.
  intros Hc Hf. revert s. induction l as [| x l IH]; intros s Hwf Hb; cbn [fold_left length] in *.
  - split; [exact Hwf | lia].
  - destruct (Hf s x Hwf) as [Hwf' Hn]; [nia |]. destruct (IH (f s x) Hwf') as [? ?]; [nia |].
    split; [assumption | nia].
Qed.

Lemma SymbolMap_new_ok : sm_wf (SymbolMap_new : state) /\ next_id (SymbolMap_new : state) <= 1000.
Proof.
  enough (Hb : sm_wf (SymbolMap_new : state) /\
    next_id (SymbolMap_new : state) <= 1 + 10 * Z.of_nat (length prealloc_exchanges)).
  { split; [apply Hb |]. etransitivity; [apply Hb |]. vm_compute. discriminate. }
  unfold SymbolMap_new, preallocate_common_symbols. apply (fold_budget _ 10); [lia | | apply sm_empty_wf |].
  - intros s e Hwf Hb. refine (fold_budget _ 1 prealloc_symbols s _ _ Hwf Hb); [lia |].
    intros s' y Hwf' Hb'. split; [apply get_or_insert_wf | apply get_or_insert_next]; auto; lia.
  - vm_compute. discriminate.
Qed.

Lemma SymbolMap_new_wf : sm_wf (SymbolMap_new : state).
Proof. apply SymbolMap_new_ok. Qed.

(** What [get] answers after [get_or_insert]: the very pair, and the call is
    idempotent. *)
Theorem get_or_insert_roundtrip e y (s : state) :
  sm_wf s -> next_id s < U32_MAX ->
  let '(id, s') := get_or_insert e y s in
  sm_get id s' = Some (e, y) /\ get_or_insert e y s' = (id, s') /\ sm_wf s' /\
  (forall id' k, sm_get id' s = Some k -> sm_get id' s' = Some k).
Proof.
  intros Hwf Hmax. pose proof (get_or_insert_wf e y s Hwf Hmax) as Hwf'.
  pose proof (get_or_insert_lookup e y s) as Hl.
  pose proof (get_or_insert_stable e y s) as Hst.
  destruct (get_or_insert e y s) as [id s']. cbn in *. unfold sm_get.
  split; [| split; [| split]].
  - rewrite dm_get_view. now apply (wf_inverse s' Hwf').
  - now apply get_or_insert_hit.
  - exact Hwf'.
  - intros id' k. rewrite !dm_get_view, <- (wf_inverse s Hwf), <- (wf_inverse s' Hwf'). apply Hst.
Qed.
End sequential.

Abbreviation gstate := (SymbolMap (gmap key Z) (gmap Z key)).

Lemma get_or_insert_roundtrip_witness :
  let s := snd (get_or_insert "okx" "BTCUSDT" (sm_empty : gstate)) in
  fst (get_or_insert "gateio" "BTCUSDT" s) = 2 /\
  sm_get 2 (snd (get_or_insert "gateio" "BTCUSDT" s)) = Some ("gateio", "BTCUSDT") /\
  sm_get 1 (snd (get_or_insert "gateio" "BTCUSDT" s)) = Some ("okx", "BTCUSDT").
Proof.
  intros s.
  assert (Hwf : sm_wf s) by (apply get_or_insert_wf; [apply sm_empty_wf | reflexivity]).
  pose proof (get_or_insert_roundtrip "gateio" "BTCUSDT" s Hwf eq_refl) as Hr.
  destruct (get_or_insert "gateio" "BTCUSDT" s) as [id s'] eqn:E.
  destruct Hr as (H1 & _ & _ & H4). cbn [fst snd].
  assert (Hid : id = 2) by (change id with (fst (id, s')); rewrite <- E; vm_compute; reflexivity).
  subst id. split; [reflexivity |]. split; [exact H1 |].
  apply H4. vm_compute. reflexivity.
Defined.

(** The sixty pre-allocated pairs get the ids 1 to 60, exchange by exchange. *)
Lemma preallocated_ids :
  sm_len (SymbolMap_new : gstate) = 60 /\
  forall i j e y, prealloc_exchanges !! i = Some e -> prealloc_symbols !! j = Some y ->
    fst (get_or_insert e y (SymbolMap_new : gstate)) = Z.of_nat (10 * i + j) + 1.
Proof.
  split; [vm_compute; reflexivity |]. intros i j e y Hi Hj.
  do 6 (destruct i as [| i];
    [ injection Hi as <-;
      do 10 (destruct j as [| j]; [injection Hj as <-; vm_compute; reflexivity |]);
      discriminate |]).
  discriminate.
Qed.
