(* ===== verification/SymbolMapConc.v ===== *)
(** Concurrent calls of [SymbolMap::get_or_insert]
    ([src/src/strategy/symbol_map.rs]).

    A thread runs the call as four atomic actions: the lookup, the counter
    increment, the [entry] match, and (for the winner of a race) the insert in
    the reverse map.  The actions of any number of threads interleave. *)
From Stdlib Require Import ZArith Lia Bool.
From stdpp Require Import base option list gmap strings.
From S2P Require Import Prelude SymbolMap.

#[local] Open Scope Z_scope.

(** Where a thread is inside [get_or_insert]. *)
Inductive goi_pc :=
| GIdle
| GLookup (k : key)           (* before [to_id.get] *)
| GFetch (k : key)            (* missed: before [next_id.fetch_add] *)
| GEntry (k : key) (id : Z)   (* before [to_id.entry] *)
| GReverse (k : key) (id : Z) (* inserted: before [from_id.insert] *).

Section interleaving.
Context {T F : Type} `{DashMap T key Z} `{DashMap F Z key}
  `{!DashMapLaws T key Z} `{!DashMapLaws F Z key}.

(** The shared map, the threads, and two history variables: how often the
    counter was incremented, and the answers given. *)
Record goi_config := {
  gc_map : SymbolMap T F;
  gc_pcs : list goi_pc;
  gc_fetches : Z;
  gc_answers : list (key * Z)
}.

Definition gc_init (threads : nat) : goi_config :=
  {| gc_map := sm_empty; gc_pcs := replicate threads GIdle; gc_fetches := 0; gc_answers := [] |}.

Definition gc_goto (i : nat) (pc : goi_pc) (m : SymbolMap T F) (s : goi_config) : goi_config :=
  {| gc_map := m; gc_pcs := <[i := pc]> (gc_pcs s); gc_fetches := gc_fetches s;
     gc_answers := gc_answers s |}.

Definition gc_answer (k : key) (id : Z) (s : goi_config) : goi_config :=
  {| gc_map := gc_map s; gc_pcs := gc_pcs s; gc_fetches := gc_fetches s;
     gc_answers := gc_answers s ++ [(k, id)] |}.

(** The next atomic action of thread [i], at [pc]. *)
Definition gc_act (i : nat) (pc : goi_pc) (s : goi_config) : goi_config :=
  let m := gc_map s in
  match pc with
  | GIdle => s
  | GLookup k =>
      match dm_get k (to_id m) with
      | Some id => gc_answer k id (gc_goto i GIdle m s)
      | None => gc_goto i (GFetch k) m s
      end
  | GFetch k =>
      let '(new_id, m) := fetch_next_id m in
      let s' := gc_goto i (GEntry k new_id) m s in
      {| gc_map := gc_map s'; gc_pcs := gc_pcs s'; gc_fetches := gc_fetches s + 1;
         gc_answers := gc_answers s' |}
  | GEntry k new_id =>
      let '(id, vacant, m) := entry_insert k new_id m in
      if vacant then gc_goto i (GReverse k id) m s
      else gc_answer k id (gc_goto i GIdle m s)
  | GReverse k id => gc_answer k id (gc_goto i GIdle (reverse_insert k id m) s)
  end.

Inductive goi_step : goi_config -> goi_config -> Prop :=
| goi_call i k s : gc_pcs s !! i = Some GIdle -> goi_step s (gc_goto i (GLookup k) (gc_map s) s)
| goi_act i pc s : gc_pcs s !! i = Some pc -> goi_step s (gc_act i pc s).

Definition goi_reachable (n : nat) (s : goi_config) : Prop := star goi_step (gc_init n) s.

Abbreviation ids s := (dm_view (to_id (gc_map s))).
Abbreviation keys s := (dm_view (from_id (gc_map s))).

(** The invariant, as long as the counter has not wrapped around. *)
Record goi_inv (s : goi_config) : Prop := {
  gi_fetches : 0 <= gc_fetches s;
  gi_next : next_id (gc_map s) = wrap32 (1 + gc_fetches s);
  gi_ids : forall k id, ids s !! k = Some id -> 1 <= id <= gc_fetches s;
  gi_inj : forall k k' id, ids s !! k = Some id -> ids s !! k' = Some id -> k = k';
  gi_entry : forall i k id, gc_pcs s !! i = Some (GEntry k id) ->
    1 <= id <= gc_fetches s /\ (forall k', ids s !! k' <> Some id) /\
    (forall j k', gc_pcs s !! j = Some (GEntry k' id) -> j = i);
  gi_reverse : forall i k id, gc_pcs s !! i = Some (GReverse k id) -> ids s !! k = Some id;
  gi_keys : forall k id, keys s !! id = Some k -> ids s !! k = Some id;
  gi_covered : forall k id, ids s !! k = Some id ->
    keys s !! id = Some k \/ exists i, gc_pcs s !! i = Some (GReverse k id);
  gi_answers : forall k id, (k, id) ∈ gc_answers s -> ids s !! k = Some id
}.

Definition no_wrap (s : goi_config) : Prop := gc_fetches s < U32_MAX.

Lemma goi_init_inv n : goi_inv (gc_init n).
Proof.
  split; cbn; rewrite ?dm_view_new; try lia; try reflexivity; intros *;
    rewrite ?lookup_empty; try discriminate; try (now intros []%lookup_replicate).
  intros []%elem_of_nil.
Qed.

Lemma pc_insert_other (l : list goi_pc) i pc pc0 j pc' :
  l !! i = Some pc0 -> pc0 <> pc' -> l !! j = Some pc' -> <[i := pc]> l !! j = Some pc'.
Proof. intros Hi Hne Hj. rewrite list_lookup_insert_ne; congruence. Qed.

(** Moving between actions that hold no fresh id and owe no reverse entry. *)
Lemma goto_plain_inv i pc0 pc s :
  gc_pcs s !! i = Some pc0 -> goi_inv s ->
  (forall k id, pc0 <> GReverse k id) ->
  (forall k id, pc <> GEntry k id /\ pc <> GReverse k id) ->
  goi_inv (gc_goto i pc (gc_map s) s).
Proof.
  intros Hi [] Hp0 Hpc. split; cbn; auto.
  - intros j k id Hj. insert_cases Hi; [now destruct (Hpc k id) |].
    destruct (gi_entry0 _ _ _ Hj) as (? & ? & Hu). split; [auto |]. split; [auto |].
    intros j' k' Hj'. insert_cases Hi; [now destruct (Hpc k' id) | eauto].
  - intros j k id Hj. insert_cases Hi; [now destruct (Hpc k id) | eauto].
  - intros k id Hk. destruct (gi_covered0 k id Hk) as [| [j Hj]]; [auto |].
    right. exists j. eapply pc_insert_other; eauto.
Qed.

Lemma answer_inv k id s : ids s !! k = Some id -> goi_inv s -> goi_inv (gc_answer k id s).
Proof.
  intros Hk []. split; cbn; auto. intros k' id' [Hin | Hin]%elem_of_app; [auto |].
  apply list_elem_of_singleton in Hin. congruence.
Qed.

Lemma fetch_inv i k s :
  gc_pcs s !! i = Some (GFetch k) -> gc_fetches s + 1 < U32_MAX -> goi_inv s ->
  goi_inv (gc_act i (GFetch k) s).
Proof.
  intros Hi Hw [Hf Hn Hids Hinj He Hr Hk Hc Ha]. unfold U32_MAX in Hw.
  assert (Hnew : next_id (gc_map s) = 1 + gc_fetches s).
  { rewrite Hn. apply wrap32_small. unfold in_u32. lia. }
  split; cbn; auto.
  - lia.
  - rewrite Hnew. f_equal. lia.
  - intros k' id Hid. apply Hids in Hid. lia.
  - rewrite Hnew. intros j k' id Hj. insert_cases Hi.
    + split; [lia |]. split; [intros k'' Hid%Hids; lia |].
      intros j' k'' Hj'. insert_cases Hi; [reflexivity |]. apply He in Hj'. lia.
    + destruct (He _ _ _ Hj) as (Hrg & Hfr & Hu). split; [lia |]. split; [exact Hfr |].
      intros j' k'' Hj'. insert_cases Hi; [lia | eauto].
  - intros j k' id Hj. insert_cases Hi. eauto.
  - intros k' id Hid. destruct (Hc k' id Hid) as [| [j Hj]]; [auto |].
    right. exists j. eapply pc_insert_other; eauto.
Qed.

(** The winner of the race: the key was still vacant. *)
Lemma vacant_inv i k id s :
  gc_pcs s !! i = Some (GEntry k id) -> ids s !! k = None -> goi_inv s ->
  goi_inv (gc_goto i (GReverse k id)
    {| to_id := dm_insert k id (to_id (gc_map s)); from_id := from_id (gc_map s);
       next_id := next_id (gc_map s) |} s).
Proof.
  intros Hi Hv [Hf Hn Hids Hinj He Hr Hk Hc Ha].
  destruct (He i k id Hi) as (Hrg & Hfr & Hu).
  assert (Hold : forall k' id', ids s !! k' = Some id' ->
    <[k := id]> (ids s) !! k' = Some id') by (intros; rewrite lookup_insert_ne; congruence).
  split; cbn; rewrite ?dm_view_insert; auto.
  - intros k' id' [[<- <-] | [_ Hid]]%lookup_insert_Some; eauto.
  - intros k1 k2 id' [[<- <-] | [_ H1]]%lookup_insert_Some [[<- ?] | [_ H2]]%lookup_insert_Some;
      subst; auto; [now apply Hfr in H2 | now apply Hfr in H1 | eauto].
  - intros j k' id' Hj. insert_cases Hi. destruct (He _ _ _ Hj) as (Hrg' & Hfr' & Hu').
    split; [exact Hrg' |]. split.
    + intros k'' [[<- <-] | [_ Hid]]%lookup_insert_Some; [| now apply Hfr' in Hid].
      apply Hu in Hj. congruence.
    + intros j' k'' Hj'. insert_cases Hi. eauto.
  - intros j k' id' Hj. insert_cases Hi; [apply lookup_insert_eq | eauto].
  - intros k' id' Hid. apply lookup_insert_Some in Hid. destruct Hid as [[<- <-] | [_ Hid]].
    + right. exists i. apply list_lookup_insert_eq. eauto using lookup_lt_Some.
    + destruct (Hc k' id' Hid) as [| [j Hj]]; [auto |].
      right. exists j. eapply pc_insert_other; eauto.
Qed.

Lemma reverse_inv i k id s :
  gc_pcs s !! i = Some (GReverse k id) -> goi_inv s ->
  goi_inv (gc_goto i GIdle (reverse_insert k id (gc_map s)) s).
Proof.
  intros Hi [Hf Hn Hids Hinj He Hr Hk Hc Ha]. pose proof (Hr _ _ _ Hi) as Hid.
  split; cbn; rewrite ?dm_view_insert; auto.
  - intros j k' id' Hj. insert_cases Hi. destruct (He _ _ _ Hj) as (Hrg' & Hfr' & Hu').
    split; [exact Hrg' |]. split; [exact Hfr' |]. intros j' k'' Hj'. insert_cases Hi. eauto.
  - intros j k' id' Hj. insert_cases Hi. eauto.
  - intros k' id' [[<- <-] | [_ Hkk]]%lookup_insert_Some; eauto.
  - intros k' id' Hid'. destruct (decide (id' = id)) as [-> | Hne].
    + left. rewrite (Hinj _ _ _ Hid' Hid). apply lookup_insert_eq.
    + rewrite lookup_insert_ne by congruence. destruct (Hc k' id' Hid') as [| [j Hj]]; [auto |].
      right. exists j. eapply pc_insert_other; eauto. congruence.
Qed.

Lemma goi_step_fetches s s' : goi_step s s' -> gc_fetches s <= gc_fetches s'.
Proof.
  intros [i k t Hi | i pc t Hi]; cbn; [lia |]. destruct pc; cbn; try lia.
  - destruct (dm_get k _); cbn; lia.
  - destruct (entry_insert k id _) as [[? []] ?]; cbn; lia.
Qed.

Lemma goi_step_inv s s' : goi_step s s' -> no_wrap s' -> goi_inv s -> goi_inv s'.
Proof.
  intros Hs Hw Hi. destruct Hs as [i k s Hpc | i pc s Hpc].
  { eapply goto_plain_inv; eauto; congruence. }
  destruct pc as [| k | k | k id | k id]; cbn [gc_act].
  - exact Hi.
  - destruct (dm_get k (to_id (gc_map s))) as [id |] eqn:Hg.
    + rewrite dm_get_view in Hg. apply answer_inv; [exact Hg |].
      eapply goto_plain_inv; eauto; congruence.
    + eapply goto_plain_inv; eauto; congruence.
  - apply fetch_inv; auto.
  - unfold entry_insert. destruct (dm_get k (to_id (gc_map s))) as [id' |] eqn:Hg;
      rewrite dm_get_view in Hg.
    + apply answer_inv; [exact Hg |]. eapply goto_plain_inv; eauto; congruence.
    + now apply vacant_inv.
  - apply answer_inv; [eapply (gi_reverse s Hi); eauto |]. now apply reverse_inv.
Qed.

Lemma goi_reachable_inv n s : goi_reachable n s -> no_wrap s -> goi_inv s.
Proof.
  intros Hr. refine (star_invariant goi_step (fun s => no_wrap s -> goi_inv s) _ s _ _ Hr).
  - intros _. apply goi_init_inv.
  - intros s1 s2 IH Hs Hw. eapply goi_step_inv; eauto. apply IH. unfold no_wrap in *.
    pose proof (goi_step_fetches _ _ Hs). lia.
Qed.

(** C22. Whatever the interleaving, and until 2^32 - 2 ids have been drawn: two
    calls get the same id exactly when they ask for the same pair, no call
    gets the reserved id 0, and once no call is in progress the reverse map
    answers every id with the pair it was given to. *)
Theorem concurrent_ids_agree n s :
  goi_reachable n s -> no_wrap s ->
  (forall k id k' id', (k, id) ∈ gc_answers s -> (k', id') ∈ gc_answers s ->
     (k = k' <-> id = id') /\ 1 <= id) /\
  ((forall i pc, gc_pcs s !! i = Some pc -> pc = GIdle) ->
     forall k id, (k, id) ∈ gc_answers s -> sm_get id (gc_map s) = Some k).
Proof.
  intros Hr Hw. destruct (goi_reachable_inv n s Hr Hw) as [_ _ Hids Hinj _ _ _ Hc Ha]. split.
  - intros k id k' id' H1%Ha H2%Ha. split; [split; intros <-; [congruence | eauto] |].
    now apply Hids in H1.
  - intros Hidle k id Hin%Ha. unfold sm_get. rewrite dm_get_view.
    destruct (Hc k id Hin) as [| [i Hi]]; [assumption | now apply Hidle in Hi].
Qed.
End interleaving.

(** ** A race between two threads *)
Section race.
Abbreviation conf := (@goi_config (gmap key Z) (gmap Z key)).

Definition step_thread (i : nat) (s : conf) : conf :=
  match gc_pcs s !! i with Some pc => gc_act i pc s | None => s end.
Definition start (i : nat) (k : key) (s : conf) : conf := gc_goto i (GLookup k) (gc_map s) s.

Lemma step_thread_star (i : nat) (a s : conf) : star goi_step a s -> star goi_step a (step_thread i s).
Proof.
  intros Hs. unfold step_thread. destruct (gc_pcs s !! i) as [pc |] eqn:E; [| exact Hs].
  eapply star_step; [exact Hs | now constructor].
Qed.

Definition btc : key := ("okx", "BTCUSDT")%string.

(** Both threads miss and draw an id; the second to draw wins the race. *)
Definition goi_race : conf :=
  step_thread 0 (step_thread 1 (step_thread 1 (step_thread 1 (step_thread 0
    (step_thread 1 (step_thread 0 (start 1 btc (start 0 btc (gc_init 2))))))))).

Lemma goi_race_reachable : goi_reachable 2 goi_race.
Proof.
  unfold goi_reachable, goi_race. do 7 apply step_thread_star.
  eapply star_step; [| now constructor]. eapply star_step; [constructor | now constructor].
Qed.

Lemma concurrent_ids_agree_witness :
  gc_answers goi_race = [(btc, 2); (btc, 2)] /\ sm_get 2 (gc_map goi_race) = Some btc.
Proof.
  destruct (concurrent_ids_agree 2 goi_race goi_race_reachable eq_refl) as [_ H2].
  split; [reflexivity |]. apply H2; [| vm_compute; constructor].
  intros [| [| i]] pc Hi; vm_compute in Hi; congruence.
Defined.

(** A lost race leaks an id: after two calls for one pair the counter is at 3
    and id 1 names nothing. *)
Theorem lost_race_leaks_id :
  exists s : conf, goi_reachable 2 s /\ sm_len (gc_map s) = 1 /\
    next_id (gc_map s) = 3 /\ sm_get 1 (gc_map s) = None.
Proof. exists goi_race. split; [exact goi_race_reachable | repeat split; reflexivity]. Qed.
End race.
