(* ===== verification/MarketData.v ===== *)
(** The structure-of-arrays market data store
    ([src/src/strategy/market_data.rs]).

    Four parallel vectors of [MAX_SYMBOLS] cells and the count of cells in
    use.  A [Vec] index out of bounds panics; every read is guarded by
    [idx < count] or [idx < MAX_SYMBOLS], and [md_wf] (the vectors have
    [MAX_SYMBOLS] cells and [count] never exceeds it) shows no read or write
    below is out of bounds.  The prefetch hints have no effect on the state. *)
From Stdlib Require Import ZArith Lia Bool.
From stdpp Require Import base option list.
From S2P Require Import Prelude Float64 Types.

#[local] Open Scope Z_scope.

Definition MAX_SYMBOLS : nat := 256.

(** ** State and operations *)
Record MarketDataStore := {
  bids : list f64;
  asks : list f64;
  timestamps : list Z;
  symbol_ids : list Z;
  count : nat
}.

Definition MarketDataStore_new : MarketDataStore :=
  {| bids := replicate MAX_SYMBOLS 0.0%f64; asks := replicate MAX_SYMBOLS 0.0%f64;
     timestamps := replicate MAX_SYMBOLS 0; symbol_ids := replicate MAX_SYMBOLS 0;
     count := 0 |}.

Definition update (symbol_id : Z) (bid ask : f64) (timestamp_us : Z) (s : MarketDataStore)
  : MarketDataStore :=
  let idx := Z.to_nat symbol_id in
  if (idx <? MAX_SYMBOLS)%nat then
    {| bids := <[idx := bid]> (bids s);
       asks := <[idx := ask]> (asks s);
       timestamps := <[idx := timestamp_us]> (timestamps s);
       symbol_ids := <[idx := symbol_id]> (symbol_ids s);
       count := if (count s <=? idx)%nat then (idx + 1)%nat else count s |}
  else s.

Definition update_from_market_update (u : MarketUpdate) (s : MarketDataStore) : MarketDataStore :=
  update (mu_symbol_id u) (mu_bid u) (mu_ask u) (mu_timestamp_us u) s.

(** An index expression [v[idx]] in bounds. *)
Definition vget {A} `{Inhabited A} (v : list A) (idx : nat) : A := v !!! idx.
#[export] Instance f64_inhabited : Inhabited f64 := populate 0.0%f64.

Definition get_spread_bps (symbol_id : Z) (s : MarketDataStore) : f64 :=
  let idx := Z.to_nat symbol_id in
  if ((idx <? count s)%nat && (vget (bids s) idx >? 0.0%f64)%F)%bool then
    let bid := vget (bids s) idx in
    let ask := vget (asks s) idx in
    (((ask - bid) / bid) * 10000.0%f64)%F
  else 0.0%f64.

Definition get_bid (symbol_id : Z) (s : MarketDataStore) : option f64 :=
  let idx := Z.to_nat symbol_id in
  if (idx <? count s)%nat then Some (vget (bids s) idx) else None.

Definition get_ask (symbol_id : Z) (s : MarketDataStore) : option f64 :=
  let idx := Z.to_nat symbol_id in
  if (idx <? count s)%nat then Some (vget (asks s) idx) else None.

Definition get_timestamp (symbol_id : Z) (s : MarketDataStore) : option Z :=
  let idx := Z.to_nat symbol_id in
  if (idx <? count s)%nat then Some (vget (timestamps s) idx) else None.

Definition get_mid_price (symbol_id : Z) (s : MarketDataStore) : option f64 :=
  let idx := Z.to_nat symbol_id in
  if (idx <? count s)%nat
  then Some ((vget (bids s) idx + vget (asks s) idx) / 2.0%f64)%F else None.

(** The subtraction is on [u64]: it wraps in a release build. *)
Definition is_stale (symbol_id current_time_us threshold_us : Z) (s : MarketDataStore) : bool :=
  let idx := Z.to_nat symbol_id in
  if (idx <? count s)%nat
  then threshold_us <? wrap64 (current_time_us - vget (timestamps s) idx)
  else true.

Definition iter_spreads (s : MarketDataStore) : list (Z * f64) :=
  (fun idx =>
     let symbol_id := vget (symbol_ids s) idx in
     let spread_bps :=
       if (vget (bids s) idx >? 0.0%f64)%F
       then (((vget (asks s) idx - vget (bids s) idx) / vget (bids s) idx) * 10000.0%f64)%F
       else 0.0%f64 in
     (symbol_id, spread_bps)) <$> seq 0 (count s).

Definition md_len (s : MarketDataStore) : nat := count s.
Definition md_is_empty (s : MarketDataStore) : bool := (count s =? 0)%nat.

(** [v.fill(x)]. *)
Definition fill {A} (x : A) (v : list A) : list A := replicate (length v) x.

Definition clear (s : MarketDataStore) : MarketDataStore :=
  {| bids := fill 0.0%f64 (bids s); asks := fill 0.0%f64 (asks s);
     timestamps := fill 0 (timestamps s); symbol_ids := fill 0 (symbol_ids s);
     count := 0 |}.

(** ** Invariant *)
Record md_wf (s : MarketDataStore) : Prop := {
  wf_bids : length (bids s) = MAX_SYMBOLS;
  wf_asks : length (asks s) = MAX_SYMBOLS;
  wf_timestamps : length (timestamps s) = MAX_SYMBOLS;
  wf_symbol_ids : length (symbol_ids s) = MAX_SYMBOLS;
  wf_count : (count s <= MAX_SYMBOLS)%nat
}.

Lemma new_wf : md_wf MarketDataStore_new.
Proof. split; cbn [bids asks timestamps symbol_ids count MarketDataStore_new];
  rewrite ?length_replicate; auto. unfold MAX_SYMBOLS. lia. Qed.

Lemma update_wf id b a t s : md_wf s -> md_wf (update id b a t s).
Proof.
  intros []. unfold update. destruct (Nat.ltb_spec (Z.to_nat id) MAX_SYMBOLS); [| now split].
  split; cbn [bids asks timestamps symbol_ids count]; rewrite ?length_insert; auto.
  destruct (Nat.leb_spec (count s) (Z.to_nat id)); lia.
Qed.

Lemma clear_new s : md_wf s -> clear s = MarketDataStore_new.
Proof.
  intros [H1 H2 H3 H4 _]. unfold clear, fill, MarketDataStore_new. now rewrite H1, H2, H3, H4.
Qed.

#[export] Hint Resolve new_wf update_wf : arb.

(** ** Reference semantics: the last update of an id *)
Definition replay (us : list MarketUpdate) (s : MarketDataStore) : MarketDataStore :=
  fold_left (fun s u => update_from_market_update u s) us s.

(** The last update of the log for [id]; [(0, 0, 0)] before the first. *)
Fixpoint last_for (id : Z) (us : list MarketUpdate) (d : f64 * f64 * Z) : f64 * f64 * Z :=
  match us with
  | [] => d
  | u :: us =>
      last_for id us
        (if mu_symbol_id u =? id then (mu_bid u, mu_ask u, mu_timestamp_us u) else d)
  end.

(** One more than the largest id of the log that the store accepts. *)
Fixpoint high_water (us : list MarketUpdate) (n : nat) : nat :=
  match us with
  | [] => n
  | u :: us =>
      let idx := Z.to_nat (mu_symbol_id u) in
      high_water us (if (idx <? MAX_SYMBOLS)%nat then Nat.max n (idx + 1) else n)
  end.

Definition cell (s : MarketDataStore) (id : Z) : f64 * f64 * Z :=
  (vget (bids s) (Z.to_nat id), vget (asks s) (Z.to_nat id), vget (timestamps s) (Z.to_nat id)).

Lemma vget_insert {A} `{Inhabited A} (l : list A) i j x :
  (i < length l)%nat -> vget (<[i := x]> l) j = if decide (i = j) then x else vget l j.
Proof.
  intros Hi. unfold vget. destruct (decide (i = j)) as [<- | Hne].
  - now apply list_lookup_total_insert_eq.
  - now apply list_lookup_total_insert_ne.
Qed.

Lemma vget_replicate {A} `{Inhabited A} n (x : A) i : (i < n)%nat -> vget (replicate n x) i = x.
Proof. intros Hi. unfold vget. now apply lookup_total_replicate_2. Qed.

Lemma update_cell id' b a t s id :
  md_wf s -> in_u32 id -> in_u32 id' -> (Z.to_nat id < MAX_SYMBOLS)%nat ->
  cell (update id' b a t s) id = (if id' =? id then (b, a, t) else cell s id) /\
  count (update id' b a t s) =
    (if (Z.to_nat id' <? MAX_SYMBOLS)%nat then Nat.max (count s) (Z.to_nat id' + 1) else count s).
Proof.
  intros [Hb Ha Ht _ _] Hid Hid' Hlt. unfold update, cell, in_u32 in *.
  destruct (Nat.ltb_spec (Z.to_nat id') MAX_SYMBOLS) as [Hlt' | Hge]; cbn.
  - rewrite !vget_insert by lia. split.
    + destruct (Z.eqb_spec id' id) as [-> |]; [now rewrite !decide_True |].
      rewrite !decide_False by lia. reflexivity.
    + destruct (Nat.leb_spec (count s) (Z.to_nat id')); lia.
  - split; [| reflexivity]. destruct (Z.eqb_spec id' id); [lia | reflexivity].
Qed.

Lemma replay_cell us s id :
  md_wf s -> Forall (fun u => in_u32 (mu_symbol_id u)) us -> in_u32 id ->
  (Z.to_nat id < MAX_SYMBOLS)%nat ->
  cell (replay us s) id = last_for id us (cell s id) /\
  count (replay us s) = high_water us (count s) /\ md_wf (replay us s).
Proof.
  intros Hwf Hus Hid Hlt. revert s Hwf. induction Hus as [| u us Hu _ IH]; intros s Hwf; [auto |].
  change (replay (u :: us) s) with (replay us (update_from_market_update u s)).
  cbn [last_for high_water].
  destruct (update_cell (mu_symbol_id u) (mu_bid u) (mu_ask u) (mu_timestamp_us u) s id
              Hwf Hid Hu Hlt) as [Hc Hn].
  destruct (IH (update_from_market_update u s)) as (-> & -> & Hwf'); [now apply update_wf |].
  unfold update_from_market_update in *. rewrite Hc, Hn. auto.
Qed.

Lemma new_cell id : (Z.to_nat id < MAX_SYMBOLS)%nat ->
  cell MarketDataStore_new id = (0.0%f64, 0.0%f64, 0).
Proof. intros Hid. unfold cell, MarketDataStore_new. cbn [bids asks timestamps].
  now rewrite !vget_replicate. Qed.

Lemma high_water_mono us n m : (n <= m)%nat -> (high_water us n <= high_water us m)%nat.
Proof.
  revert n m. induction us as [| u us IH]; intros n m Hnm; cbn [high_water]; [exact Hnm |].
  apply IH. destruct (_ <? _)%nat; lia.
Qed.

Lemma high_water_above us n : (n <= high_water us n)%nat.
Proof.
  revert n. induction us as [| u us IH]; intros n; cbn [high_water]; [lia |].
  etransitivity; [| apply IH]. destruct (_ <? _)%nat; lia.
Qed.

Lemma high_water_covers us n u :
  In u us -> (Z.to_nat (mu_symbol_id u) < MAX_SYMBOLS)%nat ->
  (Z.to_nat (mu_symbol_id u) < high_water us n)%nat.
Proof.
  revert n. induction us as [| v us IH]; intros n; cbn [high_water]; [intros [] |].
  intros [-> | Hin] Hlt; [| now apply IH].
  apply Nat.ltb_lt in Hlt. rewrite Hlt.
  eapply Nat.lt_le_trans; [| apply high_water_above]. lia.
Qed.

(** A stored id that has been updated answers its last update. *)
Lemma replayed_reads us id b a t :
  Forall (fun u => in_u32 (mu_symbol_id u)) us -> in_u32 id -> (Z.to_nat id < MAX_SYMBOLS)%nat ->
  last_for id us (0.0%f64, 0.0%f64, 0) = (b, a, t) -> Exists (fun u => mu_symbol_id u = id) us ->
  let s := replay us MarketDataStore_new in
  get_bid id s = Some b /\ get_ask id s = Some a /\ get_timestamp id s = Some t /\
  get_mid_price id s = Some ((b + a) / 2.0%f64)%F /\
  get_spread_bps id s = if (b >? 0.0%f64)%F then (((a - b) / b) * 10000.0%f64)%F else 0.0%f64.
Proof.
  intros Hus Hid Hlt El [u [Hin Heq]]%Exists_exists s.
  destruct (replay_cell us MarketDataStore_new id new_wf Hus Hid Hlt) as (Hc & Hn & _).
  rewrite new_cell, El in Hc by exact Hlt. fold s in Hc, Hn. injection Hc as Hb Ha Ht.
  assert (Hcnt : (Z.to_nat id <? count s)%nat = true).
  { apply Nat.ltb_lt. rewrite Hn, <- Heq. apply high_water_covers; [now apply list_elem_of_In |].
    now rewrite Heq. }
  unfold get_bid, get_ask, get_timestamp, get_mid_price, get_spread_bps.
  rewrite Hcnt, Hb, Ha, Ht. auto.
Qed.

(** Reading after any log of updates: an id that has been updated answers its
    last update, whatever came for the other ids in between; ids from 256 up
    are never stored and answer nothing. *)
Theorem store_reads_last_update us id :
  Forall (fun u => in_u32 (mu_symbol_id u)) us -> in_u32 id ->
  let s := replay us MarketDataStore_new in
  let '(b, a, t) := last_for id us (0.0%f64, 0.0%f64, 0) in
  ((Z.to_nat id < MAX_SYMBOLS)%nat -> Exists (fun u => mu_symbol_id u = id) us ->
     get_bid id s = Some b /\ get_ask id s = Some a /\ get_timestamp id s = Some t /\
     get_mid_price id s = Some ((b + a) / 2.0%f64)%F /\
     get_spread_bps id s =
       if (b >? 0.0%f64)%F then (((a - b) / b) * 10000.0%f64)%F else 0.0%f64) /\
  ((MAX_SYMBOLS <= Z.to_nat id)%nat ->
     get_bid id s = None /\ get_ask id s = None /\ get_spread_bps id s = 0.0%f64).
Proof.
  intros Hus Hid s. destruct (last_for id us _) as [[b a] t] eqn:El. split.
  - intros Hlt Hx. now apply replayed_reads.
  - intros Hge. assert (Hwf : md_wf s).
    { destruct (replay_cell us MarketDataStore_new 0 new_wf Hus) as (_ & _ & Hwf); auto;
        unfold in_u32, MAX_SYMBOLS; lia. }
    pose proof (wf_count s Hwf).
    assert (Hcnt : (Z.to_nat id <? count s)%nat = false) by (apply Nat.ltb_ge; lia).
    unfold get_bid, get_ask, get_spread_bps. rewrite Hcnt. auto.
Qed.

Lemma store_reads_last_update_witness :
  let us := [MarketUpdate_new 3 100.0%f64 101.0%f64 7; MarketUpdate_new 300 5.0%f64 6.0%f64 8;
             MarketUpdate_new 3 200.0%f64 201.0%f64 9] in
  let s := replay us MarketDataStore_new in
  get_bid 3 s = Some 200.0%f64 /\ get_timestamp 3 s = Some 9 /\ get_bid 300 s = None.
Proof.
  intros us s.
  assert (Hus : Forall (fun u => in_u32 (mu_symbol_id u)) us)
    by (repeat constructor; cbn; lia).
  destruct (store_reads_last_update us 3 Hus) as [H3 _]; [unfold in_u32; lia |].
  destruct (store_reads_last_update us 300 Hus) as [_ H300]; [unfold in_u32; lia |].
  destruct H3 as (Hb & _ & Ht & _); [unfold MAX_SYMBOLS; lia | now constructor |].
  split; [exact Hb |]. split; [exact Ht |]. apply H300. unfold MAX_SYMBOLS. lia.
Defined.

(** ** Staleness *)

(** On data that is not newer than the clock [is_stale] compares the age with
    the threshold.  A timestamp ahead of the clock wraps the subtraction
    around, and the freshest data is then reported stale. *)
Theorem is_stale_spec id now threshold s t :
  get_timestamp id s = Some t -> in_u64 t -> in_u64 now -> 0 <= threshold < 2 ^ 63 ->
  (t <= now -> is_stale id now threshold s = (threshold <? now - t)) /\
  (now < t <= now + 2 ^ 63 -> is_stale id now threshold s = true).
Proof.
  unfold get_timestamp, is_stale, in_u64, wrap64. intros Hg Ht Hn Hth.
  destruct (_ <? count s)%nat; [| discriminate]. injection Hg as ->. split; intros Hle.
  - now rewrite Z.mod_small by lia.
  - apply Z.ltb_lt. rewrite <- (Z.mod_unique (now - t) (2 ^ 64) (-1) (now - t + 2 ^ 64)); lia.
Qed.

Lemma is_stale_spec_witness :
  let s := update 1 10.0%f64 11.0%f64 500 MarketDataStore_new in
  is_stale 1 600 1000 s = false /\ is_stale 1 499 1000 s = true.
Proof.
  intros s.
  destruct (is_stale_spec 1 600 1000 s 500 eq_refl) as [H1 _]; [unfold in_u64; lia .. |].
  destruct (is_stale_spec 1 499 1000 s 500 eq_refl) as [_ H2]; [unfold in_u64; lia .. |].
  rewrite H1, H2 by lia. now split.
Defined.

(** ** Iteration *)

(** [iter_spreads] visits every id below [len] in order with the spread that
    [get_spread_bps] answers. *)
Lemma iter_spreads_spec s :
  snd <$> iter_spreads s = (fun i => get_spread_bps (Z.of_nat i) s) <$> seq 0 (md_len s).
Proof.
  unfold iter_spreads, md_len. rewrite <- list_fmap_compose. apply list_fmap_ext.
  intros i x Hx. apply lookup_seq in Hx. destruct Hx as [-> Hi]. cbn.
  unfold get_spread_bps. rewrite Nat2Z.id. apply Nat.ltb_lt in Hi. now rewrite Hi.
Qed.

(** Ids never updated but below the largest one are visited too, and all of
    them under symbol id 0: after one update of id 2 the iteration answers
    three entries and [len] is 3. *)
Theorem iter_spreads_holes :
  let s := update 2 100.0%f64 101.0%f64 1 MarketDataStore_new in
  iter_spreads s = [(0, 0.0%f64); (0, 0.0%f64); (2, 100.0%f64)] /\ md_len s = 3%nat.
Proof. vm_compute. split; reflexivity. Qed.
