(* ===== verification/ExchangeFees.v ===== *)
(** The exchange fee table ([src/src/strategy/exchange_fees.rs]): 256 fees
    indexed by an exchange id, and the two translations between names and ids.

    Names are ASCII strings, on which [to_lowercase] is [lower]. *)
From Stdlib Require Import ZArith Lia Bool Ascii String.
From stdpp Require Import base option list gmap strings.
From S2P Require Import Prelude Float64 NumberText.

#[local] Open Scope string_scope.
#[local] Open Scope Z_scope.

Definition EXCHANGE_ID_BINANCE : Z := 1.
Definition EXCHANGE_ID_OKX : Z := 2.
Definition EXCHANGE_ID_BYBIT : Z := 3.
Definition EXCHANGE_ID_BITGET : Z := 4.
Definition EXCHANGE_ID_KUCOIN : Z := 5.
Definition EXCHANGE_ID_HYPERLIQUID : Z := 6.
Definition EXCHANGE_ID_PARADEX : Z := 7.
Definition EXCHANGE_ID_GATEIO : Z := 8.

(** [fees[id] = fee] on the array under construction. *)
Definition set_fee (id : Z) (fee : f64) (fees : list f64) : list f64 := <[Z.to_nat id := fee]> fees.

Definition EXCHANGE_FEES : list f64 :=
  let fees := replicate 256 6.0%f64 in
  let fees := set_fee EXCHANGE_ID_BINANCE 4.0%f64 fees in
  let fees := set_fee EXCHANGE_ID_OKX 5.0%f64 fees in
  let fees := set_fee EXCHANGE_ID_BYBIT 5.5%f64 fees in
  let fees := set_fee EXCHANGE_ID_BITGET 6.0%f64 fees in
  let fees := set_fee EXCHANGE_ID_KUCOIN 6.0%f64 fees in
  let fees := set_fee EXCHANGE_ID_HYPERLIQUID 4.5%f64 fees in
  let fees := set_fee EXCHANGE_ID_PARADEX 5.0%f64 fees in
  let fees := set_fee EXCHANGE_ID_GATEIO 6.0%f64 fees in
  fees.

Definition EXCHANGE_TO_ID : gmap string Z :=
  <["gateio" := EXCHANGE_ID_GATEIO]> (
  <["paradex" := EXCHANGE_ID_PARADEX]> (
  <["hyperliquid" := EXCHANGE_ID_HYPERLIQUID]> (
  <["kucoin" := EXCHANGE_ID_KUCOIN]> (
  <["bitget" := EXCHANGE_ID_BITGET]> (
  <["bybit" := EXCHANGE_ID_BYBIT]> (
  <["okx" := EXCHANGE_ID_OKX]> (
  <["binance" := EXCHANGE_ID_BINANCE]> ∅))))))).

Definition ID_TO_EXCHANGE : list string :=
  [""; "binance"; "okx"; "bybit"; "bitget"; "kucoin"; "hyperliquid"; "paradex"; "gateio"].

(** The index is not checked by the code ([get_unchecked]): [None] is the
    undefined behaviour of reading outside the table. *)
Definition get_exchange_fee (exchange_id : Z) : option f64 :=
  EXCHANGE_FEES !! Z.to_nat exchange_id.

Definition exchange_to_id (exchange : string) : Z :=
  let exchange_lower := lower exchange in
  default 0 (EXCHANGE_TO_ID !! exchange_lower).

Definition get_exchange_fee_by_name (exchange : string) : option f64 :=
  let exchange_lower := lower exchange in
  let exchange_id := default 0 (EXCHANGE_TO_ID !! exchange_lower) in
  get_exchange_fee exchange_id.

Definition id_to_exchange (exchange_id : Z) : string :=
  default "" (ID_TO_EXCHANGE !! Z.to_nat exchange_id).

Definition get_all_exchange_ids : list Z :=
  [EXCHANGE_ID_BINANCE; EXCHANGE_ID_OKX; EXCHANGE_ID_BYBIT; EXCHANGE_ID_BITGET;
   EXCHANGE_ID_KUCOIN; EXCHANGE_ID_HYPERLIQUID; EXCHANGE_ID_PARADEX; EXCHANGE_ID_GATEIO].

Definition get_all_exchange_names : list string :=
  ["binance"; "okx"; "bybit"; "bitget"; "kucoin"; "hyperliquid"; "paradex"; "gateio"].

(** ** Lemmas *)
Lemma length_fees : length EXCHANGE_FEES = 256%nat.
Proof. reflexivity. Qed.

(** The unchecked read is safe for every [u8], and every fee lies between 4
    and 6 basis points. *)
Lemma fee_bounds id : in_u8 id ->
  exists fee, get_exchange_fee id = Some fee /\ (4.0%f64 <=? fee)%F = true /\ (fee <=? 6.0%f64)%F = true.
Proof.
  intros Hid. unfold get_exchange_fee.
  assert (Hall : forallb (fun f => (4.0%f64 <=? f)%F && (f <=? 6.0%f64)%F)%bool EXCHANGE_FEES = true)
    by (vm_compute; reflexivity).
  destruct (lookup_lt_is_Some_2 EXCHANGE_FEES (Z.to_nat id)) as [fee Hf].
  { rewrite length_fees. unfold in_u8 in Hid. lia. }
  exists fee. split; [exact Hf |]. rewrite forallb_forall in Hall.
  apply andb_true_iff, Hall, list_elem_of_In, (list_elem_of_lookup_2 _ _ _ Hf).
Qed.

Lemma exchange_to_id_cases e :
  (exchange_to_id e = 0 /\ lower e ∉ get_all_exchange_names) \/
  exists i, get_all_exchange_names !! i = Some (lower e) /\
            exchange_to_id e = Z.of_nat i + 1.
Proof.
  unfold exchange_to_id. generalize (lower e). clear e. intros e.
  destruct (decide (e ∈ get_all_exchange_names)) as [Hin | Hout].
  - right. apply list_elem_of_lookup_1 in Hin as [i Hi]. exists i. split; [exact Hi |].
    do 8 (destruct i as [| i]; [injection Hi as <-; reflexivity |]). discriminate.
  - left. split; [| exact Hout]. unfold EXCHANGE_TO_ID, get_all_exchange_names in *.
    rewrite !not_elem_of_cons in Hout. rewrite !lookup_insert_ne, lookup_empty; [reflexivity |..];
      intros <-; intuition congruence.
Qed.

(** Names and ids translate back and forth: a name with an id (in any case)
    is found again in lower case, every listed id comes back from its name, and
    every name's fee is the fee of its id, read inside the table. *)
Theorem exchange_id_roundtrip e :
  (exchange_to_id e <> 0 -> id_to_exchange (exchange_to_id e) = lower e) /\
  (forall id, id ∈ get_all_exchange_ids -> exchange_to_id (id_to_exchange id) = id) /\
  exchange_to_id (lower e) = exchange_to_id e /\
  (exists fee, get_exchange_fee_by_name e = Some fee /\
     get_exchange_fee (exchange_to_id e) = Some fee /\
     (exchange_to_id e = 0 -> fee = 6.0%f64)).
Proof.
  split; [| split; [| split]].
  - destruct (exchange_to_id_cases e) as [[-> _] | (i & Hi & ->)]; [congruence | intros _].
    unfold id_to_exchange. replace (Z.to_nat (Z.of_nat i + 1)) with (S i) by lia.
    change (ID_TO_EXCHANGE !! S i) with (get_all_exchange_names !! i). now rewrite Hi.
  - apply Forall_forall. repeat constructor.
  - unfold exchange_to_id. now rewrite lower_idem.
  - change (get_exchange_fee_by_name e) with (get_exchange_fee (exchange_to_id e)).
    assert (Hu : in_u8 (exchange_to_id e)).
    { destruct (exchange_to_id_cases e) as [[-> _] | (i & Hi & ->)]; unfold in_u8; [lia |].
      apply lookup_lt_Some in Hi. cbn in Hi. lia. }
    destruct (fee_bounds _ Hu) as (fee & Hf & _). exists fee. split; [exact Hf |].
    split; [exact Hf |]. intros H0. rewrite H0 in Hf. vm_compute in Hf. now injection Hf as <-.
Qed.
