(* ===== verification/Branchless.v ===== *)
(** The hot-path validation functions ([src/src/strategy/branchless.rs]) and
    the scanner that exposes them ([src/src/strategy/scanner.rs]).

    The branchless versions work on [u8] bits; the theorems relate them to the
    plain boolean conditions they stand for. *)
From Stdlib Require Import ZArith Lia Bool.
From stdpp Require Import base option list.
From S2P Require Import Prelude Float64.

(** ** branchless.rs *)
Module Branchless.

Definition spread_exceeds_threshold (spread threshold : f64) : bool := (spread >? threshold)%F.

Definition funding_delta_substantial (funding_delta threshold : f64) : bool :=
  (fabs funding_delta >? threshold)%F.

Definition depth_sufficient (depth threshold : f64) : bool := (depth >? threshold)%F.

(** [b as u8]. *)
Definition as_u8 (b : bool) : Z := Z.b2z b.

Definition all_conditions_pass (spread_ok funding_ok depth_ok : bool) : bool :=
  let spread_bit := as_u8 spread_ok in
  let funding_bit := as_u8 funding_ok in
  let depth_bit := as_u8 depth_ok in
  (Z.land (Z.land spread_bit funding_bit) depth_bit =? 1)%Z.

Definition any_condition_passes (cond1 cond2 cond3 : bool) : bool :=
  let bit1 := as_u8 cond1 in
  let bit2 := as_u8 cond2 in
  let bit3 := as_u8 cond3 in
  negb (Z.lor (Z.lor bit1 bit2) bit3 =? 0)%Z.

Definition min_f64 (a b : f64) : f64 := fmin a b.
Definition max_f64 (a b : f64) : f64 := fmax a b.

Definition clamp_f64 (value min max : f64) : f64 := max_f64 min (min_f64 max value).

Definition select_f64 (condition : bool) (value_if_true value_if_false : f64) : f64 :=
  if condition then value_if_true else value_if_false.

Definition is_valid_opportunity
  (spread_bps spread_threshold funding_delta funding_threshold depth depth_threshold : f64)
  : bool :=
  let spread_ok := (spread_bps >? spread_threshold)%F in
  let funding_ok := (fabs funding_delta >? funding_threshold)%F in
  let depth_ok := (depth >? depth_threshold)%F in
  all_conditions_pass spread_ok funding_ok depth_ok.

Definition should_exit_opportunity
  (current_spread entry_spread current_funding entry_funding : f64) : bool :=
  let spread_closed_pct :=
    if (entry_spread >? 0.0%f64)%F
    then (((entry_spread - current_spread) / entry_spread) * 100.0%f64)%F
    else 0.0%f64 in
  let spread_widened := (current_spread >? entry_spread * 1.3%f64)%F in
  let funding_converged :=
    if (fabs entry_funding >? 0.0001%f64)%F
    then (fabs current_funding <? fabs entry_funding * 0.2%f64)%F
    else false in
  let spread_closed := (spread_closed_pct >=? 90.0%f64)%F in
  any_condition_passes spread_closed spread_widened funding_converged.

Definition abs_f64 (x : f64) : f64 := fabs x.

(** [(x > 0.0) as i32 as f64 - (x < 0.0) as i32 as f64]. *)
Definition sign_f64 (x : f64) : f64 :=
  (f_of_Z (Z.b2z (x >? 0.0%f64)%F) - f_of_Z (Z.b2z (x <? 0.0%f64)%F))%F.

End Branchless.

(** ** scanner.rs *)
Module Scanner.

Definition calculate_spread_bps (long_price short_price : f64) : f64 :=
  if (long_price =? 0.0%f64)%F then 0.0%f64
  else (((short_price - long_price) / long_price) * 10000.0%f64)%F.

Definition is_valid_opportunity
  (spread_bps spread_threshold funding_delta funding_threshold depth depth_threshold : f64)
  : bool :=
  Branchless.is_valid_opportunity
    spread_bps spread_threshold funding_delta funding_threshold depth depth_threshold.

Definition should_exit_opportunity
  (current_spread entry_spread current_funding entry_funding : f64) : bool :=
  Branchless.should_exit_opportunity current_spread entry_spread current_funding entry_funding.

Definition min (a b : f64) : f64 := Branchless.min_f64 a b.
Definition max (a b : f64) : f64 := Branchless.max_f64 a b.
Definition clamp (value min max : f64) : f64 := Branchless.clamp_f64 value min max.

End Scanner.

(** ** The bit tricks compute the conditions *)
Lemma all_conditions_pass_andb a b c :
  Branchless.all_conditions_pass a b c = (a && b && c)%bool.
Proof. destruct a, b, c; reflexivity. Qed.

Lemma any_condition_passes_orb a b c :
  Branchless.any_condition_passes a b c = (a || b || c)%bool.
Proof. destruct a, b, c; reflexivity. Qed.

Lemma sign_f64_cases x :
  is_nan x = false ->
  Branchless.sign_f64 x =
    if (x >? 0.0%f64)%F then 1.0%f64 else if (x <? 0.0%f64)%F then (-1.0)%f64 else 0.0%f64.
Proof.
  intros Hx. unfold Branchless.sign_f64.
  destruct (x >? 0.0%f64)%F eqn:E1, (x <? 0.0%f64)%F eqn:E2; try (vm_compute; reflexivity).
  pose proof (fltb_trans _ _ _ E1 E2) as H. rewrite fltb_irrefl in H. discriminate.
Qed.

#[export] Hint Rewrite all_conditions_pass_andb any_condition_passes_orb : arb.

(** An opportunity is valid exactly when each quantity strictly exceeds its
    threshold; in particular none of the six inputs is then NaN. *)
Theorem is_valid_opportunity_spec s st f ft d dt :
  Scanner.is_valid_opportunity s st f ft d dt = true <->
  ((st <? s)%F = true /\ (ft <? fabs f)%F = true /\ (dt <? d)%F = true).
Proof.
  unfold Scanner.is_valid_opportunity, Branchless.is_valid_opportunity.
  autorewrite with arb. rewrite !andb_true_iff. tauto.
Qed.

(** When the exit test fires: the spread has closed by at least 90%, has
    widened by more than 30%, or the funding delta has fallen below a fifth of
    a substantial entry delta. *)
Lemma should_exit_spec cs es cf ef :
  Scanner.should_exit_opportunity cs es cf ef = true <->
  ((es >? 0.0%f64)%F = true /\ ((((es - cs) / es) * 100.0%f64) >=? 90.0%f64)%F = true) \/
  (cs >? es * 1.3%f64)%F = true \/
  ((fabs ef >? 0.0001%f64)%F = true /\ (fabs cf <? fabs ef * 0.2%f64)%F = true).
Proof.
  unfold Scanner.should_exit_opportunity, Branchless.should_exit_opportunity.
  autorewrite with arb. rewrite !orb_true_iff.
  destruct (es >? 0.0%f64)%F; destruct (fabs ef >? 0.0001%f64)%F;
    intuition (try discriminate).
Qed.

(** The clamp is total: for ordered bounds the result lies between them even
    when the value is NaN (the upper bound is answered then), and a value
    already between the bounds comes back equal. *)
Theorem clamp_f64_bounds v lo hi :
  (lo <=? hi)%F = true ->
  (lo <=? Branchless.clamp_f64 v lo hi)%F = true /\
  (Branchless.clamp_f64 v lo hi <=? hi)%F = true /\
  ((lo <=? v)%F = true -> (v <=? hi)%F = true ->
     (Branchless.clamp_f64 v lo hi <=? v)%F = true /\ (v <=? Branchless.clamp_f64 v lo hi)%F = true) /\
  (is_nan v = true -> Branchless.clamp_f64 v lo hi = fmax lo hi).
Proof.
  intros Hle. unfold Branchless.clamp_f64, Branchless.max_f64, Branchless.min_f64.
  pose proof (fleb_nan_l _ _ Hle) as Hlo. pose proof (fleb_nan_r _ _ Hle) as Hhi.
  pose proof (fmin_le_l hi v Hhi) as Hm.
  repeat split.
  - now apply fmax_ge_l.
  - destruct (fmax_cases lo (fmin hi v)) as [-> | ->]; assumption.
  - destruct (fmax_cases lo (fmin hi v)) as [-> | ->]; [assumption |].
    apply fmin_le_r. eauto with arb.
  - eapply fleb_trans; [| apply fmax_ge_r; eauto with arb].
    destruct (fmin_cases hi v) as [-> | ->]; [assumption |]. apply fleb_refl. eauto with arb.
  - intros Hv. f_equal. unfold fmin. now rewrite Hhi, Hv.
Qed.

Lemma clamp_f64_bounds_witness :
  Branchless.clamp_f64 S754_nan 0.0%f64 1.0%f64 = 1.0%f64 /\
  (Branchless.clamp_f64 7.0%f64 0.0%f64 1.0%f64 <=? 1.0%f64)%F = true.
Proof.
  destruct (clamp_f64_bounds S754_nan 0.0%f64 1.0%f64 eq_refl) as (_ & _ & _ & H1).
  destruct (clamp_f64_bounds 7.0%f64 0.0%f64 1.0%f64 eq_refl) as (_ & H2 & _ & _).
  split; [exact (H1 eq_refl) | exact H2].
Defined.
