(* ===== verification/Confluence.v ===== *)
(** The confluence calculator ([src/src/strategy/confluence.rs]): the hard
    constraints, the indicator formulas and the three bounded histories. *)
From Stdlib Require Import ZArith Lia Bool.
From stdpp Require Import base option list.
From S2P Require Import Prelude Float64 Types Pipeline.

(** ** State and operations *)
Record ConfluenceCalculator := {
  oi_history : list f64;
  vwap_history : list (f64 * f64);
  atr_history : list f64
}.

Definition ConfluenceCalculator_new : ConfluenceCalculator :=
  {| oi_history := []; vwap_history := []; atr_history := [] |}.

Definition check_hard_constraints
  (order_book_depth_long order_book_depth_short position_size : f64)
  (exchange_latency_ok_ : bool) (funding_delta : f64) : HardConstraints :=
  {| order_book_depth_sufficient :=
       (order_book_depth_long >=? position_size * 2.0%f64)%F &&
       (order_book_depth_short >=? position_size * 2.0%f64)%F;
     exchange_latency_ok := exchange_latency_ok_;
     funding_delta_substantial := (fabs funding_delta >? 0.0001%f64)%F |}.

Definition calculate_obi (bid_volume ask_volume : f64) : f64 :=
  if (bid_volume + ask_volume =? 0.0%f64)%F then 0.0%f64
  else ((bid_volume - ask_volume) / (bid_volume + ask_volume))%F.

Definition calculate_vwap_deviation (current_price vwap : f64) : f64 :=
  if (vwap =? 0.0%f64)%F then 0.0%f64 else ((current_price - vwap) / vwap)%F.

Definition calculate_atr (high low _close prev_close : f64) : f64 :=
  let tr1 := (high - low)%F in
  let tr2 := fabs (high - prev_close)%F in
  let tr3 := fabs (low - prev_close)%F in
  fmax (fmax tr1 tr2) tr3.

(** [push_back(x)], then [pop_front()] when the length exceeds [n]. *)
Definition push_bounded {A} (n : nat) (x : A) (h : list A) : list A :=
  let h := h ++ [x] in
  if (n <? length h)%nat then tail h else h.

Definition update_oi_history (oi : f64) (c : ConfluenceCalculator) : ConfluenceCalculator :=
  {| oi_history := push_bounded 24 oi (oi_history c); vwap_history := vwap_history c;
     atr_history := atr_history c |}.

Definition update_vwap_history (price volume : f64) (c : ConfluenceCalculator)
  : ConfluenceCalculator :=
  {| oi_history := oi_history c; vwap_history := push_bounded 3600 (price, volume) (vwap_history c);
     atr_history := atr_history c |}.

Definition update_atr_history (atr : f64) (c : ConfluenceCalculator) : ConfluenceCalculator :=
  {| oi_history := oi_history c; vwap_history := vwap_history c;
     atr_history := push_bounded 14 atr (atr_history c) |}.

Definition get_atr_trend (c : ConfluenceCalculator) : bool :=
  if (length (atr_history c) <? 2)%nat then false
  else
    let recent_atr := default 0.0%f64 (last (atr_history c)) in
    let prev_atr := default 0.0%f64 (atr_history c !! (length (atr_history c) - 2)%nat) in
    (recent_atr <? prev_atr)%F.

(** [f64::MAX]. *)
Definition F64_MAX : f64 := S754_finite false (2 ^ 53 - 1) 971.

(** The body of the loop over the prices. *)
Definition closer (current_price min_distance price : f64) : f64 :=
  let distance := fabs (price - current_price)%F in
  if (distance <? min_distance)%F then distance else min_distance.

Definition min_distance_loop (liquidation_prices : list f64) (current_price : f64) : f64 :=
  fold_left (closer current_price) liquidation_prices F64_MAX.

Definition identify_liquidation_clusters (liquidation_prices : list f64) (current_price : f64)
  : f64 :=
  match liquidation_prices with
  | [] => 100.0%f64
  | _ =>
      let min_distance := min_distance_loop liquidation_prices current_price in
      if (current_price =? 0.0%f64)%F then 100.0%f64
      else ((min_distance / current_price) * 100.0%f64)%F
  end.

(** ** Histories *)
Lemma push_bounded_fifo {A} n (x : A) h :
  (length h <= n)%nat -> (0 < n)%nat -> push_bounded n x h = fifo_append n h x.
Proof.
  intros Hl Hn. unfold push_bounded, fifo_append. rewrite length_app. cbn [length].
  destruct (Nat.ltb_spec n (length h + 1)), (Nat.ltb_spec (length h) n); try lia; [| reflexivity].
  destruct h; cbn in *; [lia | reflexivity].
Qed.

Lemma push_bounded_length {A} n (x : A) h :
  (length h <= n)%nat -> (0 < n)%nat -> (length (push_bounded n x h) <= n)%nat.
Proof.
  intros Hl Hn. unfold push_bounded. rewrite length_app. cbn [length].
  destruct (Nat.ltb_spec n (length h + 1)) as [Hlt | Hge].
  - rewrite length_tl, length_app. cbn. lia.
  - rewrite length_app. cbn. lia.
Qed.

Lemma push_bounded_lastn {A} n (l h : list A) :
  (0 < n)%nat -> (length h <= n)%nat ->
  fold_left (fun h x => push_bounded n x h) l h = drop (length (h ++ l) - n) (h ++ l).
Proof.
  intros Hn Hh. rewrite <- fifo_appends_lastn by assumption. revert h Hh.
  induction l as [| x l IH]; intros h Hh; cbn; [reflexivity |].
  rewrite <- push_bounded_fifo by assumption. apply IH. now apply push_bounded_length.
Qed.

(** After any sequence of ATR readings the history is the newest fourteen of
    them, and the trend compares the last two readings ever given. *)
Theorem atr_history_newest (l : list f64) (x y : f64) :
  let c := fold_left (fun c a => update_atr_history a c) (l ++ [x; y]) ConfluenceCalculator_new in
  atr_history c = drop (length l + 2 - 14) (l ++ [x; y]) /\
  get_atr_trend c = (y <? x)%F /\
  oi_history c = [] /\ vwap_history c = [].
Proof.
  set (all := l ++ [x; y]). intros c.
  assert (Hf : forall m h, fold_left (fun c a => update_atr_history a c) m h =
    {| oi_history := oi_history h; vwap_history := vwap_history h;
       atr_history := fold_left (fun h x => push_bounded 14 x h) m (atr_history h) |}).
  { induction m as [| a m IH]; intros h; cbn [fold_left]; [now destruct h |]. now rewrite IH. }
  assert (Hh : atr_history c = drop (length l + 2 - 14) all).
  { unfold c. rewrite Hf. cbn [atr_history ConfluenceCalculator_new].
    rewrite push_bounded_lastn by (cbn; lia). cbn [app]. unfold all.
    rewrite length_app. reflexivity. }
  split; [exact Hh |]. split; [| unfold c; rewrite Hf; auto].
  unfold get_atr_trend. rewrite Hh.
  assert (Hd : drop (length l + 2 - 14) all = drop (length l + 2 - 14) l ++ [x; y]).
  { unfold all. apply drop_app_le. lia. }
  rewrite Hd. set (k := drop _ l).
  replace (length (k ++ [x; y])) with (length k + 2)%nat by (rewrite length_app; reflexivity).
  destruct (Nat.ltb_spec (length k + 2) 2); [lia |].
  replace (k ++ [x; y]) with ((k ++ [x]) ++ [y]) by now rewrite <- app_assoc.
  rewrite last_snoc. replace (length k + 2 - 2)%nat with (length k) by lia.
  rewrite <- app_assoc. cbn [app]. now rewrite list_lookup_middle by reflexivity.
Qed.

(** ** Indicators *)

(** The nearest liquidation price: the loop's distance bounds every distance
    from below and is attained (or no distance is below [f64::MAX]). *)
Lemma min_distance_spec prices current :
  Forall (fun p => is_nan (p - current)%F = false) prices ->
  let m := min_distance_loop prices current in
  Forall (fun p => (m <=? fabs (p - current))%F = true) prices /\
  (m = F64_MAX \/ exists p, p ∈ prices /\ m = fabs (p - current)%F).
Proof.
  unfold min_distance_loop. cbv zeta.
  assert (Hgen : forall l m0, is_nan m0 = false ->
    Forall (fun p => is_nan (p - current)%F = false) l ->
    let m := fold_left (closer current) l m0 in
    (m <=? m0)%F = true /\ Forall (fun p => (m <=? fabs (p - current))%F = true) l /\
    (m = m0 \/ exists p, p ∈ l /\ m = fabs (p - current)%F)).
  { induction l as [| p l IH]; intros m0 Hm0 Hall m.
    - subst m. cbn. auto using fleb_refl.
    - inversion Hall as [| ? ? Hp Hl]; subst. rewrite <- fabs_nan in Hp.
      assert (Hc : is_nan (closer current m0 p) = false /\ (closer current m0 p <=? m0)%F = true /\
                   (closer current m0 p <=? fabs (p - current))%F = true /\
                   (closer current m0 p = m0 \/ closer current m0 p = fabs (p - current)%F)).
      { unfold closer. destruct (fabs (p - current) <? m0)%F eqn:E;
          repeat split; auto using fleb_refl, fltb_fleb.
        rewrite fleb_not_fltb by assumption. now rewrite E. }
      destruct Hc as (Hn & Hle & Hd & Hor).
      destruct (IH _ Hn Hl) as (H1 & H2 & H3). subst m. cbn [fold_left].
      set (m := fold_left _ l _) in *. split; [eauto using fleb_trans |]. split; [constructor; eauto using fleb_trans |].
      destruct H3 as [-> | (q & Hq & ->)]; [destruct Hor as [-> | ->]; [now left |] |];
        right; [exists p | exists q]; split; try reflexivity; now constructor. }
  intros Hall. destruct (Hgen prices F64_MAX eq_refl Hall) as (_ & H2 & H3). auto.
Qed.

(** The true range is at least each of the three ranges it is the maximum of. *)
Lemma atr_true_range high low close prev :
  is_nan (high - low)%F = false -> is_nan (high - prev)%F = false ->
  is_nan (low - prev)%F = false ->
  let atr := calculate_atr high low close prev in
  (high - low <=? atr)%F = true /\ (fabs (high - prev) <=? atr)%F = true /\
  (fabs (low - prev) <=? atr)%F = true /\ (0.0%f64 <=? atr)%F = true.
Proof.
  intros H1 H2 H3 atr. unfold atr, calculate_atr.
  rewrite <- fabs_nan in H2, H3.
  assert (H12 : is_nan (fmax (high - low)%F (fabs (high - prev)%F)) = false)
    by (destruct (fmax_cases (high - low)%F (fabs (high - prev)%F)) as [-> | ->]; assumption).
  assert (Hr : (fabs (low - prev) <=? fmax (fmax (high - low) (fabs (high - prev))) (fabs (low - prev)))%F = true)
    by now apply fmax_ge_r.
  repeat split.
  - eapply fleb_trans; [| now apply fmax_ge_l]. now apply fmax_ge_l.
  - eapply fleb_trans; [| now apply fmax_ge_l]. now apply fmax_ge_r.
  - exact Hr.
  - eapply fleb_trans; [| exact Hr]. apply fabs_nonneg. now rewrite fabs_nan in H3.
Qed.
