(* ===== verification/Positions.v ===== *)
(** Position monitoring ([src/src/strategy/positions.rs]): unrealized profit,
    the exit conditions in their order, and leg-out detection. *)
From Stdlib Require Import ZArith Lia Bool.
From stdpp Require Import base option list strings.
From S2P Require Import Prelude Float64 Types.

#[local] Open Scope string_scope.

Definition calculate_unrealized_pnl
  (entry_long_price entry_short_price current_long_price current_short_price position_size : f64)
  : f64 :=
  let long_pnl := (((current_long_price - entry_long_price) / entry_long_price) * position_size)%F in
  let short_pnl := (((entry_short_price - current_short_price) / entry_short_price) * position_size)%F in
  (long_pnl + short_pnl)%F.

Definition check_exit_conditions (trade : PaperTrade)
  (current_funding_delta current_spread_bps unrealized_pnl : f64) : option string :=
  if (unrealized_pnl >=? pt_projected_profit_usd trade * 0.9%f64)%F then Some "profit_target"
  else if (unrealized_pnl <=? fneg (pt_projected_profit_usd trade) * 0.3%f64)%F then Some "loss_limit"
  else if (fabs current_funding_delta <? 0.00005%f64)%F then Some "funding_convergence"
  else if (current_spread_bps >? pt_entry_spread_bps trade + 50.0%f64)%F then Some "spread_widening"
  else if (current_spread_bps >? pt_entry_spread_bps trade + 100.0%f64)%F then Some "stop_loss"
  else None.

Definition detect_leg_out (long_filled short_filled : bool) (time_since_entry_ms : Z) : bool :=
  let one_leg_filled := (long_filled && negb short_filled) || (negb long_filled && short_filled) in
  one_leg_filled && (500 <? time_since_entry_ms)%Z.

(** ** Properties *)

(** The reasons are checked in priority order: each is given exactly when its
    condition holds and no earlier one does. *)
Theorem exit_reason_priority t fd sp pnl :
  let profit := (pnl >=? pt_projected_profit_usd t * 0.9%f64)%F in
  let loss := (pnl <=? fneg (pt_projected_profit_usd t) * 0.3%f64)%F in
  let funding := (fabs fd <? 0.00005%f64)%F in
  let widening := (sp >? pt_entry_spread_bps t + 50.0%f64)%F in
  let stop := (sp >? pt_entry_spread_bps t + 100.0%f64)%F in
  let r := check_exit_conditions t fd sp pnl in
  (r = Some "profit_target" <-> profit = true) /\
  (r = Some "loss_limit" <-> profit = false /\ loss = true) /\
  (r = Some "funding_convergence" <-> profit = false /\ loss = false /\ funding = true) /\
  (r = Some "spread_widening" <->
     profit = false /\ loss = false /\ funding = false /\ widening = true) /\
  (r = Some "stop_loss" <->
     profit = false /\ loss = false /\ funding = false /\ widening = false /\ stop = true) /\
  (r = None <->
     profit = false /\ loss = false /\ funding = false /\ widening = false /\ stop = false).
Proof.
  cbv zeta. unfold check_exit_conditions.
  destruct (pnl >=? pt_projected_profit_usd t * 0.9%f64)%F,
    (pnl <=? fneg (pt_projected_profit_usd t) * 0.3%f64)%F, (fabs fd <? 0.00005%f64)%F,
    (sp >? pt_entry_spread_bps t + 50.0%f64)%F, (sp >? pt_entry_spread_bps t + 100.0%f64)%F;
    repeat split; intuition congruence.
Qed.

(** A leg-out is one filled leg for more than 500 ms. *)
Lemma detect_leg_out_spec l s ms :
  detect_leg_out l s ms = true <-> l <> s /\ (500 < ms)%Z.
Proof.
  unfold detect_leg_out. rewrite andb_true_iff, Z.ltb_lt.
  destruct l, s; cbn; intuition congruence.
Qed.
