(* ===== verification/Portfolio.v ===== *)
(** The portfolio manager ([src/src/strategy/portfolio.rs]).

    The state behind the lock is [PortfolioState] of [Types.v].  The two Redis
    writes at the end of [open_trade] and [close_trade] are outside the
    program: their outcomes are arguments, and an error is returned with [?]
    after the state has already changed.  [open_trade] and [close_trade] take
    [&mut self], so no other operation runs between the two locked sections. *)
From Stdlib Require Import ZArith Lia Bool.
From stdpp Require Import base option list strings.
From S2P Require Import Prelude Float64 Types.

(** The errors of [open_trade] with the numbers their messages print. *)
Inductive portfolio_error :=
| ExceedsCapital (position_size available : f64)
| IoError (message : string).

Definition io := result unit string.

(** ** Field updates *)
Definition with_capital (available open : f64) (s : PortfolioState) : PortfolioState :=
  {| ps_starting_capital := ps_starting_capital s;
     ps_available_capital := available; ps_total_open_positions := open;
     ps_active_trades := ps_active_trades s; ps_closed_trades := ps_closed_trades s;
     ps_cumulative_pnl := ps_cumulative_pnl s;
     ps_win_count := ps_win_count s; ps_loss_count := ps_loss_count s;
     ps_leg_out_count := ps_leg_out_count s;
     ps_leg_out_total_loss := ps_leg_out_total_loss s; ps_last_updated := ps_last_updated s |}.

Definition with_pnl (cumulative leg_out_loss : f64) (s : PortfolioState) : PortfolioState :=
  {| ps_starting_capital := ps_starting_capital s;
     ps_available_capital := ps_available_capital s;
     ps_total_open_positions := ps_total_open_positions s;
     ps_active_trades := ps_active_trades s; ps_closed_trades := ps_closed_trades s;
     ps_cumulative_pnl := cumulative;
     ps_win_count := ps_win_count s; ps_loss_count := ps_loss_count s;
     ps_leg_out_count := ps_leg_out_count s;
     ps_leg_out_total_loss := leg_out_loss; ps_last_updated := ps_last_updated s |}.

Definition with_trades (active closed : list PaperTrade) (s : PortfolioState) : PortfolioState :=
  {| ps_starting_capital := ps_starting_capital s;
     ps_available_capital := ps_available_capital s;
     ps_total_open_positions := ps_total_open_positions s;
     ps_active_trades := active; ps_closed_trades := closed;
     ps_cumulative_pnl := ps_cumulative_pnl s;
     ps_win_count := ps_win_count s; ps_loss_count := ps_loss_count s;
     ps_leg_out_count := ps_leg_out_count s;
     ps_leg_out_total_loss := ps_leg_out_total_loss s; ps_last_updated := ps_last_updated s |}.

(** The four assignments to a trade being closed. *)
Definition close_record (profit : f64) (reason : string) (exit_time : Z) (t : PaperTrade)
  : PaperTrade :=
  {| pt_id := pt_id t; pt_symbol := pt_symbol t; pt_long_exchange := pt_long_exchange t;
     pt_short_exchange := pt_short_exchange t; pt_entry_time := pt_entry_time t;
     pt_entry_long_price := pt_entry_long_price t; pt_entry_short_price := pt_entry_short_price t;
     pt_entry_spread_bps := pt_entry_spread_bps t; pt_position_size_usd := pt_position_size_usd t;
     pt_funding_delta_entry := pt_funding_delta_entry t;
     pt_projected_profit_usd := pt_projected_profit_usd t;
     pt_actual_profit_usd := profit; pt_status := TClosed; pt_exit_reason := Some reason;
     pt_exit_spread_bps := pt_exit_spread_bps t; pt_exit_time := Some exit_time;
     pt_long_order := pt_long_order t; pt_short_order := pt_short_order t;
     pt_long_exit_order := pt_long_exit_order t; pt_short_exit_order := pt_short_exit_order t;
     pt_stop_loss_triggered := pt_stop_loss_triggered t;
     pt_stop_loss_long_price := pt_stop_loss_long_price t;
     pt_stop_loss_short_price := pt_stop_loss_short_price t;
     pt_leg_out_event := pt_leg_out_event t |}.

(** ** Operations *)

(** [log(...).await?; persist_state().await?; Ok(())]. *)
Definition after_io (log persist : io) : result unit portfolio_error :=
  match log with
  | Err e => Err (IoError e)
  | Ok _ => match persist with Err e => Err (IoError e) | Ok _ => Ok tt end
  end.

Definition open_trade (trade : PaperTrade) (log persist : io)
  : ST PortfolioState (result unit portfolio_error) := fun state =>
  if (pt_position_size_usd trade >? ps_available_capital state)%F
  then (Err (ExceedsCapital (pt_position_size_usd trade) (ps_available_capital state)), state)
  else
  (* the write lock: the check is repeated *)
  if (pt_position_size_usd trade >? ps_available_capital state)%F
  then (Err (ExceedsCapital (pt_position_size_usd trade) (ps_available_capital state)), state)
  else
    let state := with_capital (ps_available_capital state - pt_position_size_usd trade)%F
                   (ps_total_open_positions state + pt_position_size_usd trade)%F state in
    let state := with_trades (ps_active_trades state ++ [trade]) (ps_closed_trades state) state in
    (after_io log persist, state).

(** [active_trades.iter().position(|t| t.id == trade_id)], then [remove(pos)]. *)
Fixpoint position (trade_id : string) (l : list PaperTrade) : option nat :=
  match l with
  | [] => None
  | t :: l => if String.eqb (pt_id t) trade_id then Some O else S <$> position trade_id l
  end.

Definition close_trade (trade_id : string) (actual_profit : f64) (exit_reason : string)
  (exit_time : Z) (log persist : io) : ST PortfolioState (result unit portfolio_error) := fun state =>
  let is_profit := (actual_profit >? 0.0%f64)%F in
  match position trade_id (ps_active_trades state) with
  | None => (Ok tt, state)
  | Some pos =>
      match ps_active_trades state !! pos with
      | None => (Ok tt, state)  (* not reached: [pos] is an index of the list *)
      | Some trade0 =>
          let trade := close_record actual_profit exit_reason exit_time trade0 in
          let state := with_trades (delete pos (ps_active_trades state)) (ps_closed_trades state) state in
          let state := with_capital
            (ps_available_capital state + (pt_position_size_usd trade + actual_profit))%F
            (ps_total_open_positions state - pt_position_size_usd trade)%F state in
          let is_leg_out := bool_decide (is_Some (pt_leg_out_event trade)) in
          let state := with_pnl (ps_cumulative_pnl state + actual_profit)%F
            (if is_leg_out && (actual_profit <? 0.0%f64)%F
             then (ps_leg_out_total_loss state + fabs actual_profit)%F
             else ps_leg_out_total_loss state) state in
          let state := with_trades (ps_active_trades state) (ps_closed_trades state ++ [trade]) state in
          let state := if is_profit then increment_wins state else increment_losses state in
          let state := if is_leg_out && (actual_profit <? 0.0%f64)%F
                       then increment_leg_outs state else state in
          (after_io log persist, state)
      end
  end.

(** [now - start_time] is on [u64]. *)
Definition get_portfolio_metrics (now start_time : Z) (state : PortfolioState) : PortfolioMetrics :=
  let win_count := ps_win_count state in
  let loss_count := ps_loss_count state in
  let total_trades := wrap64 (win_count + loss_count) in
  let win_rate :=
    if (0 <? total_trades)%Z
    then ((f_of_Z win_count / f_of_Z total_trades) * 100.0%f64)%F else 0.0%f64 in
  let pnl_percentage := ((ps_cumulative_pnl state / ps_starting_capital state) * 100.0%f64)%F in
  let utilization_pct := ((ps_total_open_positions state / ps_starting_capital state) * 100.0%f64)%F in
  let leg_out_loss_pct :=
    if negb (ps_cumulative_pnl state =? 0.0%f64)%F
    then ((ps_leg_out_total_loss state / fabs (ps_cumulative_pnl state)) * 100.0%f64)%F
    else 0.0%f64 in
  let days_elapsed := (f_of_Z (wrap64 (now - start_time)) / 86400.0%f64)%F in
  let realistic_apr :=
    if (days_elapsed >? 0.0%f64)%F
    then (((ps_cumulative_pnl state / ps_starting_capital state) / (days_elapsed / 365.0%f64)) * 100.0%f64)%F
    else 0.0%f64 in
  {| pm_total_trades := total_trades; pm_win_rate := win_rate;
     pm_cumulative_pnl := ps_cumulative_pnl state; pm_pnl_percentage := pnl_percentage;
     pm_available_capital := ps_available_capital state; pm_utilization_pct := utilization_pct;
     pm_leg_out_count := ps_leg_out_count state; pm_leg_out_loss_pct := leg_out_loss_pct;
     pm_realistic_apr := realistic_apr |}.

(** ** Histories of calls *)
Inductive pf_op :=
| OpOpen (trade : PaperTrade) (log persist : io)
| OpClose (trade_id : string) (profit : f64) (reason : string) (now : Z) (log persist : io).

Definition pf_run1 (s : PortfolioState) (o : pf_op) : PortfolioState :=
  match o with
  | OpOpen t l p => snd (open_trade t l p s)
  | OpClose i pr r n l p => snd (close_trade i pr r n l p s)
  end.

Definition pf_run (ops : list pf_op) (s : PortfolioState) : PortfolioState :=
  fold_left pf_run1 ops s.

(** The bookkeeping recomputed from the closed trades, oldest first. *)
Definition is_win (t : PaperTrade) : bool := (pt_actual_profit_usd t >? 0.0%f64)%F.
Definition is_leg_out_loss (t : PaperTrade) : bool :=
  bool_decide (is_Some (pt_leg_out_event t)) && (pt_actual_profit_usd t <? 0.0%f64)%F.
Definition count_if (p : PaperTrade -> bool) (l : list PaperTrade) : Z :=
  Z.of_nat (length (List.filter p l)).
Definition total_pnl (l : list PaperTrade) : f64 :=
  fold_left (fun a t => (a + pt_actual_profit_usd t)%F) l 0.0%f64.
Definition total_leg_out_loss (l : list PaperTrade) : f64 :=
  fold_left (fun a t => if is_leg_out_loss t then (a + fabs (pt_actual_profit_usd t))%F else a) l 0.0%f64.

Record books_ok (s : PortfolioState) : Prop := {
  bk_wins : ps_win_count s = wrap64 (count_if is_win (ps_closed_trades s));
  bk_losses : ps_loss_count s = wrap64 (count_if (fun t => negb (is_win t)) (ps_closed_trades s));
  bk_leg_outs : ps_leg_out_count s = wrap64 (count_if is_leg_out_loss (ps_closed_trades s));
  bk_pnl : ps_cumulative_pnl s = total_pnl (ps_closed_trades s);
  bk_leg_out_loss : ps_leg_out_total_loss s = total_leg_out_loss (ps_closed_trades s);
  bk_closed : Forall (fun t => pt_status t = TClosed /\ is_Some (pt_exit_reason t) /\
                               is_Some (pt_exit_time t)) (ps_closed_trades s)
}.

Lemma count_if_snoc p l t :
  count_if p (l ++ [t]) = (count_if p l + if p t then 1 else 0)%Z.
Proof. unfold count_if. rewrite List.filter_app, length_app. cbn. destruct (p t); cbn; lia. Qed.

Lemma total_pnl_snoc l t : total_pnl (l ++ [t]) = (total_pnl l + pt_actual_profit_usd t)%F.
Proof. unfold total_pnl. now rewrite fold_left_app. Qed.

Lemma total_leg_out_loss_snoc l t :
  total_leg_out_loss (l ++ [t]) =
    if is_leg_out_loss t then (total_leg_out_loss l + fabs (pt_actual_profit_usd t))%F
    else total_leg_out_loss l.
Proof. unfold total_leg_out_loss. now rewrite fold_left_app. Qed.

Lemma position_lookup i l n :
  position i l = Some n -> exists t, l !! n = Some t /\ pt_id t = i.
Proof.
  revert n. induction l as [| t l IH]; intros n; cbn; [discriminate |].
  destruct (String.eqb_spec (pt_id t) i) as [<- |].
  - intros [= <-]. exists t. auto.
  - intros Hn. destruct (position i l) as [m |]; [| discriminate]. injection Hn as <-.
    now apply IH.
Qed.

Lemma position_none i l : position i l = None <-> Forall (fun t => pt_id t <> i) l.
Proof.
  induction l as [| t l IH]; cbn; [split; auto; constructor |].
  destruct (String.eqb_spec (pt_id t) i) as [| Hne].
  - split; [discriminate | inversion 1; contradiction].
  - rewrite Forall_cons. destruct (position i l); cbn; intuition discriminate.
Qed.

Lemma open_trade_books t l p s : books_ok s -> books_ok (snd (open_trade t l p s)).
Proof.
  intros []. unfold open_trade. now repeat destruct_if.
Qed.

(** What a successful [close_trade] does to the state. *)
Lemma close_trade_found i pr r n l p s t pos :
  position i (ps_active_trades s) = Some pos -> ps_active_trades s !! pos = Some t ->
  let t' := close_record pr r n t in
  let '(res, s') := close_trade i pr r n l p s in
  res = after_io l p /\
  ps_active_trades s' = delete pos (ps_active_trades s) /\
  ps_closed_trades s' = ps_closed_trades s ++ [t'] /\
  ps_available_capital s' = (ps_available_capital s + (pt_position_size_usd t + pr))%F /\
  ps_total_open_positions s' = (ps_total_open_positions s - pt_position_size_usd t)%F /\
  ps_cumulative_pnl s' = (ps_cumulative_pnl s + pr)%F /\
  ps_leg_out_total_loss s' =
    (if is_leg_out_loss t' then (ps_leg_out_total_loss s + fabs pr)%F else ps_leg_out_total_loss s) /\
  ps_win_count s' = (if is_win t' then wrap64 (ps_win_count s + 1) else ps_win_count s) /\
  ps_loss_count s' = (if is_win t' then ps_loss_count s else wrap64 (ps_loss_count s + 1)) /\
  ps_leg_out_count s' = (if is_leg_out_loss t' then wrap64 (ps_leg_out_count s + 1) else ps_leg_out_count s).
Proof.
  intros Hp Ht. unfold close_trade, is_leg_out_loss, is_win. rewrite Hp, Ht.
  cbn -[wrap64 fadd fsub fltb fabs bool_decide].
  destruct (pr >? 0.0%f64)%F, (bool_decide (is_Some (pt_leg_out_event t)) && (pr <? 0.0%f64)%F)%bool; cbn -[wrap64 fadd fsub fltb fabs];
    repeat split.
Qed.

Lemma close_trade_books i pr r n l p s : books_ok s -> books_ok (snd (close_trade i pr r n l p s)).
Proof.
  intros [Hw Hlo Hlg Hpnl Hll Hcl]. destruct (position i (ps_active_trades s)) as [pos |] eqn:Hp.
  - destruct (position_lookup _ _ _ Hp) as (t & Ht & _).
    pose proof (close_trade_found i pr r n l p s t pos Hp Ht) as H. cbv zeta in H.
    destruct (close_trade i pr r n l p s) as [res s'].
    destruct H as (_ & _ & Hc & _ & _ & H1 & H2 & H3 & H4 & H5). cbn [snd].
    split; rewrite Hc, ?count_if_snoc, ?total_pnl_snoc, ?total_leg_out_loss_snoc.
    + rewrite H3, Hw. destruct (is_win _); [apply wrap64_add_l | now rewrite Z.add_0_r].
    + rewrite H4, Hlo. destruct (is_win _); cbn [negb]; [now rewrite Z.add_0_r | apply wrap64_add_l].
    + rewrite H5, Hlg. destruct (is_leg_out_loss _); [apply wrap64_add_l | now rewrite Z.add_0_r].
    + now rewrite H1, Hpnl.
    + now rewrite H2, Hll.
    + apply Forall_app. split; [exact Hcl |]. repeat constructor; cbn; eauto.
  - unfold close_trade. rewrite Hp. now split.
Qed.

Lemma pf_run_books ops s : books_ok s -> books_ok (pf_run ops s).
Proof.
  revert s. induction ops as [| o ops IH]; intros s Hs; cbn; [exact Hs |].
  apply IH. destruct o; cbn; auto using open_trade_books, close_trade_books.
Qed.

(** C35. The books always balance: after any sequence of [open_trade] and
    [close_trade] calls, whatever their I/O answered, the win, loss and
    leg-out counters (modulo 2^64), the cumulative profit and the leg-out loss
    are those of the closed trades in closing order, and every closed trade
    carries status, reason and time. *)
Theorem portfolio_books_balance capital ops :
  books_ok (pf_run ops (PortfolioState_new capital)) /\
  wrap64 (ps_win_count (pf_run ops (PortfolioState_new capital)) +
          ps_loss_count (pf_run ops (PortfolioState_new capital))) =
    wrap64 (Z.of_nat (length (ps_closed_trades (pf_run ops (PortfolioState_new capital))))).
Proof.
  assert (Hb : books_ok (pf_run ops (PortfolioState_new capital))).
  { apply pf_run_books. split; cbn; constructor. }
  split; [exact Hb |]. destruct Hb as [-> -> _ _ _ _].
  rewrite wrap64_add_l, wrap64_add_r. f_equal.
  induction (ps_closed_trades _) as [| t l IH]; [reflexivity |].
  unfold count_if in *. cbn. destruct (is_win t); cbn; lia.
Qed.

(** [open_trade] either refuses and changes nothing, exactly when the position
    is larger than the available capital, or moves the position's size from
    the available to the committed capital and appends the trade; an I/O error
    is reported although the trade is open. *)
Theorem open_trade_spec t l p s :
  let '(r, s') := open_trade t l p s in
  if (pt_position_size_usd t >? ps_available_capital s)%F
  then r = Err (ExceedsCapital (pt_position_size_usd t) (ps_available_capital s)) /\ s' = s
  else r = after_io l p /\
       ps_active_trades s' = ps_active_trades s ++ [t] /\
       ps_closed_trades s' = ps_closed_trades s /\
       ps_available_capital s' = (ps_available_capital s - pt_position_size_usd t)%F /\
       ps_total_open_positions s' = (ps_total_open_positions s + pt_position_size_usd t)%F /\
       ps_cumulative_pnl s' = ps_cumulative_pnl s.
Proof.
  unfold open_trade. destruct (pt_position_size_usd t >? ps_available_capital s)%F; cbn; auto 10.
Qed.

(** A trade is closed at most once: with the ids of the active trades
    distinct, closing an id makes a second close of it a successful no-op. *)
Theorem close_trade_once i pr r n l p pr' r' n' l' p' s :
  NoDup (pt_id <$> ps_active_trades s) ->
  let s1 := snd (close_trade i pr r n l p s) in
  close_trade i pr' r' n' l' p' s1 = (Ok tt, s1) /\
  NoDup (pt_id <$> ps_active_trades s1) /\
  (forall j, j <> i -> (j ∈ (pt_id <$> ps_active_trades s) <-> j ∈ (pt_id <$> ps_active_trades s1))).
Proof.
  intros Hnd s1. assert (Hs1 : (i ∉ (pt_id <$> ps_active_trades s1)) /\
    NoDup (pt_id <$> ps_active_trades s1) /\
    (forall j, j <> i -> (j ∈ (pt_id <$> ps_active_trades s) <-> j ∈ (pt_id <$> ps_active_trades s1)))).
  { destruct (position i (ps_active_trades s)) as [pos |] eqn:Hp.
    - destruct (position_lookup _ _ _ Hp) as (t & Ht & Hid).
      pose proof (close_trade_found i pr r n l p s t pos Hp Ht) as H. cbv zeta in H.
      unfold s1. destruct (close_trade i pr r n l p s) as [res s']. cbn [snd].
      destruct H as (_ & Ha & _). rewrite Ha.
      rewrite <- (take_drop_middle _ _ _ Ht) in Hnd |- *.
      rewrite delete_take_drop.
      assert (Hpos : (pos < length (ps_active_trades s))%nat) by eauto using lookup_lt_Some.
      rewrite take_app_le, drop_app_ge by (rewrite length_take; lia).
      rewrite take_take, length_take. replace (Nat.min pos pos) with pos by lia.
      replace (S pos - Nat.min pos (length (ps_active_trades s)))%nat with 1%nat by lia.
      cbn [drop]. rewrite !fmap_app, fmap_cons, Hid in *.
      rewrite <- Permutation_middle, NoDup_cons in Hnd. destruct Hnd as [Hn Hd].
      rewrite drop_0 in *. split; [exact Hn |]. split; [exact Hd |].
      intros j Hj. rewrite !elem_of_app, elem_of_cons. intuition congruence.
    - unfold s1, close_trade. rewrite Hp. cbn [snd]. split; [| auto].
      apply position_none in Hp. intros Hin%list_elem_of_fmap.
      destruct Hin as (t & -> & Ht). rewrite Forall_forall in Hp. now apply (Hp t). }
  destruct Hs1 as (Hnot & Hd & Hk). split; [| auto].
  unfold close_trade at 1. destruct (position i (ps_active_trades s1)) as [pos |] eqn:Hp; [| reflexivity].
  exfalso. destruct (position_lookup _ _ _ Hp) as (t & Ht & <-).
  apply Hnot, list_elem_of_fmap_2. eauto using list_elem_of_lookup_2.
Qed.

(** ** A concrete portfolio *)
#[local] Open Scope string_scope.

Definition sample_order (side : OrderSide) : SimulatedOrder :=
  {| so_id := "o"; so_exchange := "okx"; so_symbol := "BTCUSDT"; so_side := side;
     so_order_type := Limit; so_price := 100.0%f64; so_size := 1.0%f64;
     so_queue_position := None; so_created_at := 0; so_filled_at := None;
     so_fill_price := None; so_status := Pending |}.

Definition sample_trade (id : string) (size : f64) : PaperTrade :=
  {| pt_id := id; pt_symbol := "BTCUSDT"; pt_long_exchange := "okx"; pt_short_exchange := "bybit";
     pt_entry_time := 0; pt_entry_long_price := 100.0%f64; pt_entry_short_price := 101.0%f64;
     pt_entry_spread_bps := 100.0%f64; pt_position_size_usd := size;
     pt_funding_delta_entry := 0.0002%f64; pt_projected_profit_usd := 5.0%f64;
     pt_actual_profit_usd := 0.0%f64; pt_status := TActive; pt_exit_reason := None;
     pt_exit_spread_bps := None; pt_exit_time := None;
     pt_long_order := sample_order Long; pt_short_order := sample_order Short;
     pt_long_exit_order := None; pt_short_exit_order := None;
     pt_stop_loss_triggered := false; pt_stop_loss_long_price := 0.0%f64;
     pt_stop_loss_short_price := 0.0%f64; pt_leg_out_event := None |}.

Definition sample_state : PortfolioState :=
  pf_run [OpOpen (sample_trade "a" 300.0%f64) (Ok tt) (Ok tt);
          OpOpen (sample_trade "b" 200.0%f64) (Ok tt) (Err "redis down")]
    (PortfolioState_new 1000.0%f64).

Lemma close_trade_once_witness :
  let s1 := snd (close_trade "a" 4.0%f64 "profit_target" 9 (Ok tt) (Ok tt) sample_state) in
  pt_id <$> ps_active_trades s1 = ["b"] /\ ps_available_capital s1 = 804.0%f64 /\
  close_trade "a" 4.0%f64 "again" 10 (Ok tt) (Ok tt) s1 = (Ok tt, s1).
Proof.
  intros s1. split; [reflexivity |]. split; [vm_compute; reflexivity |].
  refine (proj1 (close_trade_once "a" 4.0%f64 "profit_target" 9 (Ok tt) (Ok tt)
    4.0%f64 "again" 10 (Ok tt) (Ok tt) sample_state _)).
  apply (bool_decide_unpack _). vm_compute. exact I.
Defined.
