(* ===== verification/Detector.v ===== *)
(** The opportunity detector ([src/src/strategy/opportunity_detector.rs]): it
    pops market updates, keeps the market data store current, and publishes
    the opportunities it finds on the opportunity queue.

    Clock readings come from outside: [instant_ms n] and [unix_secs n] are the
    answers to the [n]-th reading, and the state counts the readings.  The log
    lines on stderr are not modelled. *)
From Stdlib Require Import ZArith Lia Bool.
From stdpp Require Import base option list gmap strings sorting.
From S2P Require Import Prelude Float64 Types ArrayQueue Pipeline OpportunityQueue SymbolMap MarketData ExchangeFees.

#[local] Open Scope Z_scope.

(** ** State *)
Record OpportunityDetector (MQ OQ T F : Type) := {
  market_consumer : CountedQueue MQ;
  market_data_store : MarketDataStore;
  symbol_map : SymbolMap T F;
  opportunity_producer : OpportunityQueue OQ;
  min_spread_bps : f64;
  min_funding_delta : f64;
  min_confidence : Z;
  filter_count_spread : Z;
  filter_count_funding : Z;
  filter_count_confidence : Z;
  filter_count_profit : Z;
  last_filter_log : Z;
  clock_reads : nat
}.
Arguments market_consumer {MQ OQ T F} _.
Arguments market_data_store {MQ OQ T F} _.
Arguments symbol_map {MQ OQ T F} _.
Arguments opportunity_producer {MQ OQ T F} _.
Arguments min_spread_bps {MQ OQ T F} _.
Arguments min_funding_delta {MQ OQ T F} _.
Arguments min_confidence {MQ OQ T F} _.
Arguments filter_count_spread {MQ OQ T F} _.
Arguments filter_count_funding {MQ OQ T F} _.
Arguments filter_count_confidence {MQ OQ T F} _.
Arguments filter_count_profit {MQ OQ T F} _.
Arguments last_filter_log {MQ OQ T F} _.
Arguments clock_reads {MQ OQ T F} _.

Section detector.
Context {MQ OQ T F : Type}.
Context `{ArrayQueue MQ MarketUpdate} `{ArrayQueue OQ ArbitrageOpportunity}
  `{DashMap T key Z} `{DashMap F Z key}.
Context (instant_ms : nat -> Z) (unix_secs : nat -> Z).
Abbreviation state := (OpportunityDetector MQ OQ T F).

(** ** Field updates *)
Definition upd (mc : CountedQueue MQ) (md : MarketDataStore) (sm : SymbolMap T F)
  (op : OpportunityQueue OQ) (fs ff fc fp llog : Z) (reads : nat) (d : state) : state :=
  {| market_consumer := mc; market_data_store := md; symbol_map := sm;
     opportunity_producer := op; min_spread_bps := min_spread_bps d;
     min_funding_delta := min_funding_delta d; min_confidence := min_confidence d;
     filter_count_spread := fs; filter_count_funding := ff; filter_count_confidence := fc;
     filter_count_profit := fp; last_filter_log := llog; clock_reads := reads |}.

Definition set_market_consumer (mc : CountedQueue MQ) (d : state) : state :=
  upd mc (market_data_store d) (symbol_map d) (opportunity_producer d) (filter_count_spread d)
    (filter_count_funding d) (filter_count_confidence d) (filter_count_profit d)
    (last_filter_log d) (clock_reads d) d.
Definition set_market_data_store (md : MarketDataStore) (d : state) : state :=
  upd (market_consumer d) md (symbol_map d) (opportunity_producer d) (filter_count_spread d)
    (filter_count_funding d) (filter_count_confidence d) (filter_count_profit d)
    (last_filter_log d) (clock_reads d) d.
Definition set_symbol_map (sm : SymbolMap T F) (d : state) : state :=
  upd (market_consumer d) (market_data_store d) sm (opportunity_producer d) (filter_count_spread d)
    (filter_count_funding d) (filter_count_confidence d) (filter_count_profit d)
    (last_filter_log d) (clock_reads d) d.
Definition set_opportunity_producer (op : OpportunityQueue OQ) (d : state) : state :=
  upd (market_consumer d) (market_data_store d) (symbol_map d) op (filter_count_spread d)
    (filter_count_funding d) (filter_count_confidence d) (filter_count_profit d)
    (last_filter_log d) (clock_reads d) d.

(** [self.filter_count_x += 1]. *)
Definition inc_filters (s f c p : Z) (d : state) : state :=
  upd (market_consumer d) (market_data_store d) (symbol_map d) (opportunity_producer d)
    (wrap64 (filter_count_spread d + s)) (wrap64 (filter_count_funding d + f))
    (wrap64 (filter_count_confidence d + c)) (wrap64 (filter_count_profit d + p))
    (last_filter_log d) (clock_reads d) d.

(** One clock reading. *)
Definition read_clock (clock : nat -> Z) (d : state) : Z * state :=
  (clock (clock_reads d),
   upd (market_consumer d) (market_data_store d) (symbol_map d) (opportunity_producer d)
     (filter_count_spread d) (filter_count_funding d) (filter_count_confidence d)
     (filter_count_profit d) (last_filter_log d) (S (clock_reads d)) d).

Definition set_last_filter_log (t : Z) (d : state) : state :=
  upd (market_consumer d) (market_data_store d) (symbol_map d) (opportunity_producer d)
    (filter_count_spread d) (filter_count_funding d) (filter_count_confidence d)
    (filter_count_profit d) t (clock_reads d) d.

(** ** Operations *)
Definition OpportunityDetector_new (mc : CountedQueue MQ) (sm : SymbolMap T F)
  (op : OpportunityQueue OQ) : state :=
  {| market_consumer := mc; market_data_store := MarketDataStore_new; symbol_map := sm;
     opportunity_producer := op; min_spread_bps := 10.0%f64; min_funding_delta := 0.0001%f64;
     min_confidence := 70; filter_count_spread := 0; filter_count_funding := 0;
     filter_count_confidence := 0; filter_count_profit := 0;
     last_filter_log := instant_ms 0%nat; clock_reads := 1 |}.

Definition get_funding_delta (_symbol _long_exchange _short_exchange : string) : f64 := 0.0002%f64.
Definition get_depth (_exchange _symbol : string) : f64 := 15000.0%f64.

Definition calculate_confidence (spread_bps funding_delta : f64) : Z :=
  let score := 0.0%f64 in
  let score := (score + fmin (spread_bps / 50.0%f64) 1.0%f64 * 50.0%f64)%F in
  let score := (score + fmin (fabs funding_delta / 0.01%f64) 1.0%f64 * 30.0%f64)%F in
  let score := (score + 20.0%f64)%F in
  f_to_u8 (fclamp score 0.0%f64 100.0%f64).

Definition build_metrics (_spread_bps funding_delta depth_long depth_short : f64) (d : state)
  : ConfluenceMetrics :=
  {| cm_funding_delta := funding_delta; cm_funding_delta_projected := funding_delta;
     cm_obi_ratio := 0.0%f64; cm_oi_current := 0.0%f64; cm_oi_24h_avg := 0.0%f64;
     cm_vwap_deviation := 0.0%f64; cm_atr := 0.0%f64; cm_atr_trend := false;
     cm_liquidation_cluster_distance := 0.0%f64;
     cm_hard_constraints :=
       {| order_book_depth_sufficient :=
            (depth_long >=? 10000.0%f64)%F && (depth_short >=? 10000.0%f64)%F;
          exchange_latency_ok := true;
          funding_delta_substantial := (fabs funding_delta >=? min_funding_delta d)%F |} |}.

(** The fee of a name; the table read never fails ([exchange_id_roundtrip]). *)
Definition fee_of (exchange : string) : f64 := default S754_nan (get_exchange_fee_by_name exchange).

Definition detector_exchanges : list string :=
  ["binance"; "bybit"; "okx"; "kucoin"; "bitget"; "gateio"; "hyperliquid"; "paradex"]%string.

(** The closure of the filter: it draws an id for the exchange it asks about. *)
Definition has_valid_bid (symbol ex : string) (d : state) : bool * state :=
  let '(symbol_id, sm) := get_or_insert ex symbol (symbol_map d) in
  let d := set_symbol_map sm d in
  (match get_bid symbol_id (market_data_store d) with
   | Some bid => (bid >? 0.0%f64)%F
   | None => false
   end, d).

(** [filter(..).map(..).collect()] with that closure. *)
Fixpoint filter_exchanges (symbol : string) (exchanges : list string) (d : state)
  : list string * state :=
  match exchanges with
  | [] => ([], d)
  | ex :: exchanges =>
      let '(keep, d) := has_valid_bid symbol ex d in
      let '(out, d) := filter_exchanges symbol exchanges d in
      (if keep then ex :: out else out, d)
  end.

Definition get_exchanges_for_symbol (symbol : string) (d : state) : list string * state :=
  filter_exchanges symbol detector_exchanges d.

Definition get_prices (exchange symbol : string) (d : state) : option (f64 * f64) * state :=
  let '(symbol_id, sm) := get_or_insert exchange symbol (symbol_map d) in
  let d := set_symbol_map sm d in
  match get_bid symbol_id (market_data_store d), get_ask symbol_id (market_data_store d) with
  | Some bid, Some ask =>
      if (bid <=? 0.0%f64)%F || (ask <=? 0.0%f64)%F then (None, d) else (Some (bid, ask), d)
  | _, _ => (None, d)
  end.

Definition check_opportunity (symbol long_exchange short_exchange : string)
  (long_ask short_bid : f64) (d : state) : state :=
  let spread_bps := (((short_bid - long_ask) / long_ask) * 10000.0%f64)%F in
  if (spread_bps <=? min_spread_bps d)%F then inc_filters 1 0 0 0 d else
  let funding_delta := get_funding_delta symbol long_exchange short_exchange in
  if (fabs funding_delta <? min_funding_delta d)%F then inc_filters 0 1 0 0 d else
  let confidence := calculate_confidence spread_bps funding_delta in
  if confidence <? min_confidence d then inc_filters 0 0 1 0 d else
  let long_fee_bps := fee_of long_exchange in
  let short_fee_bps := fee_of short_exchange in
  let total_fees_bps := (long_fee_bps + short_fee_bps)%F in
  let slippage_bps := 3.0%f64 in
  let funding_cost_bps := 10.0%f64 in
  let projected_profit_bps :=
    (spread_bps - total_fees_bps - slippage_bps - funding_cost_bps)%F in
  if (projected_profit_bps <=? 0.0%f64)%F then inc_filters 0 0 0 1 d else
  let '(now, d) := read_clock instant_ms d in
  let d := if 10 <=? (now - last_filter_log d) / 1000
           then let '(now, d) := read_clock instant_ms d in set_last_filter_log now d else d in
  (* the costs are computed a second time *)
  let long_fee_bps := fee_of long_exchange in
  let short_fee_bps := fee_of short_exchange in
  let total_fees_bps := (long_fee_bps + short_fee_bps)%F in
  let slippage_bps := 3.0%f64 in
  let funding_cost_bps := 10.0%f64 in
  let projected_profit_bps :=
    (spread_bps - total_fees_bps - slippage_bps - funding_cost_bps)%F in
  if (projected_profit_bps <=? 0.0%f64)%F then d else
  let depth_long := get_depth long_exchange symbol in
  let depth_short := get_depth short_exchange symbol in
  let metrics := build_metrics spread_bps funding_delta depth_long depth_short d in
  let '(now, d) := read_clock unix_secs d in
  let opportunity :=
    {| ao_symbol := symbol; ao_long_exchange := long_exchange;
       ao_short_exchange := short_exchange; ao_long_price := long_ask;
       ao_short_price := short_bid; ao_spread_bps := spread_bps;
       ao_funding_delta_8h := funding_delta; ao_confidence_score := confidence;
       ao_projected_profit_usd := ((projected_profit_bps / 10000.0%f64) * 1000.0%f64)%F;
       ao_projected_profit_after_slippage := projected_profit_bps;
       ao_metrics := metrics; ao_order_book_depth_long := depth_long;
       ao_order_book_depth_short := depth_short; ao_timestamp := Some now |} in
  set_opportunity_producer (oq_push opportunity (opportunity_producer d)) d.

(** The body of the two loops over the exchanges. *)
Definition check_pair (symbol ex1 ex2 : string) (d : state) : state :=
  let '(p1, d) := get_prices ex1 symbol d in
  let '(p2, d) := get_prices ex2 symbol d in
  match p1, p2 with
  | Some (bid1, ask1), Some (bid2, ask2) =>
      let d := check_opportunity symbol ex1 ex2 ask1 bid2 d in
      check_opportunity symbol ex2 ex1 ask2 bid1 d
  | _, _ => d
  end.

Definition detect_opportunities_for_symbol (symbol : string) (_updated_exchange : string)
  (d : state) : state :=
  let '(exchanges, d) := get_exchanges_for_symbol symbol d in
  if (length exchanges <? 2)%nat then d else
  fold_left (fun d i =>
    fold_left (fun d j =>
      check_pair symbol (exchanges !!! i) (exchanges !!! j) d)
    (seq (i + 1) (length exchanges - (i + 1))) d)
  (seq 0 (length exchanges)) d.

(** One turn of the loop in [run]; the statistics log is left out. *)
Definition run_iteration (d : state) : state :=
  match pop (market_consumer d) with
  | (Some u, mc) =>
      let d := set_market_consumer mc d in
      let d := set_market_data_store (update_from_market_update u (market_data_store d)) d in
      match sm_get (mu_symbol_id u) (symbol_map d) with
      | Some (exchange, symbol) => detect_opportunities_for_symbol symbol exchange d
      | None => d
      end
  | (None, mc) => set_market_consumer mc d
  end.

(** [n] turns of the loop. *)
Fixpoint run (n : nat) (d : state) : state :=
  match n with O => d | S n => run n (run_iteration d) end.
End detector.

(** ** What is published *)

(** The promise the detector makes about every opportunity it publishes.  The
    comparisons are the negations the code tests, so a NaN passes them. *)
Record published_ok (o : ArbitrageOpportunity) : Prop := {
  pub_long : ao_long_exchange o ∈ detector_exchanges;
  pub_short : ao_short_exchange o ∈ detector_exchanges;
  pub_distinct : ao_long_exchange o <> ao_short_exchange o;
  pub_long_price : (ao_long_price o <=? 0.0%f64)%F = false;
  pub_short_price : (ao_short_price o <=? 0.0%f64)%F = false;
  pub_spread : ao_spread_bps o =
    (((ao_short_price o - ao_long_price o) / ao_long_price o) * 10000.0%f64)%F;
  pub_spread_min : (ao_spread_bps o <=? 10.0%f64)%F = false;
  pub_confidence : 70 <= ao_confidence_score o <= U8_MAX;
  pub_profit : ao_projected_profit_after_slippage o =
    (ao_spread_bps o - (fee_of (ao_long_exchange o) + fee_of (ao_short_exchange o)) -
     3.0%f64 - 10.0%f64)%F;
  pub_profit_pos : (ao_projected_profit_after_slippage o <=? 0.0%f64)%F = false;
  pub_constraints : passes_all (cm_hard_constraints (ao_metrics o)) = true;
  pub_timestamp : is_Some (ao_timestamp o)
}.

Lemma calculate_confidence_range s f : in_u8 (calculate_confidence s f).
Proof.
  unfold calculate_confidence, in_u8, f_to_u8. cbv zeta.
  match goal with |- context [f_to_uint ?m ?x] => pose proof (f_to_uint_range m x ltac:(easy)) end.
  unfold U8_MAX in *. lia.
Qed.

Section properties.
Context {MQ OQ T F : Type}.
Context `{ArrayQueue MQ MarketUpdate} `{ArrayQueueLaws OQ ArbitrageOpportunity}
  `{DashMap T key Z} `{DashMap F Z key}.
Context (instant_ms : nat -> Z) (unix_secs : nat -> Z).
Abbreviation state := (OpportunityDetector MQ OQ T F).
Abbreviation published d := (aq_view (oq_queue (opportunity_producer d))).

(** The four filters, in the order the code applies them. *)
Definition passes_filters (long_exchange short_exchange : string) (long_ask short_bid : f64)
  (d : state) : bool :=
  let spread_bps := (((short_bid - long_ask) / long_ask) * 10000.0%f64)%F in
  let profit := (spread_bps - (fee_of long_exchange + fee_of short_exchange) -
                 3.0%f64 - 10.0%f64)%F in
  negb (spread_bps <=? min_spread_bps d)%F && negb (0.0002%f64 <? min_funding_delta d)%F &&
  negb (calculate_confidence spread_bps 0.0002%f64 <? min_confidence d) &&
  negb (profit <=? 0.0%f64)%F.

(** The configuration and the rest of the state that checking a pair leaves alone. *)
Definition same_config (d d' : state) : Prop :=
  min_spread_bps d' = min_spread_bps d /\ min_funding_delta d' = min_funding_delta d /\
  min_confidence d' = min_confidence d /\ market_data_store d' = market_data_store d /\
  market_consumer d' = market_consumer d.

Lemma same_config_trans d1 d2 d3 : same_config d1 d2 -> same_config d2 d3 -> same_config d1 d3.
Proof. unfold same_config. intuition congruence. Qed.

(** Exactly the pairs that pass the filters are published, once. *)
Lemma check_opportunity_spec symbol le se la sb (d : state) :
  let d' := check_opportunity instant_ms unix_secs symbol le se la sb d in
  same_config d d' /\ symbol_map d' = symbol_map d /\
  if passes_filters le se la sb d
  then exists now,
    let spread := (((sb - la) / la) * 10000.0%f64)%F in
    let profit := (spread - (fee_of le + fee_of se) - 3.0%f64 - 10.0%f64)%F in
    opportunity_producer d' = oq_push
      {| ao_symbol := symbol; ao_long_exchange := le; ao_short_exchange := se;
         ao_long_price := la; ao_short_price := sb; ao_spread_bps := spread;
         ao_funding_delta_8h := 0.0002%f64;
         ao_confidence_score := calculate_confidence spread 0.0002%f64;
         ao_projected_profit_usd := ((profit / 10000.0%f64) * 1000.0%f64)%F;
         ao_projected_profit_after_slippage := profit;
         ao_metrics := build_metrics spread 0.0002%f64 15000.0%f64 15000.0%f64 d;
         ao_order_book_depth_long := 15000.0%f64; ao_order_book_depth_short := 15000.0%f64;
         ao_timestamp := Some now |} (opportunity_producer d)
  else opportunity_producer d' = opportunity_producer d.
Proof.
  unfold check_opportunity, passes_filters, same_config. cbv zeta.
  change (get_funding_delta symbol le se) with 0.0002%f64.
  change (fabs 0.0002%f64) with 0.0002%f64.
  destruct (_ <=? min_spread_bps d)%F; cbn [negb andb]; [auto 10 |].
  destruct (_ <? min_funding_delta d)%F; cbn [negb andb]; [auto 10 |].
  destruct (_ <? min_confidence d); cbn [negb andb]; [auto 10 |].
  set (profit := (_ - 10.0%f64)%F).
  destruct (profit <=? 0.0%f64)%F eqn:Hp; cbn [negb]; [auto 10 |].
  cbn -[fsub fadd fmul fdiv fleb fltb Z.leb Z.div calculate_confidence build_metrics oq_push].
  destruct (10 <=? _);
    cbn -[fsub fadd fmul fdiv fleb fltb Z.leb Z.div calculate_confidence build_metrics oq_push];
    rewrite ?Hp;
    cbn -[fsub fadd fmul fdiv fleb fltb Z.leb Z.div calculate_confidence build_metrics oq_push];
    (split; [auto 10 |]; split; [reflexivity |]; eexists; reflexivity).
Qed.

(** ** The invariant of the detection loop *)
Definition detector_inv (d : state) : Prop :=
  min_spread_bps d = 10.0%f64 /\ min_funding_delta d = 0.0001%f64 /\ min_confidence d = 70 /\
  Forall published_ok (published d).

Lemma same_config_inv d d' :
  same_config d d' -> opportunity_producer d' = opportunity_producer d ->
  detector_inv d -> detector_inv d'.
Proof. unfold detector_inv. intros (-> & -> & -> & _ & _) ->. auto. Qed.

Lemma fifo_append_Forall {A} (P : A -> Prop) n l x :
  Forall P l -> P x -> Forall P (fifo_append n l x).
Proof.
  intros Hl Hx. unfold fifo_append.
  destruct (_ <? _)%nat; apply Forall_app; split; auto.
  destruct Hl; cbn; auto.
Qed.

Lemma check_opportunity_inv symbol le se la sb (d : state) :
  le ∈ detector_exchanges -> se ∈ detector_exchanges -> le <> se ->
  (la <=? 0.0%f64)%F = false -> (sb <=? 0.0%f64)%F = false ->
  detector_inv d -> detector_inv (check_opportunity instant_ms unix_secs symbol le se la sb d).
Proof.
  intros Hle Hse Hne Hla Hsb Hd.
  destruct (check_opportunity_spec symbol le se la sb d) as (Hcfg & _ & Hcase).
  destruct Hd as (Hs & Hf & Hc & Hall).
  destruct (passes_filters le se la sb d) eqn:Hp.
  - destruct Hcase as (now & Hpush). destruct Hcfg as (H1' & H2' & H3' & _).
    unfold detector_inv. rewrite H1', H2', H3', Hpush. split; [auto |]. split; [auto |].
    split; [auto |]. rewrite (proj1 (oq_push_spec _ _)). apply fifo_append_Forall; [exact Hall |].
    unfold passes_filters in Hp. rewrite Hs, Hf, Hc in Hp. bool_simpl.
    match goal with H : (calculate_confidence _ _ <? 70) = false |- _ => apply Z.ltb_ge in H end.
    pose proof (calculate_confidence_range (((sb - la) / la) * 10000.0%f64)%F 0.0002%f64) as Hr.
    unfold in_u8 in Hr. split; cbn [ao_long_exchange ao_short_exchange ao_long_price ao_short_price
      ao_spread_bps ao_confidence_score ao_projected_profit_after_slippage ao_timestamp
      ao_metrics]; auto.
    { unfold U8_MAX. lia. }
    unfold build_metrics. cbn [cm_hard_constraints]. rewrite Hf. reflexivity.
  - eapply same_config_inv; eauto. unfold detector_inv. auto.
Qed.

Lemma get_prices_spec ex symbol (d : state) :
  let '(p, d') := get_prices ex symbol d in
  same_config d d' /\ opportunity_producer d' = opportunity_producer d /\
  match p with
  | Some (bid, ask) => (bid <=? 0.0%f64)%F = false /\ (ask <=? 0.0%f64)%F = false
  | None => True
  end.
Proof.
  unfold get_prices. destruct (get_or_insert ex symbol (symbol_map d)) as [id sm]. cbn.
  destruct (get_bid id _) as [bid |]; [| repeat split].
  destruct (get_ask id _) as [ask |]; [| repeat split].
  destruct (bid <=? _)%F eqn:E1, (ask <=? _)%F eqn:E2; cbn; repeat split; auto.
Qed.

(** Checking a pair moves no update. *)
Lemma check_pair_config symbol ex1 ex2 (d : state) :
  same_config d (check_pair instant_ms unix_secs symbol ex1 ex2 d).
Proof.
  unfold check_pair.
  pose proof (get_prices_spec ex1 symbol d) as Hp1.
  destruct (get_prices ex1 symbol d) as [p1 d1]. destruct Hp1 as (Hc1 & _).
  pose proof (get_prices_spec ex2 symbol d1) as Hp2.
  destruct (get_prices ex2 symbol d1) as [p2 d2]. destruct Hp2 as (Hc2 & _).
  pose proof (same_config_trans _ _ _ Hc1 Hc2) as Hc.
  destruct p1 as [[b1 a1] |], p2 as [[b2 a2] |]; auto.
  repeat (eapply same_config_trans; [| apply check_opportunity_spec]). exact Hc.
Qed.

Lemma check_pair_inv symbol ex1 ex2 (d : state) :
  ex1 ∈ detector_exchanges -> ex2 ∈ detector_exchanges -> ex1 <> ex2 ->
  detector_inv d -> detector_inv (check_pair instant_ms unix_secs symbol ex1 ex2 d).
Proof.
  intros Hm1 Hm2 Hne Hd. unfold check_pair.
  pose proof (get_prices_spec ex1 symbol d) as Hp1.
  destruct (get_prices ex1 symbol d) as [p1 d1]. destruct Hp1 as (Hc1 & Ho1 & Hb1).
  pose proof (get_prices_spec ex2 symbol d1) as Hp2.
  destruct (get_prices ex2 symbol d1) as [p2 d2]. destruct Hp2 as (Hc2 & Ho2 & Hb2).
  assert (Hd2 : detector_inv d2) by eauto using same_config_inv.
  destruct p1 as [[b1 a1] |], p2 as [[b2 a2] |]; auto.
  destruct Hb1, Hb2. repeat apply check_opportunity_inv; auto.
Qed.

Lemma filter_exchanges_spec symbol l (d : state) :
  let '(out, d') := filter_exchanges symbol l d in
  same_config d d' /\ opportunity_producer d' = opportunity_producer d /\ out `sublist_of` l.
Proof.
  revert d. induction l as [| ex l IH]; intros d; cbn [filter_exchanges].
  - split; [repeat split |]. split; [reflexivity | constructor].
  - unfold has_valid_bid. destruct (get_or_insert ex symbol (symbol_map d)) as [id sm].
    set (keep := match get_bid id _ with Some _ => _ | None => _ end).
    specialize (IH (set_symbol_map sm d)).
    destruct (filter_exchanges symbol l _) as [out d']. destruct IH as (Hc & Ho & Hsub).
    split; [exact Hc |]. split; [exact Ho |]. destruct keep; now constructor.
Qed.

(** A property of the state that checking a pair of different exchanges
    preserves is preserved by the two loops. *)
Lemma pair_loops (P : state -> Prop) symbol exs (d : state) :
  NoDup exs ->
  (forall ex1 ex2 d, ex1 ∈ exs -> ex2 ∈ exs -> ex1 <> ex2 ->
     P d -> P (check_pair instant_ms unix_secs symbol ex1 ex2 d)) ->
  P d ->
  P (fold_left (fun d i =>
       fold_left (fun d j => check_pair instant_ms unix_secs symbol (exs !!! i) (exs !!! j) d)
         (seq (i + 1) (length exs - (i + 1))) d)
     (seq 0 (length exs)) d).
Proof.
  intros Hnd Hpair Hd. apply (fold_left_preserves _ P); [| exact Hd]. intros d2 i Hi Hd2.
  apply elem_of_seq in Hi. apply (fold_left_preserves _ P); [| exact Hd2].
  intros d3 j Hj Hd3. apply elem_of_seq in Hj.
  apply Hpair; auto; [apply list_elem_of_lookup_total_2; lia .. |].
  intros Heq. assert (i = j); [| lia].
  eapply (NoDup_lookup exs); [exact Hnd | apply list_lookup_lookup_total_lt; lia |].
  rewrite Heq. apply list_lookup_lookup_total_lt. lia.
Qed.

(** The exchanges that are left are different ones of the eight. *)
Lemma sublist_exchanges l :
  l `sublist_of` detector_exchanges -> NoDup l /\ forall ex, ex ∈ l -> ex ∈ detector_exchanges.
Proof.
  intros Hl. split.
  - eapply sublist_NoDup; [| exact Hl]. apply (bool_decide_unpack _). vm_compute. exact I.
  - intros ex Hex. eapply elem_of_sublist; [exact Hex | exact Hl].
Qed.

Lemma detect_preserves (P : state -> Prop) symbol ex (d : state) :
  (forall d d', same_config d d' -> opportunity_producer d' = opportunity_producer d ->
     P d -> P d') ->
  (forall ex1 ex2 d, ex1 ∈ detector_exchanges -> ex2 ∈ detector_exchanges -> ex1 <> ex2 ->
     P d -> P (check_pair instant_ms unix_secs symbol ex1 ex2 d)) ->
  P d -> P (detect_opportunities_for_symbol instant_ms unix_secs symbol ex d).
Proof.
  intros Hframe Hpair Hd. unfold detect_opportunities_for_symbol, get_exchanges_for_symbol.
  pose proof (filter_exchanges_spec symbol detector_exchanges d) as Hs.
  destruct (filter_exchanges symbol detector_exchanges d) as [exs d1].
  destruct Hs as (Hc & Ho & [Hnd Hin]%sublist_exchanges).
  assert (Hd1 : P d1) by eauto. destruct (length exs <? 2)%nat; [exact Hd1 |].
  apply pair_loops; auto.
Qed.

Lemma run_iteration_inv (d : state) :
  detector_inv d -> detector_inv (run_iteration instant_ms unix_secs d).
Proof.
  intros Hd. unfold run_iteration. destruct (pop (market_consumer d)) as [[u |] mc]; [| exact Hd].
  cbn [market_data_store set_market_consumer upd symbol_map set_market_data_store].
  destruct (sm_get _ (symbol_map d)) as [[e y] |]; [| exact Hd].
  apply detect_preserves; [apply same_config_inv | apply check_pair_inv | exact Hd].
Qed.

(** C23. However long the loop runs and whatever updates arrive, every opportunity
    waiting on the queue passed all the filters: two different known exchanges,
    spread not at most 10 bps, confidence at least 70, projected profit after
    both fees, slippage and funding not at most 0, all hard constraints met. *)
Theorem detector_publishes_ok n mc sm op :
  published (OpportunityDetector_new instant_ms mc sm op : state) = [] ->
  Forall published_ok
    (published (run instant_ms unix_secs n (OpportunityDetector_new instant_ms mc sm op : state))).
Proof.
  intros He. assert (Hinv : forall n (d : state), detector_inv d ->
    detector_inv (run instant_ms unix_secs n d)).
  { clear n He. induction n as [| n IH]; intros d Hd; cbn; [exact Hd |].
    now apply IH, run_iteration_inv. }
  apply Hinv. repeat split; auto. rewrite He. constructor.
Qed.
End properties.

(** ** Symbols the store cannot hold *)
Section visibility.
Context {MQ OQ T F : Type}.
Context `{ArrayQueue MQ MarketUpdate} `{ArrayQueueLaws OQ ArbitrageOpportunity}
  `{DashMap T key Z} `{DashMap F Z key} `{!DashMapLaws T key Z} `{!DashMapLaws F Z key}.
Context (instant_ms : nat -> Z) (unix_secs : nat -> Z).
Abbreviation state := (OpportunityDetector MQ OQ T F).

(** Every id that [symbol] has, or would be given next, is past the store. *)
Definition ids_past_store (symbol : string) (sm : SymbolMap T F) : Prop :=
  256 <= next_id sm < 2 ^ 32 /\
  forall ex id, dm_view (to_id sm) !! (ex, symbol) = Some id -> 256 <= id < 2 ^ 32.

Lemma get_or_insert_past ex symbol (sm : SymbolMap T F) :
  ids_past_store symbol sm -> next_id sm < U32_MAX ->
  let '(id, sm') := get_or_insert ex symbol sm in
  256 <= id < 2 ^ 32 /\ ids_past_store symbol sm' /\ next_id sm' <= next_id sm + 1.
Proof.
  intros [Hn Hids] Hmax. unfold U32_MAX in Hmax.
  destruct (dm_view (to_id sm) !! (ex, symbol)) as [id |] eqn:Hk.
  - rewrite (get_or_insert_hit _ _ _ _ Hk). split; [eauto |]. split; [split; auto | lia].
  - destruct (get_or_insert_miss _ _ _ Hk) as (Hid & Hv & _ & Hnx).
    destruct (get_or_insert ex symbol sm) as [id sm']. cbn [fst snd] in *. subst id.
    rewrite wrap32_small in Hnx by (unfold in_u32; lia).
    split; [exact Hn |]. split; [| lia]. split; [lia |].
    intros ex' id'. rewrite Hv. intros [[? <-] | [_ Hl]]%lookup_insert_Some; eauto.
Qed.

Lemma filter_exchanges_past symbol l (d : state) :
  md_wf (market_data_store d) -> ids_past_store symbol (symbol_map d) ->
  next_id (symbol_map d) + Z.of_nat (length l) <= U32_MAX ->
  fst (filter_exchanges symbol l d) = [].
Proof.
  revert d. induction l as [| ex l IH]; intros d Hwf Hp Hb; cbn [filter_exchanges length] in *; [reflexivity |].
  pose proof (get_or_insert_past ex symbol (symbol_map d) Hp ltac:(lia)) as Hg.
  unfold has_valid_bid. destruct (get_or_insert ex symbol (symbol_map d)) as [id sm].
  destruct Hg as (Hid & Hp' & Hn). cbn [market_data_store set_symbol_map upd].
  assert (Hnone : get_bid id (market_data_store d) = None).
  { unfold get_bid. pose proof (wf_count _ Hwf). unfold MAX_SYMBOLS in *.
    destruct (Nat.ltb_spec (Z.to_nat id) (count (market_data_store d))); [lia | reflexivity]. }
  rewrite Hnone. specialize (IH (set_symbol_map sm d) Hwf Hp').
  cbn [symbol_map set_symbol_map upd] in IH. specialize (IH ltac:(lia)).
  destruct (filter_exchanges symbol l _) as [out d']. cbn [fst] in *. exact IH.
Qed.

(** The detector draws eight ids for every symbol it meets, and the store
    holds ids below 256 only: once a symbol's ids start past the store, no
    market update for it ever leads to an opportunity. *)
Theorem late_symbols_invisible symbol ex (d : state) :
  md_wf (market_data_store d) -> ids_past_store symbol (symbol_map d) ->
  next_id (symbol_map d) + 8 <= U32_MAX ->
  opportunity_producer (detect_opportunities_for_symbol instant_ms unix_secs symbol ex d) =
    opportunity_producer d.
Proof.
  intros Hwf Hp Hb. unfold detect_opportunities_for_symbol, get_exchanges_for_symbol.
  pose proof (filter_exchanges_past symbol detector_exchanges d Hwf Hp Hb) as Hf.
  pose proof (filter_exchanges_spec symbol detector_exchanges d) as Hs.
  destruct (filter_exchanges symbol detector_exchanges d) as [exs d1]. cbn [fst] in Hf. subst exs.
  destruct Hs as (_ & Ho & _). exact Ho.
Qed.
End visibility.

(** ** Concrete runs *)
Section examples.
Abbreviation detector :=
  (OpportunityDetector (list_queue MarketUpdate) (list_queue ArbitrageOpportunity)
     (gmap key Z) (gmap Z key)).
#[local] Open Scope string_scope.

(** Ids 1 and 2 are BTCUSDT on okx and on bybit. *)
Definition demo_map : SymbolMap (gmap key Z) (gmap Z key) :=
  snd (get_or_insert "bybit" "BTCUSDT" (snd (get_or_insert "okx" "BTCUSDT" sm_empty))).

Definition demo_start (updates : list MarketUpdate) : detector :=
  OpportunityDetector_new (fun _ => 0)
    (fold_left (fun q u => push u q) updates (with_capacity 16)) demo_map (oq_with_capacity 16).

Definition demo_run (updates : list MarketUpdate) : detector :=
  run (fun _ => 0) (fun _ => 1700000000) (length updates) (demo_start updates).

Definition demo_published (updates : list MarketUpdate) : list ArbitrageOpportunity :=
  aq_view (oq_queue (opportunity_producer (demo_run updates))).

Lemma detector_publishes_ok_witness :
  let updates := [MarketUpdate_new 1 99.9%f64 100.0%f64 1; MarketUpdate_new 2 101.0%f64 101.1%f64 2] in
  length (demo_published updates) = 1%nat /\ Forall published_ok (demo_published updates).
Proof.
  intros updates. split; [vm_compute; reflexivity |].
  unfold demo_published, demo_run, demo_start.
  apply (detector_publishes_ok (fun _ => 0) (fun _ => 1700000000) (length updates)
    (fold_left (fun q u => push u q) updates (with_capacity 16)) demo_map (oq_with_capacity 16)).
  reflexivity.
Defined.

(** A map whose 255 ids are taken, as the detector sees it. *)
Definition full_map : SymbolMap (gmap key Z) (gmap Z key) :=
  {| to_id := ∅; from_id := ∅; next_id := 256 |}.

Lemma late_symbols_invisible_witness :
  let d : detector := set_symbol_map full_map (demo_start []) in
  aq_view (oq_queue (opportunity_producer
    (detect_opportunities_for_symbol (fun _ => 0) (fun _ => 0) "NEWUSDT" "okx" d))) = [].
Proof.
  intros d.
  rewrite (late_symbols_invisible (fun _ => 0) (fun _ => 0) "NEWUSDT" "okx" d);
    [reflexivity | apply new_wf | | vm_compute; discriminate].
  split; [vm_compute; split; [discriminate | reflexivity] |].
  intros ex id Hid. change (dm_view (to_id (symbol_map d))) with (∅ : gmap key Z) in Hid.
  rewrite lookup_empty in Hid. discriminate.
Defined.

(** A NaN ask price passes every filter: the detector publishes an opportunity
    whose spread and profit are NaN, with confidence 70. *)
Theorem nan_ask_is_published :
  exists o o' : ArbitrageOpportunity,
    demo_published [MarketUpdate_new 1 99.9%f64 S754_nan 1;
                    MarketUpdate_new 2 90.0%f64 90.1%f64 2] = [o; o'] /\
    is_nan (ao_spread_bps o') = true /\ is_nan (ao_projected_profit_usd o') = true /\
    ao_confidence_score o' = 70.
Proof.
  eexists. eexists. split; [vm_compute; reflexivity |]. vm_compute. auto.
Qed.

(** With the placeholder funding delta the confidence filter dominates: a
    spread of 49 bps is profitable after all costs and five times the minimum
    spread, and is not published. *)
Theorem spread_of_49_bps_filtered :
  demo_published [MarketUpdate_new 1 99.9%f64 100.0%f64 1;
                  MarketUpdate_new 2 100.49%f64 100.5%f64 2] = [] /\
  calculate_confidence 49.0%f64 0.0002%f64 = 69 /\
  calculate_confidence 50.0%f64 0.0002%f64 = 70.
Proof. vm_compute. auto. Qed.
End examples.
