(* ===== verification/FillProbability.v ===== *)
(** The fill-probability estimator ([src/src/strategy/fill_probability.rs]):
    a step function of the order book's depth ratio and the price level, and
    the limit-or-market decisions built on it.

    The [reason] strings are kept as the data they print. *)
From Stdlib Require Import ZArith Lia Bool.
From stdpp Require Import base option list.
From S2P Require Import Prelude Float64 Types.

#[local] Open Scope Z_scope.

(** ** Data *)
Record FillProbabilityEstimator := {
  min_probability_threshold : f64;
  max_wait_time_ms : Z
}.

Definition FillProbabilityEstimator_new : FillProbabilityEstimator :=
  {| min_probability_threshold := 0.70%f64; max_wait_time_ms := 200 |}.

Inductive OrderAction :=
| UseMarket
| UseLimitWithFallback (wait_time_ms : Z).

Inductive fill_reason :=
| LevelNotAvailable
| DepthRatio (depth_ratio : f64) (price_level : nat) (base adjusted : f64)
| NoViableLimit.

Record FillProbability := {
  fp_probability : f64;
  fp_recommended_action : OrderAction;
  fp_reason : fill_reason;
  fp_estimated_wait_ms : Z
}.

Record LimitOrderDecision := {
  ld_use_limit : bool;
  ld_price_level : nat;
  ld_probability : f64;
  ld_wait_time_ms : Z;
  ld_reason : fill_reason
}.

(** ** The step functions *)
Definition book_side_of (book : OrderBookDepth) (side : OrderSide) : list PriceLevel :=
  match side with Long => obd_asks book | Short => obd_bids book end.

Definition base_probability (depth_ratio : f64) : f64 :=
  if (depth_ratio >=? 10.0%f64)%F then 0.95%f64
  else if (depth_ratio >=? 5.0%f64)%F then 0.85%f64
  else if (depth_ratio >=? 3.0%f64)%F then 0.75%f64
  else if (depth_ratio >=? 2.0%f64)%F then 0.60%f64
  else if (depth_ratio >=? 1.0%f64)%F then 0.40%f64
  else 0.20%f64.

Definition level_penalty (price_level : nat) : f64 :=
  match price_level with
  | 0%nat => 1.0%f64
  | 1%nat => 0.95%f64
  | 2%nat => 0.85%f64
  | 3%nat => 0.70%f64
  | _ => 0.50%f64
  end.

Definition estimate_wait_ms (adjusted_probability : f64) : Z :=
  if (adjusted_probability >=? 0.90%f64)%F then 50
  else if (adjusted_probability >=? 0.75%f64)%F then 100
  else if (adjusted_probability >=? 0.60%f64)%F then 200
  else 500.

(** ** Operations *)
Definition calculate_fill_probability (e : FillProbabilityEstimator) (order_book : OrderBookDepth)
  (side : OrderSide) (price_level : nat) (order_size : f64) : FillProbability :=
  let book_side := book_side_of order_book side in
  if (length book_side <=? price_level)%nat then
    {| fp_probability := 0.0%f64; fp_recommended_action := UseMarket;
       fp_reason := LevelNotAvailable; fp_estimated_wait_ms := 0 |}
  else
    let cumulative_depth :=
      fsum ((fun level => (pl_quantity level * pl_price level)%F) <$> take (price_level + 1) book_side) in
    let depth_ratio := (cumulative_depth / order_size)%F in
    let base := base_probability depth_ratio in
    let adjusted_probability := (base * level_penalty price_level)%F in
    let estimated_wait_ms := estimate_wait_ms adjusted_probability in
    let recommended_action :=
      if (adjusted_probability >=? min_probability_threshold e)%F
      then UseLimitWithFallback (Z.min estimated_wait_ms (max_wait_time_ms e))
      else UseMarket in
    {| fp_probability := adjusted_probability; fp_recommended_action := recommended_action;
       fp_reason := DepthRatio depth_ratio price_level base adjusted_probability;
       fp_estimated_wait_ms := estimated_wait_ms |}.

(** One turn of the loop over the levels. *)
Definition better_level (e : FillProbabilityEstimator) (order_book : OrderBookDepth)
  (side : OrderSide) (order_size : f64) (best : LimitOrderDecision) (level : nat)
  : LimitOrderDecision :=
  let fill_prob := calculate_fill_probability e order_book side level order_size in
  if (fp_probability fill_prob >=? min_probability_threshold e)%F &&
     (fp_probability fill_prob >? ld_probability best)%F
  then {| ld_use_limit := true; ld_price_level := level;
          ld_probability := fp_probability fill_prob;
          ld_wait_time_ms := fp_estimated_wait_ms fill_prob;
          ld_reason := fp_reason fill_prob |}
  else best.

Definition should_try_limit (e : FillProbabilityEstimator) (order_book : OrderBookDepth)
  (side : OrderSide) (order_size : f64) : LimitOrderDecision :=
  fold_left (better_level e order_book side order_size) [0; 1; 2]%nat
    {| ld_use_limit := false; ld_price_level := 0; ld_probability := 0.0%f64;
       ld_wait_time_ms := 0; ld_reason := NoViableLimit |}.

Definition should_retry_limit (e : FillProbabilityEstimator) (order_book : OrderBookDepth)
  (side : OrderSide) (remaining_size : f64) (previous_attempts : Z) : bool :=
  let retry_threshold :=
    (min_probability_threshold e - 0.10%f64 * f_of_Z previous_attempts)%F in
  if (retry_threshold <? 0.50%f64)%F then false
  else
    let fill_prob := calculate_fill_probability e order_book side 0 remaining_size in
    (fp_probability fill_prob >=? retry_threshold)%F.

(** ** Properties *)

Definition base_values : list f64 :=
  [0.95%f64; 0.85%f64; 0.75%f64; 0.60%f64; 0.40%f64; 0.20%f64].
Definition penalty_values : list f64 := [1.0%f64; 0.95%f64; 0.85%f64; 0.70%f64; 0.50%f64].

Lemma base_probability_values r : In (base_probability r) base_values.
Proof. unfold base_probability, base_values. repeat destruct_if; cbn; auto 10. Qed.

Lemma level_penalty_values n : In (level_penalty n) penalty_values.
Proof. unfold level_penalty, penalty_values. do 4 (destruct n as [| n]; [cbn; auto 10 |]). cbn. auto 10. Qed.

(** A boolean fact about all base and penalty values is decided by evaluation. *)
Lemma for_all_steps (P : f64 -> f64 -> bool) r n :
  forallb (fun b => forallb (P b) penalty_values) base_values = true ->
  P (base_probability r) (level_penalty n) = true.
Proof.
  rewrite forallb_forall. intros H. specialize (H _ (base_probability_values r)).
  rewrite forallb_forall in H. apply H, level_penalty_values.
Qed.

(** What reaches the default threshold comes from one of the first three levels
    and a depth ratio of at least 3, and is waited for 50 to 200 ms. *)
Lemma viable_level ratio level :
  (base_probability ratio * level_penalty level >=? 0.70%f64)%F = true -> (level <= 2)%nat.
Proof.
  intros E. destruct (Nat.le_gt_cases level 2) as [| Hl]; [assumption |]. exfalso.
  do 3 (destruct level as [| level]; [lia |]).
  assert (Hlow : forallb (fun b => negb (b * 0.70%f64 >=? 0.70%f64)%F && negb (b * 0.50%f64 >=? 0.70%f64)%F)%bool
    base_values = true) by (vm_compute; reflexivity).
  rewrite forallb_forall in Hlow. specialize (Hlow _ (base_probability_values ratio)).
  apply andb_true_iff in Hlow. rewrite !negb_true_iff in Hlow.
  destruct level; cbn [level_penalty] in E; destruct Hlow; congruence.
Qed.

Lemma viable_ratio ratio level :
  (base_probability ratio * level_penalty level >=? 0.70%f64)%F = true -> (ratio >=? 3.0%f64)%F = true.
Proof.
  intros E. destruct (ratio >=? 3.0%f64)%F eqn:E3; [reflexivity |]. exfalso.
  assert (Hup : forall x, (3.0%f64 <=? x)%F = true -> (ratio >=? x)%F = false).
  { intros x Hx. destruct (ratio >=? x)%F eqn:H; [| reflexivity].
    rewrite <- E3. symmetry. eapply fleb_trans; [exact Hx | exact H]. }
  assert (Hlow : forallb (fun q => negb (0.60%f64 * q >=? 0.70%f64)%F && negb (0.40%f64 * q >=? 0.70%f64)%F
     && negb (0.20%f64 * q >=? 0.70%f64)%F)%bool penalty_values = true) by (vm_compute; reflexivity).
  rewrite forallb_forall in Hlow. specialize (Hlow _ (level_penalty_values level)).
  rewrite !andb_true_iff, !negb_true_iff in Hlow. destruct Hlow as [[HA HB] HC].
  revert E. unfold base_probability. rewrite (Hup 10.0%f64), (Hup 5.0%f64), E3 by reflexivity.
  destruct (ratio >=? 2.0%f64)%F; [congruence |]. destruct (ratio >=? 1.0%f64)%F; congruence.
Qed.

Lemma viable_wait ratio level :
  (base_probability ratio * level_penalty level >=? 0.70%f64)%F = true ->
  50 <= estimate_wait_ms (base_probability ratio * level_penalty level)%F <= 200.
Proof.
  intros E. pose proof (for_all_steps (fun b q => if (b * q >=? 0.70%f64)%F
    then (50 <=? estimate_wait_ms (b * q)%F) && (estimate_wait_ms (b * q)%F <=? 200) else true)%bool
    ratio level ltac:(vm_compute; reflexivity)) as Hwait.
  cbv beta in Hwait. rewrite E in Hwait. apply andb_true_iff in Hwait. rewrite !Z.leb_le in Hwait. lia.
Qed.

(** The probability of a level that is there. *)
Lemma step_bounds ratio level :
  (0.0%f64 <=? base_probability ratio * level_penalty level)%F = true /\
  (base_probability ratio * level_penalty level <=? 0.95%f64)%F = true.
Proof.
  apply andb_true_iff.
  apply (for_all_steps (fun b q => let x := (b * q)%F in (0.0%f64 <=? x)%F && (x <=? 0.95%f64)%F)%bool).
  vm_compute. reflexivity.
Qed.

(** Whatever the book holds (empty, zero or NaN quantities included), the
    probability is a number between 0 and 0.95; with the default threshold a
    recommended limit order waits between 50 and 200 ms, and only a depth ratio of at
    least 3 at one of the first three levels gets one. *)
Theorem fill_probability_bounds book side level size :
  let e := FillProbabilityEstimator_new in
  let p := calculate_fill_probability e book side level size in
  (0.0%f64 <=? fp_probability p)%F = true /\ (fp_probability p <=? 0.95%f64)%F = true /\
  (forall wait, fp_recommended_action p = UseLimitWithFallback wait ->
     50 <= wait <= 200 /\ (level <= 2)%nat /\
     exists ratio b a, fp_reason p = DepthRatio ratio level b a /\ (ratio >=? 3.0%f64)%F = true) /\
  (fp_recommended_action p = UseMarket <-> (fp_probability p >=? 0.70%f64)%F = false).
Proof.
  cbv zeta. unfold calculate_fill_probability.
  destruct (_ <=? level)%nat; cbn [fp_probability fp_recommended_action fp_reason].
  { split; [reflexivity |]. split; [reflexivity |]. split; [discriminate |]. split; reflexivity. }
  set (ratio := (_ / size)%F).
  destruct (step_bounds ratio level) as [Hb1 Hb2]. split; [exact Hb1 |]. split; [exact Hb2 |].
  change (min_probability_threshold FillProbabilityEstimator_new) with 0.70%f64.
  change (max_wait_time_ms FillProbabilityEstimator_new) with 200.
  split; [| destruct (_ >=? 0.70%f64)%F; split; congruence].
  intros wait Hw. destruct (base_probability ratio * level_penalty level >=? 0.70%f64)%F eqn:E;
    [| discriminate]. injection Hw as <-.
  pose proof (viable_wait _ _ E). split; [lia |]. split; [now apply viable_level in E |].
  eexists _, _, _. split; [reflexivity | now apply viable_ratio in E].
Qed.

(** The chosen limit level is viable and no level among the first three has a
    higher probability; without a viable level no limit order is used. *)
Lemma should_try_limit_best e book side size :
  let d := should_try_limit e book side size in
  let p n := fp_probability (calculate_fill_probability e book side n size) in
  (ld_use_limit d = true ->
     (ld_price_level d < 3)%nat /\ ld_probability d = p (ld_price_level d) /\
     (p (ld_price_level d) >=? min_probability_threshold e)%F = true) /\
  (forall n, (n < 3)%nat -> (p n >=? min_probability_threshold e)%F = true ->
     (p n >? ld_probability d)%F = false).
Proof.
  cbv zeta. set (p n := fp_probability (calculate_fill_probability e book side n size)).
  set (ok (l : list nat) d := (ld_use_limit d = true ->
     In (ld_price_level d) l /\ ld_probability d = p (ld_price_level d) /\
     (p (ld_price_level d) >=? min_probability_threshold e)%F = true) /\
    (forall n, In n l -> (p n >=? min_probability_threshold e)%F = true ->
     (p n >? ld_probability d)%F = false)).
  assert (Hstep : forall l d n, ok l d -> ok (n :: l) (better_level e book side size d n)).
  { intros l d n [H1 H2]. unfold better_level. fold (p n).
    destruct (p n >=? min_probability_threshold e)%F eqn:E1;
      [destruct (p n >? ld_probability d)%F eqn:E2 |]; cbn [andb]; split; cbn.
    - auto.
    - intros m [<- | Hm] Hp; [apply fltb_irrefl |].
      destruct (p m >? p n)%F eqn:E; [| reflexivity].
      rewrite <- (H2 m Hm Hp). symmetry. eapply fltb_trans; eauto.
    - intros Hu. destruct (H1 Hu) as (? & ? & ?). auto.
    - intros m [<- | Hm] Hp; [exact E2 | now apply H2].
    - intros Hu. destruct (H1 Hu) as (? & ? & ?). auto.
    - intros m [<- | Hm] Hp; [congruence | now apply H2]. }
  assert (Hok : ok [2; 1; 0]%nat (should_try_limit e book side size)).
  { unfold should_try_limit. cbn [fold_left]. do 3 apply Hstep.
    split; cbn; [discriminate | intros ? []]. }
  destruct Hok as [H1 H2]. split.
  - intros Hu. destruct (H1 Hu) as (Hin & Hr). split; [unfold In in Hin; lia | exact Hr].
  - intros n Hn. apply H2. unfold In. lia.
Qed.
