(* ===== verification/Backend.v ===== *)
(** The execution backend interface ([src/src/strategy/execution_backend.rs]),
    the world the execution code runs in, and the paper-trading backend
    ([src/src/strategy/paper_trading_backend.rs]).

    [Backend] is the trait: every method is a state transformer of an abstract
    backend state, so nothing is assumed about what an exchange answers.  The
    class also carries what the code takes from its runtime: the monotonic
    clock ([Instant], in nanoseconds), the wall clock, [sleep] and fresh
    UUIDs.  [BackendClock] states the one documented fact about it that the
    termination results need: time never goes back and a sleep lasts at least
    its duration.

    A [World] is the backend state with the two process-wide variables of
    [atomic_execution.rs] (the hedge locks and the trading-halted flag) and a
    history of the calls made to the backend. *)
From Stdlib Require Import ZArith Lia Bool.
From stdpp Require Import base option list gmap strings pretty.
From S2P Require Import Prelude Float64 Types.

#[local] Open Scope Z_scope.

(** ** The trait *)
Class Backend (B : Type) := {
  b_set_leverage : string -> string -> Z -> ST B (result unit string);
  b_set_margin_type_isolated : string -> string -> ST B (result unit string);
  b_place_order : SimulatedOrder -> ST B (result SimulatedOrder string);
  b_place_market_order : SimulatedOrder -> ST B (result SimulatedOrder string);
  b_cancel_order : string -> string -> ST B (result unit string);
  b_get_order_status : string -> string -> ST B (result OrderStatus string);
  b_get_order_status_detailed : string -> string -> string -> ST B (result OrderStatusInfo string);
  b_get_available_balance : string -> ST B (result f64 string);
  b_get_all_balances : ST B (result (gmap string f64) string);
  b_is_symbol_tradeable : string -> string -> ST B (result bool string);
  b_get_order_book_depth : string -> string -> Z -> ST B (result OrderBookDepth string);
  b_get_best_bid : string -> string -> ST B (result f64 string);
  b_get_best_ask : string -> string -> ST B (result f64 string);
  b_backend_name : B -> string;
  b_get_quantity_step : string -> string -> ST B (result f64 string);
  (* the runtime *)
  b_instant : ST B Z;
  b_unix_secs : ST B Z;
  b_sleep_ms : Z -> ST B unit;
  b_new_uuid : ST B string
}.

Class BackendClock (B : Type) `{Backend B} := {
  b_now : B -> Z;
  b_instant_now b : fst (b_instant b) = b_now b /\ b_now b <= b_now (snd (b_instant b));
  b_sleep_now ms b : b_now b + Z.max 0 ms * 1000000 <= b_now (snd (b_sleep_ms ms b));
  b_unix_mono b : b_now b <= b_now (snd (b_unix_secs b));
  b_uuid_mono b : b_now b <= b_now (snd (b_new_uuid b));
  b_leverage_mono e s l b : b_now b <= b_now (snd (b_set_leverage e s l b));
  b_margin_mono e s b : b_now b <= b_now (snd (b_set_margin_type_isolated e s b));
  b_place_mono o b : b_now b <= b_now (snd (b_place_order o b));
  b_market_mono o b : b_now b <= b_now (snd (b_place_market_order o b));
  b_cancel_mono e i b : b_now b <= b_now (snd (b_cancel_order e i b));
  b_status_mono e i b : b_now b <= b_now (snd (b_get_order_status e i b));
  b_detailed_mono e i s b : b_now b <= b_now (snd (b_get_order_status_detailed e i s b));
  b_balance_mono e b : b_now b <= b_now (snd (b_get_available_balance e b));
  b_tradeable_mono e s b : b_now b <= b_now (snd (b_is_symbol_tradeable e s b));
  b_depth_mono e s l b : b_now b <= b_now (snd (b_get_order_book_depth e s l b));
  b_bid_mono e s b : b_now b <= b_now (snd (b_get_best_bid e s b));
  b_ask_mono e s b : b_now b <= b_now (snd (b_get_best_ask e s b));
  b_step_mono e s b : b_now b <= b_now (snd (b_get_quantity_step e s b))
}.

(** One call of any method, or one runtime operation. *)
Inductive backend_step {B} `{Backend B} : B -> B -> Prop :=
| bs_leverage e s l b : backend_step b (snd (b_set_leverage e s l b))
| bs_margin e s b : backend_step b (snd (b_set_margin_type_isolated e s b))
| bs_place o b : backend_step b (snd (b_place_order o b))
| bs_market o b : backend_step b (snd (b_place_market_order o b))
| bs_cancel e i b : backend_step b (snd (b_cancel_order e i b))
| bs_status e i b : backend_step b (snd (b_get_order_status e i b))
| bs_detailed e i s b : backend_step b (snd (b_get_order_status_detailed e i s b))
| bs_balance e b : backend_step b (snd (b_get_available_balance e b))
| bs_balances b : backend_step b (snd (b_get_all_balances b))
| bs_tradeable e s b : backend_step b (snd (b_is_symbol_tradeable e s b))
| bs_depth e s l b : backend_step b (snd (b_get_order_book_depth e s l b))
| bs_bid e s b : backend_step b (snd (b_get_best_bid e s b))
| bs_ask e s b : backend_step b (snd (b_get_best_ask e s b))
| bs_step e s b : backend_step b (snd (b_get_quantity_step e s b))
| bs_instant b : backend_step b (snd (b_instant b))
| bs_secs b : backend_step b (snd (b_unix_secs b))
| bs_sleep ms b : backend_step b (snd (b_sleep_ms ms b))
| bs_uuid b : backend_step b (snd (b_new_uuid b)).

(** ** The world *)

(** The calls made to the backend, with their answers. *)
Inductive call :=
| CLeverage (exchange symbol : string) (leverage : Z) (r : result unit string)
| CMargin (exchange symbol : string) (r : result unit string)
| CPlace (o : SimulatedOrder) (r : result SimulatedOrder string)
| CMarket (o : SimulatedOrder) (r : result SimulatedOrder string)
| CCancel (exchange id : string) (r : result unit string)
| CStatus (exchange id : string) (r : result OrderStatus string)
| CDetailed (exchange id symbol : string) (r : result OrderStatusInfo string)
| CBalance (exchange : string) (r : result f64 string)
| CTradeable (exchange symbol : string) (r : result bool string)
| CDepth (exchange symbol : string) (levels : Z) (r : result OrderBookDepth string)
| CBestBid (exchange symbol : string) (r : result f64 string)
| CBestAsk (exchange symbol : string) (r : result f64 string)
| CStep (exchange symbol : string) (r : result f64 string).

Record World (B : Type) := {
  w_backend : B;
  w_hedge_locks : gset string;
  w_halted : bool;
  w_calls : list call
}.
Arguments w_backend {B} _.
Arguments w_hedge_locks {B} _.
Arguments w_halted {B} _.
Arguments w_calls {B} _.

(** Calls that can change an account's position. *)
Definition is_order_call (c : call) : bool :=
  match c with CPlace _ _ | CMarket _ _ => true | _ => false end.
Definition is_limit_call (c : call) : bool :=
  match c with CPlace _ _ => true | _ => false end.
Definition is_market_call (c : call) : bool :=
  match c with CMarket _ _ => true | _ => false end.

Definition count_calls {B} (p : call -> bool) (w : World B) : nat := length (List.filter p (w_calls w)).

Section world.
Context {B : Type} `{Backend B}.

(** A backend call in the world: the state moves and the call is recorded. *)
Definition lift_call {A} (mk : A -> call) (m : ST B A) : ST (World B) A := fun w =>
  let '(a, b) := m (w_backend w) in
  (a, {| w_backend := b; w_hedge_locks := w_hedge_locks w; w_halted := w_halted w;
         w_calls := w_calls w ++ [mk a] |}).

(** A runtime operation: not recorded. *)
Definition lift_rt {A} (m : ST B A) : ST (World B) A := fun w =>
  let '(a, b) := m (w_backend w) in
  (a, {| w_backend := b; w_hedge_locks := w_hedge_locks w; w_halted := w_halted w;
         w_calls := w_calls w |}).

Definition set_leverage e s l := lift_call (CLeverage e s l) (b_set_leverage e s l).
Definition set_margin_type_isolated e s := lift_call (CMargin e s) (b_set_margin_type_isolated e s).
Definition place_order o := lift_call (CPlace o) (b_place_order o).
Definition place_market_order o := lift_call (CMarket o) (b_place_market_order o).
Definition cancel_order e i := lift_call (CCancel e i) (b_cancel_order e i).
Definition get_order_status e i := lift_call (CStatus e i) (b_get_order_status e i).
Definition get_order_status_detailed e i s :=
  lift_call (CDetailed e i s) (b_get_order_status_detailed e i s).
Definition get_available_balance e := lift_call (CBalance e) (b_get_available_balance e).
Definition is_symbol_tradeable e s := lift_call (CTradeable e s) (b_is_symbol_tradeable e s).
Definition get_order_book_depth e s l := lift_call (CDepth e s l) (b_get_order_book_depth e s l).
Definition get_best_bid e s := lift_call (CBestBid e s) (b_get_best_bid e s).
Definition get_best_ask e s := lift_call (CBestAsk e s) (b_get_best_ask e s).
Definition get_quantity_step e s := lift_call (CStep e s) (b_get_quantity_step e s).

Definition instant_now : ST (World B) Z := lift_rt b_instant.
Definition unix_secs : ST (World B) Z := lift_rt b_unix_secs.
Definition sleep_ms (ms : Z) : ST (World B) unit := lift_rt (b_sleep_ms ms).
Definition new_uuid : ST (World B) string := lift_rt b_new_uuid.

(** [tokio::join!] of two calls.  Both run to completion; since the backend
    is arbitrary, running the first one first loses no answer it could give. *)
Definition join {A C} (m1 : ST (World B) A) (m2 : ST (World B) C) : ST (World B) (A * C) := fun w =>
  let '(a, w) := m1 w in
  let '(c, w) := m2 w in
  ((a, c), w).

Definition set_hedge_locks (l : gset string) (w : World B) : World B :=
  {| w_backend := w_backend w; w_hedge_locks := l; w_halted := w_halted w; w_calls := w_calls w |}.
Definition set_halted (h : bool) (w : World B) : World B :=
  {| w_backend := w_backend w; w_hedge_locks := w_hedge_locks w; w_halted := h; w_calls := w_calls w |}.
End world.

(** ** What a computation can do to the world *)

(** [w'] has made the calls of [w] and then some that satisfy [pc]. *)
Definition extends {B} (pc : call -> Prop) (w w' : World B) : Prop :=
  exists cs, w_calls w' = w_calls w ++ cs /\ Forall pc cs.

(** The locks and the halted flag are as before, and only calls that satisfy
    [pc] have been made. *)
Definition tame {B} (pc : call -> Prop) (w w' : World B) : Prop :=
  w_hedge_locks w' = w_hedge_locks w /\ w_halted w' = w_halted w /\ extends pc w w'.

(** Time has not gone back. *)
Definition later {B} `{BackendClock B} (w w' : World B) : Prop :=
  b_now (w_backend w) <= b_now (w_backend w').

Lemma extends_refl {B} (pc : call -> Prop) (w : World B) : extends pc w w.
Proof. exists []. split; [now rewrite app_nil_r | constructor]. Qed.

Lemma extends_trans {B} (pc : call -> Prop) (w1 w2 w3 : World B) :
  extends pc w1 w2 -> extends pc w2 w3 -> extends pc w1 w3.
Proof.
  intros (c1 & H1 & F1) (c2 & H2 & F2). exists (c1 ++ c2).
  rewrite H2, H1, app_assoc. split; [reflexivity | now apply Forall_app].
Qed.

Lemma extends_mono {B} (p q : call -> Prop) (w w' : World B) :
  (forall c, p c -> q c) -> extends p w w' -> extends q w w'.
Proof. intros Hpq (c & Hc & Hf). exists c. split; [exact Hc |]. eapply Forall_impl; eauto. Qed.

#[export] Instance tame_preorder {B} (pc : call -> Prop) : PreOrder (tame (B:=B) pc).
Proof.
  split.
  - intros w. unfold tame. auto using extends_refl.
  - intros w1 w2 w3 (H1 & H2 & H3) (H4 & H5 & H6). unfold tame.
    rewrite H4, H5, H1, H2. eauto using extends_trans.
Qed.

#[export] Instance later_preorder {B} `{BackendClock B} : PreOrder (later (B:=B)).
Proof. split; unfold later; [intros w | intros w1 w2 w3]; lia. Qed.

Lemma tame_mono {B} (p q : call -> Prop) (w w' : World B) :
  (forall c, p c -> q c) -> tame p w w' -> tame q w w'.
Proof. intros Hpq (? & ? & ?). unfold tame. eauto using extends_mono. Qed.

Lemma respects_tame_mono {B A} (p q : call -> Prop) (m : ST (World B) A) :
  (forall c, p c -> q c) -> respects (tame p) m -> respects (tame q) m.
Proof. intros Hpq Hm w. eapply tame_mono; eauto. Qed.

Section rules.
Context {B : Type} `{Backend B}.

Lemma respects_call {A} (pc : call -> Prop) (mk : A -> call) (m : ST B A) :
  (forall a, pc (mk a)) -> respects (tame pc) (lift_call mk m).
Proof.
  intros Hp w. unfold lift_call. destruct (m (w_backend w)) as [a b]. cbn.
  split; [reflexivity |]. split; [reflexivity |]. exists [mk a]. cbn. auto.
Qed.

Lemma respects_rt {A} pc (m : ST B A) : respects (tame pc) (lift_rt m).
Proof.
  intros w. unfold lift_rt. destruct (m (w_backend w)) as [a b]. cbn.
  split; [reflexivity |]. split; [reflexivity |]. exists []. cbn. now rewrite app_nil_r.
Qed.

Lemma respects_join {A C} (R : World B -> World B -> Prop) `{!PreOrder R}
  (m1 : ST (World B) A) (m2 : ST (World B) C) :
  respects R m1 -> respects R m2 -> respects R (join m1 m2).
Proof.
  intros Hm Hk w. unfold join. specialize (Hm w). destruct (m1 w) as [a w1].
  specialize (Hk w1). destruct (m2 w1) as [c w2]. cbn in *. now transitivity w1.
Qed.

(** What a call and a runtime operation leave in the world. *)
Definition after_call {A} (w : World B) (b : B) (mk : A -> call) (a : A) : World B :=
  {| w_backend := b; w_hedge_locks := w_hedge_locks w; w_halted := w_halted w;
     w_calls := w_calls w ++ [mk a] |}.
Definition after_rt (w : World B) (b : B) : World B :=
  {| w_backend := b; w_hedge_locks := w_hedge_locks w; w_halted := w_halted w;
     w_calls := w_calls w |}.

Lemma wp_call {A} (mk : A -> call) (m : ST B A) (Q : A -> World B -> Prop) w :
  (forall a b, m (w_backend w) = (a, b) -> Q a (after_call w b mk a)) -> wp (lift_call mk m) Q w.
Proof. intros HQ. unfold wp, lift_call. destruct (m (w_backend w)) as [a b] eqn:E. now apply HQ. Qed.

Lemma wp_rt {A} (m : ST B A) (Q : A -> World B -> Prop) w :
  (forall a b, m (w_backend w) = (a, b) -> Q a (after_rt w b)) -> wp (lift_rt m) Q w.
Proof. intros HQ. unfold wp, lift_rt. destruct (m (w_backend w)) as [a b] eqn:E. now apply HQ. Qed.

Lemma wp_join {A C} (m1 : ST (World B) A) (m2 : ST (World B) C) (Q : A * C -> World B -> Prop) w :
  wp m1 (fun a w1 => wp m2 (fun c w2 => Q (a, c) w2) w1) w -> wp (join m1 m2) Q w.
Proof. unfold wp, join. destruct (m1 w) as [a w1]. now destruct (m2 w1). Qed.
End rules.

(** Time passes in every operation. *)
Section time.
Context {B : Type} `{BackendClock B}.

Lemma later_call {A} (mk : A -> call) (m : ST B A) :
  (forall b, b_now b <= b_now (snd (m b))) -> respects later (lift_call mk m).
Proof.
  intros Hm w. unfold lift_call, later. specialize (Hm (w_backend w)).
  now destruct (m (w_backend w)).
Qed.

Lemma later_rt {A} (m : ST B A) :
  (forall b, b_now b <= b_now (snd (m b))) -> respects later (lift_rt m).
Proof.
  intros Hm w. unfold lift_rt, later. specialize (Hm (w_backend w)).
  now destruct (m (w_backend w)).
Qed.

Lemma sleep_later ms : respects later (sleep_ms ms : ST (World B) _).
Proof. apply later_rt. intros b. pose proof (b_sleep_now ms b). lia. Qed.

Lemma instant_later : respects later (instant_now : ST (World B) _).
Proof. apply later_rt. intros b. apply b_instant_now. Qed.
End time.

#[export] Hint Resolve sleep_later instant_later b_unix_mono b_uuid_mono b_leverage_mono
  b_margin_mono b_place_mono b_market_mono b_cancel_mono b_status_mono b_detailed_mono
  b_balance_mono b_tradeable_mono b_depth_mono b_bid_mono b_ask_mono b_step_mono
  extends_refl : arb.

(** Unfolds a world operation to the call or runtime operation it is. *)
Ltac unfold_call :=
  unfold set_leverage, set_margin_type_isolated, place_order, place_market_order, cancel_order,
    get_order_status, get_order_status_detailed, get_available_balance, is_symbol_tradeable,
    get_order_book_depth, get_best_bid, get_best_ask, get_quantity_step, unix_secs, new_uuid,
    instant_now, sleep_ms.

(** Runs a body symbolically: one rule per bind, call and runtime operation. *)
Ltac wp_call_intros :=
  let a := fresh "a" in let b := fresh "b" in let E := fresh "E" in
  intros a b E; cbn [w_backend after_call after_rt] in *.

Ltac wp_step :=
  lazymatch goal with
  | |- wp (ret _) _ _ => apply wp_ret
  | |- wp (bind _ _) _ _ => apply wp_bind
  | |- wp (bind_ok _ _) _ _ => apply wp_bind_ok
  | |- wp (mapE _ _) _ _ => apply wp_mapE
  | |- wp (join _ _) _ _ => apply wp_join
  | |- wp (lift_rt _) _ _ => apply wp_rt; wp_call_intros
  | |- wp (lift_call _ _) _ _ => apply wp_call; wp_call_intros
  | |- wp _ _ _ => progress unfold_call; wp_step
  end.

(** Proves [respects (tame pc) m] by decomposing [m]; the calls must satisfy [pc]. *)
Ltac solve_tame :=
  repeat first
  [ respects_step
  | lazymatch goal with
    | |- respects _ (join _ _) => apply respects_join; [exact _ | |]
    | |- respects _ (lift_rt _) => apply respects_rt
    | |- respects _ (lift_call _ _) => apply respects_call; intros ?; cbn; solve [auto]
    | |- respects _ _ => first [solve [eauto with arb] | progress unfold_call]
    end ].

(** Proves [respects later m] by decomposing [m]. *)
Ltac solve_later :=
  repeat first
  [ respects_step
  | lazymatch goal with
    | |- respects _ (join _ _) => apply respects_join; [exact _ | |]
    | |- respects _ (lift_rt _) => first [apply sleep_later | apply instant_later | apply later_rt; intros; auto with arb]
    | |- respects _ (lift_call _ _) => apply later_call; intros; auto with arb
    | |- respects _ _ => first [solve [eauto with arb] | progress unfold_call]
    end ].

(** ** The paper-trading backend *)
Record PaperTradingBackend := {
  pb_balances : gmap string f64;
  pb_orders : gmap string SimulatedOrder;
  pb_clock_ns : Z;          (* the runtime it runs in *)
  pb_uuids : N
}.

Definition PaperTradingBackend_new (initial_balances : gmap string f64) : PaperTradingBackend :=
  {| pb_balances := initial_balances; pb_orders := ∅; pb_clock_ns := 0; pb_uuids := 0 |}.

Definition pb_set_orders (o : gmap string SimulatedOrder) (b : PaperTradingBackend)
  : PaperTradingBackend :=
  {| pb_balances := pb_balances b; pb_orders := o; pb_clock_ns := pb_clock_ns b;
     pb_uuids := pb_uuids b |}.

Definition pb_uuid (b : PaperTradingBackend) : string * PaperTradingBackend :=
  (("uuid-" ++ pretty (pb_uuids b))%string,
   {| pb_balances := pb_balances b; pb_orders := pb_orders b; pb_clock_ns := pb_clock_ns b;
      pb_uuids := N.succ (pb_uuids b) |}).

Definition pb_secs (b : PaperTradingBackend) : Z := pb_clock_ns b / 1000000000.

Definition pb_place_order (order : SimulatedOrder) (b : PaperTradingBackend)
  : result SimulatedOrder string * PaperTradingBackend :=
  let '(order, b) := if String.eqb (so_id order) ""
                     then let '(id, b) := pb_uuid b in (set_so_id id order, b) else (order, b) in
  let order := set_so_status Filled order in
  let order := set_so_filled_at (Some (pb_secs b)) order in
  let order := set_so_fill_price (Some (so_price order)) order in
  (Ok order, pb_set_orders (<[so_id order := order]> (pb_orders b)) b).

Definition pb_place_market_order (order : SimulatedOrder) (b : PaperTradingBackend)
  : result SimulatedOrder string * PaperTradingBackend :=
  let '(order, b) := if String.eqb (so_id order) ""
                     then let '(id, b) := pb_uuid b in (set_so_id id order, b) else (order, b) in
  let order := set_so_status Filled order in
  let order := set_so_filled_at (Some (pb_secs b)) order in
  let order := set_so_fill_price (Some (so_price order)) order in
  (Ok order, pb_set_orders (<[so_id order := order]> (pb_orders b)) b).

Definition pb_cancel_order (_exchange order_id : string) (b : PaperTradingBackend)
  : result unit string * PaperTradingBackend :=
  (Ok tt, pb_set_orders (delete order_id (pb_orders b)) b).

Definition pb_get_order_status (_exchange order_id : string) (b : PaperTradingBackend)
  : result OrderStatus string * PaperTradingBackend :=
  (match pb_orders b !! order_id with
   | Some order => Ok (so_status order)
   | None => Ok Cancelled
   end, b).

Definition pb_get_order_status_detailed (_exchange order_id _symbol : string)
  (b : PaperTradingBackend) : result OrderStatusInfo string * PaperTradingBackend :=
  (match pb_orders b !! order_id with
   | Some order => Ok {| osi_status := so_status order; osi_filled_quantity := so_size order;
                         osi_total_quantity := so_size order |}
   | None => Ok {| osi_status := Cancelled; osi_filled_quantity := 0.0%f64;
                   osi_total_quantity := 0.0%f64 |}
   end, b).

Definition pb_get_available_balance (exchange : string) (b : PaperTradingBackend)
  : result f64 string * PaperTradingBackend :=
  (match pb_balances b !! exchange with
   | Some balance => Ok balance
   | None => Err "Exchange not found"%string
   end, b).

#[export] Instance paper_backend : Backend PaperTradingBackend := {
  b_set_leverage _ _ _ b := (Ok tt, b);
  b_set_margin_type_isolated _ _ b := (Ok tt, b);
  b_place_order := pb_place_order;
  b_place_market_order := pb_place_market_order;
  b_cancel_order := pb_cancel_order;
  b_get_order_status := pb_get_order_status;
  b_get_order_status_detailed := pb_get_order_status_detailed;
  b_get_available_balance := pb_get_available_balance;
  b_get_all_balances b := (Ok (pb_balances b), b);
  b_is_symbol_tradeable _ _ b := (Ok true, b);
  b_get_order_book_depth _ _ _ b :=
    (Err "get_order_book_depth not yet implemented for paper trading"%string, b);
  b_get_best_bid _ _ b := (Err "get_best_bid not yet implemented for paper trading"%string, b);
  b_get_best_ask _ _ b := (Err "get_best_ask not yet implemented for paper trading"%string, b);
  b_backend_name _ := "PaperTrading"%string;
  b_get_quantity_step _ _ b := (Ok 0.1%f64, b);
  b_instant b := (pb_clock_ns b, b);
  b_unix_secs b := (pb_secs b, b);
  b_sleep_ms ms b :=
    (tt, {| pb_balances := pb_balances b; pb_orders := pb_orders b;
            pb_clock_ns := pb_clock_ns b + Z.max 0 ms * 1000000; pb_uuids := pb_uuids b |});
  b_new_uuid := pb_uuid
}.

#[export] Instance paper_backend_clock : BackendClock PaperTradingBackend.
Proof.
  refine {| b_now := pb_clock_ns |}; cbn; intros; try lia.
  - unfold pb_place_order. destruct (String.eqb (so_id o) ""); cbn; lia.
  - unfold pb_place_market_order. destruct (String.eqb (so_id o) ""); cbn; lia.
Defined.

(** On the paper backend an order is filled at its own price the moment it is
    placed: the returned order and both status queries agree, its id is not
    empty, its size and price are the ones asked for, and cancelling removes
    it. *)
Theorem paper_order_lifecycle o b :
  exists o' b', pb_place_order o b = (Ok o', b') /\
    so_status o' = Filled /\ so_fill_price o' = Some (so_price o) /\
    so_price o' = so_price o /\ so_size o' = so_size o /\ so_side o' = so_side o /\
    so_id o' <> ""%string /\
    fst (pb_get_order_status (so_exchange o') (so_id o') b') = Ok Filled /\
    fst (pb_get_order_status_detailed (so_exchange o') (so_id o') (so_symbol o') b') =
      Ok {| osi_status := Filled; osi_filled_quantity := so_size o; osi_total_quantity := so_size o |} /\
    let b'' := snd (pb_cancel_order (so_exchange o') (so_id o') b') in
    fst (pb_get_order_status (so_exchange o') (so_id o') b'') = Ok Cancelled /\
    pb_balances b'' = pb_balances b.
Proof.
  unfold pb_place_order.
  destruct (String.eqb_spec (so_id o) "") as [Heq | Hne];
    (eexists; eexists; split; [reflexivity |]; cbn;
     unfold pb_get_order_status, pb_get_order_status_detailed; cbn;
     rewrite !lookup_insert_eq, lookup_delete_eq; cbn;
     repeat (split; [first [reflexivity | assumption | discriminate] |]); reflexivity).
Qed.
