(* ===== verification/DepthChecker.v ===== *)
(** The pre-flight depth checker for market hedges
    ([src/src/strategy/depth_checker.rs]): a 100 ms cache of order books and
    the ratio of the liquidity found to the liquidity required.

    [Instant]s are nanoseconds; the checker's only state of its own is the
    cache, which every operation takes and returns. *)
From Stdlib Require Import ZArith Lia Bool.
From stdpp Require Import base option list gmap strings.
From S2P Require Import Prelude Float64 Types Backend.

#[local] Open Scope Z_scope.

(** ** Data *)
Record DepthCheckResult := {
  dc_exchange : string;
  dc_symbol : string;
  dc_available_liquidity : f64;
  dc_required_liquidity : f64;
  dc_depth_ratio : f64;
  dc_is_sufficient : bool;
  dc_is_critical : bool;
  dc_check_duration_ms : Z;
  dc_timestamp : Z
}.

Definition should_abort (r : DepthCheckResult) : bool := dc_is_critical r.
Definition should_warn (r : DepthCheckResult) : bool :=
  negb (dc_is_sufficient r) && negb (dc_is_critical r).

Abbreviation depth_cache := (gmap string (OrderBookDepth * Z)).

(** [Duration::from_millis(100)], in nanoseconds. *)
Definition cache_ttl : Z := 100 * 1000000.

Definition DepthChecker_new : depth_cache := ∅.

(** ** Operations *)
Definition calculate_depth_result (exchange symbol : string) (depth : OrderBookDepth)
  (hedge_quantity : f64) (duration_ms : Z) : DepthCheckResult :=
  let available_liquidity := fsum (pl_quantity <$> take 5 (obd_bids depth)) in
  let required_liquidity := (hedge_quantity * 1.5%f64)%F in
  let depth_ratio := if (required_liquidity >? 0.0%f64)%F
                     then (available_liquidity / required_liquidity)%F else 0.0%f64 in
  {| dc_exchange := exchange; dc_symbol := symbol;
     dc_available_liquidity := available_liquidity;
     dc_required_liquidity := required_liquidity; dc_depth_ratio := depth_ratio;
     dc_is_sufficient := (depth_ratio >=? 1.0%f64)%F;
     dc_is_critical := (depth_ratio <? 0.73%f64)%F;
     dc_check_duration_ms := duration_ms; dc_timestamp := obd_timestamp depth |}.

Section checker.
Context {B : Type} `{Backend B}.

Definition elapsed_ms (start : Z) : ST (World B) Z :=
  (let! now := instant_now in ret ((now - start) / 1000000))%st.

Definition cache_key (exchange symbol : string) : string := exchange +:+ ":" +:+ symbol.

(** The query of the order book, after a cache miss. *)
Definition query_depth (exchange symbol : string) (hedge_quantity : f64) (start : Z)
  (cache : depth_cache) : ST (World B) (result DepthCheckResult string * depth_cache) :=
  (let! r := get_order_book_depth exchange symbol 10 in
   match r with
   | Err e => ret (Err ("Failed to get order book depth: " +:+ e), cache)
   | Ok depth =>
       let! now := instant_now in
       let! ms := elapsed_ms start in
       ret (Ok (calculate_depth_result exchange symbol depth hedge_quantity ms),
            <[cache_key exchange symbol := (depth, now)]> cache)
   end)%st.

Definition check_depth_for_hedge (exchange symbol : string) (hedge_quantity : f64)
  (cache : depth_cache) : ST (World B) (result DepthCheckResult string * depth_cache) :=
  (let! start := instant_now in
   match cache !! cache_key exchange symbol with
   | Some (depth, timestamp) =>
       let! now := instant_now in
       if now - timestamp <? cache_ttl then
         let! ms := elapsed_ms start in
         ret (Ok (calculate_depth_result exchange symbol depth hedge_quantity ms), cache)
       else query_depth exchange symbol hedge_quantity start cache
   | None => query_depth exchange symbol hedge_quantity start cache
   end)%st.
End checker.

(** ** Properties *)

(** The three verdicts exclude each other and cover every ratio but NaN. *)
Lemma depth_verdict e s d q ms :
  let r := calculate_depth_result e s d q ms in
  (should_abort r = true -> dc_is_sufficient r = false /\ should_warn r = false) /\
  (is_nan (dc_depth_ratio r) = false ->
     should_abort r = false -> dc_is_sufficient r = false -> should_warn r = true).
Proof.
  cbv zeta. unfold should_abort, should_warn, calculate_depth_result. cbn [dc_is_critical
    dc_is_sufficient dc_depth_ratio].
  match goal with |- context [(?r >=? 1.0%f64)%F] => set (ratio := r) end. split.
  - intros Hc. rewrite Hc. rewrite andb_false_r. split; [| reflexivity].
    destruct (ratio >=? 1.0%f64)%F eqn:E; [| reflexivity].
    rewrite <- (fltb_irrefl 0.73%f64). symmetry.
    eapply (fltb_fleb_trans _ 1.0%f64); [reflexivity |].
    eapply fleb_trans; [exact E |]. now apply fltb_fleb.
  - intros _ -> ->. reflexivity.
Qed.

(** A hedge of a quantity that is not positive (or NaN) is always critical. *)
Lemma depth_nonpositive e s d q ms :
  (q * 1.5%f64 >? 0.0%f64)%F = false -> should_abort (calculate_depth_result e s d q ms) = true.
Proof. intros Hq. unfold should_abort, calculate_depth_result. cbn. now rewrite Hq. Qed.

(** The depth behind a hedge is always read on the bid side: the asks of the
    book play no part, whichever side the hedge is on. *)
Lemma depth_ignores_asks e s d asks q ms :
  calculate_depth_result e s {| obd_bids := obd_bids d; obd_asks := asks; obd_timestamp := obd_timestamp d |} q ms =
  calculate_depth_result e s d q ms.
Proof. reflexivity. Qed.

Section cached.
Context {B : Type} `{BackendClock B}.

Lemma check_depth_tame e s q (cache : depth_cache) (pc : call -> Prop) :
  (forall r, pc (CDepth e s 10 r)) ->
  respects (tame pc) (check_depth_for_hedge e s q cache : ST (World B) _).
Proof. intros Hp. unfold check_depth_for_hedge, query_depth, elapsed_ms. solve_tame. Qed.

Lemma check_depth_later e s q (cache : depth_cache) :
  respects later (check_depth_for_hedge e s q cache : ST (World B) _).
Proof. unfold check_depth_for_hedge, query_depth, elapsed_ms. solve_later. Qed.

(** The cache: a book fetched less than 100 ms ago is reused without asking
    the exchange; an older one, or none, is fetched again, and what was fetched
    is remembered. *)
Theorem depth_cache_freshness e s q (cache : depth_cache) (w : World B) :
  let now := fst (b_instant (snd (b_instant (w_backend w)))) in
  let fresh := match cache !! cache_key e s with
               | Some (d, t) => if now - t <? cache_ttl then Some d else None
               | None => None
               end in
  wp (check_depth_for_hedge e s q cache) (fun '(r, cache') w' =>
    match fresh with
    | Some d => w_calls w' = w_calls w /\ cache' = cache /\
                exists ms, r = Ok (calculate_depth_result e s d q ms)
    | None => exists a, w_calls w' = w_calls w ++ [CDepth e s 10 a] /\
        match a with
        | Ok d => (exists ms, r = Ok (calculate_depth_result e s d q ms)) /\
                  exists t, cache' = <[cache_key e s := (d, t)]> cache
        | Err er => r = Err ("Failed to get order book depth: " +:+ er) /\ cache' = cache
        end
    end) w.
Proof.
  cbv zeta. unfold check_depth_for_hedge.
  assert (Hquery : forall start w1, w_calls w1 = w_calls w ->
    wp (query_depth e s q start cache) (fun '(r, cache') w' =>
      exists a, w_calls w' = w_calls w ++ [CDepth e s 10 a] /\
        match a with
        | Ok d => (exists ms, r = Ok (calculate_depth_result e s d q ms)) /\
                  exists t, cache' = <[cache_key e s := (d, t)]> cache
        | Err er => r = Err ("Failed to get order book depth: " +:+ er) /\ cache' = cache
        end) w1).
  { intros start w1 Hw1. unfold query_depth, elapsed_ms. do 2 wp_step.
    destruct a as [d | er]; repeat wp_step; eexists; cbn; rewrite Hw1; (split; [reflexivity | cbn; eauto]). }
  do 2 wp_step. rewrite E. cbn [snd].
  destruct (cache !! cache_key e s) as [[d t] |]; [| now apply Hquery].
  do 2 wp_step. rewrite E0. cbn [fst]. destruct (a0 - t <? cache_ttl); [| now apply Hquery].
  unfold elapsed_ms. repeat wp_step. cbn. eauto.
Qed.
End cached.

#[export] Hint Resolve check_depth_tame check_depth_later : arb.
