(* ===== verification/PriceChaser.v ===== *)
(** Repricing of limit orders ([src/src/strategy/price_chaser.rs]): the
    configuration presets, the repricing test, the cancel-and-replace step and
    the chasing loop.

    [Instant]s are nanoseconds.  The loop of [chase_until_filled] is a
    recursion on fuel; [chase_terminates] bounds the fuel it needs. *)
From Stdlib Require Import ZArith Lia Bool.
From stdpp Require Import base option list gmap strings pretty.
From S2P Require Import Prelude Float64 Types Backend.

#[local] Open Scope Z_scope.

(** ** Configuration and metrics *)
Inductive ExecutionMode := UltraFast | Balanced | Safe.

#[export] Instance ExecutionMode_eq_dec : EqDecision ExecutionMode.
Proof. solve_decision. Defined.

Record RepricingConfig := {
  reprice_threshold_bps : f64;
  max_reprices : Z;
  reprice_interval_ms : Z;
  total_timeout_seconds : Z;
  spread_collapse_threshold_bps : f64;
  execution_mode : ExecutionMode
}.

Definition ultra_fast : RepricingConfig :=
  {| reprice_threshold_bps := 5.0%f64; max_reprices := 5; reprice_interval_ms := 100;
     total_timeout_seconds := 3; spread_collapse_threshold_bps := 50.0%f64;
     execution_mode := UltraFast |}.
Definition balanced : RepricingConfig :=
  {| reprice_threshold_bps := 5.0%f64; max_reprices := 5; reprice_interval_ms := 100;
     total_timeout_seconds := 3; spread_collapse_threshold_bps := 50.0%f64;
     execution_mode := Balanced |}.
Definition safe : RepricingConfig :=
  {| reprice_threshold_bps := 5.0%f64; max_reprices := 5; reprice_interval_ms := 100;
     total_timeout_seconds := 3; spread_collapse_threshold_bps := 50.0%f64;
     execution_mode := Safe |}.

Definition from_confidence (confidence_score : f64) : RepricingConfig :=
  if (confidence_score >=? 90.0%f64)%F then ultra_fast
  else if (confidence_score >=? 75.0%f64)%F then balanced
  else safe.

Record RepricingEvent := {
  re_timestamp : Z;
  re_old_price : f64;
  re_new_price : f64;
  re_reason : string;
  re_elapsed_ms : Z;
  re_exchange : string;
  re_side : OrderSide
}.

Record RepricingMetrics := {
  rm_reprice_count : Z;
  rm_reprice_total_time_ms : Z;
  rm_initial_price : f64;
  rm_final_price : f64;
  rm_price_improvement_bps : f64;
  rm_repricing_events : list RepricingEvent;
  rm_max_reprices_reached : bool
}.

Definition RepricingMetrics_new (initial_price : f64) : RepricingMetrics :=
  {| rm_reprice_count := 0; rm_reprice_total_time_ms := 0; rm_initial_price := initial_price;
     rm_final_price := initial_price; rm_price_improvement_bps := 0.0%f64;
     rm_repricing_events := []; rm_max_reprices_reached := false |}.

Definition finalize (m : RepricingMetrics) : RepricingMetrics :=
  {| rm_reprice_count := rm_reprice_count m; rm_reprice_total_time_ms := rm_reprice_total_time_ms m;
     rm_initial_price := rm_initial_price m; rm_final_price := rm_final_price m;
     rm_price_improvement_bps :=
       (((rm_final_price m - rm_initial_price m) / rm_initial_price m) * 10000.0%f64)%F;
     rm_repricing_events := rm_repricing_events m;
     rm_max_reprices_reached := rm_max_reprices_reached m |}.

(** The four updates after a repricing; the counters are [u32] and [u128]. *)
Definition record_reprice (e : RepricingEvent) (m : RepricingMetrics) : RepricingMetrics :=
  {| rm_reprice_count := wrap32 (rm_reprice_count m + 1);
     rm_reprice_total_time_ms := (rm_reprice_total_time_ms m + re_elapsed_ms e) mod 2 ^ 128;
     rm_initial_price := rm_initial_price m; rm_final_price := re_new_price e;
     rm_price_improvement_bps := rm_price_improvement_bps m;
     rm_repricing_events := rm_repricing_events m ++ [e];
     rm_max_reprices_reached := rm_max_reprices_reached m |}.

Definition set_max_reached (m : RepricingMetrics) : RepricingMetrics :=
  {| rm_reprice_count := rm_reprice_count m; rm_reprice_total_time_ms := rm_reprice_total_time_ms m;
     rm_initial_price := rm_initial_price m; rm_final_price := rm_final_price m;
     rm_price_improvement_bps := rm_price_improvement_bps m;
     rm_repricing_events := rm_repricing_events m; rm_max_reprices_reached := true |}.

(** ** Operations *)
Definition should_reprice (config : RepricingConfig) (order_price current_best_price : f64) : bool :=
  let price_deviation := ((fabs (current_best_price - order_price) / order_price) * 10000.0%f64)%F in
  (price_deviation >? reprice_threshold_bps config)%F.

Section chaser.
Context {B : Type} `{Backend B}.

Definition reprice_order (order : SimulatedOrder) (new_price : f64) (metrics : RepricingMetrics)
  : ST (World B) (result (SimulatedOrder * RepricingMetrics) string) :=
  (let! start := instant_now in
   let? _ := mapE (fun e => "Failed to cancel order: " +:+ e)
               (cancel_order (so_exchange order) (so_id order)) in
   let! secs := unix_secs in
   let? placed_order := mapE (fun e => "Failed to place repriced order: " +:+ e)
     (place_order (set_so_created_at secs (set_so_id "" (set_so_price new_price order)))) in
   let! now := instant_now in
   let! stamp := unix_secs in
   let event := {| re_timestamp := stamp; re_old_price := so_price order;
                   re_new_price := new_price; re_reason := "price_moved_away";
                   re_elapsed_ms := (now - start) / 1000000; re_exchange := so_exchange order;
                   re_side := so_side order |} in
   ret (Ok (placed_order, record_reprice event metrics)))%st.

Definition get_best_price_for_order (order : SimulatedOrder) : ST (World B) (result f64 string) :=
  match so_side order with
  | Long =>
      mapE (fun e => "Failed to get best bid: " +:+ e)
        (get_best_bid (so_exchange order) (so_symbol order))
  | Short =>
      mapE (fun e => "Failed to get best ask: " +:+ e)
        (get_best_ask (so_exchange order) (so_symbol order))
  end.

(** How a turn of the chasing loop ends: with the result of the whole
    function, or with the order and metrics of the next turn. *)
Inductive chase_outcome :=
| ChaseDone (order : SimulatedOrder)
| ChaseNext (order : SimulatedOrder) (metrics : RepricingMetrics).

Definition chase_turn (config : RepricingConfig) (order : SimulatedOrder)
  (metrics : RepricingMetrics) : ST (World B) (result chase_outcome string) :=
  (let? status := mapE (fun e => "Failed to get order status: " +:+ e)
                    (get_order_status (so_exchange order) (so_id order)) in
   if decide (status = Filled) then ret (Ok (ChaseDone order))
   else if max_reprices config <=? rm_reprice_count metrics then
     ret (Err ("Max reprices (" +:+ pretty (max_reprices config) +:+ ") reached"))
   else
     let? best_price := get_best_price_for_order order in
     let? om := (if should_reprice config (so_price order) best_price
                 then reprice_order order best_price metrics
                 else ret (Ok (order, metrics))) in
     do! sleep_ms (reprice_interval_ms config) in
     ret (Ok (ChaseNext (fst om) (snd om))))%st.

(** [while start.elapsed() < timeout]; [None] when the fuel ran out. *)
Fixpoint chase_loop (fuel : nat) (config : RepricingConfig) (start timeout_ns : Z)
  (order : SimulatedOrder) (metrics : RepricingMetrics)
  : ST (World B) (option (result SimulatedOrder string)) :=
  match fuel with
  | O => ret None
  | S fuel =>
      (let! now := instant_now in
       if now - start <? timeout_ns then
         let! r := chase_turn config order metrics in
         match r with
         | Err e => ret (Some (Err e))
         | Ok (ChaseDone order) => ret (Some (Ok order))
         | Ok (ChaseNext order metrics) => chase_loop fuel config start timeout_ns order metrics
         end
       else ret (Some (Err "Timeout reached without fill")))%st
  end.

Definition chase_until_filled (fuel : nat) (config : RepricingConfig) (order : SimulatedOrder)
  (timeout_ns : Z) : ST (World B) (option (result SimulatedOrder string)) :=
  (let! start := instant_now in
   chase_loop fuel config start timeout_ns order (RepricingMetrics_new (so_price order)))%st.
End chaser.

(** ** Properties *)
Section properties.
Context {B : Type} `{Backend B}.

(** Calls a chaser makes. *)
Definition chaser_call (c : call) : Prop :=
  match c with CStatus _ _ _ | CBestBid _ _ _ | CBestAsk _ _ _ | CCancel _ _ _ | CPlace _ _ => True
  | _ => False end.

Lemma reprice_tame order price m (pc : call -> Prop) :
  (forall e i r, pc (CCancel e i r)) -> (forall o r, pc (CPlace o r)) ->
  respects (tame pc) (reprice_order order price m : ST (World B) _).
Proof. intros H1 H2. unfold reprice_order. solve_tame. Qed.

Lemma best_price_tame order (pc : call -> Prop) :
  (forall e s r, pc (CBestBid e s r)) -> (forall e s r, pc (CBestAsk e s r)) ->
  respects (tame pc) (get_best_price_for_order order : ST (World B) _).
Proof. intros H1 H2. unfold get_best_price_for_order. solve_tame. Qed.

Lemma chase_turn_tame config order m :
  respects (tame chaser_call) (chase_turn config order m : ST (World B) _).
Proof.
  unfold chase_turn. repeat (first [apply reprice_tame; cbn; auto | apply best_price_tame; cbn; auto
    | respects_step | progress solve_tame]).
Qed.

(** ** Repricing is a cancel followed by a place *)

(** The three outcomes: a failed cancel changes nothing else; a failed place
    leaves the old order cancelled and none in its stead; success replaces the
    order by one that differs only in price, id and creation time, and counts
    one repricing. *)
Theorem reprice_order_cases order price m (w : World B) :
  wp (reprice_order order price m) (fun r w' =>
    exists c : result unit string, match c with
    | Err e => w_calls w' = w_calls w ++ [CCancel (so_exchange order) (so_id order) (Err e)] /\
               r = Err ("Failed to cancel order: " +:+ e)
    | Ok _ => exists secs (p : result SimulatedOrder string),
        let new_order := set_so_created_at secs (set_so_id "" (set_so_price price order)) in
        w_calls w' = w_calls w ++ [CCancel (so_exchange order) (so_id order) (Ok tt); CPlace new_order p] /\
        match p with
        | Err e => r = Err ("Failed to place repriced order: " +:+ e)
        | Ok placed => exists e, r = Ok (placed, record_reprice e m) /\ re_new_price e = price
        end
    end) w.
Proof.
  unfold reprice_order. do 5 wp_step. destruct a0 as [[] | e]; cbn.
  - do 5 wp_step. destruct a1 as [placed | e]; cbn.
    + repeat wp_step. exists (Ok tt). eexists. exists (Ok placed). cbn.
      rewrite <- app_assoc. eauto.
    + exists (Ok tt). eexists. exists (Err e). cbn. rewrite <- app_assoc. eauto.
  - exists (Err e). auto.
Qed.
End properties.

(** The turn counts its repricings. *)
Definition placed_calls {B} (w : World B) : nat := count_calls is_limit_call w.

Lemma placed_calls_app {B} (w w' : World B) cs :
  w_calls w' = w_calls w ++ cs -> placed_calls w' = (placed_calls w + length (List.filter is_limit_call cs))%nat.
Proof. intros Hc. unfold placed_calls, count_calls. now rewrite Hc, List.filter_app, length_app. Qed.

Section chasing.
Context {B : Type} `{Backend B}.

(** What one turn leaves behind. *)
Definition turn_post (config : RepricingConfig) (order : SimulatedOrder) (m : RepricingMetrics)
  (w : World B) (r : result chase_outcome string) (w' : World B) : Prop :=
  match r with
  | Ok (ChaseDone o) => o = order /\ placed_calls w' = placed_calls w /\
      last (w_calls w') = Some (CStatus (so_exchange order) (so_id order) (Ok Filled))
  | Ok (ChaseNext o m') =>
      (o = order /\ m' = m /\ placed_calls w' = placed_calls w) \/
      (rm_reprice_count m < max_reprices config /\ placed_calls w' = S (placed_calls w) /\
       rm_reprice_count m' = wrap32 (rm_reprice_count m + 1))
  | Err _ => placed_calls w' = placed_calls w \/
      (rm_reprice_count m < max_reprices config /\ placed_calls w' = S (placed_calls w))
  end.

Lemma chase_turn_post config order m (w : World B) :
  wp (chase_turn config order m) (turn_post config order m w) w.
Proof.
  unfold chase_turn. do 3 wp_step. set (w1 := after_call _ _ _ _).
  assert (Hp1 : placed_calls w1 = placed_calls w)
    by (erewrite placed_calls_app by reflexivity; cbn; lia).
  destruct a as [st | e]; cbn [map_err]; [| now left].
  case_decide as Hst.
  { subst st. apply wp_ret. split; [reflexivity |]. split; [exact Hp1 |]. apply last_snoc. }
  destruct (Z.leb_spec (max_reprices config) (rm_reprice_count m)); [apply wp_ret; now left |].
  wp_step.
  eapply wp_mono with (P := fun r w2 => placed_calls w2 = placed_calls w).
  { unfold get_best_price_for_order. destruct (so_side order); do 2 wp_step; rewrite <- Hp1;
      erewrite placed_calls_app by reflexivity; cbn; lia. }
  intros [best | e] w2 Hp2; [| now left]. wp_step.
  eapply wp_mono with (P := fun r w3 => match r with
    | Ok (o, m') => (o = order /\ m' = m /\ placed_calls w3 = placed_calls w) \/
        (placed_calls w3 = S (placed_calls w) /\ rm_reprice_count m' = wrap32 (rm_reprice_count m + 1))
    | Err _ => placed_calls w3 = placed_calls w \/ placed_calls w3 = S (placed_calls w)
    end).
  { destruct (should_reprice _ _ _); [| apply wp_ret; auto].
    eapply wp_mono; [apply reprice_order_cases |]. intros r w3 [[[] | e] Hc].
    - destruct Hc as (secs & p & Hc & Hr).
      assert (Hn : placed_calls w3 = S (placed_calls w))
        by (rewrite (placed_calls_app _ _ _ Hc); cbn; lia).
      destruct p as [placed | e]; [destruct Hr as (ev & -> & _) | subst r]; auto.
    - destruct Hc as [Hc ->]. left. rewrite (placed_calls_app _ _ _ Hc). cbn. lia. }
  intros [[o m'] | e] w3 H3; [| destruct H3; [now left | right; auto]].
  do 2 wp_step. wp_step. cbn.
  destruct H3 as [? | [? ?]]; auto.
Qed.

(** The loop places at most as many orders as repricings are left. *)
Lemma chase_loop_bounded fuel config start timeout order m (w : World B) :
  0 <= rm_reprice_count m <= max_reprices config -> max_reprices config <= U32_MAX ->
  wp (chase_loop fuel config start timeout order m) (fun r w' =>
    Z.of_nat (placed_calls w') <=
      Z.of_nat (placed_calls w) + (max_reprices config - rm_reprice_count m) /\
    forall o, r = Some (Ok o) ->
      last (w_calls w') = Some (CStatus (so_exchange o) (so_id o) (Ok Filled))) w.
Proof.
  revert order m w. induction fuel as [| fuel IH]; intros order m w Hm Hu; cbn [chase_loop].
  { apply wp_ret. split; [lia | discriminate]. }
  do 2 wp_step. set (w0 := after_rt w b).
  assert (Hp0 : placed_calls w0 = placed_calls w) by reflexivity.
  destruct (a - start <? timeout); [| apply wp_ret; split; [lia | discriminate]].
  wp_step. eapply wp_mono; [apply chase_turn_post |].
  intros [[o | o m'] | e] w1 Ht; cbn beta iota delta [turn_post] in Ht.
  - destruct Ht as (-> & Hp & Hl). apply wp_ret. split; [lia |]. intros o' [= <-]. exact Hl.
  - assert (Hm' : 0 <= rm_reprice_count m' <= max_reprices config /\
      Z.of_nat (placed_calls w1) - rm_reprice_count m' <= Z.of_nat (placed_calls w) - rm_reprice_count m).
    { destruct Ht as [(_ & -> & Hp) | (Hlt & Hp & Hr)]; [lia |].
      unfold U32_MAX in Hu. rewrite wrap32_small in Hr by (unfold in_u32; lia). lia. }
    eapply wp_mono; [now apply IH |]. intros r w2 [Hb Hl]. split; [lia | exact Hl].
  - apply wp_ret. split; [destruct Ht as [-> | [? ->]]; lia | discriminate].
Qed.

(** With a preset configuration, [chase_until_filled] replaces the order at
    most five times however long it runs, and when it returns an order, the
    exchange has just reported that very order filled. *)
Theorem chase_bounded fuel config order timeout (w : World B) :
  max_reprices config = 5 ->
  wp (chase_until_filled fuel config order timeout) (fun r w' =>
    (placed_calls w' <= placed_calls w + 5)%nat /\
    forall o, r = Some (Ok o) ->
      last (w_calls w') = Some (CStatus (so_exchange o) (so_id o) (Ok Filled))) w.
Proof.
  intros H5. unfold chase_until_filled. do 2 wp_step.
  eapply wp_mono;
    [apply chase_loop_bounded; [rewrite H5; cbn; lia | rewrite H5; unfold U32_MAX; lia] |].
  intros r w' [Hb Hl]. split; [| exact Hl]. rewrite H5 in Hb.
  change (placed_calls (after_rt w b)) with (placed_calls w) in Hb.
  cbn [rm_reprice_count RepricingMetrics_new] in Hb. lia.
Qed.
End chasing.

(** ** Termination *)
Section termination.
Context {B : Type} `{BackendClock B}.

Lemma reprice_later order price m : respects later (reprice_order order price m : ST (World B) _).
Proof. unfold reprice_order. solve_later. Qed.

Lemma best_price_later order : respects later (get_best_price_for_order order : ST (World B) _).
Proof. unfold get_best_price_for_order. solve_later. Qed.

(** A turn that continues has slept for the interval. *)
Lemma chase_turn_time config order m (w : World B) :
  wp (chase_turn config order m) (fun r w' => match r with
    | Ok (ChaseNext _ _) =>
        b_now (w_backend w) + Z.max 0 (reprice_interval_ms config) * 1000000 <= b_now (w_backend w')
    | _ => True
    end) w.
Proof.
  unfold chase_turn. do 3 wp_step. pose proof (b_status_mono (so_exchange order) (so_id order) (w_backend w)) as Hnow1.
  rewrite E in Hnow1. cbn [snd] in Hnow1. destruct a as [st | e]; cbn [map_err]; [| exact I].
  case_decide; [apply wp_ret; exact I |]. destruct (_ <=? _); [apply wp_ret; exact I |].
  wp_step. apply (wp_respects later); [apply best_price_later |]. intros [best | e] w2 _ Hnow2; [| exact I].
  wp_step. apply (wp_respects later); [destruct (should_reprice _ _ _); [apply reprice_later | apply respects_ret; exact _] |].
  intros [[o m'] | e] w3 _ Hnow3; [| exact I]. do 2 wp_step. wp_step.
  pose proof (b_sleep_now (reprice_interval_ms config) (w_backend w3)) as Hnow4. rewrite E0 in Hnow4.
  unfold later in *. cbn in *. lia.
Qed.

Lemma chase_loop_terminates fuel config start timeout order m (w : World B) :
  0 < reprice_interval_ms config ->
  timeout - (b_now (w_backend w) - start) <= (Z.of_nat fuel - 1) * (reprice_interval_ms config * 1000000) ->
  (0 < fuel)%nat ->
  wp (chase_loop fuel config start timeout order m) (fun r _ => r <> None) w.
Proof.
  intros Hi. revert order m w. induction fuel as [| fuel IH]; intros order m w Hf Hpos; [lia |].
  cbn [chase_loop]. do 2 wp_step.
  destruct (b_instant_now (w_backend w)) as [Ha Hb]. rewrite E in Ha, Hb. cbn [fst snd] in Ha, Hb.
  destruct (Z.ltb_spec (a - start) timeout) as [Hlt | Hge]; [| apply wp_ret; discriminate].
  wp_step. eapply wp_mono; [apply chase_turn_time |].
  intros [[o | o m'] | e] w1 Ht; [apply wp_ret; discriminate | | apply wp_ret; discriminate].
  cbn [w_backend after_rt] in Ht. subst a. rewrite Nat2Z.inj_succ in Hf.
  apply IH; [nia |]. destruct fuel; [nia | lia].
Qed.

(** The loop ends: one turn per polling interval of the timeout, and one more,
    is fuel enough, whatever the exchange answers and however slowly. *)
Theorem chase_terminates config order timeout_ns fuel (w : World B) :
  0 < reprice_interval_ms config -> 0 <= timeout_ns ->
  timeout_ns <= (Z.of_nat fuel - 1) * (reprice_interval_ms config * 1000000) ->
  exists r, fst (chase_until_filled fuel config order timeout_ns w) = Some r.
Proof.
  intros Hi Ht Hf.
  enough (Hw : wp (chase_until_filled fuel config order timeout_ns) (fun r _ => r <> None) w).
  { unfold wp in Hw. destruct (chase_until_filled _ _ _ _ w) as [[r |] w']; [eauto | congruence]. }
  unfold chase_until_filled. do 2 wp_step.
  destruct (b_instant_now (w_backend w)) as [Ha Hb]. rewrite E in Ha, Hb. cbn [fst snd] in Ha, Hb.
  apply chase_loop_terminates; [exact Hi | | nia].
  cbn [w_backend after_rt]. subst a. lia.
Qed.
End termination.

(** ** On the paper backend *)
Section witness.
Definition paper_world : World PaperTradingBackend :=
  {| w_backend := PaperTradingBackend_new {[ "okx" := 1000.0%f64 ]}; w_hedge_locks := ∅;
     w_halted := false; w_calls := [] |}.

Definition paper_order : SimulatedOrder :=
  {| so_id := ""; so_exchange := "okx"; so_symbol := "BTCUSDT"; so_side := Long;
     so_order_type := Limit; so_price := 100.0%f64; so_size := 1.0%f64; so_queue_position := None;
     so_created_at := 0; so_filled_at := None; so_fill_price := None; so_status := Pending |}.

(** 3 s at 100 ms per turn: 31 turns. *)
Lemma chase_terminates_witness :
  exists r, fst (chase_until_filled 31 safe paper_order (3000 * 1000000) paper_world) = Some r.
Proof. apply (chase_terminates safe paper_order (3000 * 1000000) 31 paper_world); cbn; lia. Defined.

Lemma chase_bounded_witness :
  let w' := snd (chase_until_filled 31 safe paper_order (3000 * 1000000) paper_world) in
  (placed_calls w' <= 5)%nat.
Proof.
  pose proof (chase_bounded 31 safe paper_order (3000 * 1000000) paper_world eq_refl) as Hb.
  unfold wp in Hb. destruct (chase_until_filled _ _ _ _ _) as [r w']. exact (proj1 Hb).
Defined.
End witness.
