(* ===== verification/ScriptedBackend.v ===== *)
(** A backend that answers from a script, for the concrete runs of the
    execution code: each method takes the next answer of its own list and
    fails once the list is used up.  Orders it accepts come back with a fresh
    id.  It is not part of the program. *)
From Stdlib Require Import ZArith Lia Bool.
From stdpp Require Import base option list gmap strings pretty.
From S2P Require Import Prelude Float64 Types Backend.

#[local] Open Scope Z_scope.

Record Script := {
  sc_leverage : list (result unit string);
  sc_place : list (result unit string);
  sc_market : list (result unit string);
  sc_cancel : list (result unit string);
  sc_status : list (result OrderStatus string);
  sc_detailed : list (result OrderStatusInfo string);
  sc_balance : list (result f64 string);
  sc_depth : list (result OrderBookDepth string);
  sc_bid : list (result f64 string);
  sc_ask : list (result f64 string);
  sc_now : Z;
  sc_ids : N;
  sc_name : string
}.

Definition empty_script : Script :=
  {| sc_leverage := []; sc_place := []; sc_market := []; sc_cancel := []; sc_status := [];
     sc_detailed := []; sc_balance := []; sc_depth := []; sc_bid := []; sc_ask := [];
     sc_now := 0; sc_ids := 0; sc_name := "Scripted" |}.

(** The same script under the name of a real backend. *)
Definition as_demo (s : Script) : Script :=
  {| sc_leverage := sc_leverage s; sc_place := sc_place s; sc_market := sc_market s;
     sc_cancel := sc_cancel s; sc_status := sc_status s; sc_detailed := sc_detailed s;
     sc_balance := sc_balance s; sc_depth := sc_depth s; sc_bid := sc_bid s; sc_ask := sc_ask s;
     sc_now := sc_now s; sc_ids := sc_ids s; sc_name := "Demo" |}.

(** The next answer of a script, and the rest. *)
Definition next {A} (l : list (result A string)) : result A string * list (result A string) :=
  match l with [] => (Err "script exhausted"%string, []) | a :: l => (a, l) end.

Definition sc_with (s : Script) lev pl mk ca st de ba dp bi ak now ids : Script :=
  {| sc_leverage := lev; sc_place := pl; sc_market := mk; sc_cancel := ca; sc_status := st;
     sc_detailed := de; sc_balance := ba; sc_depth := dp; sc_bid := bi; sc_ask := ak;
     sc_now := now; sc_ids := ids; sc_name := sc_name s |}.

Definition script_id (n : N) : string := ("order-" +:+ pretty n)%string.

(** An accepted order comes back with a fresh id. *)
Definition accept (o : SimulatedOrder) (n : N) (r : result unit string)
  : result SimulatedOrder string :=
  match r with Ok _ => Ok (set_so_id (script_id n) o) | Err e => Err e end.

#[export] Instance scripted_backend : Backend Script := {
  b_set_leverage _ _ _ s :=
    let '(r, l) := next (sc_leverage s) in
    (r, sc_with s l (sc_place s) (sc_market s) (sc_cancel s) (sc_status s) (sc_detailed s)
          (sc_balance s) (sc_depth s) (sc_bid s) (sc_ask s) (sc_now s) (sc_ids s));
  b_set_margin_type_isolated _ _ s := (Ok tt, s);
  b_place_order o s :=
    let '(r, l) := next (sc_place s) in
    (accept o (sc_ids s) r,
     sc_with s (sc_leverage s) l (sc_market s) (sc_cancel s) (sc_status s) (sc_detailed s)
       (sc_balance s) (sc_depth s) (sc_bid s) (sc_ask s) (sc_now s) (N.succ (sc_ids s)));
  b_place_market_order o s :=
    let '(r, l) := next (sc_market s) in
    (accept o (sc_ids s) r,
     sc_with s (sc_leverage s) (sc_place s) l (sc_cancel s) (sc_status s) (sc_detailed s)
       (sc_balance s) (sc_depth s) (sc_bid s) (sc_ask s) (sc_now s) (N.succ (sc_ids s)));
  b_cancel_order _ _ s :=
    let '(r, l) := next (sc_cancel s) in
    (r, sc_with s (sc_leverage s) (sc_place s) (sc_market s) l (sc_status s) (sc_detailed s)
          (sc_balance s) (sc_depth s) (sc_bid s) (sc_ask s) (sc_now s) (sc_ids s));
  b_get_order_status _ _ s :=
    let '(r, l) := next (sc_status s) in
    (r, sc_with s (sc_leverage s) (sc_place s) (sc_market s) (sc_cancel s) l (sc_detailed s)
          (sc_balance s) (sc_depth s) (sc_bid s) (sc_ask s) (sc_now s) (sc_ids s));
  b_get_order_status_detailed _ _ _ s :=
    let '(r, l) := next (sc_detailed s) in
    (r, sc_with s (sc_leverage s) (sc_place s) (sc_market s) (sc_cancel s) (sc_status s) l
          (sc_balance s) (sc_depth s) (sc_bid s) (sc_ask s) (sc_now s) (sc_ids s));
  b_get_available_balance _ s :=
    let '(r, l) := next (sc_balance s) in
    (r, sc_with s (sc_leverage s) (sc_place s) (sc_market s) (sc_cancel s) (sc_status s)
          (sc_detailed s) l (sc_depth s) (sc_bid s) (sc_ask s) (sc_now s) (sc_ids s));
  b_get_all_balances s := (Ok ∅, s);
  b_is_symbol_tradeable _ _ s := (Ok true, s);
  b_get_order_book_depth _ _ _ s :=
    let '(r, l) := next (sc_depth s) in
    (r, sc_with s (sc_leverage s) (sc_place s) (sc_market s) (sc_cancel s) (sc_status s)
          (sc_detailed s) (sc_balance s) l (sc_bid s) (sc_ask s) (sc_now s) (sc_ids s));
  b_get_best_bid _ _ s :=
    let '(r, l) := next (sc_bid s) in
    (r, sc_with s (sc_leverage s) (sc_place s) (sc_market s) (sc_cancel s) (sc_status s)
          (sc_detailed s) (sc_balance s) (sc_depth s) l (sc_ask s) (sc_now s) (sc_ids s));
  b_get_best_ask _ _ s :=
    let '(r, l) := next (sc_ask s) in
    (r, sc_with s (sc_leverage s) (sc_place s) (sc_market s) (sc_cancel s) (sc_status s)
          (sc_detailed s) (sc_balance s) (sc_depth s) (sc_bid s) l (sc_now s) (sc_ids s));
  b_backend_name := sc_name;
  b_get_quantity_step _ _ s := (Ok 0.1%f64, s);
  b_instant s := (sc_now s, s);
  b_unix_secs s := (sc_now s / 1000000000, s);
  b_sleep_ms ms s :=
    (tt, sc_with s (sc_leverage s) (sc_place s) (sc_market s) (sc_cancel s) (sc_status s)
           (sc_detailed s) (sc_balance s) (sc_depth s) (sc_bid s) (sc_ask s)
           (sc_now s + Z.max 0 ms * 1000000) (sc_ids s));
  b_new_uuid s :=
    (script_id (sc_ids s),
     sc_with s (sc_leverage s) (sc_place s) (sc_market s) (sc_cancel s) (sc_status s)
       (sc_detailed s) (sc_balance s) (sc_depth s) (sc_bid s) (sc_ask s) (sc_now s)
       (N.succ (sc_ids s)))
}.

#[export] Instance scripted_backend_clock : BackendClock Script.
Proof.
  refine {| b_now := sc_now |}; cbn; intros; try lia;
    repeat match goal with |- context [next ?l] => destruct (next l) end; cbn; lia.
Defined.

Definition script_world (s : Script) : World Script :=
  {| w_backend := s; w_hedge_locks := ∅; w_halted := false; w_calls := [] |}.

Definition status_info (st : OrderStatus) (filled total : f64) : OrderStatusInfo :=
  {| osi_status := st; osi_filled_quantity := filled; osi_total_quantity := total |}.
