(* ===== verification/AtomicExecution.v ===== *)
(** The execution primitives of [src/src/strategy/atomic_execution.rs]: the
    hedge timing metrics, the hedge locks and the status check of the race
    condition guard, the market order placer, the trading halt, the simulated
    dual-leg executor and the negative-funding tracker.

    [HedgeLogger] only prints and is left out.  The hedge-lock mutex is never
    poisoned (no code panics while holding it), so taking it does not fail. *)
From Stdlib Require Import ZArith Lia Bool.
From stdpp Require Import base option list gmap strings pretty.
From S2P Require Import Prelude Float64 Types Backend ScriptedBackend.

#[local] Open Scope Z_scope.

(** ** Hedge timing metrics; an [Instant] is in nanoseconds. *)
Record HedgeTimingMetrics := {
  fill_detected_at : option Z;
  other_leg_check_at : option Z;
  cancel_initiated_at : option Z;
  cancel_completed_at : option Z;
  market_order_initiated_at : option Z;
  market_order_accepted_at : option Z;
  market_order_filled_at : option Z;
  total_hedge_duration : option Z;
  depth_check_initiated_at : option Z;
  depth_check_completed_at : option Z;
  reprice_count : Z;
  first_reprice_at : option Z;
  last_reprice_at : option Z;
  api_response_times : list (string * Z)
}.

Definition HedgeTimingMetrics_new (now : Z) : HedgeTimingMetrics :=
  {| fill_detected_at := Some now; other_leg_check_at := None; cancel_initiated_at := None;
     cancel_completed_at := None; market_order_initiated_at := None;
     market_order_accepted_at := None; market_order_filled_at := None;
     total_hedge_duration := None; depth_check_initiated_at := None;
     depth_check_completed_at := None; reprice_count := 0; first_reprice_at := None;
     last_reprice_at := None; api_response_times := [] |}.

(** [self.first_reprice_at.is_none()] decides the first time stamp. *)
Definition record_reprice (now : Z) (m : HedgeTimingMetrics) : HedgeTimingMetrics :=
  {| fill_detected_at := fill_detected_at m; other_leg_check_at := other_leg_check_at m;
     cancel_initiated_at := cancel_initiated_at m; cancel_completed_at := cancel_completed_at m;
     market_order_initiated_at := market_order_initiated_at m;
     market_order_accepted_at := market_order_accepted_at m;
     market_order_filled_at := market_order_filled_at m;
     total_hedge_duration := total_hedge_duration m;
     depth_check_initiated_at := depth_check_initiated_at m;
     depth_check_completed_at := depth_check_completed_at m;
     reprice_count := wrap32 (reprice_count m + 1);
     first_reprice_at := match first_reprice_at m with None => Some now | f => f end;
     last_reprice_at := Some now; api_response_times := api_response_times m |}.

Definition record_api_response (endpoint : string) (duration : Z) (m : HedgeTimingMetrics)
  : HedgeTimingMetrics :=
  {| fill_detected_at := fill_detected_at m; other_leg_check_at := other_leg_check_at m;
     cancel_initiated_at := cancel_initiated_at m; cancel_completed_at := cancel_completed_at m;
     market_order_initiated_at := market_order_initiated_at m;
     market_order_accepted_at := market_order_accepted_at m;
     market_order_filled_at := market_order_filled_at m;
     total_hedge_duration := total_hedge_duration m;
     depth_check_initiated_at := depth_check_initiated_at m;
     depth_check_completed_at := depth_check_completed_at m;
     reprice_count := reprice_count m; first_reprice_at := first_reprice_at m;
     last_reprice_at := last_reprice_at m;
     api_response_times := api_response_times m ++ [(endpoint, duration)] |}.

(** [duration_since] saturates at zero. *)
Definition between (from to : option Z) : option Z :=
  match from, to with Some a, Some b => Some (Z.max 0 (b - a)) | _, _ => None end.

Definition fill_to_other_leg_check (m : HedgeTimingMetrics) : option Z :=
  between (fill_detected_at m) (other_leg_check_at m).
Definition fill_to_cancel_initiated (m : HedgeTimingMetrics) : option Z :=
  between (fill_detected_at m) (cancel_initiated_at m).
Definition cancel_duration (m : HedgeTimingMetrics) : option Z :=
  between (cancel_initiated_at m) (cancel_completed_at m).
Definition cancel_to_market_order (m : HedgeTimingMetrics) : option Z :=
  between (cancel_completed_at m) (market_order_initiated_at m).
Definition market_order_acceptance_duration (m : HedgeTimingMetrics) : option Z :=
  between (market_order_initiated_at m) (market_order_accepted_at m).
Definition market_order_fill_duration (m : HedgeTimingMetrics) : option Z :=
  between (market_order_accepted_at m) (market_order_filled_at m).
Definition depth_check_duration (m : HedgeTimingMetrics) : option Z :=
  between (depth_check_initiated_at m) (depth_check_completed_at m).
Definition total_reprice_duration (m : HedgeTimingMetrics) : option Z :=
  between (first_reprice_at m) (last_reprice_at m).

(** ** Hedge locks *)
Definition try_acquire (symbol : string) (locks : gset string) : option (gset string) :=
  if decide (symbol ∈ locks) then None else Some ({[symbol]} ∪ locks).
Definition drop_lock (symbol : string) (locks : gset string) : gset string := locks ∖ {[symbol]}.

Inductive BothLegsStatus :=
| BothFilled (long_qty short_qty : f64)
| OnlyLongFilled (long_qty : f64)
| OnlyShortFilled (short_qty : f64)
| NeitherFilled.

Section primitives.
Context {B : Type} `{Backend B}.

(** Runs [body] under the hedge lock of [symbol]; the guard releases the lock
    when it goes out of scope, whatever [body] answers.  [on_busy] is the
    error of a lock that is already held. *)
Definition with_hedge_lock {A E} (symbol : string) (on_busy : string -> E)
  (body : ST (World B) (result A E)) : ST (World B) (result A E) := fun w =>
  match try_acquire symbol (w_hedge_locks w) with
  | None => (Err (on_busy ("Hedge lock already held for " +:+ symbol)), w)
  | Some locks =>
      let '(r, w) := body (set_hedge_locks locks w) in
      (r, set_hedge_locks (drop_lock symbol (w_hedge_locks w)) w)
  end.

(** ** The status check *)
Definition check_both_legs_status (long_order short_order : SimulatedOrder)
  : ST (World B) (result BothLegsStatus string) :=
  (let! rs := join
     (get_order_status_detailed (so_exchange long_order) (so_id long_order) (so_symbol long_order))
     (get_order_status_detailed (so_exchange short_order) (so_id short_order) (so_symbol short_order)) in
   let? long_status := mapE (fun e => "Failed to get long order status: " +:+ e) (ret (fst rs)) in
   let? short_status := mapE (fun e => "Failed to get short order status: " +:+ e) (ret (snd rs)) in
   let long_filled := is_fully_filled long_status in
   let short_filled := is_fully_filled short_status in
   ret (Ok match long_filled, short_filled with
           | true, true => BothFilled (osi_filled_quantity long_status) (osi_filled_quantity short_status)
           | true, false => OnlyLongFilled (osi_filled_quantity long_status)
           | false, true => OnlyShortFilled (osi_filled_quantity short_status)
           | false, false => NeitherFilled
           end))%st.

(** ** The market order placer

    The [while] loop with [remaining] attempts left; [attempts] have been made. *)
Fixpoint place_attempts (remaining : nat) (attempts : Z) (order current_order : SimulatedOrder)
  (metrics : HedgeTimingMetrics) : ST (World B) (result SimulatedOrder string * HedgeTimingMetrics) :=
  match remaining with
  | O => ret (Err ("Failed to place order after " +:+ pretty attempts +:+ " attempts"), metrics)
  | S remaining =>
      (let attempts := attempts + 1 in
       let! start := instant_now in
       let! result := place_market_order current_order in
       let! now := instant_now in
       let metrics := record_api_response
         ("place_market_order_attempt_" +:+ pretty attempts) (now - start) metrics in
       match result with
       | Ok placed_order =>
           let! status_start := instant_now in
           let! status_result := get_order_status_detailed (so_exchange placed_order)
                                   (so_id placed_order) (so_symbol order) in
           let! status_now := instant_now in
           let metrics := record_api_response
             ("get_order_status_attempt_" +:+ pretty attempts) (status_now - status_start) metrics in
           let filled := match status_result with
                         | Ok status_info => bool_decide (osi_status status_info = Filled)
                         | Err _ => false
                         end in
           if filled then ret (Ok placed_order, metrics)
           else if (0 <? remaining)%nat then
             do! sleep_ms 100 in
             place_attempts remaining attempts order order metrics
           else ret (Ok placed_order, metrics)
       | Err e =>
           if (remaining =? 0)%nat then
             ret (Err ("Failed after " +:+ pretty attempts +:+ " attempts: " +:+ e), metrics)
           else
             do! sleep_ms 100 in
             place_attempts remaining attempts order current_order metrics
       end)%st
  end.

Definition place_with_retry (order : SimulatedOrder) (_target_quantity : f64) (max_retries : nat)
  (metrics : HedgeTimingMetrics) : ST (World B) (result SimulatedOrder string * HedgeTimingMetrics) :=
  place_attempts max_retries 0 order order metrics.

(** ** Trading halt *)
Definition halt_trading (_reason : string) : ST (World B) unit := modify (set_halted true).
Definition resume_trading : ST (World B) unit := modify (set_halted false).
Definition is_trading_halted : ST (World B) bool := fun w => (w_halted w, w).
End primitives.

(** ** The simulated dual-leg executor *)
Definition create_market_order (id : string) (now : Z) (exchange symbol : string) (side : OrderSide)
  (price size : f64) : SimulatedOrder :=
  {| so_id := id; so_exchange := exchange; so_symbol := symbol; so_side := side;
     so_order_type := Market; so_price := price; so_size := size; so_queue_position := None;
     so_created_at := now; so_filled_at := None; so_fill_price := None; so_status := Pending |}.

Record AtomicExecutionResult := {
  ar_long_order : SimulatedOrder;
  ar_short_order : SimulatedOrder;
  ar_both_filled : bool;
  ar_error : option (bool * bool)   (* the two flags its message prints *)
}.

(** [nanos] is the second clock reading, the one that decides the outcome; the
    first only sets the length of the sleep. *)
Definition execute_order_on_exchange (nanos : Z) (order : SimulatedOrder)
  : result SimulatedOrder string :=
  let success_rate := nanos mod 100 in
  if success_rate <? 99 then Ok order else Err "Exchange API timeout"%string.

Definition opposite (s : OrderSide) : OrderSide := match s with Long => Short | Short => Long end.

Definition reverse_order (id : string) (now nanos : Z) (order : SimulatedOrder)
  : result unit string :=
  let reverse_order := create_market_order id now (so_exchange order) (so_symbol order)
    (opposite (so_side order)) (so_price order) (so_size order) in
  match execute_order_on_exchange nanos reverse_order with
  | Ok _ => Ok tt
  | Err e => Err e
  end.

(** Readings: [ids]/[now] for the orders created, [t1], [t2] for the legs and
    [t3], [t4] for the reversals.  The second component lists the reversals
    made with their outcomes, which the code discards with [.ok()]. *)
Definition execute_dual_leg (id1 id2 id3 id4 : string) (now t1 t2 t3 t4 : Z)
  (symbol long_exchange short_exchange : string) (long_price short_price position_size : f64)
  : AtomicExecutionResult * list (SimulatedOrder * result unit string) :=
  let long_order := create_market_order id1 now long_exchange symbol Long long_price position_size in
  let short_order := create_market_order id2 now short_exchange symbol Short short_price position_size in
  let long_filled := is_ok (execute_order_on_exchange t1 long_order) in
  let short_filled := is_ok (execute_order_on_exchange t2 short_order) in
  if negb long_filled || negb short_filled then
    ({| ar_long_order := long_order; ar_short_order := short_order; ar_both_filled := false;
        ar_error := Some (long_filled, short_filled) |},
     (if long_filled then [(long_order, reverse_order id3 now t3 long_order)] else []) ++
     (if short_filled then [(short_order, reverse_order id4 now t4 short_order)] else []))
  else
    ({| ar_long_order := long_order; ar_short_order := short_order; ar_both_filled := true;
        ar_error := None |}, []).

(** ** The negative-funding tracker *)
Record NegativeFundingTracker := {
  nt_symbol : string;
  nt_consecutive_negative_cycles : Z;
  nt_last_funding_rate : f64
}.

Definition NegativeFundingTracker_new (symbol : string) : NegativeFundingTracker :=
  {| nt_symbol := symbol; nt_consecutive_negative_cycles := 0; nt_last_funding_rate := 0.0%f64 |}.

Definition update_funding (funding_rate : f64) (t : NegativeFundingTracker)
  : bool * NegativeFundingTracker :=
  let cycles := if (funding_rate <? 0.0%f64)%F
                then wrap32 (nt_consecutive_negative_cycles t + 1) else 0 in
  (2 <=? cycles, {| nt_symbol := nt_symbol t; nt_consecutive_negative_cycles := cycles;
                    nt_last_funding_rate := funding_rate |}).

Definition should_exit (t : NegativeFundingTracker) : bool :=
  2 <=? nt_consecutive_negative_cycles t.

Definition tracker_reset (t : NegativeFundingTracker) : NegativeFundingTracker :=
  {| nt_symbol := nt_symbol t; nt_consecutive_negative_cycles := 0; nt_last_funding_rate := 0.0%f64 |}.

(** ** The placer *)
Section placer.
Context {B : Type} `{Backend B}.

(** What the placer did: it made at most [n] market orders, all of them
    [order] itself, and asked for statuses. *)
Definition placer_call (order : SimulatedOrder) (c : call) : Prop :=
  match c with CMarket o _ => o = order | CDetailed _ _ _ _ => True | _ => False end.

Definition markets (cs : list call) : nat := length (List.filter is_market_call cs).

Definition placer_post (n : nat) (order : SimulatedOrder) (w : World B)
  (r : result SimulatedOrder string) (w' : World B) : Prop :=
  exists cs, w_calls w' = w_calls w ++ cs /\ Forall (placer_call order) cs /\
    (markets cs <= n)%nat /\
    match r with
    | Ok placed => CMarket order (Ok placed) ∈ cs /\
        ((exists info, last cs = Some (CDetailed (so_exchange placed) (so_id placed)
                                        (so_symbol order) (Ok info)) /\ osi_status info = Filled) \/
         markets cs = n)
    | Err _ => markets cs = n
    end.

Lemma markets_app a b : markets (a ++ b) = (markets a + markets b)%nat.
Proof. unfold markets. now rewrite List.filter_app, length_app. Qed.

(** Prepending the calls of an attempt that goes on. *)
Lemma placer_post_more n order (w w1 : World B) cs r w' :
  w_calls w1 = w_calls w ++ cs -> Forall (placer_call order) cs -> markets cs = 1%nat ->
  placer_post n order w1 r w' -> placer_post (S n) order w r w'.
Proof.
  intros Hc Hf Hm (cs' & Hc' & Hf' & Hle & Hr). exists (cs ++ cs').
  rewrite Hc', Hc, app_assoc. split; [reflexivity |]. split; [now apply Forall_app |].
  rewrite markets_app, Hm. split; [lia |].
  destruct r as [placed | e]; [| lia]. destruct Hr as (Hin & Hl).
  split; [apply elem_of_app; auto |]. destruct Hl as [(info & Hl & Hs) | Hl]; [left | lia].
  exists info. split; [| exact Hs]. now rewrite last_app, Hl.
Qed.

Lemma place_attempts_post n att order m (w : World B) :
  wp (place_attempts n att order order m) (fun '(r, _) w' => placer_post n order w r w') w.
Proof.
  revert att m w. induction n as [| n IH]; intros att m w; cbn [place_attempts].
  { apply wp_ret. exists []. rewrite app_nil_r. repeat split; constructor. }
  cbv zeta. do 6 wp_step. destruct a0 as [placed | e].
  - do 6 wp_step. set (c1 := CMarket order (Ok placed)).
    set (c2 := CDetailed (so_exchange placed) (so_id placed) (so_symbol order) a2).
    match goal with |- wp (if ?b then _ else _) _ _ => destruct b eqn:Hfill end.
    + apply wp_ret. exists [c1; c2]. cbn. rewrite <- app_assoc.
      split; [reflexivity |]. split; [repeat constructor |]. split; [lia |].
      split; [constructor |]. left.
      destruct a2 as [info | e]; [| discriminate]. apply bool_decide_eq_true in Hfill. eauto.
    + destruct (Nat.ltb_spec 0 n).
      * do 2 wp_step. eapply wp_mono; [apply IH |]. intros [r m'] w'.
        apply (placer_post_more n order _ _ [c1; c2]); [| repeat constructor | reflexivity].
        cbn. now rewrite <- app_assoc.
      * apply wp_ret. exists [c1; c2]. cbn. rewrite <- app_assoc.
        split; [reflexivity |]. split; [repeat constructor |]. split; [lia |].
        split; [constructor |]. right. unfold markets. cbn. lia.
  - set (c1 := CMarket order (Err e)). destruct (Nat.eqb_spec n 0) as [-> | Hn].
    + apply wp_ret. exists [c1]. cbn. split; [reflexivity |]. repeat constructor.
    + do 2 wp_step. eapply wp_mono; [apply IH |]. intros [r m'] w'.
      apply (placer_post_more n order _ _ [c1]); [reflexivity | repeat constructor | reflexivity].
Qed.

(** The placer makes at most [max_retries] market orders, each for the whole
    order; an answer [Ok] is an order the exchange accepted, but it is reported
    filled only when the last call says so: after the last attempt an order
    whose fill was never seen is also answered [Ok]. *)
Theorem place_with_retry_spec order q n m (w : World B) :
  wp (place_with_retry order q n m) (fun '(r, _) w' => placer_post n order w r w') w.
Proof. apply place_attempts_post. Qed.

Lemma place_with_retry_tame order q n m :
  respects (tame (placer_call order)) (place_with_retry order q n m : ST (World B) _).
Proof.
  unfold place_with_retry. generalize 0 as att. revert m.
  induction n as [| n IH]; intros m att; cbn [place_attempts]; [solve_tame |].
  cbv zeta. repeat first [apply IH | progress solve_tame].
Qed.
End placer.

(** An order that never fills is placed ten times over, each time for its full
    size, and the placer still answers [Ok]. *)
Theorem unfilled_order_answered_ok :
  exists (s : Script) (order placed : SimulatedOrder) m w',
    place_with_retry order 1.0%f64 10 (HedgeTimingMetrics_new 0) (script_world s) = ((Ok placed, m), w') /\
    count_calls is_market_call w' = 10%nat /\
    Forall (fun c => match c with CDetailed _ _ _ (Ok i) => osi_status i = Pending | _ => True end)
      (w_calls w').
Proof.
  set (s := sc_with empty_script [] [] (replicate 10 (Ok tt)) []  []
              (replicate 10 (Ok (status_info Pending 0.0%f64 1.0%f64))) [] [] [] [] 0 0%N).
  exists s, (create_market_order "close" 0 "okx" "BTCUSDT" Short 100.0%f64 1.0%f64).
  eexists _, _, _. split; [vm_compute; reflexivity |]. split; [reflexivity |].
  repeat constructor.
Qed.

(** ** The status check *)
Section check.
Context {B : Type} `{Backend B}.

(** The classification agrees with the two answers: a leg counts as filled
    only when its status is Filled and its filled quantity reaches the total. *)
Lemma check_both_legs_spec lo so (w : World B) :
  wp (check_both_legs_status lo so) (fun r w' =>
    exists rl rs : result OrderStatusInfo string,
      w_calls w' = w_calls w ++ [CDetailed (so_exchange lo) (so_id lo) (so_symbol lo) rl;
                                 CDetailed (so_exchange so) (so_id so) (so_symbol so) rs] /\
      match rl, rs with
      | Ok i1, Ok i2 =>
          r = Ok match is_fully_filled i1, is_fully_filled i2 with
                 | true, true => BothFilled (osi_filled_quantity i1) (osi_filled_quantity i2)
                 | true, false => OnlyLongFilled (osi_filled_quantity i1)
                 | false, true => OnlyShortFilled (osi_filled_quantity i2)
                 | false, false => NeitherFilled
                 end
      | Err e, _ => r = Err ("Failed to get long order status: " +:+ e)
      | Ok _, Err e => r = Err ("Failed to get short order status: " +:+ e)
      end) w.
Proof.
  unfold check_both_legs_status. do 4 wp_step. do 3 wp_step.
  destruct a as [i1 | e]; cbn.
  - do 3 wp_step. destruct a0 as [i2 | e]; cbn.
    + exists (Ok i1), (Ok i2). cbn. rewrite <- app_assoc. auto.
    + exists (Ok i1), (Err e). cbn. rewrite <- app_assoc. auto.
  - exists (Err e), a0. cbn. rewrite <- app_assoc. auto.
Qed.

Lemma check_both_legs_tame lo so (pc : call -> Prop) :
  (forall e i s r, pc (CDetailed e i s r)) ->
  respects (tame pc) (check_both_legs_status lo so : ST (World B) _).
Proof. intros Hp. unfold check_both_legs_status. solve_tame. Qed.
End check.

(** ** Locks *)
Section with_lock.
Context {B : Type} `{Backend B}.

(** The guard: a held lock refuses the body without touching the world; a free
    one is held while the body runs and is free again afterwards, on every
    path out of the body. *)
Lemma with_hedge_lock_cases {A E} symbol (on_busy : string -> E)
  (body : ST (World B) (result A E)) (w : World B) :
  (forall w, w_hedge_locks (snd (body w)) = w_hedge_locks w) ->
  let '(r, w') := with_hedge_lock symbol on_busy body w in
  w_hedge_locks w' = w_hedge_locks w /\
  (symbol ∈ w_hedge_locks w ->
     r = Err (on_busy ("Hedge lock already held for " +:+ symbol)) /\ w' = w).
Proof.
  intros Hbody. unfold with_hedge_lock, try_acquire.
  destruct (decide (symbol ∈ w_hedge_locks w)) as [Hin | Hin]; [auto |].
  specialize (Hbody (set_hedge_locks ({[symbol]} ∪ w_hedge_locks w) w)).
  destruct (body _) as [r w1]. cbn in *. rewrite Hbody. split; [| tauto].
  unfold drop_lock. apply set_eq. intros x. rewrite elem_of_difference, elem_of_union, elem_of_singleton.
  split; [tauto |]. intros Hx. split; [auto |]. intros ->. contradiction.
Qed.
End with_lock.

(** Tasks that take and drop hedge locks: each entry is the symbol a task holds. *)
Inductive lock_step : list (option string) * gset string -> list (option string) * gset string -> Prop :=
| lock_acquire i sym tasks locks locks' :
    tasks !! i = Some None -> try_acquire sym locks = Some locks' ->
    lock_step (tasks, locks) (<[i := Some sym]> tasks, locks')
| lock_release i sym tasks locks :
    tasks !! i = Some (Some sym) ->
    lock_step (tasks, locks) (<[i := None]> tasks, drop_lock sym locks).

Definition lock_inv (s : list (option string) * gset string) : Prop :=
  (forall i j sym, s.1 !! i = Some (Some sym) -> s.1 !! j = Some (Some sym) -> i = j) /\
  (forall sym, sym ∈ s.2 <-> exists i, s.1 !! i = Some (Some sym)).

Lemma lock_step_inv s s' : lock_step s s' -> lock_inv s -> lock_inv s'.
Proof.
  intros Hs [Hu Hl]. destruct Hs as [i sym tasks locks locks' Hi Ha | i sym tasks locks Hi];
    cbn [fst snd] in *; unfold lock_inv; cbn [fst snd];
    assert (Hlt : (i < length tasks)%nat) by eauto using lookup_lt_Some.
  - unfold try_acquire in Ha. case_decide as Hin; [discriminate |]. injection Ha as <-.
    assert (Hfree : forall j, tasks !! j <> Some (Some sym)) by (intros j Hj; apply Hin, Hl; eauto).
    split.
    + intros j k sym' Hj Hk. insert_cases Hi; eauto; exfalso; eapply Hfree; eauto.
    + intros sym'. rewrite elem_of_union, elem_of_singleton, Hl. split.
      * intros [-> | (j & Hj)]; [exists i; now apply list_lookup_insert_eq |].
        exists j. rewrite list_lookup_insert_ne; congruence.
      * intros (j & Hj). insert_cases Hi; eauto.
  - split.
    + intros j k sym' Hj Hk. insert_cases Hi. eauto.
    + intros sym'. unfold drop_lock. rewrite elem_of_difference, elem_of_singleton, Hl. split.
      * intros ((j & Hj) & Hne). exists j. rewrite list_lookup_insert_ne; congruence.
      * intros (j & Hj). insert_cases Hi. split; [eauto |]. intros ->. eauto.
Qed.

(** At most one task holds the hedge lock of a symbol, and the lock set is
    exactly the set of symbols held: no lock outlives its holder. *)
Theorem hedge_lock_mutex n s :
  star lock_step (replicate n None, ∅) s -> lock_inv s.
Proof.
  apply star_invariant; [| eauto using lock_step_inv].
  split; cbn; [intros i j sym [? ?]%lookup_replicate; congruence |].
  intros sym. split; [set_solver |]. intros (i & [? ?]%lookup_replicate). congruence.
Qed.

Lemma hedge_lock_mutex_witness :
  lock_inv ([Some "BTCUSDT"%string; None], {["BTCUSDT"%string]} ∪ ∅).
Proof.
  apply (hedge_lock_mutex 2). eapply star_step; [apply star_refl |].
  exact (lock_acquire 0 "BTCUSDT" [None; None] ∅ _ eq_refl eq_refl).
Defined.

(** ** The dual-leg executor *)

(** Success is both legs succeeding; otherwise exactly the filled legs are
    reversed, with the opposite side and the same size. *)
Lemma execute_dual_leg_spec id1 id2 id3 id4 now t1 t2 t3 t4 sym le se lp sp size :
  let '(r, reversals) := execute_dual_leg id1 id2 id3 id4 now t1 t2 t3 t4 sym le se lp sp size in
  let long_ok := t1 mod 100 <? 99 in
  let short_ok := t2 mod 100 <? 99 in
  ar_both_filled r = (long_ok && short_ok)%bool /\
  ar_error r = (if long_ok && short_ok then None else Some (long_ok, short_ok))%bool /\
  fst <$> reversals =
    (if long_ok && short_ok then []
     else (if long_ok then [ar_long_order r] else []) ++ (if short_ok then [ar_short_order r] else []))%bool.
Proof.
  unfold execute_dual_leg, execute_order_on_exchange.
  destruct (t1 mod 100 <? 99), (t2 mod 100 <? 99); cbn; auto.
Qed.

(** A failed reversal goes unreported: the answer is the same whether the
    filled leg was closed or is still open. *)
Theorem failed_reversal_unreported :
  let run t3 := execute_dual_leg "a" "b" "c" "d" 0 0 99 t3 0 "BTCUSDT" "okx" "bybit"
                  100.0%f64 101.0%f64 1.0%f64 in
  fst (run 0) = fst (run 99) /\
  snd <$> snd (run 0) = [Ok tt] /\ snd <$> snd (run 99) = [Err "Exchange API timeout"%string].
Proof. repeat split; reflexivity. Qed.

(** ** The negative-funding tracker *)
Definition track (rates : list f64) (t : NegativeFundingTracker) : NegativeFundingTracker :=
  fold_left (fun t r => snd (update_funding r t)) rates t.

(** The length of the run of negative rates at the end of a history, given the
    run before it. *)
Fixpoint trailing_negative (rates : list f64) (before : Z) : Z :=
  match rates with
  | [] => before
  | r :: rates => trailing_negative rates (if (r <? 0.0%f64)%F then before + 1 else 0)
  end.

Lemma trailing_negative_bounds rates n :
  0 <= n -> 0 <= trailing_negative rates n <= n + Z.of_nat (length rates).
Proof.
  revert n. induction rates as [| r rates IH]; intros n Hn; cbn [trailing_negative length]; [lia |].
  destruct (r <? 0.0%f64)%F; [specialize (IH (n + 1)) | specialize (IH 0)]; lia.
Qed.

Lemma track_count rates t :
  0 <= nt_consecutive_negative_cycles t ->
  nt_consecutive_negative_cycles t + Z.of_nat (length rates) <= U32_MAX ->
  nt_consecutive_negative_cycles (track rates t) =
    trailing_negative rates (nt_consecutive_negative_cycles t).
Proof.
  unfold track. revert t. induction rates as [| r rates IH]; intros t Hp Hb; [reflexivity |].
  cbn [fold_left trailing_negative length] in *. unfold U32_MAX in *.
  rewrite IH; cbn [snd update_funding nt_consecutive_negative_cycles];
    destruct (r <? 0.0%f64)%F; try lia; rewrite ?wrap32_small by (unfold in_u32; lia); auto; lia.
Qed.

(** The tracker asks to exit exactly after two consecutive negative funding
    rates: for every history of fewer than 2^32 rates ending in [a], [b]. *)
Theorem funding_exit_two_negatives sym rates a b :
  Z.of_nat (length rates) + 2 <= U32_MAX ->
  should_exit (track (rates ++ [a; b]) (NegativeFundingTracker_new sym)) =
    ((a <? 0.0%f64)%F && (b <? 0.0%f64)%F)%bool.
Proof.
  intros Hb. unfold should_exit. rewrite track_count; cbn [nt_consecutive_negative_cycles NegativeFundingTracker_new];
    [| lia | rewrite length_app; cbn [length]; lia].
  assert (Happ : forall l n, trailing_negative (l ++ [a; b]) n = trailing_negative [a; b] (trailing_negative l n)).
  { induction l as [| r l IH]; intros n; [reflexivity |]. cbn [app trailing_negative]. apply IH. }
  rewrite Happ. pose proof (trailing_negative_bounds rates 0 ltac:(lia)) as Ht.
  cbn [trailing_negative]. destruct (a <? 0.0%f64)%F, (b <? 0.0%f64)%F; cbn [andb];
    first [apply Z.leb_le | apply Z.leb_gt]; lia.
Qed.

Lemma funding_exit_two_negatives_witness :
  should_exit (track ([0.1%f64] ++ [(-0.1)%f64; (-0.2)%f64]) (NegativeFundingTracker_new "BTCUSDT")) = true.
Proof.
  exact (funding_exit_two_negatives "BTCUSDT" [0.1%f64] (-0.1)%f64 (-0.2)%f64 ltac:(vm_compute; discriminate)).
Defined.
