(* ===== verification/Entry.v ===== *)
(** Trade entry ([src/src/strategy/entry.rs]), the parts that stand alone: the
    harder-leg rule, position sizing and slippage, the market-order retry loop,
    the emergency close, and the simulated entry [execute_atomic_entry].
    [EntryReal.v] has the entry through an execution backend.

    Exchange names are ASCII ([lower] of [ExchangeFees.v] is [to_lowercase]).
    Error messages that print floats are kept as the data they print. *)
From Stdlib Require Import ZArith Lia Bool Ascii String.
From stdpp Require Import base option list gmap strings pretty.
From S2P Require Import Prelude Float64 NumberText Types ExchangeFees Backend ScriptedBackend AtomicExecution.

#[local] Open Scope Z_scope.

(** ** The harder leg *)
Definition get_exchange_tier (exchange : string) : Z :=
  let e := lower exchange in
  if bool_decide (e ∈ ["binance"; "bybit"; "okx"; "deribit"]%string) then 1
  else if bool_decide (e ∈ ["bitget"; "kucoin"; "gate"; "gateio"; "gate.io"]%string) then 2
  else 3.

Definition identify_harder_leg (long_exchange short_exchange : string) : string :=
  let long_tier := get_exchange_tier long_exchange in
  let short_tier := get_exchange_tier short_exchange in
  if short_tier <? long_tier then "long"
  else if long_tier <? short_tier then "short"
  else if String.ltb (lower long_exchange) (lower short_exchange) then "long"
  else if String.ltb (lower short_exchange) (lower long_exchange) then "short"
  else "long".

(** ** Sizing *)
Definition calculate_position_size (_spread_bps available_capital _fees_bps _funding_cost_bps
  starting_capital : f64) : f64 :=
  let target_position := (starting_capital * 0.10%f64)%F in
  let position_size := fmin target_position available_capital in
  if (position_size <? 10.0%f64)%F then 0.0%f64 else position_size.

Definition calculate_slippage (position_size order_book_depth : f64) : f64 :=
  let base_slippage := 0.0002%f64 in
  let depth_ratio := (position_size / order_book_depth)%F in
  let additional_slippage := (depth_ratio * 0.0003%f64)%F in
  fmin (base_slippage + additional_slippage)%F 0.0005%f64.

(** ** Limit orders of the simulated entry *)
Definition create_limit_order (id : string) (now : Z) (exchange symbol : string) (side : OrderSide)
  (price size resting_depth : f64) : SimulatedOrder :=
  {| so_id := id; so_exchange := exchange; so_symbol := symbol; so_side := side;
     so_order_type := Limit; so_price := price; so_size := size;
     so_queue_position := Some {| qp_price := price; qp_cumulative_volume_at_price := 0.0%f64;
                                  qp_resting_depth_at_entry := resting_depth;
                                  qp_fill_threshold_pct := 0.20%f64; qp_is_filled := false |};
     so_created_at := now; so_filled_at := None; so_fill_price := None; so_status := Pending |}.

Definition simulate_order_fill (now : Z) (order : SimulatedOrder) (cumulative_volume : f64)
  : bool * SimulatedOrder :=
  match so_queue_position order with
  | Some q =>
      let q := {| qp_price := qp_price q; qp_cumulative_volume_at_price := cumulative_volume;
                  qp_resting_depth_at_entry := qp_resting_depth_at_entry q;
                  qp_fill_threshold_pct := qp_fill_threshold_pct q;
                  qp_is_filled := qp_is_filled q |} in
      let fill_threshold := (qp_resting_depth_at_entry q * qp_fill_threshold_pct q)%F in
      if (cumulative_volume >=? fill_threshold)%F then
        let q := {| qp_price := qp_price q; qp_cumulative_volume_at_price := cumulative_volume;
                    qp_resting_depth_at_entry := qp_resting_depth_at_entry q;
                    qp_fill_threshold_pct := qp_fill_threshold_pct q; qp_is_filled := true |} in
        (true, set_so_filled_at (Some now) (set_so_fill_price (Some (qp_price q))
                 (set_so_status Filled (set_so_queue_position (Some q) order))))
      else (false, set_so_queue_position (Some q) order)
  | None => (false, order)
  end.

(** ** The simulated entry *)
Inductive entry_error :=
| EPositionNotPositive
| EExceedsCapital (position_size available : f64)
| EHarderLegUnfilled (side : OrderSide) (exchange : string)
| EEasierLegUnfilled (side : OrderSide) (exchange : string).

(** [uuid n] is the [n]-th fresh id and [now] the clock. *)
Definition execute_atomic_entry (uuid : nat -> string) (now : Z) (opportunity : ArbitrageOpportunity)
  (available_capital position_size : f64) : result PaperTrade entry_error :=
  if (position_size <=? 0.0%f64)%F then Err EPositionNotPositive
  else if (position_size >? available_capital)%F
  then Err (EExceedsCapital position_size available_capital)
  else
  let harder_leg := identify_harder_leg (ao_long_exchange opportunity) (ao_short_exchange opportunity) in
  let long_order := create_limit_order (uuid 0%nat) now (ao_long_exchange opportunity)
    (ao_symbol opportunity) Long (ao_long_price opportunity) position_size
    (ao_order_book_depth_long opportunity) in
  let short_order := create_limit_order (uuid 1%nat) now (ao_short_exchange opportunity)
    (ao_symbol opportunity) Short (ao_short_price opportunity) position_size
    (ao_order_book_depth_short opportunity) in
  let harder_leg_is_long := String.eqb harder_leg "long" in
  let '(harder_order, easier_order) :=
    if harder_leg_is_long then (long_order, short_order) else (short_order, long_order) in
  (* the volume of the harder leg is taken from the long book on either side *)
  let harder_cumulative_volume := (ao_order_book_depth_long opportunity * 0.25%f64)%F in
  let '(harder_filled, harder_order) := simulate_order_fill now harder_order harder_cumulative_volume in
  if negb harder_filled then
    Err (EHarderLegUnfilled (so_side harder_order) (so_exchange harder_order))
  else
  let easier_cumulative_volume :=
    if decide (so_side easier_order = Long)
    then (ao_order_book_depth_long opportunity * 0.30%f64)%F
    else (ao_order_book_depth_short opportunity * 0.30%f64)%F in
  let '(easier_filled, easier_order) := simulate_order_fill now easier_order easier_cumulative_volume in
  if negb easier_filled then
    Err (EEasierLegUnfilled (so_side easier_order) (so_exchange easier_order))
  else
  let '(long_order, short_order) :=
    if harder_leg_is_long then (harder_order, easier_order) else (easier_order, harder_order) in
  Ok {| pt_id := uuid 2%nat; pt_symbol := ao_symbol opportunity;
        pt_long_exchange := ao_long_exchange opportunity;
        pt_short_exchange := ao_short_exchange opportunity; pt_entry_time := now;
        pt_entry_long_price := ao_long_price opportunity;
        pt_entry_short_price := ao_short_price opportunity;
        pt_entry_spread_bps :=
          (((ao_short_price opportunity - ao_long_price opportunity) / ao_long_price opportunity)
             * 10000.0%f64)%F;
        pt_position_size_usd := position_size;
        pt_funding_delta_entry := ao_funding_delta_8h opportunity;
        pt_projected_profit_usd := ao_projected_profit_after_slippage opportunity;
        pt_actual_profit_usd := 0.0%f64; pt_status := TActive; pt_exit_reason := None;
        pt_exit_spread_bps := None; pt_exit_time := None; pt_long_order := long_order;
        pt_short_order := short_order; pt_long_exit_order := None; pt_short_exit_order := None;
        pt_stop_loss_triggered := false; pt_stop_loss_long_price := 0.0%f64;
        pt_stop_loss_short_price := 0.0%f64; pt_leg_out_event := None |}.

(** ** Market orders with retry *)
Inductive hedge_error :=
| HVerifyFailed (e : string)            (* the fill could not be verified *)
| HMarketFailed (e : string)            (* the order was refused three times *)
| HPartial (filled target : f64).       (* three fills did not reach the target *)

Definition MAX_RETRIES : Z := 3.

(** [s.contains(p)] *)
Fixpoint contains (p s : string) : bool :=
  String.prefix p s || match s with EmptyString => false | String _ s => contains p s end.

Section retry.
Context {B : Type} `{Backend B}.

(** [if let Some(m) = metrics { m.record_api_response(..) }]. *)
Definition record (endpoint : string) (duration : Z) (m : option HedgeTimingMetrics)
  : option HedgeTimingMetrics := record_api_response endpoint duration <$> m.

(** The loop [for attempt in 1..=MAX_RETRIES], with [remaining] turns left. *)
Fixpoint market_attempts (remaining : nat) (order_template : SimulatedOrder) (target_quantity : f64)
  (total_filled : f64) (last_order : SimulatedOrder) (metrics : option HedgeTimingMetrics)
  : ST (World B) (result SimulatedOrder hedge_error * option HedgeTimingMetrics) :=
  match remaining with
  | O => ret (Err (HPartial total_filled target_quantity), metrics)
  | S remaining =>
      (let attempt := MAX_RETRIES - Z.of_nat remaining in
       let remaining_qty := (target_quantity - total_filled)%F in
       if (remaining_qty <=? 0.0%f64)%F then ret (Ok (set_so_size total_filled last_order), metrics)
       else
       let! api_start := instant_now in
       let! placed := place_market_order (set_so_size remaining_qty order_template) in
       match placed with
       | Ok filled_order =>
           let! now := instant_now in
           let metrics := record ("place_market_order(" +:+ so_exchange order_template +:+ ")")
                            (now - api_start) metrics in
           let last_order := filled_order in
           let! api_start2 := instant_now in
           let! status := get_order_status_detailed (so_exchange filled_order) (so_id filled_order)
                            (so_symbol order_template) in
           match status with
           | Ok status_info =>
               let! now2 := instant_now in
               let metrics := record ("get_order_status_detailed(" +:+ so_exchange order_template +:+ ")")
                                (now2 - api_start2) metrics in
               let total_filled := (total_filled + osi_filled_quantity status_info)%F in
               if (total_filled >=? target_quantity)%F
               then ret (Ok (set_so_size total_filled last_order), metrics)
               else market_attempts remaining order_template target_quantity total_filled last_order metrics
           | Err e =>
               if attempt <? MAX_RETRIES then
                 do! sleep_ms (100 * 2 ^ (attempt - 1)) in
                 market_attempts remaining order_template target_quantity total_filled last_order metrics
               else ret (Err (HVerifyFailed e), metrics)
           end
       | Err e =>
           if attempt =? MAX_RETRIES then ret (Err (HMarketFailed e), metrics)
           else
             do! sleep_ms 500 in
             market_attempts remaining order_template target_quantity total_filled last_order metrics
       end)%st
  end.

Definition place_market_order_with_retry (order_template : SimulatedOrder) (target_quantity : f64)
  (metrics : option HedgeTimingMetrics)
  : ST (World B) (result SimulatedOrder hedge_error * option HedgeTimingMetrics) :=
  market_attempts (Z.to_nat MAX_RETRIES) order_template target_quantity 0.0%f64 order_template metrics.

(** ** Emergency close *)

(** The errors that mean the quantity was too large. *)
Definition is_quantity_limit (e : string) : bool :=
  contains "Quantity greater than max quantity" e || contains "exceeds minimum limit" e.

(** Closing in two halves after a quantity limit: whether both were closed. *)
Definition close_in_halves (close_order : SimulatedOrder) (metrics : HedgeTimingMetrics)
  : ST (World B) bool :=
  (let half_size := (so_size close_order / 2.0%f64)%F in
   let close_order_half := set_so_size half_size close_order in
   let! r1 := place_with_retry close_order_half half_size 5 metrics in
   match r1 with
   | (Ok _, metrics) =>
       let! id := new_uuid in
       let! r2 := place_with_retry (set_so_id ("emergency_close_" +:+ id) close_order_half) half_size 5 metrics in
       ret (is_ok (fst r2))
   | (Err _, _) => ret false
   end)%st.

(** The failure branch: trading is halted and the error carries the elapsed
    milliseconds and the placer's message. *)
Definition emergency_failed (filled_order : SimulatedOrder) (start_time : Z) (e : string)
  : ST (World B) (result unit string) :=
  (let! now := instant_now in
   do! halt_trading ("Emergency close failed: " +:+ so_symbol filled_order +:+ " on " +:+
                     so_exchange filled_order +:+ " (" +:+ e +:+ ")") in
   ret (Err ("CRITICAL: Failed to emergency close position after " +:+ pretty 10 +:+ " attempts in " +:+
             pretty ((now - start_time) / 1000000) +:+ "ms: " +:+ e)))%st.

Definition emergency_close_position (filled_order : SimulatedOrder)
  : ST (World B) (result unit string) :=
  (let! start_time := instant_now in
   let! id := new_uuid in
   let! secs := unix_secs in
   let close_order :=
     {| so_id := "emergency_close_" +:+ id; so_exchange := so_exchange filled_order;
        so_symbol := so_symbol filled_order; so_side := opposite (so_side filled_order);
        so_order_type := Market; so_price := so_price filled_order; so_size := so_size filled_order;
        so_queue_position := None; so_created_at := secs; so_filled_at := None;
        so_fill_price := None; so_status := Pending |} in
   let! t := instant_now in
   let! r := place_with_retry close_order (so_size close_order) 10 (HedgeTimingMetrics_new t) in
   match r with
   | (Ok _, _) => ret (Ok tt)
   | (Err e, metrics) =>
       if is_quantity_limit e then
         let! closed := close_in_halves close_order metrics in
         if (closed : bool) then ret (Ok tt) else emergency_failed filled_order start_time e
       else emergency_failed filled_order start_time e
   end)%st.
End retry.

(** ** The retry loop *)
Section retry_spec.
Context {B : Type} `{Backend B}.

(** Replays the calls of the loop: every market order asks for exactly what the
    statuses reported so far leave open, and nothing but market orders and
    status queries is sent.  [total] is the quantity reported before [cs]. *)
Fixpoint hedge_trace (template : SimulatedOrder) (target total : f64) (cs : list call) : Prop :=
  match cs with
  | [] => True
  | CMarket o _ :: cs =>
      o = set_so_size (target - total)%F template /\ (target - total <=? 0.0%f64)%F = false /\
      hedge_trace template target total cs
  | CDetailed _ _ sym r :: cs =>
      sym = so_symbol template /\
      hedge_trace template target
        match r with Ok i => (total + osi_filled_quantity i)%F | Err _ => total end cs
  | _ => False
  end.

(** The quantity the statuses of [cs] report, added to [total]. *)
Fixpoint reported (total : f64) (cs : list call) : f64 :=
  match cs with
  | [] => total
  | CDetailed _ _ _ (Ok i) :: cs => reported (total + osi_filled_quantity i)%F cs
  | _ :: cs => reported total cs
  end.

(** [n] market orders at most; [Ok] only with the target reported filled, [Err]
    only after [n] of them. *)
Definition retry_post (n : nat) (template : SimulatedOrder) (target total : f64) (w : World B)
  (r : result SimulatedOrder hedge_error) (w' : World B) : Prop :=
  exists cs, w_calls w' = w_calls w ++ cs /\ hedge_trace template target total cs /\
    (markets cs <= n)%nat /\
    match r with
    | Ok o => so_size o = reported total cs /\
        ((reported total cs >=? target)%F = true \/ (target - reported total cs <=? 0.0%f64)%F = true)
    | Err (HPartial f t) => f = reported total cs /\ t = target /\ markets cs = n
    | Err _ => markets cs = n
    end.

(** Prepending the calls of an attempt that goes on. *)
Lemma retry_post_more n template target total total1 (w w1 : World B) cs r w' :
  w_calls w1 = w_calls w ++ cs -> markets cs = 1%nat -> reported total cs = total1 ->
  (forall cs', hedge_trace template target total1 cs' -> hedge_trace template target total (cs ++ cs')) ->
  (forall cs', reported total (cs ++ cs') = reported total1 cs') ->
  retry_post n template target total1 w1 r w' -> retry_post (S n) template target total w r w'.
Proof.
  intros Hc Hm Hrep Htr Hap (cs' & Hc' & Ht & Hle & Hr). exists (cs ++ cs').
  rewrite Hc', Hc, app_assoc, markets_app, Hm, Hap.
  split; [reflexivity |]. split; [now apply Htr |]. split; [lia |].
  destruct r as [o | []]; [exact Hr | lia | lia |]. destruct Hr as (? & ? & ?). auto with lia.
Qed.

Lemma market_attempts_post n template target total last m (w : World B) :
  wp (market_attempts n template target total last m)
     (fun '(r, _) w' => retry_post n template target total w r w') w.
Proof.
  revert total last m w. induction n as [| n IH]; intros total last m w; cbn [market_attempts].
  { apply wp_ret. exists []. rewrite app_nil_r. repeat split; auto. }
  cbv zeta. destruct (target - total <=? 0.0%f64)%F eqn:Hrem.
  { apply wp_ret. exists []. rewrite app_nil_r. cbn. repeat split; auto with lia. }
  do 4 wp_step. set (order := set_so_size _ template) in *. destruct a0 as [o | e].
  - do 6 wp_step. set (c1 := CMarket order (Ok o)).
    destruct a2 as [i | e].
    + do 2 wp_step. destruct (_ >=? target)%F eqn:Hfull.
      * apply wp_ret. exists [c1; CDetailed (so_exchange o) (so_id o) (so_symbol template) (Ok i)].
        cbn. rewrite <- app_assoc. repeat split; auto with lia.
      * eapply wp_mono; [apply IH |]. intros [r m'] w'.
        apply (retry_post_more n _ _ _ _ _ _
          [c1; CDetailed (so_exchange o) (so_id o) (so_symbol template) (Ok i)]);
          try reflexivity; [cbn; now rewrite <- app_assoc | now cbn].
    + set (c2 := CDetailed (so_exchange o) (so_id o) (so_symbol template) (Err e)).
      destruct (Z.ltb_spec (MAX_RETRIES - Z.of_nat n) MAX_RETRIES).
      * do 2 wp_step. eapply wp_mono; [apply IH |]. intros [r m'] w'.
        apply (retry_post_more n _ _ _ _ _ _ [c1; c2]);
          try reflexivity; [cbn; now rewrite <- app_assoc | now cbn].
      * apply wp_ret. exists [c1; c2]. cbn. rewrite <- app_assoc. repeat split; auto with lia.
  - set (c1 := CMarket order (Err e)).
    destruct (Z.eqb_spec (MAX_RETRIES - Z.of_nat n) MAX_RETRIES).
    + apply wp_ret. exists [c1]. cbn. repeat split; auto with lia.
    + do 2 wp_step. eapply wp_mono; [apply IH |]. intros [r m'] w'.
      apply (retry_post_more n _ _ _ _ _ _ [c1]); try reflexivity. now cbn.
Qed.

(** C17. The hedge by market orders: at most three orders, each for exactly what the
    exchange has not yet reported filled; [Ok] carries the total reported, and
    that total reaches the target; [Err] only after three orders, and the
    partial total it names is the one reported. *)
Theorem market_retry_spec template target m (w : World B) :
  wp (place_market_order_with_retry template target m)
     (fun '(r, _) w' => retry_post 3 template target 0.0%f64 w r w') w.
Proof. apply market_attempts_post. Qed.

(** The calls of the loop, for the callers' frames. *)
Definition retry_call (template : SimulatedOrder) (c : call) : Prop :=
  match c with
  | CMarket o _ => exists q, o = set_so_size q template
  | CDetailed _ _ _ _ => True
  | _ => False
  end.

Lemma market_attempts_tame n template target total last m :
  respects (tame (retry_call template)) (market_attempts n template target total last m : ST (World B) _).
Proof.
  revert m last total. induction n as [| n IH]; intros m last total; cbn [market_attempts]; [solve_tame |].
  cbv zeta. destruct (_ <=? _)%F; [solve_tame |].
  apply respects_bind; [exact _ | solve_tame |]. intros start.
  apply respects_bind; [exact _ | apply respects_call; cbn; eauto |].
  intros r. repeat first [apply IH | progress solve_tame].
Qed.

Lemma market_retry_tame template target m :
  respects (tame (retry_call template)) (place_market_order_with_retry template target m : ST (World B) _).
Proof. apply market_attempts_tame. Qed.
End retry_spec.

(** ** The emergency close *)
Section close_spec.
Context {B : Type} `{Backend B}.

(** A call of the emergency close of [o]: a market order against the filled
    leg, for all of it or half of it, or a status query. *)
Definition close_call (o : SimulatedOrder) (c : call) : Prop :=
  match c with
  | CMarket c _ => so_exchange c = so_exchange o /\ so_symbol c = so_symbol o /\
      so_side c = opposite (so_side o) /\ so_order_type c = Market /\
      (so_size c = so_size o \/ so_size c = (so_size o / 2.0%f64)%F)
  | CDetailed _ _ _ _ => True
  | _ => False
  end.

Definition accepted (c : call) : bool := match c with CMarket _ (Ok _) => true | _ => false end.

(** What the placer contributes to a closing: its calls, at most [n] orders. *)
Definition closing (n k : nat) (o : SimulatedOrder) (w w' : World B) : Prop :=
  w_hedge_locks w' = w_hedge_locks w /\ w_halted w' = w_halted w /\
  exists cs, w_calls w' = w_calls w ++ cs /\ Forall (close_call o) cs /\ (markets cs <= n)%nat /\
    (k <= length (List.filter accepted cs))%nat.

Lemma closing_trans n1 n2 k1 k2 o (w1 w2 w3 : World B) :
  closing n1 k1 o w1 w2 -> closing n2 k2 o w2 w3 -> closing (n1 + n2) (k1 + k2) o w1 w3.
Proof.
  intros (Hl1 & Hh1 & c1 & Hc1 & Hf1 & Hm1 & Ha1) (Hl2 & Hh2 & c2 & Hc2 & Hf2 & Hm2 & Ha2).
  split; [congruence |]. split; [congruence |]. exists (c1 ++ c2).
  rewrite Hc2, Hc1, app_assoc, markets_app, List.filter_app, length_app.
  split; [reflexivity |]. split; [now apply Forall_app |]. lia.
Qed.

Lemma closing_weaken n1 n2 k1 k2 o (w w' : World B) :
  (n1 <= n2)%nat -> (k2 <= k1)%nat -> closing n1 k1 o w w' -> closing n2 k2 o w w'.
Proof. intros Hn Hk (Hl & Hh & cs & Hc & Hf & Hm & Ha). unfold closing. eauto 8 with lia. Qed.

Lemma placer_closing c q n m o (w : World B) :
  (forall r, close_call o (CMarket c r)) ->
  wp (place_with_retry c q n m)
     (fun '(r, _) w' => closing n (if is_ok r then 1 else 0)%nat o w w') w.
Proof.
  intros Hc. apply (wp_respects (tame (placer_call c))); [apply place_with_retry_tame |].
  intros [r m'] w' Hrun (Hl & Hh & _).
  pose proof (place_attempts_post n 0 c m w) as Hp. unfold wp in Hp.
  unfold place_with_retry in Hrun. rewrite Hrun in Hp. destruct Hp as (cs & Hcs & Hf & Hn & Hr).
  split; [exact Hl |]. split; [exact Hh |]. exists cs. split; [exact Hcs |].
  split; [| split; [exact Hn |]].
  - eapply Forall_impl; [exact Hf |]. intros [] Hx; cbn in Hx; try contradiction; [now subst | exact I].
  - destruct r as [placed | e]; cbn [is_ok]; [| lia]. destruct Hr as [Hin _].
    apply list_elem_of_In in Hin.
    assert (Hacc : In (CMarket c (Ok placed)) (List.filter accepted cs)) by now apply filter_In.
    destruct (List.filter accepted cs); [destruct Hacc | cbn; lia].
Qed.

Lemma close_in_halves_closing c m o (w : World B) :
  (forall i r, close_call o (CMarket (set_so_id i (set_so_size (so_size c / 2.0%f64)%F c)) r)) ->
  (forall r, close_call o (CMarket (set_so_size (so_size c / 2.0%f64)%F c) r)) ->
  wp (close_in_halves c m) (fun b w' => closing 10 (if b then 2 else 0)%nat o w w') w.
Proof.
  intros Hi Hc. unfold close_in_halves. wp_step. eapply wp_mono; [now apply placer_closing |].
  intros [[a1 | e1] m1] w1 H1; cbn [is_ok] in H1.
  - do 3 wp_step. eapply wp_mono; [now apply (placer_closing _ _ _ _ o) |]. intros [r2 m2] w2 H2.
    apply wp_ret. cbn [fst]. eapply closing_weaken; [| | eapply closing_trans; [exact H1 | exact H2]];
      destruct r2; cbn; lia.
  - apply wp_ret. eapply closing_weaken; [| | exact H1]; lia.
Qed.

Lemma emergency_failed_wp o t e (Q : result unit string -> World B -> Prop) w :
  (forall w' m, w_hedge_locks w' = w_hedge_locks w -> w_calls w' = w_calls w -> w_halted w' = true ->
     Q (Err m) w') ->
  wp (emergency_failed o t e) Q w.
Proof. intros HQ. unfold emergency_failed, halt_trading. do 3 wp_step. now apply HQ. Qed.

Definition close_post (o : SimulatedOrder) (w : World B) (r : result unit string) (w' : World B) : Prop :=
  w_hedge_locks w' = w_hedge_locks w /\ w_halted w' = (w_halted w || negb (is_ok r))%bool /\
  exists cs, w_calls w' = w_calls w ++ cs /\ Forall (close_call o) cs /\ (markets cs <= 20)%nat /\
    (is_ok r = true -> (1 <= length (List.filter accepted cs))%nat).

Lemma closing_done n k o (w w' : World B) :
  (n <= 20)%nat -> (1 <= k)%nat -> closing n k o w w' -> close_post o w (Ok tt) w'.
Proof.
  intros Hn Hk (Hl & Hh & cs & Hc & Hf & Hm & Ha). split; [exact Hl |].
  cbn [is_ok negb]. rewrite orb_false_r. split; [exact Hh |]. exists cs. auto with lia.
Qed.

Lemma closing_failed n k o (w w1 w' : World B) e :
  (n <= 20)%nat -> closing n k o w w1 -> w_hedge_locks w' = w_hedge_locks w1 ->
  w_calls w' = w_calls w1 -> w_halted w' = true -> close_post o w (Err e) w'.
Proof.
  intros Hn (Hl & Hh & cs & Hc & Hf & Hm & Ha) H1 H2 H3. split; [congruence |].
  cbn [is_ok negb]. rewrite orb_true_r. split; [exact H3 |]. exists cs. rewrite H2.
  split; [exact Hc |]. split; [exact Hf |]. split; [lia | discriminate].
Qed.

Lemma emergency_close_post o (w : World B) : wp (emergency_close_position o) (close_post o w) w.
Proof.
  unfold emergency_close_position. do 9 wp_step. set (w0 := after_rt _ _).
  match goal with |- wp (place_with_retry ?c _ _ _) _ _ => set (close := c) end.
  change (close_post o w) with (close_post o w0).
  eapply wp_mono; [apply (placer_closing _ _ _ _ o); subst close; cbn; auto 6 |].
  intros [[p1 | e1] m1] w1 H1; cbn [is_ok] in H1.
  - apply wp_ret. eapply closing_done; [| | exact H1]; lia.
  - destruct (is_quantity_limit e1).
    + wp_step. eapply wp_mono; [apply (close_in_halves_closing _ _ o); subst close; cbn; auto 6 |].
      intros [|] w2 H2; cbn beta iota.
      * apply wp_ret. eapply closing_done; [| | eapply closing_trans; [exact H1 | exact H2]]; lia.
      * apply emergency_failed_wp. intros w3 m ? ? ?.
        eapply closing_failed; [| eapply closing_trans; [exact H1 | exact H2] | ..]; auto with lia.
    + apply emergency_failed_wp. intros w3 m ? ? ?. eapply closing_failed; [| exact H1 | ..]; auto with lia.
Qed.

(** C18. The emergency close sends only orders that reduce the filled leg (its
    exchange and symbol, the opposite side, its size or half of it), at most
    twenty of them; it answers [Ok] only if the exchange accepted one, and an
    [Err] halts trading. *)
Theorem emergency_close_spec o (w : World B) :
  wp (emergency_close_position o) (close_post o w) w.
Proof. apply emergency_close_post. Qed.
End close_spec.

(** A status query that fails is taken for no fill: the whole quantity is
    ordered again, so two accepted orders for the full target can stand behind
    an answer that reports the target once. *)
Theorem unverified_fill_hedged_twice :
  exists (s : Script) (t placed : SimulatedOrder) m w',
    place_market_order_with_retry t 1.0%f64 None (script_world s) = ((Ok placed, m), w') /\
    so_size placed = 1.0%f64 /\
    (fun c => match c with CMarket o (Ok _) => Some (so_size o) | _ => None end) <$> w_calls w' =
      [Some 1.0%f64; None; Some 1.0%f64; None].
Proof.
  set (s := sc_with empty_script [] [] [Ok tt; Ok tt] [] []
              [Err "timeout"%string; Ok (status_info Filled 1.0%f64 1.0%f64)] [] [] [] [] 0 0%N).
  exists s, (create_market_order "" 0 "okx" "BTCUSDT" Short 100.0%f64 1.0%f64).
  eexists _, _, _. split; [vm_compute; reflexivity |]. split; reflexivity.
Qed.

(** ** Sizing and the harder leg *)

(** A position is either none at all or between 10 USD and what is available,
    and never more than a tenth of the starting capital. *)
Theorem position_size_bounds spread available fees funding starting :
  is_nan available = false -> is_nan (starting * 0.10%f64)%F = false ->
  let p := calculate_position_size spread available fees funding starting in
  p = 0.0%f64 \/
  ((p >=? 10.0%f64)%F = true /\ (p <=? available)%F = true /\ (p <=? starting * 0.10%f64)%F = true).
Proof.
  intros Ha Hs p. unfold p, calculate_position_size. set (t := (starting * 0.10%f64)%F) in *.
  destruct (fmin t available <? 10.0%f64)%F eqn:E; [auto | right].
  split; [| split; [now apply fmin_le_r | now apply fmin_le_l]].
  rewrite fleb_not_fltb, E; [reflexivity | reflexivity |].
  destruct (fmin_cases t available) as [-> | ->]; assumption.
Qed.

Lemma position_size_bounds_witness :
  let p := calculate_position_size 100.0%f64 1000.0%f64 10.0%f64 0.0%f64 20000.0%f64 in
  p = 0.0%f64 \/
  ((p >=? 10.0%f64)%F = true /\ (p <=? 1000.0%f64)%F = true /\ (p <=? 20000.0%f64 * 0.10%f64)%F = true).
Proof.
  exact (position_size_bounds 100.0%f64 1000.0%f64 10.0%f64 0.0%f64 20000.0%f64 eq_refl eq_refl).
Defined.

(** Slippage never exceeds 5 bps, NaN depths included. *)
Lemma slippage_capped size depth : (calculate_slippage size depth <=? 0.0005%f64)%F = true.
Proof. now apply fmin_le_r. Qed.

(** The harder leg is a property of the two exchanges and not of which is the
    long one: exchanging the legs exchanges the answer, unless the exchanges are
    the same. *)
Lemma harder_leg_symmetric a b :
  lower a <> lower b ->
  identify_harder_leg b a = if String.eqb (identify_harder_leg a b) "long" then "short"%string else "long"%string.
Proof.
  intros Hne. unfold identify_harder_leg.
  destruct (Z.ltb_spec (get_exchange_tier a) (get_exchange_tier b)),
    (Z.ltb_spec (get_exchange_tier b) (get_exchange_tier a)); try lia; try reflexivity.
  unfold String.ltb. rewrite (String.compare_antisym (lower b) (lower a)).
  destruct (String.compare (lower a) (lower b)) eqn:E; try reflexivity.
  now apply String.compare_eq_iff in E.
Qed.

(** ** The simulated entry *)
Definition leg_filled (now : Z) (o : SimulatedOrder) (e s : string) (side : OrderSide) (p size : f64) : Prop :=
  so_status o = Filled /\ so_filled_at o = Some now /\ so_fill_price o = Some p /\ so_price o = p /\
  so_exchange o = e /\ so_symbol o = s /\ so_side o = side /\ so_size o = size.

Lemma simulate_fill_created id now e s side p size depth v :
  let '(f, o) := simulate_order_fill now (create_limit_order id now e s side p size depth) v in
  f = (v >=? depth * 0.20%f64)%F /\ so_side o = side /\ so_exchange o = e /\
  (f = true -> leg_filled now o e s side p size).
Proof.
  unfold simulate_order_fill. cbn [so_queue_position create_limit_order qp_resting_depth_at_entry
    qp_fill_threshold_pct qp_price]. destruct (v >=? depth * 0.20%f64)%F; cbn; unfold leg_filled; auto 12.
  split; [reflexivity |]. split; [reflexivity |]. split; [reflexivity | discriminate].
Qed.

(** The simulated entry on every branch: the two rejections, the harder leg
    unfilled, the easier leg unfilled, and the trade, whose legs are both filled
    at the prices and for the size asked. *)
Theorem execute_atomic_entry_spec uuid now o available size :
  match execute_atomic_entry uuid now o available size with
  | Err EPositionNotPositive => (size <=? 0.0%f64)%F = true
  | Err (EExceedsCapital p c) => p = size /\ c = available /\ (size >? available)%F = true
  | Err (EHarderLegUnfilled side e) =>
      e = (if decide (side = Long) then ao_long_exchange o else ao_short_exchange o) /\
      identify_harder_leg (ao_long_exchange o) (ao_short_exchange o) =
        (if decide (side = Long) then "long" else "short")%string
  | Err (EEasierLegUnfilled side e) =>
      e = (if decide (side = Long) then ao_long_exchange o else ao_short_exchange o) /\
      identify_harder_leg (ao_long_exchange o) (ao_short_exchange o) =
        (if decide (side = Long) then "short" else "long")%string
  | Ok t =>
      (size <=? 0.0%f64)%F = false /\ (size >? available)%F = false /\
      leg_filled now (pt_long_order t) (ao_long_exchange o) (ao_symbol o) Long (ao_long_price o) size /\
      leg_filled now (pt_short_order t) (ao_short_exchange o) (ao_symbol o) Short (ao_short_price o) size /\
      pt_status t = TActive /\ pt_position_size_usd t = size /\ pt_leg_out_event t = None
  end.
Proof.
  unfold execute_atomic_entry. destruct (size <=? 0.0%f64)%F eqn:Hp; [reflexivity |].
  destruct (size >? available)%F eqn:Hc; [auto |].
  assert (Hh : identify_harder_leg (ao_long_exchange o) (ao_short_exchange o) = "long"%string \/
               identify_harder_leg (ao_long_exchange o) (ao_short_exchange o) = "short"%string).
  { unfold identify_harder_leg. repeat destruct_if; auto. }
  set (lo := create_limit_order (uuid 0%nat) _ _ _ _ _ _ _).
  set (so := create_limit_order (uuid 1%nat) _ _ _ _ _ _ _).
  assert (Hlo := simulate_fill_created (uuid 0%nat) now (ao_long_exchange o) (ao_symbol o) Long
    (ao_long_price o) size (ao_order_book_depth_long o)).
  assert (Hso := simulate_fill_created (uuid 1%nat) now (ao_short_exchange o) (ao_symbol o) Short
    (ao_short_price o) size (ao_order_book_depth_short o)).
  destruct Hh as [Hh | Hh]; rewrite Hh; cbn [String.eqb Ascii.eqb Bool.eqb];
    [fold lo in Hlo; fold so in Hso | fold lo in Hlo; fold so in Hso].
  - specialize (Hlo (ao_order_book_depth_long o * 0.25%f64)%F).
    destruct (simulate_order_fill now lo _) as [[|] lo'] eqn:El; cbn [negb]; destruct Hlo as (Hf & Hs & He & Hl);
      [| rewrite Hs, He; auto].
    change (so_side so) with Short. cbn [decide].
    match goal with |- context [simulate_order_fill now so ?v] => specialize (Hso v);
      destruct (simulate_order_fill now so v) as [[|] so'] eqn:Es end; cbn [negb];
      destruct Hso as (Hf2 & Hs2 & He2 & Hl2); [| rewrite Hs2, He2; auto].
    cbn. auto 10.
  - specialize (Hso (ao_order_book_depth_long o * 0.25%f64)%F).
    destruct (simulate_order_fill now so _) as [[|] so'] eqn:Es; cbn [negb]; destruct Hso as (Hf & Hs & He & Hl);
      [| rewrite Hs, He; auto].
    change (so_side lo) with Long. cbn [decide].
    match goal with |- context [simulate_order_fill now lo ?v] => specialize (Hlo v);
      destruct (simulate_order_fill now lo v) as [[|] lo'] eqn:El end; cbn [negb];
      destruct Hlo as (Hf2 & Hs2 & He2 & Hl2); [| rewrite Hs2, He2; auto].
    cbn. auto 10.
Qed.

(** The volume a harder leg sees is a quarter of the long book even when the
    harder leg is the short one: a short book ten times deeper makes it fail. *)
Definition depth_opportunity (depth_long depth_short : f64) : ArbitrageOpportunity :=
  {| ao_symbol := "BTCUSDT"; ao_long_exchange := "binance"; ao_short_exchange := "hyperliquid";
     ao_long_price := 100.0%f64; ao_short_price := 101.0%f64; ao_spread_bps := 100.0%f64;
     ao_funding_delta_8h := 0.0%f64; ao_confidence_score := 90; ao_projected_profit_usd := 0.0%f64;
     ao_projected_profit_after_slippage := 0.0%f64;
     ao_metrics := {| cm_funding_delta := 0.0%f64; cm_funding_delta_projected := 0.0%f64;
                      cm_obi_ratio := 0.0%f64; cm_oi_current := 0.0%f64; cm_oi_24h_avg := 0.0%f64;
                      cm_vwap_deviation := 0.0%f64; cm_atr := 0.0%f64; cm_atr_trend := true;
                      cm_liquidation_cluster_distance := 0.0%f64;
                      cm_hard_constraints := {| order_book_depth_sufficient := true;
                        exchange_latency_ok := true; funding_delta_substantial := true |} |};
     ao_order_book_depth_long := depth_long; ao_order_book_depth_short := depth_short;
     ao_timestamp := None |}.

Theorem harder_short_reads_long_book :
  let run dl ds := execute_atomic_entry (fun _ => "id"%string) 0 (depth_opportunity dl ds) 1000.0%f64 100.0%f64 in
  is_ok (run 1000.0%f64 1000.0%f64) = true /\
  run 1000.0%f64 10000.0%f64 = Err (EHarderLegUnfilled Short "hyperliquid"%string).
Proof. split; vm_compute; reflexivity. Qed.
