(* ===== verification/EntryReal.v ===== *)
(** The entry through an execution backend: [execute_atomic_entry_real] of
    [src/src/strategy/entry.rs].

    The source writes every step once for the long leg and once for the short
    leg; here the step is written once, with the leg as the argument [s], and
    used for both.  What differs between the two copies is kept: the order in
    which the legs are polled, the side of the book the aggressive limit order
    takes, and the order of the two statuses.

    Error messages are the constructors of [entry_real_error], with the data
    they print.  [HedgeLogger] and the other fields of [HedgeTimingMetrics] are
    written to be printed and nothing reads them: their clock readings are left
    out, and so are the readings that only end up in a log line.  The polling
    loop is a recursion on fuel ([entry_terminates] bounds it). *)
From Stdlib Require Import ZArith Lia Bool.
From stdpp Require Import base option list gmap strings pretty.
From S2P Require Import Prelude Float64 Types Backend DepthChecker PriceChaser ScriptedBackend AtomicExecution Entry.

#[local] Open Scope Z_scope.

(** ** Data *)
Inductive entry_real_error :=
| RHalted
| RPositionNotPositive
| RExceedsCapital (position_size available : f64)
| RQuantityZero
| RBalanceQuery (exchange e : string)
| RInsufficientBalance (exchange : string) (balance required : f64)
| RDepthCheck (leg : OrderSide) (e : string)
| RInsufficientDepth (long_ratio short_ratio : f64)
| RPlaceFailed (leg : OrderSide) (e : string)
| RLock (e : string)
| RHedgeDepth (hedge : OrderSide) (ratio : f64)       (* the filled leg was closed *)
| RCloseFailed (e : string)                           (* emergency close, propagated by [?] *)
| RHedgeFailed (hedge : OrderSide) (e : hedge_error)  (* the filled leg was closed *)
| RHedgeAndCloseFailed (hedge : OrderSide) (e : hedge_error) (close_err : string)
| RSpreadCollapsed (initial current : f64)
| RMaxReprices (leg : OrderSide) (max_reprices : Z)
| RNeitherFilled
| RShouldNotHappen.

(** The four local variables of a leg. *)
Record leg := {
  lg_order : SimulatedOrder;
  lg_filled : bool;
  lg_reprice_count : Z;
  lg_metrics : RepricingMetrics
}.

Definition set_lg_order (o : SimulatedOrder) (l : leg) : leg :=
  {| lg_order := o; lg_filled := lg_filled l; lg_reprice_count := lg_reprice_count l;
     lg_metrics := lg_metrics l |}.
Definition set_lg_filled (l : leg) : leg :=
  {| lg_order := lg_order l; lg_filled := true; lg_reprice_count := lg_reprice_count l;
     lg_metrics := lg_metrics l |}.

(** The loop's state: the two legs and the depth checker's cache. *)
Record entry_state := { es_long : leg; es_short : leg; es_depth : depth_cache }.

Definition es_leg (s : OrderSide) (st : entry_state) : leg :=
  match s with Long => es_long st | Short => es_short st end.
Definition set_leg (s : OrderSide) (l : leg) (st : entry_state) : entry_state :=
  match s with
  | Long => {| es_long := l; es_short := es_short st; es_depth := es_depth st |}
  | Short => {| es_long := es_long st; es_short := l; es_depth := es_depth st |}
  end.
Definition set_depth (c : depth_cache) (st : entry_state) : entry_state :=
  {| es_long := es_long st; es_short := es_short st; es_depth := c |}.
Definition leg_order (s : OrderSide) (st : entry_state) : SimulatedOrder := lg_order (es_leg s st).
Definition filled (s : OrderSide) (st : entry_state) : bool := lg_filled (es_leg s st).

(** How a part of the loop's body ends: fall through to the next statement,
    [continue], or [break]. *)
Inductive control :=
| Fall (st : entry_state)
| Continue (st : entry_state)
| Break (st : entry_state).

Definition exchange_of (s : OrderSide) (o : ArbitrageOpportunity) : string :=
  match s with Long => ao_long_exchange o | Short => ao_short_exchange o end.
Definition price_of (s : OrderSide) (o : ArbitrageOpportunity) : f64 :=
  match s with Long => ao_long_price o | Short => ao_short_price o end.

(** An order on the exchange of leg [s], as every template of the function
    builds it. *)
Definition order_template (o : ArbitrageOpportunity) (s side : OrderSide) (ty : OrderType)
  (price size : f64) (created_at : Z) : SimulatedOrder :=
  {| so_id := ""; so_exchange := exchange_of s o; so_symbol := ao_symbol o; so_side := side;
     so_order_type := ty; so_price := price; so_size := size; so_queue_position := None;
     so_created_at := created_at; so_filled_at := None; so_fill_price := None; so_status := Pending |}.

Section entry.
Context {B : Type} `{Backend B}.
Variables (opp : ArbitrageOpportunity) (config : RepricingConfig).

(** ** Before the orders *)
Definition round_quantity (raw step : f64) : f64 := (ffloor (raw / step) * step)%F.

Definition contract_quantity (position_size : f64) : ST (World B) (result f64 entry_real_error) :=
  (let max_price := fmax (ao_long_price opp) (ao_short_price opp) in
   let raw_contract_quantity := (position_size / max_price)%F in
   let! long_step := get_quantity_step (ao_long_exchange opp) (ao_symbol opp) in
   let! short_step := get_quantity_step (ao_short_exchange opp) (ao_symbol opp) in
   let long_rounded := round_quantity raw_contract_quantity (unwrap_or long_step 0.1%f64) in
   let short_rounded := round_quantity raw_contract_quantity (unwrap_or short_step 0.1%f64) in
   let contract_quantity := fmin long_rounded short_rounded in
   if (contract_quantity <=? 0.0%f64)%F then ret (Err RQuantityZero)
   else ret (Ok contract_quantity))%st.

Definition check_balances (position_size : f64) : ST (World B) (result unit entry_real_error) :=
  (let? long_balance := mapE (RBalanceQuery (ao_long_exchange opp))
                          (get_available_balance (ao_long_exchange opp)) in
   let? short_balance := mapE (RBalanceQuery (ao_short_exchange opp))
                           (get_available_balance (ao_short_exchange opp)) in
   let required_margin := (position_size * 1.2%f64)%F in
   if (long_balance <? required_margin)%F
   then ret (Err (RInsufficientBalance (ao_long_exchange opp) long_balance required_margin))
   else if (short_balance <? required_margin)%F
   then ret (Err (RInsufficientBalance (ao_short_exchange opp) short_balance required_margin))
   else ret (Ok tt))%st.

(** The four answers are ignored. *)
Definition prepare_exchanges : ST (World B) unit :=
  (do! set_leverage (ao_long_exchange opp) (ao_symbol opp) 1 in
   do! set_leverage (ao_short_exchange opp) (ao_symbol opp) 1 in
   do! set_margin_type_isolated (ao_long_exchange opp) (ao_symbol opp) in
   do! set_margin_type_isolated (ao_short_exchange opp) (ao_symbol opp) in
   ret tt)%st.

(** The depth checks before the orders, and the cache they leave. *)
Definition depth_ok (long_depth short_depth : DepthCheckResult) (cache : depth_cache)
  : result depth_cache entry_real_error :=
  if should_abort long_depth || should_abort short_depth
  then Err (RInsufficientDepth (dc_depth_ratio long_depth) (dc_depth_ratio short_depth))
  else Ok cache.

Definition preflight_depth (quantity : f64) (cache : depth_cache)
  : ST (World B) (result depth_cache entry_real_error) :=
  match execution_mode config with
  | UltraFast => ret (Ok cache)
  | Balanced =>
      (* [join!]: both run, the error of the long leg is reported first *)
      (let! '(long_depth_result, cache) :=
         check_depth_for_hedge (ao_long_exchange opp) (ao_symbol opp) quantity cache in
       let! '(short_depth_result, cache) :=
         check_depth_for_hedge (ao_short_exchange opp) (ao_symbol opp) quantity cache in
       let? long_depth := mapE (RDepthCheck Long) (ret long_depth_result) in
       let? short_depth := mapE (RDepthCheck Short) (ret short_depth_result) in
       ret (depth_ok long_depth short_depth cache))%st
  | Safe =>
      (let! '(long_depth_result, cache) :=
         check_depth_for_hedge (ao_long_exchange opp) (ao_symbol opp) quantity cache in
       let? long_depth := mapE (RDepthCheck Long) (ret long_depth_result) in
       let! '(short_depth_result, cache) :=
         check_depth_for_hedge (ao_short_exchange opp) (ao_symbol opp) quantity cache in
       let? short_depth := mapE (RDepthCheck Short) (ret short_depth_result) in
       ret (depth_ok long_depth short_depth cache))%st
  end.

Definition leg_new (o : SimulatedOrder) : leg :=
  {| lg_order := o; lg_filled := false; lg_reprice_count := 0;
     lg_metrics := RepricingMetrics_new (so_price o) |}.

(** Both limit orders; when the short one is refused the long one is cancelled. *)
Definition place_both (quantity : f64) (now : Z) (cache : depth_cache)
  : ST (World B) (result entry_state entry_real_error) :=
  (let! long_result := place_order (order_template opp Long Long Limit (ao_long_price opp) quantity now) in
   let! short_result := place_order (order_template opp Short Short Limit (ao_short_price opp) quantity now) in
   match long_result with
   | Err e => ret (Err (RPlaceFailed Long e))
   | Ok long_order =>
       match short_result with
       | Err e =>
           do! cancel_order (so_exchange long_order) (so_id long_order) in
           ret (Err (RPlaceFailed Short e))
       | Ok short_order =>
           ret (Ok {| es_long := leg_new long_order; es_short := leg_new short_order; es_depth := cache |})
       end
   end)%st.

(** ** A leg that fills *)

(** The assignments when a leg is seen filled with [qty]. *)
Definition mark_filled (secs : Z) (qty : f64) (l : leg) : leg :=
  set_lg_filled (set_lg_order
    (set_so_size qty (set_so_fill_price (Some (so_price (lg_order l)))
       (set_so_filled_at (Some secs) (set_so_status Filled (lg_order l))))) l).

Definition set_leg_size (s : OrderSide) (qty : f64) (st : entry_state) : entry_state :=
  set_leg s (set_lg_order (set_so_size qty (leg_order s st)) (es_leg s st)) st.

(** The order that trims leg [s] by [diff]: a market order of the other side. *)
Definition trim_leg (s : OrderSide) (diff to_qty : f64) (st : entry_state) : ST (World B) entry_state :=
  (let! secs := unix_secs in
   let! r := place_market_order (order_template opp s (opposite s) Market (price_of s opp) diff secs) in
   ret match r with Ok _ => set_leg_size s to_qty st | Err _ => st end)%st.

(** Both legs filled with different quantities: the larger one is trimmed. *)
Definition balance_legs (long_qty short_qty : f64) (st : entry_state) : ST (World B) entry_state :=
  if (fabs (long_qty - short_qty) >? 0.001%f64)%F then
    if (long_qty >? short_qty)%F
    then trim_leg Long (long_qty - short_qty)%F short_qty st
    else trim_leg Short (short_qty - long_qty)%F long_qty st
  else ret st.

(** The hedge failed: the filled leg [s] is closed, and the error says whether
    that worked. *)
Definition close_after_failed_hedge {A} (s : OrderSide) (e : hedge_error) (st : entry_state)
  : ST (World B) (result A entry_real_error) :=
  (let! r := emergency_close_position (leg_order s st) in
   match r with
   | Err close_err => ret (Err (RHedgeAndCloseFailed (opposite s) e close_err))
   | Ok _ => ret (Err (RHedgeFailed (opposite s) e))
   end)%st.

(** The depth check of a hedge: a critical book closes the filled leg [s]; a
    failed check is ignored. *)
Definition hedge_depth_check (s : OrderSide) (quantity : f64) (st : entry_state)
  : ST (World B) (result entry_state entry_real_error) :=
  (let! '(depth, cache) := check_depth_for_hedge (so_exchange (leg_order (opposite s) st))
                             (ao_symbol opp) quantity (es_depth st) in
   let st := set_depth cache st in
   match depth with
   | Ok hedge_depth =>
       if should_abort hedge_depth then
         let? _ := mapE RCloseFailed (emergency_close_position (leg_order s st)) in
         ret (Err (RHedgeDepth (opposite s) (dc_depth_ratio hedge_depth)))
       else ret (Ok st)
   | Err _ => ret (Ok st)
   end)%st.

(** The market hedge of the unfilled leg, for the quantity [quantity]. *)
Definition market_hedge (s : OrderSide) (quantity : f64) (metrics : HedgeTimingMetrics)
  (st : entry_state) : ST (World B) (result entry_state entry_real_error) :=
  (let h := opposite s in
   let! secs := unix_secs in
   let template := order_template opp h h Market (price_of h opp) quantity secs in
   do! cancel_order (so_exchange (leg_order h st)) (so_id (leg_order h st)) in
   let! r := place_market_order_with_retry template quantity (Some metrics) in
   match fst r with
   | Ok filled_order => ret (Ok (set_leg h (set_lg_filled (set_lg_order filled_order (es_leg h st))) st))
   | Err e => close_after_failed_hedge s e st
   end)%st.

(** What follows the fill of leg [s] under the hedge lock. *)
Definition settle_other_leg (s : OrderSide) (fill_quantity : f64) (metrics : HedgeTimingMetrics)
  (st : entry_state) : ST (World B) (result control entry_real_error) :=
  (let! both := check_both_legs_status (leg_order Long st) (leg_order Short st) in
   match both with
   | Ok (BothFilled long_qty short_qty) =>
       let! st := balance_legs long_qty short_qty st in
       let! secs := unix_secs in
       let h := opposite s in
       let qty := match h with Long => long_qty | Short => short_qty end in
       ret (Ok (Continue (set_leg h (mark_filled secs qty (es_leg h st)) st)))
   | _ =>
       let? st := hedge_depth_check s fill_quantity st in
       let? st := market_hedge s fill_quantity metrics st in
       ret (Ok (Fall st))
   end)%st.

Definition on_filled (s : OrderSide) (status_info : OrderStatusInfo) (st : entry_state)
  : ST (World B) (result control entry_real_error) :=
  (let! secs := unix_secs in
   let st := set_leg s (mark_filled secs (osi_filled_quantity status_info) (es_leg s st)) st in
   let! now := instant_now in
   let metrics := HedgeTimingMetrics_new now in
   if filled (opposite s) st then ret (Ok (Fall st))
   else with_hedge_lock (ao_symbol opp) RLock
          (settle_other_leg s (osi_filled_quantity status_info) metrics st))%st.

(** ** A turn of the polling loop *)
Definition check_leg (s : OrderSide) (st : entry_state)
  : ST (World B) (result control entry_real_error) :=
  if filled s st then ret (Ok (Fall st)) else
  (let! r := get_order_status_detailed (so_exchange (leg_order s st)) (so_id (leg_order s st)) (ao_symbol opp) in
   match r with
   | Ok status_info =>
       if is_fully_filled status_info then on_filled s status_info st
       else if is_partially_filled status_info then ret (Ok (Fall st))
       else if decide (osi_status status_info = Cancelled) then ret (Ok (Break st))
       else ret (Ok (Fall st))
   | Err _ => ret (Ok (Fall st))
   end)%st.

(** The count is a [u32] below [max_reprices], so its increment cannot wrap. *)
Definition chase_leg (s : OrderSide) (st : entry_state) : ST (World B) entry_state :=
  let l := es_leg s st in
  if negb (lg_filled l) && (lg_reprice_count l <? max_reprices config) then
    (let! r := get_best_price_for_order (lg_order l) in
     match r with
     | Ok best_price =>
         if should_reprice config (so_price (lg_order l)) best_price then
           let! r := reprice_order (lg_order l) best_price (lg_metrics l) in
           ret match r with
               | Ok (new_order, metrics) =>
                   set_leg s {| lg_order := new_order; lg_filled := lg_filled l;
                                lg_reprice_count := lg_reprice_count l + 1; lg_metrics := metrics |} st
               | Err _ => st
               end
         else ret st
     | Err _ => ret st
     end)%st
  else ret st.

Definition cancel_both (st : entry_state) : ST (World B) unit :=
  (do! cancel_order (so_exchange (leg_order Long st)) (so_id (leg_order Long st)) in
   do! cancel_order (so_exchange (leg_order Short st)) (so_id (leg_order Short st)) in
   ret tt)%st.

Definition spread_of (long_price short_price : f64) : f64 :=
  (((short_price - long_price) / long_price) * 10000.0%f64)%F.

Definition initial_spread_bps : f64 := spread_of (ao_long_price opp) (ao_short_price opp).

Definition check_spread (st : entry_state) : ST (World B) (result unit entry_real_error) :=
  if negb (filled Long st) && negb (filled Short st) then
    let current_spread_bps := spread_of (so_price (leg_order Long st)) (so_price (leg_order Short st)) in
    let spread_change := fabs (initial_spread_bps - current_spread_bps)%F in
    if (spread_change >? spread_collapse_threshold_bps config)%F then
      (do! cancel_both st in
       ret (Err (RSpreadCollapsed initial_spread_bps current_spread_bps)))%st
    else ret (Ok tt)
  else ret (Ok tt).

Definition check_max_reprices (s : OrderSide) (st : entry_state)
  : ST (World B) (result unit entry_real_error) :=
  if (max_reprices config <=? lg_reprice_count (es_leg s st)) && negb (filled s st) then
    (do! cancel_both st in ret (Err (RMaxReprices s (max_reprices config))))%st
  else ret (Ok tt).

(** A leg's part of the body: its status, then its price. *)
Definition poll_leg (s : OrderSide) (st : entry_state)
  : ST (World B) (result control entry_real_error) :=
  (let? c := check_leg s st in
   match c with
   | Fall st => let! st := chase_leg s st in ret (Ok (Fall st))
   | c => ret (Ok c)
   end)%st.

(** The two copies in the source. *)
Definition poll_long := poll_leg Long.
Definition poll_short := poll_leg Short.

Definition poll_turn (st : entry_state) : ST (World B) (result control entry_real_error) :=
  (do! sleep_ms (reprice_interval_ms config) in
   let? c := poll_long st in
   match c with
   | Fall st =>
       let? c := poll_short st in
       match c with
       | Fall st =>
           let? _ := check_spread st in
           let? _ := check_max_reprices Long st in
           let? _ := check_max_reprices Short st in
           ret (Ok (if filled Long st && filled Short st then Break st else Fall st))
       | c => ret (Ok c)
       end
   | c => ret (Ok c)
   end)%st.

(** [while start.elapsed() < timeout && (!long_filled || !short_filled)];
    [None] when the fuel ran out. *)
Fixpoint poll_loop (fuel : nat) (start timeout_ns : Z) (st : entry_state)
  : ST (World B) (option (result entry_state entry_real_error)) :=
  match fuel with
  | O => ret None
  | S fuel =>
      (let! now := instant_now in
       if (now - start <? timeout_ns) && (negb (filled Long st) || negb (filled Short st)) then
         let! r := poll_turn st in
         match r with
         | Err e => ret (Some (Err e))
         | Ok (Break st) => ret (Some (Ok st))
         | Ok (Fall st) | Ok (Continue st) => poll_loop fuel start timeout_ns st
         end
       else ret (Some (Ok st)))%st
  end.

(** ** After the loop *)
Definition final_status (s : OrderSide) (st : entry_state) : ST (World B) entry_state :=
  (let! r := get_order_status_detailed (so_exchange (leg_order s st)) (so_id (leg_order s st)) (ao_symbol opp) in
   ret match r with
       | Ok i =>
           if is_fully_filled i
           then set_leg s (set_lg_filled (set_lg_order
                  (set_so_size (osi_filled_quantity i) (set_so_status Filled (leg_order s st))) (es_leg s st))) st
           else st
       | Err _ => st
       end)%st.

Definition final_check (st : entry_state) : ST (World B) (result entry_state entry_real_error) :=
  if negb (filled Long st) && negb (filled Short st) then
    (let! st := final_status Long st in
     let! st := final_status Short st in
     if negb (filled Long st) && negb (filled Short st) then
       do! cancel_both st in ret (Err RNeitherFilled)
     else ret (Ok st))%st
  else ret (Ok st).

(** The aggressive limit order of a final hedge on leg [h] for [remaining]: the
    total filled so far, and the order when it filled completely. *)
Definition aggressive_limit (h : OrderSide) (remaining total_filled : f64)
  : ST (World B) (f64 * option SimulatedOrder) :=
  (let! best := match h with
                | Short => get_best_bid (exchange_of h opp) (ao_symbol opp)
                | Long => get_best_ask (exchange_of h opp) (ao_symbol opp)
                end in
   match best with
   | Err _ => ret (total_filled, None)
   | Ok best_price =>
       let! uuid := new_uuid in
       let! secs := unix_secs in
       let limit_order := set_so_id ("aggressive_hedge_" +:+ uuid)
         (order_template opp h h Limit best_price remaining secs) in
       let! placed := place_order limit_order in
       match placed with
       | Err _ => ret (total_filled, None)
       | Ok placed_order =>
           do! sleep_ms 2000 in
           let! r := get_order_status_detailed (exchange_of h opp) (so_id placed_order) (ao_symbol opp) in
           match r with
           | Ok i =>
               let total_filled := (total_filled + osi_filled_quantity i)%F in
               if (osi_filled_quantity i >=? remaining)%F
               then ret (total_filled, Some (set_so_size total_filled placed_order))
               else do! cancel_order (exchange_of h opp) (so_id placed_order) in ret (total_filled, None)
           | Err _ => do! cancel_order (exchange_of h opp) (so_id placed_order) in ret (total_filled, None)
           end
       end
   end)%st.

(** The market order for what the aggressive limit left open. *)
Definition final_market (s : OrderSide) (remaining : f64) (metrics : HedgeTimingMetrics)
  (st : entry_state) : ST (World B) (result entry_state entry_real_error) :=
  (let h := opposite s in
   let! secs := unix_secs in
   let template := order_template opp h h Market (price_of h opp) remaining secs in
   let! r := place_market_order_with_retry template remaining (Some metrics) in
   match fst r with
   | Ok filled_order => ret (Ok (set_leg h (set_lg_filled (set_lg_order filled_order (es_leg h st))) st))
   | Err e => close_after_failed_hedge s e st
   end)%st.

(** Leg [h] hedged by [total]. *)
Definition hedged_by (h : OrderSide) (total : f64) (st : entry_state) : entry_state :=
  set_leg h (set_lg_filled (es_leg h (set_leg_size h total st))) st.

(** The body of the final hedge, under the lock. *)
Definition final_hedge_body (s : OrderSide) (st : entry_state)
  : ST (World B) (result entry_state entry_real_error) :=
  (let h := opposite s in
   let! now := instant_now in
   let metrics := HedgeTimingMetrics_new now in
   let hedge_quantity := so_size (leg_order s st) in
   let? st := hedge_depth_check s hedge_quantity st in
   let o := leg_order h st in
   do! cancel_order (so_exchange o) (so_id o) in
   let! r := get_order_status_detailed (so_exchange o) (so_id o) (ao_symbol opp) in
   let total_filled := match r with
                       | Ok i => (0.0%f64 + osi_filled_quantity i)%F
                       | Err _ => 0.0%f64
                       end in
   if (total_filled >=? hedge_quantity)%F then ret (Ok (hedged_by h total_filled st))
   else
     let remaining_after_cancel := (hedge_quantity - total_filled)%F in
     let! '(total_filled, limit) := aggressive_limit h remaining_after_cancel total_filled in
     let st := match limit with
               | Some placed => set_leg h (set_lg_filled (set_lg_order placed (es_leg h st))) st
               | None => st
               end in
     if (total_filled >=? hedge_quantity)%F then ret (Ok (hedged_by h total_filled st))
     else final_market s (hedge_quantity - total_filled)%F metrics st)%st.

(** [s] is the leg that filled. *)
Definition final_hedge (s : OrderSide) (st : entry_state)
  : ST (World B) (result entry_state entry_real_error) :=
  if filled s st && negb (filled (opposite s) st)
  then with_hedge_lock (ao_symbol opp) RLock (final_hedge_body s st)
  else ret (Ok st).

(** The two copies in the source: the short leg is hedged when the long one
    filled, and the other way round. *)
Definition hedge_short_leg := final_hedge Long.
Definition hedge_long_leg := final_hedge Short.

Definition place_exit (s : OrderSide) (price quantity : f64) (secs : Z)
  : ST (World B) (option SimulatedOrder) :=
  (let! r := place_order (order_template opp s (opposite s) Limit price quantity secs) in
   ret match r with Ok order => Some order | Err _ => None end)%st.

(** The exit orders and the trade. *)
Definition complete_entry (now : Z) (position_size : f64) (st : entry_state)
  : ST (World B) PaperTrade :=
  (let! trade_id := new_uuid in
   let spread_amount := (ao_short_price opp - ao_long_price opp)%F in
   let target_capture := (spread_amount * 0.9%f64)%F in
   let long_exit_price := (ao_long_price opp + target_capture)%F in
   let short_exit_price := (ao_short_price opp - target_capture)%F in
   let stop_loss_spread := (spread_amount * 1.3%f64)%F in
   let long_stop_price := (ao_short_price opp - stop_loss_spread)%F in
   let short_stop_price := (ao_long_price opp + stop_loss_spread)%F in
   let! secs1 := unix_secs in
   let! secs2 := unix_secs in
   let! long_exit_order := place_exit Long long_exit_price (so_size (leg_order Long st)) secs1 in
   let! short_exit_order := place_exit Short short_exit_price (so_size (leg_order Short st)) secs2 in
   ret {| pt_id := trade_id; pt_symbol := ao_symbol opp; pt_long_exchange := ao_long_exchange opp;
          pt_short_exchange := ao_short_exchange opp; pt_entry_time := now;
          pt_entry_long_price := ao_long_price opp; pt_entry_short_price := ao_short_price opp;
          pt_entry_spread_bps := initial_spread_bps; pt_position_size_usd := position_size;
          pt_funding_delta_entry := ao_funding_delta_8h opp;
          pt_projected_profit_usd := ao_projected_profit_after_slippage opp;
          pt_actual_profit_usd := 0.0%f64; pt_status := TActive; pt_exit_reason := None;
          pt_exit_spread_bps := None; pt_exit_time := None; pt_long_order := leg_order Long st;
          pt_short_order := leg_order Short st; pt_long_exit_order := long_exit_order;
          pt_short_exit_order := short_exit_order; pt_stop_loss_triggered := false;
          pt_stop_loss_long_price := long_stop_price; pt_stop_loss_short_price := short_stop_price;
          pt_leg_out_event := None |})%st.

(** The steps up to the limit orders: nothing is at risk before them. *)
Definition pre_trade (available_capital position_size : f64)
  : ST (World B) (result (f64 * Z * depth_cache) entry_real_error) :=
  (let! halted := is_trading_halted in
   if (halted : bool) then ret (Err RHalted)
   else if (position_size <=? 0.0%f64)%F then ret (Err RPositionNotPositive)
   else if (position_size >? available_capital)%F
   then ret (Err (RExceedsCapital position_size available_capital))
   else
     let! now := unix_secs in
     let? quantity := contract_quantity position_size in
     let? _ := check_balances position_size in
     do! prepare_exchanges in
     let? cache := preflight_depth quantity DepthChecker_new in
     ret (Ok (quantity, now, cache)))%st.

(** The steps after the polling loop. *)
Definition post_loop (now : Z) (position_size : f64) (st : entry_state)
  : ST (World B) (result PaperTrade entry_real_error) :=
  (let? st := final_check st in
   let? st := hedge_short_leg st in
   let? st := hedge_long_leg st in
   if negb (filled Long st) || negb (filled Short st) then ret (Err RShouldNotHappen)
   else let! t := complete_entry now position_size st in ret (Ok t))%st.

Definition timeout_ns : Z := total_timeout_seconds config * 1000 * 1000000.

Definition entry_with_config (fuel : nat) (available_capital position_size : f64)
  : ST (World B) (option (result PaperTrade entry_real_error)) :=
  (let! p := pre_trade available_capital position_size in
   match p with
   | Err e => ret (Some (Err e))
   | Ok (quantity, now, cache) =>
       let! r := place_both quantity now cache in
       match r with
       | Err e => ret (Some (Err e))
       | Ok st =>
           let! start := instant_now in
           let! r := poll_loop fuel start timeout_ns st in
           match r with
           | None => ret None
           | Some (Err e) => ret (Some (Err e))
           | Some (Ok st) => let! r := post_loop now position_size st in ret (Some r)
           end
       end
   end)%st.
End entry.

Definition execute_atomic_entry_real {B} `{Backend B} (fuel : nat) (opportunity : ArbitrageOpportunity)
  (available_capital position_size : f64) : ST (World B) (option (result PaperTrade entry_real_error)) :=
  entry_with_config opportunity (from_confidence (f_of_Z (ao_confidence_score opportunity)))
    fuel available_capital position_size.
