(* ===== verification/EntryRealSpec.v ===== *)
(** What [EntryReal.v] guarantees: locks and the trading halt, no order before
    the checks, no leg left alone by the polling loop, the exit orders,
    termination; and concrete runs of the behaviours that surprise. *)
From Stdlib Require Import ZArith Lia Bool.
From stdpp Require Import base option list gmap strings pretty.
From S2P Require Import Prelude Float64 Types Backend DepthChecker PriceChaser ScriptedBackend AtomicExecution Entry EntryReal.

#[local] Open Scope Z_scope.

(** ** Stages

    A stage of the function keeps the hedge locks as they were, answers only
    errors that satisfy [P], and halts trading exactly when it reports a failed
    emergency close. *)
Definition close_failed (e : entry_real_error) : bool :=
  match e with RCloseFailed _ | RHedgeAndCloseFailed _ _ _ => true | _ => false end.

Definition failed_close {A} (r : result A entry_real_error) : bool :=
  match r with Ok _ => false | Err e => close_failed e end.

Definition outcome {A B} (P : entry_real_error -> bool) (w : World B)
  (r : result A entry_real_error) (w' : World B) : Prop :=
  w_hedge_locks w' = w_hedge_locks w /\ w_halted w' = (w_halted w || failed_close r)%bool /\
  match r with Ok _ => True | Err e => P e = true end.

Definition stage {A B} (P : entry_real_error -> bool) (m : ST (World B) (result A entry_real_error)) : Prop :=
  forall w, outcome P w (fst (m w)) (snd (m w)).

(** A computation that touches neither the locks nor the halt. *)
Definition quiet {A B} (m : ST (World B) A) : Prop := respects (tame (fun _ => True)) m.

Section stages.
Context {B : Type} `{Backend B}.
Implicit Types P : entry_real_error -> bool.

Lemma stage_ok {A} P (a : A) : stage (B:=B) P (ret (Ok a)).
Proof. intros w. unfold outcome. cbn. rewrite orb_false_r. auto. Qed.

Lemma stage_err {A} P e : close_failed e = false -> P e = true -> stage (A:=A) (B:=B) P (ret (Err e)).
Proof. intros Hc Hp w. unfold outcome. cbn. rewrite Hc, orb_false_r. auto. Qed.

Lemma stage_bind_ok {A C} P (m : ST (World B) (result A entry_real_error))
  (k : A -> ST (World B) (result C entry_real_error)) :
  stage P m -> (forall a, stage P (k a)) -> stage P (bind_ok m k).
Proof.
  intros Hm Hk w. unfold bind_ok. specialize (Hm w). destruct (m w) as [[a | e] w1]; [| exact Hm].
  destruct Hm as (Hl & Hh & _). destruct (Hk a w1) as (Hl2 & Hh2 & Hp). cbn in *.
  rewrite orb_false_r in Hh. unfold outcome. rewrite Hl2, Hh2, Hl, Hh. auto.
Qed.

Lemma stage_bind {A C} P (m : ST (World B) A) (k : A -> ST (World B) (result C entry_real_error)) :
  quiet m -> (forall a, stage P (k a)) -> stage P (bind m k).
Proof.
  intros Hm Hk w. unfold bind. specialize (Hm w). destruct (m w) as [a w1].
  destruct Hm as (Hl & Hh & _). destruct (Hk a w1) as (Hl2 & Hh2 & Hp). cbn in *.
  unfold outcome. rewrite Hl2, Hh2, Hl, Hh. auto.
Qed.

(** An error computed without touching the world. *)
Lemma stage_pure {A} P (r : result A entry_real_error) :
  match r with Ok _ => True | Err e => close_failed e = false /\ P e = true end ->
  stage (B:=B) P (ret r).
Proof. destruct r; intros Hr; [apply stage_ok | apply stage_err; tauto]. Qed.

Lemma stage_quiet_mapE {A E} P (f : E -> entry_real_error) (m : ST (World B) (result A E)) :
  (forall e, close_failed (f e) = false /\ P (f e) = true) -> quiet m -> stage P (mapE f m).
Proof.
  intros Hf Hm w. unfold mapE. specialize (Hm w). destruct (m w) as [[a | e] w1];
    destruct Hm as (Hl & Hh & _); unfold outcome; cbn in *.
  - rewrite orb_false_r. auto.
  - destruct (Hf e) as [-> ?]. rewrite orb_false_r. auto.
Qed.

Lemma stage_lock {A} P symbol (m : ST (World B) (result A entry_real_error)) :
  (forall e, P (RLock e) = true) -> stage P m -> stage P (with_hedge_lock symbol RLock m).
Proof.
  intros Hp Hm w.
  pose proof (with_hedge_lock_cases symbol RLock m w (fun w1 => proj1 (Hm w1))) as Hcase.
  unfold with_hedge_lock, try_acquire in *. case_decide as Hin.
  - unfold outcome. cbn. rewrite orb_false_r. auto.
  - specialize (Hm (set_hedge_locks ({[symbol]} ∪ w_hedge_locks w) w)).
    destruct (m _) as [r w1]. destruct Hcase as [Hl _]. destruct Hm as (_ & Hh & He).
    unfold outcome. cbn in *. auto.
Qed.

Lemma stage_close P o :
  (forall e, P (RCloseFailed e) = true) ->
  stage (B:=B) P (mapE RCloseFailed (emergency_close_position o)).
Proof.
  intros Hp w. pose proof (emergency_close_post o w) as Hc. unfold wp, mapE in *.
  destruct (emergency_close_position o w) as [[[] | e] w1]; destruct Hc as (Hl & Hh & _);
    unfold outcome; cbn in *; auto.
Qed.

Lemma stage_failed_hedge {A} P s e st :
  (forall h e, P (RHedgeFailed h e) = true) -> (forall h e c, P (RHedgeAndCloseFailed h e c) = true) ->
  stage (A:=A) (B:=B) P (close_after_failed_hedge s e st).
Proof.
  intros H1 H2 w. pose proof (emergency_close_post (leg_order s st) w) as Hc.
  unfold close_after_failed_hedge, bind. unfold wp in Hc.
  destruct (emergency_close_position _ w) as [[[] | e'] w1]; destruct Hc as (Hl & Hh & _);
    unfold outcome; cbn in *; auto.
Qed.
End stages.

(** ** The frame of each part *)
Section frames.
Context {B : Type} `{Backend B}.

Lemma quiet_depth e s q c : quiet (check_depth_for_hedge e s q c : ST (World B) _).
Proof. intros w. eapply tame_mono; [| apply (check_depth_tame e s q c (fun _ => True)); auto]. auto. Qed.

Lemma quiet_retry t q m : quiet (place_market_order_with_retry t q m : ST (World B) _).
Proof. eapply respects_tame_mono; [| apply market_retry_tame]. auto. Qed.

Lemma quiet_both lo so : quiet (check_both_legs_status lo so : ST (World B) _).
Proof. apply check_both_legs_tame. auto. Qed.

Lemma quiet_reprice o p m : quiet (reprice_order o p m : ST (World B) _).
Proof. apply reprice_tame; auto. Qed.

Lemma quiet_best o : quiet (get_best_price_for_order o : ST (World B) _).
Proof. apply best_price_tame; auto. Qed.
End frames.

(** Decomposes a body into quiet computations. *)
Ltac solve_quiet :=
  repeat first
  [ apply quiet_depth | apply quiet_retry | apply quiet_both | apply quiet_reprice | apply quiet_best
  | progress unfold quiet
  | respects_step
  | lazymatch goal with
    | |- respects _ (lift_rt _) => apply respects_rt
    | |- respects _ (lift_call _ _) => apply respects_call; intros ?; exact I
    | |- respects _ _ => first [solve [eauto with arb] | progress unfold_call]
    end ].

(** Decomposes a body into stages; the errors are computed. *)
Ltac stage_step :=
  lazymatch goal with
  | |- stage _ (ret (Ok _)) => apply stage_ok
  | |- stage _ (ret (Err _)) => apply stage_err; reflexivity
  | |- stage _ (bind_ok _ _) => apply stage_bind_ok; [| intros ?]
  | |- stage _ (bind _ _) => apply stage_bind; [solve [solve_quiet] | intros ?]
  | |- stage _ (with_hedge_lock _ _ _) => apply stage_lock; [reflexivity |]
  | |- stage _ (mapE RCloseFailed (emergency_close_position _)) => apply stage_close; reflexivity
  | |- stage _ (mapE _ _) => apply stage_quiet_mapE; [split; reflexivity | solve [solve_quiet]]
  | |- stage _ (close_after_failed_hedge _ _ _) => apply stage_failed_hedge; reflexivity
  | |- stage _ (if ?b then _ else _) => destruct b
  | |- stage _ (match ?x with _ => _ end) => destruct x
  end.

(** Errors raised once a limit order may be open. *)
Definition trade_error (e : entry_real_error) : bool :=
  match e with
  | RPlaceFailed _ _ | RLock _ | RHedgeDepth _ _ | RCloseFailed _ | RHedgeFailed _ _
  | RHedgeAndCloseFailed _ _ _ | RSpreadCollapsed _ _ | RMaxReprices _ _ | RNeitherFilled
  | RShouldNotHappen => true
  | _ => false
  end.

(** Errors of a hedge: the leg that filled was closed, could not be closed, or
    was left as it is (the lock). *)
Definition settle_error (e : entry_real_error) : bool :=
  match e with
  | RLock _ | RHedgeDepth _ _ | RCloseFailed _ | RHedgeFailed _ _ | RHedgeAndCloseFailed _ _ _ => true
  | _ => false
  end.

Lemma settle_is_trade e : settle_error e = true -> trade_error e = true.
Proof. now destruct e. Qed.

Section parts.
Context {B : Type} `{Backend B}.
Variables (opp : ArbitrageOpportunity) (config : RepricingConfig).

Lemma stage_mono {A} (P Q : entry_real_error -> bool) (m : ST (World B) (result A entry_real_error)) :
  (forall e, P e = true -> Q e = true) -> stage P m -> stage Q m.
Proof.
  intros Hpq Hm w. destruct (Hm w) as (? & ? & Hr). split; [| split]; auto. destruct (fst (m w)); auto.
Qed.

Lemma quiet_balance lq sq st : quiet (balance_legs opp lq sq st : ST (World B) _).
Proof. unfold balance_legs, trim_leg. solve_quiet. Qed.

Lemma stage_hedge_depth s q st : stage settle_error (hedge_depth_check opp s q st : ST (World B) _).
Proof. unfold hedge_depth_check. repeat stage_step. Qed.

Lemma stage_market_hedge s q m st : stage settle_error (market_hedge opp s q m st : ST (World B) _).
Proof. unfold market_hedge. repeat stage_step. Qed.

Lemma stage_settle s q m st : stage settle_error (settle_other_leg opp s q m st : ST (World B) _).
Proof.
  unfold settle_other_leg. apply stage_bind; [solve_quiet |].
  assert (Hh : forall st, stage settle_error
    (bind_ok (hedge_depth_check opp s q st) (fun st => bind_ok (market_hedge opp s q m st)
       (fun st => ret (Ok (Fall st)))) : ST (World B) _)).
  { intros st'. apply stage_bind_ok; [apply stage_hedge_depth | intros ?].
    apply stage_bind_ok; [apply stage_market_hedge | intros ?; apply stage_ok]. }
  intros [[] | e]; auto. apply stage_bind; [apply quiet_balance | intros ?]. repeat stage_step.
Qed.

Lemma stage_on_filled s i st : stage settle_error (on_filled opp s i st : ST (World B) _).
Proof. unfold on_filled. repeat (apply stage_settle || stage_step). Qed.

Lemma stage_check_leg s st : stage settle_error (check_leg opp s st : ST (World B) _).
Proof. unfold check_leg. repeat (apply stage_on_filled || stage_step). Qed.

Lemma quiet_chase s st : quiet (chase_leg config s st : ST (World B) _).
Proof. unfold chase_leg. solve_quiet. Qed.

Lemma stage_poll_leg s st : stage settle_error (poll_leg opp config s st : ST (World B) _).
Proof.
  unfold poll_leg. apply stage_bind_ok; [apply stage_check_leg | intros []]; [| apply stage_ok ..].
  apply stage_bind; [apply quiet_chase | intros ?; apply stage_ok].
Qed.

Lemma quiet_cancel_both st : quiet (cancel_both st : ST (World B) _).
Proof. unfold cancel_both. solve_quiet. Qed.

Lemma stage_poll_turn st : stage trade_error (poll_turn opp config st : ST (World B) _).
Proof.
  unfold poll_turn, poll_long, poll_short. apply stage_bind; [solve_quiet | intros ?].
  apply stage_bind_ok; [eapply stage_mono; [apply settle_is_trade | apply stage_poll_leg] | intros []];
    [| apply stage_ok ..].
  apply stage_bind_ok; [eapply stage_mono; [apply settle_is_trade | apply stage_poll_leg] | intros []];
    [| apply stage_ok ..].
  unfold check_spread, check_max_reprices, cancel_both. repeat stage_step.
Qed.

Lemma quiet_final_status s st : quiet (final_status opp s st : ST (World B) _).
Proof. unfold final_status. solve_quiet. Qed.

Lemma quiet_aggressive h r t : quiet (aggressive_limit opp h r t : ST (World B) _).
Proof. unfold aggressive_limit. solve_quiet. Qed.

Lemma stage_final_hedge s st : stage settle_error (final_hedge opp s st : ST (World B) _).
Proof.
  unfold final_hedge, final_hedge_body, final_market.
  repeat lazymatch goal with
  | |- stage _ (hedge_depth_check _ _ _ _) => apply stage_hedge_depth
  | |- stage _ (bind (aggressive_limit _ _ _ _) _) => apply stage_bind; [apply quiet_aggressive | intros ?]
  | |- _ => stage_step
  end.
Qed.

Lemma quiet_complete now p st : quiet (complete_entry opp now p st : ST (World B) _).
Proof. unfold complete_entry, place_exit. solve_quiet. Qed.

Lemma stage_final_check st : stage trade_error (final_check opp st : ST (World B) _).
Proof.
  unfold final_check. destruct (_ && _)%bool; [| apply stage_ok].
  apply stage_bind; [apply quiet_final_status | intros ?].
  apply stage_bind; [apply quiet_final_status | intros ?].
  destruct (_ && _)%bool; [| apply stage_ok]. apply stage_bind; [apply quiet_cancel_both | intros ?].
  repeat stage_step.
Qed.

Lemma stage_post_loop now p st : stage trade_error (post_loop opp now p st : ST (World B) _).
Proof.
  unfold post_loop, hedge_short_leg, hedge_long_leg. apply stage_bind_ok; [apply stage_final_check | intros ?].
  apply stage_bind_ok; [eapply stage_mono; [apply settle_is_trade | apply stage_final_hedge] | intros ?].
  apply stage_bind_ok; [eapply stage_mono; [apply settle_is_trade | apply stage_final_hedge] | intros ?].
  destruct (_ || _)%bool; [repeat stage_step |].
  apply stage_bind; [apply quiet_complete | intros ?; apply stage_ok].
Qed.

Lemma stage_place_both q now c : stage trade_error (place_both opp q now c : ST (World B) _).
Proof. unfold place_both. repeat stage_step. Qed.
End parts.

(** ** Locks, halting and the checks before the orders *)

(** The outcome of a part that may run out of fuel. *)
Definition outcome_opt {A B} (P : entry_real_error -> bool) (w : World B)
  (r : option (result A entry_real_error)) (w' : World B) : Prop :=
  match r with
  | Some r => outcome P w r w'
  | None => w_hedge_locks w' = w_hedge_locks w /\ w_halted w' = w_halted w
  end.

Section whole.
Context {B : Type} `{Backend B}.
Variables (opp : ArbitrageOpportunity) (config : RepricingConfig).

Lemma outcome_after {A} P (w w1 w2 : World B) (r : option (result A entry_real_error)) :
  w_hedge_locks w1 = w_hedge_locks w -> w_halted w1 = w_halted w ->
  outcome_opt P w1 r w2 -> outcome_opt P w r w2.
Proof. intros Hl Hh. destruct r as [r |]; cbn; unfold outcome; now rewrite Hl, Hh. Qed.

Lemma outcome_stage {A} P (m : ST (World B) (result A entry_real_error)) w :
  stage P m -> wp m (outcome P w) w.
Proof. intros Hm. specialize (Hm w). unfold wp. now destruct (m w). Qed.

Lemma poll_loop_outcome fuel start t st (w : World B) :
  wp (poll_loop opp config fuel start t st) (outcome_opt trade_error w) w.
Proof.
  revert st w. induction fuel as [| fuel IH]; intros st w; cbn [poll_loop]; [apply wp_ret; now split |].
  do 2 wp_step. set (w1 := after_rt w b). destruct (_ && _)%bool.
  - wp_step. eapply wp_mono; [apply (outcome_stage trade_error), stage_poll_turn |].
    intros [[] | e] w2 Ho; [| | apply wp_ret .. ]; try exact Ho;
      destruct Ho as (Hl & Hh & _); cbn in Hh; rewrite orb_false_r in Hh;
      (eapply wp_mono; [apply IH | intros r w3; now apply outcome_after]).
  - apply wp_ret. exact (outcome_stage trade_error (ret (Ok st)) w1 (stage_ok trade_error st)).
Qed.

(** The calls that place no order. *)
Definition no_order (c : call) : Prop := is_order_call c = false.

Lemma respects_depth_no_order e s q c : respects (tame no_order) (check_depth_for_hedge e s q c : ST (World B) _).
Proof.
  intros w. eapply tame_mono; [| apply (check_depth_tame e s q c (fun c => no_order c)); reflexivity]. auto.
Qed.

Lemma pre_trade_no_order cap size :
  respects (tame no_order) (pre_trade opp config cap size : ST (World B) _).
Proof.
  unfold pre_trade, contract_quantity, check_balances, prepare_exchanges, preflight_depth, is_trading_halted.
  repeat first
  [ apply respects_depth_no_order
  | respects_step
  | lazymatch goal with
    | |- respects _ (lift_rt _) => apply respects_rt
    | |- respects _ (lift_call _ _) => apply respects_call; intros ?; reflexivity
    | |- respects _ (fun w => _) => intros w; reflexivity
    | |- respects _ _ => progress unfold_call
    end ].
Qed.

Lemma pre_trade_errors cap size (w : World B) :
  match fst (pre_trade opp config cap size w) with Err e => trade_error e = false | Ok _ => True end.
Proof.
  assert (Hs : stage (B:=B) (fun e => negb (trade_error e)) (pre_trade opp config cap size)).
  { unfold pre_trade, contract_quantity, check_balances, prepare_exchanges, preflight_depth,
      is_trading_halted, depth_ok.
    repeat first
    [ stage_step
    | lazymatch goal with
      | |- stage _ (bind (fun w => (w_halted w, w)) _) => apply stage_bind; [intros ?; reflexivity | intros ?]
      | |- stage _ (ret (if ?b then _ else _)) => destruct b
      end ]. }
  destruct (Hs w) as (_ & _ & He).
  destruct (fst (pre_trade opp config cap size w)); [exact I |]. now apply negb_true_iff in He.
Qed.

Lemma entry_outcome fuel cap size (w : World B) :
  wp (entry_with_config opp config fuel cap size) (fun r w' =>
    outcome_opt (fun _ => true) w r w' /\
    match r with
    | Some (Err e) => trade_error e = false -> tame no_order w w'
    | _ => True
    end) w.
Proof.
  unfold entry_with_config. wp_step.
  apply (wp_respects (tame no_order)); [apply pre_trade_no_order |]. intros p w1 Hp (Hl & Hh & Hx).
  assert (Hpost : forall A (r : option (result A entry_real_error)) w2, outcome_opt trade_error w1 r w2 ->
    outcome_opt (fun _ => true) w r w2 /\
    match r with Some (Err e) => trade_error e = false -> tame no_order w w2 | _ => True end).
  { intros A r w2 Ho. split.
    - apply (outcome_after _ w w1); [assumption .. |]. destruct r as [[] |]; cbn in *; unfold outcome in *; tauto.
    - destruct r as [[a | e] |]; [exact I | | exact I]. destruct Ho as (_ & _ & He). congruence. }
  destruct p as [[[q now] c] | e].
  2:{ apply wp_ret. split; [| intros _; now split]. apply (outcome_after _ w w1); [assumption .. |].
      pose proof (pre_trade_errors cap size w) as He. rewrite Hp in He. cbn in He.
      unfold outcome_opt, outcome. cbn. destruct (close_failed e) eqn:Ec; [| rewrite orb_false_r; auto].
      destruct e; discriminate. }
  wp_step. eapply wp_mono; [apply (outcome_stage trade_error), stage_place_both |].
  intros [st | e] w2 Ho; [| apply wp_ret, Hpost, Ho].
  destruct Ho as (Hl2 & Hh2 & _). cbn in Hh2. rewrite orb_false_r in Hh2.
  do 3 wp_step. set (w3 := after_rt w2 b). eapply wp_mono; [apply poll_loop_outcome |].
  intros [[st' | e'] |] w4 Ho.
  - destruct Ho as (Hl4 & Hh4 & _). cbn in Hh4. rewrite orb_false_r in Hh4.
    change (w_hedge_locks w3) with (w_hedge_locks w2) in Hl4. wp_step. eapply wp_mono; [apply (outcome_stage trade_error), stage_post_loop |].
    intros r w5 Ho. apply wp_ret, (Hpost _ (Some r)). apply (outcome_after _ _ w4); [| | exact Ho]; congruence.
  - apply wp_ret, Hpost. exact (outcome_after _ w1 w3 _ _ Hl2 Hh2 Ho).
  - apply wp_ret, (Hpost PaperTrade None). exact (outcome_after trade_error w1 w3 _ (@None (result PaperTrade _)) Hl2 Hh2 Ho).
Qed.
End whole.

Section entry_theorems.
Context {B : Type} `{Backend B}.

(** C3. The halt comes from a failed emergency close only: after the entry, trading
    is halted exactly if it was before or the error returned is that an emergency
    close failed; the hedge locks are free again whatever happened. *)
Theorem entry_halts_on_failed_close fuel opp cap size (w : World B) :
  wp (execute_atomic_entry_real fuel opp cap size) (fun r w' =>
    w_hedge_locks w' = w_hedge_locks w /\
    w_halted w' = (w_halted w || match r with Some r => failed_close r | None => false end)%bool) w.
Proof.
  eapply wp_mono; [apply entry_outcome |]. intros [r |] w' [Ho _].
  - destruct Ho as (? & ? & _). auto.
  - destruct Ho as [? ->]. rewrite orb_false_r. auto.
Qed.

(** While trading is halted the entry answers at once and touches nothing. *)
Theorem entry_refused_when_halted fuel opp cap size (w : World B) :
  w_halted w = true -> execute_atomic_entry_real fuel opp cap size w = (Some (Err RHalted), w).
Proof.
  intros Hh. unfold execute_atomic_entry_real, entry_with_config, pre_trade, is_trading_halted, bind.
  now rewrite Hh.
Qed.

(** C16. An entry rejected by its checks (halt, size, capital, quantity step,
    balances, depth) has sent no order to any exchange. *)
Theorem entry_rejected_without_orders fuel opp cap size (w : World B) :
  wp (execute_atomic_entry_real fuel opp cap size) (fun r w' =>
    match r with
    | Some (Err e) => trade_error e = false -> extends (fun c => is_order_call c = false) w w'
    | _ => True
    end) w.
Proof.
  eapply wp_mono; [apply entry_outcome |]. intros [[t | e] |] w' [_ Ht]; [exact I | | exact I].
  intros He. now apply Ht.
Qed.
End entry_theorems.

Lemma entry_refused_when_halted_witness :
  execute_atomic_entry_real 31 (depth_opportunity 1.0%f64 1.0%f64) 100.0%f64 10.0%f64
    (set_halted true paper_world) = (Some (Err RHalted), set_halted true paper_world).
Proof.
  exact (entry_refused_when_halted 31 (depth_opportunity 1.0%f64 1.0%f64) 100.0%f64 10.0%f64
    (set_halted true paper_world) eq_refl).
Defined.

(** ** No leg is left alone *)
Lemma es_leg_set s l st : es_leg s (set_leg s l st) = l.
Proof. now destruct s. Qed.
Lemma es_leg_set_other s l st : es_leg (opposite s) (set_leg s l st) = es_leg (opposite s) st.
Proof. now destruct s. Qed.
Lemma es_leg_set_opposite s l st : es_leg s (set_leg (opposite s) l st) = es_leg s st.
Proof. now destruct s. Qed.
Lemma es_leg_depth s c st : es_leg s (set_depth c st) = es_leg s st.
Proof. now destruct s. Qed.
#[export] Hint Rewrite es_leg_set es_leg_set_other es_leg_set_opposite es_leg_depth : arb.

(** Both legs count as filled. *)
Definition both_filled (st : entry_state) : Prop := filled Long st = true /\ filled Short st = true.

Lemma both_filled_of s st : filled s st = true -> filled (opposite s) st = true -> both_filled st.
Proof. destruct s; cbn; unfold both_filled; auto. Qed.

(** A hedge of [q] covers it, up to the test of the retry loop. *)
Definition covers (q size : f64) : Prop :=
  (size >=? q)%F = true \/ (q - size <=? 0.0%f64)%F = true.

(** What the fill of leg [s] with [q] leads to. *)
Definition settled (s : OrderSide) (q : f64) (r : result control entry_real_error) : Prop :=
  match r with
  | Ok (Fall st) => both_filled st /\ so_size (leg_order s st) = q /\
      covers q (so_size (leg_order (opposite s) st))
  | Ok (Continue st) => both_filled st
  | Ok (Break _) => False
  | Err e => settle_error e = true
  end.

Section settle.
Context {B : Type} `{Backend B}.
Variables (opp : ArbitrageOpportunity) (config : RepricingConfig).

(** A stage's errors, next to a property of its answers. *)
Lemma wp_stage {A} P (m : ST (World B) (result A entry_real_error)) (Q : A -> Prop) w :
  stage P m -> wp m (fun r _ => match r with Ok a => Q a | Err _ => True end) w ->
  wp m (fun r _ => match r with Ok a => Q a | Err e => P e = true end) w.
Proof.
  intros Hs Hq. destruct (Hs w) as (_ & _ & He). unfold wp in *. destruct (m w) as [[a | e] w']; auto.
Qed.

Lemma balance_keeps lq sq st (w : World B) :
  wp (balance_legs opp lq sq st) (fun st' _ => forall s, filled s st' = filled s st) w.
Proof.
  unfold balance_legs, trim_leg. repeat destruct_if; [| | now apply wp_ret];
    do 5 wp_step; destruct a0; try easy; intros []; reflexivity.
Qed.

Lemma hedge_depth_ok s q st (w : World B) :
  wp (hedge_depth_check opp s q st) (fun r _ => match r with
    | Ok st' => forall s, es_leg s st' = es_leg s st
    | Err e => settle_error e = true
    end) w.
Proof.
  apply (wp_stage settle_error); [apply stage_hedge_depth |]. unfold hedge_depth_check. wp_step.
  apply (wp_respects (tame (fun _ => True))); [apply quiet_depth |]. intros [[d | e] c] w1 _ _.
  - destruct (should_abort d); [| apply wp_ret; intros; apply es_leg_depth].
    wp_step. wp_step. unfold wp. destruct (emergency_close_position _ _) as [[] ?]; exact I.
  - apply wp_ret. intros. apply es_leg_depth.
Qed.

Lemma market_hedge_ok s q m st (w : World B) :
  wp (market_hedge opp s q m st) (fun r _ => match r with
    | Ok st' => es_leg s st' = es_leg s st /\ filled (opposite s) st' = true /\
        covers q (so_size (leg_order (opposite s) st'))
    | Err e => settle_error e = true
    end) w.
Proof.
  apply (wp_stage settle_error); [apply stage_market_hedge |]. unfold market_hedge.
  do 5 wp_step. set (w1 := after_call _ _ _ _).
  eapply wp_mono; [apply market_attempts_post |]. intros [[o | e] m'] w2 Hp; cbn [fst].
  - apply wp_ret. unfold filled, leg_order. autorewrite with arb. cbn.
    split; [reflexivity |]. split; [reflexivity |].
    destruct Hp as (cs & _ & _ & _ & Hsz & Hcov). unfold covers. now rewrite Hsz.
  - unfold close_after_failed_hedge. wp_step. unfold wp.
    destruct (emergency_close_position _ _) as [[] ?]; exact I.
Qed.

Lemma settle_ok s q m st (w : World B) :
  filled s st = true -> so_size (leg_order s st) = q ->
  wp (settle_other_leg opp s q m st) (fun r _ => settled s q r) w.
Proof.
  intros Hf Hq. unfold settle_other_leg. wp_step.
  apply (wp_respects (tame (fun _ => True))); [apply quiet_both |]. intros both w1 _ _.
  assert (Hh : forall w1, wp (bind_ok (hedge_depth_check opp s q st) (fun st =>
    bind_ok (market_hedge opp s q m st) (fun st => ret (Ok (Fall st))))) (fun r (_ : World B) => settled s q r) w1).
  { intros w2. wp_step. eapply wp_mono; [apply hedge_depth_ok |]. intros [st1 | e] w3 H1; [| exact H1].
    wp_step. eapply wp_mono; [apply market_hedge_ok |]. intros [st2 | e] w4 H2; [| exact H2].
    apply wp_ret. destruct H2 as (Hleg & Hother & Hcov). cbn. split; [| split; [| exact Hcov]].
    - apply (both_filled_of s); [| exact Hother]. unfold filled. now rewrite Hleg, H1.
    - unfold leg_order. now rewrite Hleg, H1. }
  destruct both as [[lq sq | | |] | e]; try apply Hh.
  wp_step. eapply wp_mono; [apply balance_keeps |]. intros st1 w2 Hk. do 3 wp_step. cbv zeta. cbn [settled].
  apply (both_filled_of s); unfold filled; autorewrite with arb; [exact (eq_trans (Hk s) Hf) | reflexivity].
Qed.

Lemma wp_lock {A} symbol (m : ST (World B) (result A entry_real_error))
  (Q : result A entry_real_error -> Prop) w :
  (forall e, Q (Err (RLock e))) -> (forall w', wp m (fun r _ => Q r) w') ->
  wp (with_hedge_lock symbol RLock m) (fun r _ => Q r) w.
Proof.
  intros Hl Hm. unfold wp, with_hedge_lock. destruct (try_acquire _ _) as [locks |]; [| apply Hl].
  specialize (Hm (set_hedge_locks locks w)). unfold wp in Hm. now destruct (m _).
Qed.

Lemma on_filled_ok s i st (w : World B) :
  filled (opposite s) st = false ->
  wp (on_filled opp s i st) (fun r _ => settled s (osi_filled_quantity i) r) w.
Proof.
  intros Ho. unfold on_filled. do 4 wp_step. unfold filled. autorewrite with arb.
  fold (filled (opposite s) st). rewrite Ho. apply wp_lock; [reflexivity |]. intros w1.
  apply settle_ok; unfold filled, leg_order; autorewrite with arb; reflexivity.
Qed.

End settle.

Definition fresh_state (lo so : SimulatedOrder) (c : depth_cache) : entry_state :=
  {| es_long := leg_new lo; es_short := leg_new so; es_depth := c |}.

(** The two legs agree on whether they are filled. *)
Definition even (st : entry_state) : Prop := filled Long st = filled Short st.

Lemma both_even st : both_filled st -> even st.
Proof. unfold both_filled, even. intros [-> ->]. reflexivity. Qed.

Definition even_control (r : result control entry_real_error) : Prop :=
  match r with Ok (Fall st) | Ok (Continue st) | Ok (Break st) => even st | Err _ => True end.

Section even.
Context {B : Type} `{Backend B}.
Variables (opp : ArbitrageOpportunity) (config : RepricingConfig).

Lemma even_opposite s st : even st -> filled (opposite s) st = filled s st.
Proof. unfold even. now destruct s. Qed.

Lemma check_leg_even s st (w : World B) :
  even st -> wp (check_leg opp s st) (fun r _ => even_control r) w.
Proof.
  intros He. unfold check_leg. destruct (filled s st) eqn:Hf; [now apply wp_ret |].
  do 2 wp_step. destruct a as [i | e]; [| now apply wp_ret].
  destruct (is_fully_filled i).
  - eapply wp_mono; [apply on_filled_ok; now rewrite even_opposite |].
    intros [[] | e] w1 Hs; cbn in *; [| | easy ..]; apply both_even; tauto.
  - destruct (is_partially_filled i); [now apply wp_ret |]. case_decide; now apply wp_ret.
Qed.

Lemma chase_keeps s st (w : World B) :
  wp (chase_leg config s st) (fun st' _ => forall s', filled s' st' = filled s' st) w.
Proof.
  unfold chase_leg. destruct (negb _ && _)%bool; [| now apply wp_ret].
  wp_step. apply (wp_respects (tame (fun _ => True))); [apply quiet_best |]. intros [p | e] w1 _ _;
    [| now apply wp_ret].
  destruct (should_reprice _ _ _); [| now apply wp_ret].
  wp_step. apply (wp_respects (tame (fun _ => True))); [apply quiet_reprice |]. intros [[o m] | e] w2 _ _;
    apply wp_ret; [| reflexivity]. intros []; destruct s; reflexivity.
Qed.

Lemma poll_leg_even s st (w : World B) :
  even st -> wp (poll_leg opp config s st) (fun r _ => even_control r) w.
Proof.
  intros He. unfold poll_leg. wp_step. eapply wp_mono; [now apply check_leg_even |].
  intros [[] | e] w1 Hc; try (apply wp_ret; exact Hc); [| exact I].
  wp_step. eapply wp_mono; [apply chase_keeps |]. intros st1 w2 Hk. apply wp_ret. cbn.
  unfold even. now rewrite !Hk.
Qed.

(** A test that ends the function or changes nothing. *)
Lemma wp_check {A} (m : ST (World B) (result unit entry_real_error))
  (k : unit -> ST (World B) (result A entry_real_error)) (Q : result A entry_real_error -> Prop) w :
  (forall e, Q (Err e)) -> (forall w, wp (k tt) (fun r _ => Q r) w) ->
  wp (bind_ok m k) (fun r _ => Q r) w.
Proof.
  intros He Hk. apply wp_bind_ok. unfold wp at 1. destruct (m w) as [[[] | e] w']; auto.
Qed.

Lemma poll_turn_even st (w : World B) :
  even st -> wp (poll_turn opp config st) (fun r _ => even_control r) w.
Proof.
  intros He. unfold poll_turn, poll_long, poll_short. do 3 wp_step. eapply wp_mono; [now apply poll_leg_even |].
  intros [[] | e] w1 Hc; try (apply wp_ret; exact Hc); [| exact I].
  wp_step. eapply wp_mono; [now apply poll_leg_even |].
  intros [[] | e] w2 Hc2; try (apply wp_ret; exact Hc2); [| exact I].
  do 3 (apply wp_check; [easy | intros ?]). apply wp_ret. destruct (_ && _)%bool; exact Hc2.
Qed.

Lemma poll_loop_even fuel start t st (w : World B) :
  even st -> wp (poll_loop opp config fuel start t st) (fun r _ =>
    match r with Some (Ok st') => even st' | _ => True end) w.
Proof.
  revert st w. induction fuel as [| fuel IH]; intros st w He; cbn [poll_loop]; [now apply wp_ret |].
  do 2 wp_step. destruct (_ && _)%bool; [| now apply wp_ret].
  wp_step. eapply wp_mono; [now apply poll_turn_even |].
  intros [[] | e] w1 Hc; try (apply wp_ret; exact Hc); now apply IH.
Qed.

(** C2. The polling loop never hands one filled leg on: however it ends without an
    error, either both legs are filled or neither is.  Only the final check can
    find a single leg filled. *)
Theorem poll_loop_leaves_no_single_leg fuel start t lo so c (w : World B) :
  wp (poll_loop opp config fuel start t (fresh_state lo so c)) (fun r _ =>
    match r with Some (Ok st) => filled Long st = filled Short st | _ => True end) w.
Proof. apply (poll_loop_even fuel start t (fresh_state lo so c)). reflexivity. Qed.
End even.

(** ** The trade *)
Section trade.
Context {B : Type} `{Backend B}.
Variables (opp : ArbitrageOpportunity).

Definition spread_amount : f64 := (ao_short_price opp - ao_long_price opp)%F.

(** The exit orders that the trade holds are the exchange's answers to orders
    that would close each leg: its exchange, the other side, its size, and the
    price that captures nine tenths of the entry spread. *)
Definition exits_match (t : PaperTrade) (cs : list call) : Prop :=
  exists s1 s2 r1 r2,
    cs = [CPlace (order_template opp Long Short Limit
                    (ao_long_price opp + spread_amount * 0.9%f64)%F (so_size (pt_long_order t)) s1) r1;
          CPlace (order_template opp Short Long Limit
                    (ao_short_price opp - spread_amount * 0.9%f64)%F (so_size (pt_short_order t)) s2) r2] /\
    pt_long_exit_order t = match r1 with Ok o => Some o | Err _ => None end /\
    pt_short_exit_order t = match r2 with Ok o => Some o | Err _ => None end.

Lemma complete_entry_spec now size st (w : World B) :
  wp (complete_entry opp now size st) (fun t w' =>
    exists cs, w_calls w' = w_calls w ++ cs /\ exits_match t cs /\
      pt_long_order t = leg_order Long st /\ pt_short_order t = leg_order Short st /\
      pt_entry_time t = now /\ pt_position_size_usd t = size /\ pt_status t = TActive /\
      pt_stop_loss_long_price t = (ao_short_price opp - spread_amount * 1.3%f64)%F /\
      pt_stop_loss_short_price t = (ao_long_price opp + spread_amount * 1.3%f64)%F) w.
Proof.
  unfold complete_entry, place_exit. repeat wp_step. eexists. cbn. rewrite <- app_assoc. split; [reflexivity |].
  repeat split; unfold exits_match; cbn; eauto 8.
Qed.

(** C19. A successful entry ends with its two exit orders: each closes its leg for
    the size the trade records, at the price that captures nine tenths of the
    entry spread, and a refused exit order is recorded as missing. *)
Theorem entry_places_exits fuel cap size (w : World B) :
  wp (execute_atomic_entry_real fuel opp cap size) (fun r w' =>
    match r with
    | Some (Ok t) => (exists before cs, w_calls w' = before ++ cs /\ exits_match t cs) /\
        pt_status t = TActive /\ pt_position_size_usd t = size
    | _ => True
    end) w.
Proof.
  assert (Hany : forall (A C : Type) (m : ST (World B) A) (k : A -> ST (World B) C) (Q : C -> World B -> Prop) w,
    (forall a w1, wp (k a) Q w1) -> wp (bind m k) Q w).
  { intros A C m k Q w0 Hk. apply wp_bind. unfold wp at 1. destruct (m w0). apply Hk. }
  unfold execute_atomic_entry_real, entry_with_config. apply Hany. intros [[[q now] c] | e] w1; [| now apply wp_ret].
  apply Hany. intros [st | e] w2; [| now apply wp_ret]. apply Hany. intros start w3.
  apply Hany. intros [[st1 | e] |] w4; [| now apply wp_ret ..].
  wp_step. unfold post_loop, hedge_short_leg, hedge_long_leg.
  assert (Hok : forall (A C : Type) (m : ST (World B) (result A entry_real_error))
    (k : A -> ST (World B) (result C entry_real_error)) (Q : result C entry_real_error -> World B -> Prop) w,
    (forall e w1, Q (Err e) w1) -> (forall a w1, wp (k a) Q w1) -> wp (bind_ok m k) Q w).
  { intros A C m k Q w0 He Hk. apply wp_bind_ok. unfold wp at 1. destruct (m w0) as [[] ?]; auto. }
  do 3 (apply Hok; [intros; exact I | intros ? ?]).
  destruct (_ || _)%bool; [exact I |].
  wp_step. eapply wp_mono; [apply complete_entry_spec |].
  intros t w8 (cs & Hc & Hx & _ & _ & _ & Hsz & Hst & _). do 2 apply wp_ret. eauto 8.
Qed.
End trade.

(** ** Termination *)
Section termination.
Context {B : Type} `{BackendClock B}.
Variables (opp : ArbitrageOpportunity) (config : RepricingConfig).

Lemma place_with_retry_later o q n m : respects later (place_with_retry o q n m : ST (World B) _).
Proof.
  unfold place_with_retry. generalize 0 as att. revert m.
  induction n as [| n IH]; intros m att; cbn [place_attempts]; [solve_later |].
  cbv zeta. repeat first [apply IH | progress solve_later].
Qed.

Lemma market_attempts_later n t q total last m :
  respects later (market_attempts n t q total last m : ST (World B) _).
Proof.
  revert total last m. induction n as [| n IH]; intros total last m; cbn [market_attempts]; [solve_later |].
  cbv zeta. repeat first [apply IH | progress solve_later].
Qed.

Lemma halt_later reason : respects later (halt_trading reason : ST (World B) _).
Proof. intros w. unfold later. cbn. lia. Qed.

Lemma emergency_close_later o : respects later (emergency_close_position o : ST (World B) _).
Proof.
  unfold emergency_close_position, close_in_halves, emergency_failed.
  repeat first [apply place_with_retry_later | apply halt_later | progress solve_later].
Qed.

Lemma lock_later {A} symbol (m : ST (World B) (result A entry_real_error)) :
  respects later m -> respects later (with_hedge_lock symbol RLock m).
Proof.
  intros Hm w. unfold with_hedge_lock. destruct (try_acquire _ _) as [l |]; [| reflexivity].
  specialize (Hm (set_hedge_locks l w)). destruct (m _). exact Hm.
Qed.

Lemma check_both_later lo so : respects later (check_both_legs_status lo so : ST (World B) _).
Proof. unfold check_both_legs_status. solve_later. Qed.

Lemma poll_leg_later s st : respects later (poll_leg opp config s st : ST (World B) _).
Proof.
  unfold poll_leg, check_leg, on_filled, settle_other_leg, hedge_depth_check, market_hedge, chase_leg,
    balance_legs, trim_leg, close_after_failed_hedge, place_market_order_with_retry.
  repeat first
  [ apply lock_later | apply check_both_later | apply emergency_close_later | apply market_attempts_later
  | apply check_depth_later | apply best_price_later | apply reprice_later | progress solve_later ].
Qed.

(** A turn that goes on has slept for the polling interval. *)
Lemma poll_turn_time st (w : World B) :
  wp (poll_turn opp config st) (fun _ w' =>
    b_now (w_backend w) + Z.max 0 (reprice_interval_ms config) * 1000000 <= b_now (w_backend w')) w.
Proof.
  unfold poll_turn, poll_long, poll_short. do 2 wp_step.
  pose proof (b_sleep_now (reprice_interval_ms config) (w_backend w)) as Hsl. rewrite E in Hsl. cbn [snd] in Hsl.
  apply (wp_respects later).
  - apply respects_bind_ok; [exact _ | apply poll_leg_later | intros []; [| solve_later ..]].
    apply respects_bind_ok; [exact _ | apply poll_leg_later | intros []; [| solve_later ..]].
    unfold check_spread, check_max_reprices, cancel_both. solve_later.
  - intros r w' _ Hl. unfold later in Hl. cbn [w_backend after_rt] in Hl. lia.
Qed.

Lemma poll_loop_terminates fuel start t st (w : World B) :
  0 < reprice_interval_ms config ->
  t - (b_now (w_backend w) - start) <= (Z.of_nat fuel - 1) * (reprice_interval_ms config * 1000000) ->
  (0 < fuel)%nat ->
  wp (poll_loop opp config fuel start t st) (fun r _ => r <> None) w.
Proof.
  intros Hi. revert st w. induction fuel as [| fuel IH]; intros st w Hf Hpos; [lia |].
  cbn [poll_loop]. do 2 wp_step.
  destruct (b_instant_now (w_backend w)) as [Ha Hb]. rewrite E in Ha, Hb. cbn [fst snd] in Ha, Hb. subst a.
  destruct (Z.ltb_spec (b_now (w_backend w) - start) t) as [Hlt | Hge]; cbn [andb]; [| apply wp_ret; discriminate].
  destruct (_ || _)%bool; [| apply wp_ret; discriminate].
  wp_step. eapply wp_mono; [apply poll_turn_time |]. intros r w1 Ht.
  cbn [w_backend after_rt] in Ht. rewrite Nat2Z.inj_succ in Hf.
  assert (Hnext : forall st, wp (poll_loop opp config fuel start t st) (fun r _ => r <> None) w1)
    by (intros st'; apply IH; [nia | destruct fuel; [nia | lia]]).
  destruct r as [[] | e]; auto; apply wp_ret; discriminate.
Qed.
End termination.

Lemma from_confidence_times c :
  reprice_interval_ms (from_confidence c) = 100 /\ total_timeout_seconds (from_confidence c) = 3.
Proof. unfold from_confidence. repeat destruct_if; auto. Qed.

Section entry_termination.
Context {B : Type} `{BackendClock B}.

(** The entry never runs out of 31 turns. *)
Lemma entry_returns opp cap size (w : World B) :
  wp (execute_atomic_entry_real 31 opp cap size) (fun r _ => r <> None) w.
Proof.
  unfold execute_atomic_entry_real, entry_with_config.
  set (config := from_confidence _).
  destruct (from_confidence_times (f_of_Z (ao_confidence_score opp))) as [Hi Ht]. fold config in Hi, Ht.
  wp_step. unfold wp at 1. destruct (pre_trade _ _ _ _ w) as [[[[q now] c] | e] w1]; [| apply wp_ret; discriminate].
  wp_step. unfold wp at 1. destruct (place_both _ _ _ _ w1) as [[st | e] w2]; [| apply wp_ret; discriminate].
  do 3 wp_step. destruct (b_instant_now (w_backend w2)) as [Ha Hb]. rewrite E in Ha, Hb. cbn [fst snd] in Ha, Hb.
  eapply wp_mono; [apply poll_loop_terminates; [lia | | lia] |].
  - cbn [w_backend after_rt]. unfold timeout_ns. rewrite Hi, Ht. lia.
  - intros [[st' | e] |] w3 Hr; [| apply wp_ret; discriminate | congruence].
    wp_step. unfold wp at 1. destruct (post_loop _ _ _ _ w3) as [r w4]. apply wp_ret. discriminate.
Qed.

(** C4. The entry always returns: with the presets (3 s of polling at 100 ms) 31
    turns are enough, whatever the exchanges answer and however slowly. *)
Theorem entry_terminates opp cap size (w : World B) :
  exists r, fst (execute_atomic_entry_real 31 opp cap size w) = Some r.
Proof.
  pose proof (entry_returns opp cap size w) as Hw. unfold wp in Hw.
  destruct (execute_atomic_entry_real _ _ _ _ w) as [[r |] w']; [eauto | congruence].
Qed.
End entry_termination.

(** ** Runs that surprise

    All on the same opportunity (100 against 101, confidence 90, so no depth
    check before the orders), 101 USD, one contract, and scripted answers. *)
Definition run (detailed : list (result OrderStatusInfo string)) (market : list (result unit string))
  (locks : gset string) : option (result PaperTrade entry_real_error) * World Script :=
  execute_atomic_entry_real 31 (depth_opportunity 1.0%f64 1.0%f64) 1000.0%f64 101.0%f64
    (set_hedge_locks locks (script_world
       (sc_with empty_script [] (replicate 4 (Ok tt)) market (replicate 9 (Ok tt)) [] detailed
          [Ok 1000.0%f64; Ok 1000.0%f64] [] [] [] 0 0%N))).

(** The sizes a trade records: the legs and the exit orders. *)
Definition sizes (r : option (result PaperTrade entry_real_error)) : option (f64 * f64 * list f64) :=
  match r with
  | Some (Ok t) => Some (so_size (pt_long_order t), so_size (pt_short_order t),
      so_size <$> (option_list (pt_long_exit_order t) ++ option_list (pt_short_exit_order t)))
  | _ => None
  end.

(** The market orders sent: exchange, side, size, and whether accepted. *)
Definition market_orders (w : World Script) : list (string * OrderSide * f64 * bool) :=
  omap (fun c => match c with
    | CMarket o r => Some (so_exchange o, so_side o, so_size o, is_ok r)
    | _ => None
    end) (w_calls w).

Definition pending (q : f64) : result OrderStatusInfo string := Ok (status_info Pending q 1.0%f64).
Definition full (q : f64) : result OrderStatusInfo string := Ok (status_info Filled q q).

(** Final hedge: the short leg fills half by its cancelled limit order and half
    by the market order, so it is one contract like the long leg; the trade
    records, and its exit order closes, only the last half. *)
Theorem final_hedge_records_last_part :
  let r := run (replicate 60 (pending 0.0%f64) ++ [full 1.0%f64; pending 0.5%f64; pending 0.5%f64; full 0.5%f64])
             [Ok tt] ∅ in
  sizes (fst r) = Some (1.0%f64, 0.5%f64, [1.0%f64; 0.5%f64]) /\
  market_orders (snd r) = [("hyperliquid"%string, Short, 0.5%f64, true)].
Proof. vm_compute. split; reflexivity. Qed.

(** Hedge in the loop: the other leg is seen filled for 0.4 and is cancelled, and
    the market order is still for the whole contract: 1.4 short against 1 long,
    recorded as 1 against 1. *)
Theorem loop_hedge_ignores_partial_fill :
  let r := run [full 1.0%f64; full 1.0%f64; pending 0.4%f64; full 1.0%f64] [Ok tt] ∅ in
  sizes (fst r) = Some (1.0%f64, 1.0%f64, [1.0%f64; 1.0%f64]) /\
  market_orders (snd r) = [("hyperliquid"%string, Short, 1.0%f64, true)] /\
  In (CDetailed "hyperliquid" "order-1" "BTCUSDT" (pending 0.4%f64)) (w_calls (snd r)).
Proof. vm_compute. split; [reflexivity |]. split; [reflexivity |]. tauto. Qed.

(** Both legs fill, the short one with 2: one contract is bought back to balance
    them, and then the trimmed size is overwritten by the size before trimming,
    so the exit order is for twice the position. *)
Theorem trimmed_size_overwritten :
  let r := run [full 1.0%f64; full 1.0%f64; full 2.0%f64] [Ok tt] ∅ in
  market_orders (snd r) = [("hyperliquid"%string, Long, 1.0%f64, true)] /\
  sizes (fst r) = Some (1.0%f64, 2.0%f64, [1.0%f64; 2.0%f64]).
Proof. vm_compute. split; reflexivity. Qed.

(** The hedge lock is held elsewhere when the long leg fills: the entry returns
    at once, the long leg neither hedged nor closed, the short order not
    cancelled, and trading not halted. *)
Theorem busy_lock_leaves_leg_open :
  let r := run [full 1.0%f64] [] {["BTCUSDT"%string]} in
  fst r = Some (Err (RLock "Hedge lock already held for BTCUSDT")) /\
  market_orders (snd r) = [] /\
  List.filter (fun c => match c with CCancel _ _ _ => true | _ => false end) (w_calls (snd r)) = [] /\
  w_halted (snd r) = false.
Proof. vm_compute. repeat split; reflexivity. Qed.

(** The hedge fills for 0.4 and then the exchange refuses it: the long leg is
    closed and the error says so, while the 0.4 short stays open. *)
Theorem partial_hedge_left_open :
  let r := run [full 1.0%f64; full 1.0%f64; pending 0.0%f64; Ok (status_info Filled 0.4%f64 1.0%f64); full 1.0%f64]
             [Ok tt; Err "down"%string; Err "down"%string; Ok tt] ∅ in
  fst r = Some (Err (RHedgeFailed Short (HMarketFailed "down"))) /\
  market_orders (snd r) =
    [("hyperliquid"%string, Short, 1.0%f64, true);
     ("hyperliquid"%string, Short, (1.0%f64 - 0.4%f64)%F, false);
     ("hyperliquid"%string, Short, (1.0%f64 - 0.4%f64)%F, false);
     ("binance"%string, Short, 1.0%f64, true)].
Proof. vm_compute. split; reflexivity. Qed.

(** The plain case, for comparison: the short leg is hedged for the quantity
    that filled, and the trade records two equal legs and both exits. *)
Theorem hedge_succeeds :
  let r := run [full 1.0%f64; full 1.0%f64; pending 0.0%f64; full 1.0%f64] [Ok tt] ∅ in
  sizes (fst r) = Some (1.0%f64, 1.0%f64, [1.0%f64; 1.0%f64]) /\
  market_orders (snd r) = [("hyperliquid"%string, Short, 1.0%f64, true)] /\ w_hedge_locks (snd r) = ∅.
Proof. vm_compute. repeat split; reflexivity. Qed.
