(* ===== verification/EntryFills.v ===== *)
(** What stands behind the sizes of an opened trade
    ([execute_atomic_entry_real] of [src/src/strategy/entry.rs]).

    [execute_atomic_entry_real] books a trade from what the exchanges report:
    from both legs' status queries, from the market orders of a hedge in the
    polling loop, or from the final hedge.  [sizes_backed] lists these ways as
    evidence in the calls the entry has made, and [entry_fills_reported] says
    that every successful entry has such evidence for the two sizes it
    records. *)
From Stdlib Require Import ZArith Lia Bool.
From stdpp Require Import base option list gmap strings pretty.
From S2P Require Import Prelude Float64 Types Backend DepthChecker PriceChaser ScriptedBackend AtomicExecution Entry EntryReal EntryRealSpec.

#[local] Open Scope Z_scope.

(** ** Evidence *)

(** The calls of a hedge by market orders that bring what the exchange has
    reported filled from one total to another.  Each order is for what is
    still open; an accepted order is followed by the status query of that very
    order; a refused order and a failed query add nothing. *)
Inductive hedge_attempts (template : SimulatedOrder) (target : f64) : f64 -> list call -> f64 -> Prop :=
| ha_done total : hedge_attempts template target total [] total
| ha_refused total e cs total' :
    hedge_attempts template target total cs total' ->
    hedge_attempts template target total
      (CMarket (set_so_size (target - total)%F template) (Err e) :: cs) total'
| ha_unknown total o e cs total' :
    hedge_attempts template target total cs total' ->
    hedge_attempts template target total
      (CMarket (set_so_size (target - total)%F template) (Ok o) ::
       CDetailed (so_exchange o) (so_id o) (so_symbol template) (Err e) :: cs) total'
| ha_reported total o i cs total' :
    hedge_attempts template target (total + osi_filled_quantity i)%F cs total' ->
    hedge_attempts template target total
      (CMarket (set_so_size (target - total)%F template) (Ok o) ::
       CDetailed (so_exchange o) (so_id o) (so_symbol template) (Ok i) :: cs) total'.

Section evidence.
Variables (opp : ArbitrageOpportunity) (qty : f64).

(** The order of leg [s] that is on its exchange: the limit order placed first,
    for [qty] at the opportunity's price, or what replaced it: its cancellation
    was accepted and the new order differs in price, id and time only. *)
Inductive leg_chain (cs : list call) (s : OrderSide) : SimulatedOrder -> Prop :=
| chain_placed now o :
    CPlace (order_template opp s s Limit (price_of s opp) qty now) (Ok o) ∈ cs -> leg_chain cs s o
| chain_repriced o price secs o' :
    leg_chain cs s o -> CCancel (so_exchange o) (so_id o) (Ok tt) ∈ cs ->
    CPlace (set_so_created_at secs (set_so_id "" (set_so_price price o))) (Ok o') ∈ cs ->
    leg_chain cs s o'.

(** The exchange reported leg [s]'s own order filled completely, with [q]. *)
Definition fill_reported (cs : list call) (s : OrderSide) (q : f64) : Prop :=
  exists o y i, leg_chain cs s o /\ CDetailed (so_exchange o) (so_id o) y (Ok i) ∈ cs /\
    is_fully_filled i = true /\ q = osi_filled_quantity i.

(** Order [o] cancelled and asked for at once: what had filled of it before, or
    nothing when the query failed. *)
Definition open_fill (cs : list call) (o : SimulatedOrder) (base : f64) : Prop :=
  exists pre y c r post,
    cs = pre ++ CCancel (so_exchange o) (so_id o) c :: CDetailed (so_exchange o) (so_id o) y r :: post /\
    base = match r with Ok i => (0.0%f64 + osi_filled_quantity i)%F | Err _ => 0.0%f64 end.

(** A limit order for [remaining] on leg [h] reported filled with [extra]. *)
Definition limit_fill (cs : list call) (h : OrderSide) (remaining extra : f64) : Prop :=
  exists id price secs o y i,
    CPlace (set_so_id id (order_template opp h h Limit price remaining secs)) (Ok o) ∈ cs /\
    CDetailed (exchange_of h opp) (so_id o) y (Ok i) ∈ cs /\ extra = osi_filled_quantity i.

(** What a final hedge of [q] on leg [h] has by reports before its market order. *)
Definition before_market (cs : list call) (h : OrderSide) (q total : f64) : Prop :=
  exists o base, leg_chain cs h o /\ open_fill cs o base /\
    (total = base \/ exists extra, limit_fill cs h (q - base)%F extra /\ total = (base + extra)%F).

(** The market part of a hedge of leg [h] for [q], after the calls [pre]. *)
Definition market_part (cs pre : list call) (h : OrderSide) (q size : f64) : Prop :=
  exists secs mid post, cs = pre ++ mid ++ post /\
    hedge_attempts (order_template opp h h Market (price_of h opp) q secs) q 0.0%f64 mid size /\
    covers q size.

(** The ways in which two legs come to count as filled with sizes [sz]. *)
Inductive sizes_backed (cs : list call) (sz : OrderSide -> f64) : Prop :=
| pos_reported :                                  (* each leg's own order, for its size *)
    (forall s, fill_reported cs s (sz s)) -> sizes_backed cs sz
| pos_trimmed s q secs o :                        (* leg [s] filled with more and was cut back *)
    fill_reported cs s q -> fill_reported cs (opposite s) (sz (opposite s)) ->
    sz s = sz (opposite s) ->
    CMarket (order_template opp s (opposite s) Market (price_of s opp) (q - sz s)%F secs) (Ok o) ∈ cs ->
    sizes_backed cs sz
| pos_hedged s pre :                              (* the other leg hedged in the loop *)
    fill_reported pre s (sz s) -> market_part cs pre (opposite s) (sz s) (sz (opposite s)) ->
    sizes_backed cs sz
| pos_late s :                                    (* hedged after the loop, by limit orders alone *)
    fill_reported cs s (sz s) -> before_market cs (opposite s) (sz s) (sz (opposite s)) ->
    (sz (opposite s) >=? sz s)%F = true -> sizes_backed cs sz
| pos_late_market s total pre :                   (* and by a market order for the rest *)
    fill_reported pre s (sz s) -> before_market pre (opposite s) (sz s) total ->
    (total >=? sz s)%F = false ->
    market_part cs pre (opposite s) (sz s - total)%F (sz (opposite s)) -> sizes_backed cs sz.

Definition leg_size (st : entry_state) (s : OrderSide) : f64 := so_size (leg_order s st).

(** The polling loop has both legs filled, with evidence, or both open. *)
Definition held (cs : list call) (st : entry_state) : Prop :=
  both_filled st /\ sizes_backed cs (leg_size st) \/
  (forall s, filled s st = false) /\ forall s, leg_chain cs s (leg_order s st).

(** After the final check, one leg may have been found filled. *)
Definition checked (cs : list call) (st : entry_state) : Prop :=
  both_filled st /\ sizes_backed cs (leg_size st) \/
  forall s, if filled s st then fill_reported cs s (leg_size st s) else leg_chain cs s (leg_order s st).
End evidence.

(** ** Evidence stays when more calls are made *)
Definition lasting (P : list call -> Prop) : Prop := forall cs cs', P cs -> P (cs ++ cs').

Create HintDb fills.

Section lasting.
Variables (opp : ArbitrageOpportunity) (qty : f64).

Lemma in_app (c : call) cs cs' : c ∈ cs -> c ∈ cs ++ cs'.
Proof. intros Hc. apply elem_of_app. auto. Qed.
#[local] Hint Resolve in_app : fills.

Lemma chain_lasts s o : lasting (fun cs => leg_chain opp qty cs s o).
Proof. intros cs cs' Hc. induction Hc; [eapply chain_placed | eapply chain_repriced]; eauto with fills. Qed.
#[local] Hint Resolve chain_lasts : fills.

Lemma reported_lasts s q : lasting (fun cs => fill_reported opp qty cs s q).
Proof.
  intros cs cs' (o & y & i & Ho & Hi & Hf). exists o, y, i. split; [now apply chain_lasts | auto with fills].
Qed.

Lemma open_lasts o base : lasting (fun cs => open_fill cs o base).
Proof.
  intros cs cs' (pre & y & c & r & post & -> & Hb). exists pre, y, c, r, (post ++ cs').
  split; [now rewrite <- app_assoc | exact Hb].
Qed.

Lemma limit_lasts h remaining extra : lasting (fun cs => limit_fill opp cs h remaining extra).
Proof.
  intros cs cs' (id & p & secs & o & y & i & H1 & H2 & H3). exists id, p, secs, o, y, i. auto with fills.
Qed.

Lemma before_lasts h q total : lasting (fun cs => before_market opp qty cs h q total).
Proof.
  intros cs cs' (o & base & Hc & Hb & Ht). exists o, base.
  split; [now apply chain_lasts |]. split; [now apply open_lasts |].
  destruct Ht as [-> | (extra & He & ->)]; [now left | right]. exists extra. split; [now apply limit_lasts | reflexivity].
Qed.

Lemma market_lasts pre h q size : lasting (fun cs => market_part opp cs pre h q size).
Proof.
  intros cs cs' (secs & mid & post & -> & Hm). exists secs, mid, (post ++ cs').
  split; [now rewrite <- !app_assoc | exact Hm].
Qed.

Lemma position_lasts sz : lasting (fun cs => sizes_backed opp qty cs sz).
Proof.
  intros cs cs' Hp.
  destruct Hp as [Hr | s q secs o H1 H2 H3 H4 | s pre H1 H2 | s H1 H2 H3 | s total pre H1 H2 H3 H4].
  - apply pos_reported. intros s. now apply reported_lasts.
  - apply (pos_trimmed _ _ _ _ s q secs o); auto with fills; now apply reported_lasts.
  - apply (pos_hedged _ _ _ _ s pre); [exact H1 | now apply market_lasts].
  - apply (pos_late _ _ _ _ s); [now apply reported_lasts | now apply before_lasts | exact H3].
  - apply (pos_late_market _ _ _ _ s total pre); [exact H1 | exact H2 | exact H3 | now apply market_lasts].
Qed.

Lemma held_lasts st : lasting (fun cs => held opp qty cs st).
Proof.
  intros cs cs' [[Hb Hp] | [Hn Hc]]; [left | right]; (split; [assumption |]).
  - now apply position_lasts.
  - intros s. now apply chain_lasts.
Qed.

Lemma checked_lasts st : lasting (fun cs => checked opp qty cs st).
Proof.
  intros cs cs' [[Hb Hp] | Hs]; [left | right].
  - split; [exact Hb | now apply position_lasts].
  - intros s. specialize (Hs s). destruct (filled s st); [now apply reported_lasts | now apply chain_lasts].
Qed.
End lasting.

#[export] Hint Resolve chain_lasts reported_lasts before_lasts position_lasts held_lasts checked_lasts : fills.

(** Both sides, from one and the other. *)
Lemma side_cases (P : OrderSide -> Prop) s : P s -> P (opposite s) -> forall s', P s'.
Proof. intros H1 H2 []; destruct s; assumption. Qed.

(** ** The evidence since a world *)
Section since.
Context {B : Type} `{Backend B}.
Variables (opp : ArbitrageOpportunity) (config : RepricingConfig) (qty : f64) (w0 : World B).

(** The calls made since [w0] satisfy [P]. *)
Definition made_since (P : list call -> Prop) (w : World B) : Prop :=
  exists cs, w_calls w = w_calls w0 ++ cs /\ P cs.

(** An answer other than an error has [P]. *)
Definition ok_since {A E} (P : A -> list call -> Prop) (r : result A E) (w : World B) : Prop :=
  match r with Ok a => made_since (P a) w | Err _ => True end.

Lemma since_more (P Q : list call -> Prop) w w' mid :
  made_since P w -> w_calls w' = w_calls w ++ mid -> (forall cs, P cs -> Q (cs ++ mid)) -> made_since Q w'.
Proof.
  intros (cs & Hc & Hp) Hw Hq. exists (cs ++ mid). split; [now rewrite Hw, Hc, app_assoc | auto].
Qed.

Lemma since_imp (P Q : list call -> Prop) w : (forall cs, P cs -> Q cs) -> made_since P w -> made_since Q w.
Proof. intros Hq (cs & Hc & Hp). exists cs. auto. Qed.

Lemma since_rt (P : list call -> Prop) w b : made_since P w -> made_since P (after_rt w b).
Proof. auto. Qed.

Lemma since_call {A} (P : list call -> Prop) w b (mk : A -> call) a :
  made_since P w -> made_since (fun cs => exists cs', cs = cs' ++ [mk a] /\ P cs') (after_call w b mk a).
Proof. intros Hp. apply (since_more P _ w _ [mk a]); [exact Hp | reflexivity |]. eauto. Qed.

(** A call more, and what lasts. *)
Lemma since_called {A} (P : list call -> Prop) w b (mk : A -> call) a :
  lasting P -> made_since P w -> made_since P (after_call w b mk a).
Proof. intros Hl Hp. apply (since_more P _ w _ [mk a]); [exact Hp | reflexivity |]. auto. Qed.

Lemma ok_bind {A C E} (m : ST (World B) (result A E)) (k : A -> ST (World B) (result C E)) P Q w :
  wp m (ok_since P) w -> (forall a w1, made_since (P a) w1 -> wp (k a) (ok_since Q) w1) ->
  wp (bind_ok m k) (ok_since Q) w.
Proof.
  intros Hm Hk. apply wp_bind_ok. eapply wp_mono; [exact Hm |]. intros [a | e] w1 Ha; [now apply Hk | exact I].
Qed.

(** Whatever is called, what lasts stays. *)
Lemma quiet_bind {A C} (m : ST (World B) A) (k : A -> ST (World B) C) (P : list call -> Prop) Q w :
  quiet m -> lasting P -> made_since P w -> (forall a w1, made_since P w1 -> wp (k a) Q w1) -> wp (bind m k) Q w.
Proof.
  intros Hm Hl Hp Hk. apply wp_bind, (wp_respects (tame (fun _ => True))); [exact Hm |].
  intros a w1 _ (_ & _ & cs & Hcs & _). apply Hk, (since_more P P w w1 cs); auto.
Qed.

Lemma lock_since {A} symbol (m : ST (World B) (result A entry_real_error)) P w :
  (forall w1, w_calls w1 = w_calls w -> wp m (ok_since P) w1) ->
  wp (with_hedge_lock symbol RLock m) (ok_since P) w.
Proof.
  intros Hm. unfold wp, with_hedge_lock. destruct (try_acquire _ _) as [locks |]; [| exact I].
  specialize (Hm (set_hedge_locks locks w) eq_refl). unfold wp in Hm. now destruct (m _) as [[] ?].
Qed.

(** A failed hedge answers an error, whatever its close does. *)
Lemma failed_hedge_since {A} s e st (P : A -> list call -> Prop) w :
  wp (close_after_failed_hedge s e st) (ok_since P) w.
Proof.
  unfold close_after_failed_hedge. wp_step. unfold wp. now destruct (emergency_close_position _ _) as [[] ?].
Qed.

(** ** The hedge by market orders *)
Lemma market_attempts_evidence n template target total last m (w : World B) :
  wp (market_attempts n template target total last m) (fun '(r, _) w' =>
    match r with
    | Ok o => exists mid, w_calls w' = w_calls w ++ mid /\
        hedge_attempts template target total mid (so_size o) /\ covers target (so_size o)
    | Err _ => True
    end) w.
Proof.
  revert total last m w. induction n as [| n IH]; intros total last m w; cbn [market_attempts]; [now apply wp_ret |].
  cbv zeta. destruct (target - total <=? 0.0%f64)%F eqn:Hrem.
  { apply wp_ret. exists []. rewrite app_nil_r. split; [reflexivity |]. split; [constructor | now right]. }
  assert (Hmore : forall total1 mid (w1 : World B) last m, w_calls w1 = w_calls w ++ mid ->
    (forall cs t, hedge_attempts template target total1 cs t -> hedge_attempts template target total (mid ++ cs) t) ->
    wp (market_attempts n template target total1 last m) (fun '(r, _) w' => match r with
      | Ok o => exists mid, w_calls w' = w_calls w ++ mid /\
          hedge_attempts template target total mid (so_size o) /\ covers target (so_size o)
      | Err _ => True end) w1).
  { intros total1 mid w1 last' m' Hw Ht. eapply wp_mono; [apply IH |]. intros [[o | e] m''] w2; [| auto].
    intros (cs & Hc & Ha & Hcov). exists (mid ++ cs). rewrite Hc, Hw, app_assoc. auto. }
  do 4 wp_step. set (order := set_so_size _ template) in *. destruct a0 as [o | e].
  - do 6 wp_step. destruct a2 as [i | e].
    + do 2 wp_step. destruct (_ >=? target)%F eqn:Hfull.
      * apply wp_ret. eexists. cbn. rewrite <- app_assoc. split; [reflexivity |].
        split; [apply ha_reported, ha_done | now left].
      * eapply Hmore; [cbn; rewrite <- app_assoc; reflexivity |]. intros cs t. apply ha_reported.
    + destruct (_ <? _); [| now apply wp_ret]. do 2 wp_step.
      eapply Hmore; [cbn; rewrite <- app_assoc; reflexivity |]. intros cs t. apply ha_unknown.
  - destruct (_ =? _); [now apply wp_ret |]. do 2 wp_step.
    eapply Hmore; [reflexivity |]. intros cs t. apply ha_refused.
Qed.

(** What the market part leaves, after calls with [P]. *)
Lemma retry_evidence h q secs m (P : list call -> Prop) w :
  made_since P w ->
  wp (place_market_order_with_retry (order_template opp h h Market (price_of h opp) q secs) q m)
    (fun '(r, _) w' => ok_since (fun o cs => exists pre, P pre /\ market_part opp cs pre h q (so_size o)) r w') w.
Proof.
  intros (pre & Hw & Hp). eapply wp_mono; [apply market_attempts_evidence |].
  intros [[o | e] m'] w'; [| auto]. intros (mid & Hc & Ha & Hcov). exists (pre ++ mid).
  split; [now rewrite Hc, Hw, app_assoc |]. exists pre. split; [exact Hp |].
  exists secs, mid, []. rewrite app_nil_r. auto.
Qed.

Lemma hedge_depth_since s q st (P : list call -> Prop) w :
  lasting P -> made_since P w ->
  wp (hedge_depth_check opp s q st) (ok_since (fun st' cs => (forall s', es_leg s' st' = es_leg s' st) /\ P cs)) w.
Proof.
  intros Hl Hp. unfold hedge_depth_check. apply (quiet_bind _ _ P); auto; [apply quiet_depth |].
  intros [[d | e] c] w1 Hp1.
  - destruct (should_abort d).
    + wp_step. wp_step. unfold wp. now destruct (emergency_close_position _ _) as [[] ?].
    + apply wp_ret. eapply since_imp; [| exact Hp1]. intros cs Hcs. split; [intros s'; apply es_leg_depth | exact Hcs].
  - apply wp_ret. eapply since_imp; [| exact Hp1]. intros cs Hcs. split; [intros s'; apply es_leg_depth | exact Hcs].
Qed.
End since.

(** ** Each part keeps the evidence *)
Section parts.
Context {B : Type} `{Backend B}.
Variables (opp : ArbitrageOpportunity) (config : RepricingConfig) (qty : f64) (w0 : World B).

#[local] Abbreviation made_since := (made_since w0).
#[local] Abbreviation ok_since := (ok_since w0).
#[local] Abbreviation chain := (leg_chain opp qty).
#[local] Abbreviation reported := (fill_reported opp qty).

Definition control_state (c : control) : entry_state :=
  match c with Fall st | Continue st | Break st => st end.

Lemma leg_size_set s l st : leg_size (set_leg s l st) s = so_size (lg_order l).
Proof. unfold leg_size, leg_order. now rewrite es_leg_set. Qed.
Lemma leg_size_other s l st : leg_size (set_leg s l st) (opposite s) = leg_size st (opposite s).
Proof. unfold leg_size, leg_order. now rewrite es_leg_set_other. Qed.
Lemma leg_size_opposite s l st : leg_size (set_leg (opposite s) l st) s = leg_size st s.
Proof. unfold leg_size, leg_order. now rewrite es_leg_set_opposite. Qed.

(** Leg [h] filled by [l], the other leg filled before. *)
Lemma hedged_both s l st :
  filled s st = true -> lg_filled l = true -> both_filled (set_leg (opposite s) l st).
Proof.
  intros Hf Hl. apply (both_filled_of s); unfold filled; [now rewrite es_leg_set_opposite | now rewrite es_leg_set].
Qed.

Lemma market_hedge_since s m st w :
  filled s st = true -> made_since (fun cs => reported cs s (leg_size st s)) w ->
  wp (market_hedge opp s (leg_size st s) m st) (ok_since (fun st' cs => held opp qty cs st')) w.
Proof.
  intros Hf Hp. unfold market_hedge.
  do 2 (apply (quiet_bind w0 _ _ (fun cs => reported cs s (leg_size st s)));
    [solve_quiet | apply reported_lasts | assumption |]; intros ? ? ?).
  wp_step. eapply wp_mono; [apply (retry_evidence opp w0); eassumption |].
  intros [[o | e] m'] w4 Ho; cbn [fst]; [| apply failed_hedge_since].
  apply wp_ret. eapply since_imp; [| exact Ho]. intros cs (pre & Hpre & Hm). left.
  split; [now apply hedged_both |].
  apply (pos_hedged _ _ _ _ s pre); rewrite leg_size_opposite; [exact Hpre |]. now rewrite leg_size_set.
Qed.

(** One leg has just been seen filled, the other one is open. *)
Definition one_filled (cs : list call) (s : OrderSide) (st : entry_state) : Prop :=
  reported cs s (leg_size st s) /\ chain cs (opposite s) (leg_order (opposite s) st) /\
  exists o, chain cs s o /\ so_exchange (leg_order s st) = so_exchange o /\ so_id (leg_order s st) = so_id o.

Lemma one_lasts s st : lasting (fun cs => one_filled cs s st).
Proof.
  intros cs cs' (H1 & H2 & o & H3 & H4). split; [now apply reported_lasts |].
  split; [now apply chain_lasts |]. exists o. split; [now apply chain_lasts | exact H4].
Qed.
(** What the status check of both legs adds. *)
Definition both_reported (cs : list call) (both : result BothLegsStatus string) : Prop :=
  match both with
  | Ok (BothFilled lq sq) => forall s, reported cs s (match s with Long => lq | Short => sq end)
  | _ => True
  end.

Lemma check_both_since s st w :
  made_since (fun cs => one_filled cs s st) w ->
  wp (check_both_legs_status (leg_order Long st) (leg_order Short st))
    (fun r w' => made_since (fun cs => one_filled cs s st /\ both_reported cs r) w') w.
Proof.
  intros Hp. eapply wp_mono; [apply check_both_legs_spec |]. intros r w' (rl & rs & Hc & Hr).
  eapply since_more; [exact Hp | exact Hc |]. intros cs Hone. cbv beta.
  match goal with |- one_filled (cs ++ ?mid) _ _ /\ _ => pose proof (one_lasts s st cs mid Hone) as Hone' end.
  split; [apply Hone' |]. destruct rl as [i1 |]; [| now subst r]. destruct rs as [i2 |]; [| now subst r].
  subst r. destruct (is_fully_filled i1) eqn:E1, (is_fully_filled i2) eqn:E2; try exact I.
  destruct Hone' as (_ & Hother & o & Hown & Hex & Hid).
  destruct s; intros [].
  all: cbn in Hother, Hex, Hid.
  - exists o, (so_symbol (leg_order Long st)), i1. cbn in *. rewrite <- Hex, <- Hid.
    split; [exact Hown |]. split; [apply elem_of_app; right; constructor | auto].
  - exists (leg_order Short st), (so_symbol (leg_order Short st)), i2.
    split; [exact Hother |]. split; [apply elem_of_app; right; do 2 constructor | auto].
  - exists (leg_order Long st), (so_symbol (leg_order Long st)), i1.
    split; [exact Hother |]. split; [apply elem_of_app; right; constructor | auto].
  - exists o, (so_symbol (leg_order Short st)), i2. cbn in *. rewrite <- Hex, <- Hid.
    split; [exact Hown |]. split; [apply elem_of_app; right; do 2 constructor | auto].
Qed.

(** The sizes after the balancing of two legs that filled with [qt]: as they
    were, or leg [t] cut back to the other one's quantity. *)
Definition cut_even (cs : list call) (qt : OrderSide -> f64) (st st' : entry_state) : Prop :=
  (forall s, filled s st' = filled s st) /\
  ((forall s, leg_size st' s = leg_size st s) \/
   exists t secs o, leg_size st' t = qt (opposite t) /\ leg_size st' (opposite t) = leg_size st (opposite t) /\
     CMarket (order_template opp t (opposite t) Market (price_of t opp) (qt t - qt (opposite t))%F secs) (Ok o) ∈ cs).

Lemma trim_since t qt (P : list call -> Prop) st w :
  lasting P -> made_since P w ->
  wp (trim_leg opp t (qt t - qt (opposite t))%F (qt (opposite t)) st)
    (fun st' w' => made_since (fun cs => P cs /\ cut_even cs qt st st') w') w.
Proof.
  intros Hl Hp. unfold trim_leg. do 4 wp_step. wp_step.
  eapply since_more; [apply since_rt; exact Hp | reflexivity |]. intros cs Hcs.
  split; [now apply Hl |]. destruct a0 as [o | e]; [| split; auto].
  unfold set_leg_size. split.
  - apply (side_cases _ t); unfold filled; [now rewrite es_leg_set | now rewrite es_leg_set_other].
  - right. exists t, a, o. rewrite leg_size_set, leg_size_other. split; [reflexivity |]. split; [reflexivity |].
    apply elem_of_app. right. constructor.
Qed.

Lemma balance_since (lq sq : f64) (P : list call -> Prop) st w :
  lasting P -> made_since P w ->
  wp (balance_legs opp lq sq st)
    (fun st' w' => made_since (fun cs => P cs /\ cut_even cs (fun s => match s with Long => lq | Short => sq end) st st') w') w.
Proof.
  intros Hl Hp. unfold balance_legs. set (qt := fun s => match s with Long => lq | Short => sq end).
  destruct_if; [destruct_if |].
  - now apply (trim_since Long qt).
  - now apply (trim_since Short qt).
  - apply wp_ret. eapply since_imp; [| exact Hp]. intros cs Hcs. unfold cut_even. auto.
Qed.

(** Both legs filled when looked at together. *)
Lemma balanced_position cs s secs qt st st' :
  reported cs s (leg_size st s) -> filled s st = true -> (forall t, reported cs t (qt t)) ->
  cut_even cs qt st st' ->
  held opp qty cs (set_leg (opposite s) (mark_filled secs (qt (opposite s)) (es_leg (opposite s) st')) st').
Proof.
  intros Hs Hf Hqt [Hk Hb]. left. split; [apply hedged_both; [now rewrite Hk | reflexivity] |].
  set (st2 := set_leg _ _ _).
  assert (H1 : leg_size st2 (opposite s) = qt (opposite s)) by apply leg_size_set.
  assert (H2 : leg_size st2 s = leg_size st' s) by apply leg_size_opposite.
  assert (Hapart : leg_size st' s = leg_size st s -> sizes_backed opp qty cs (leg_size st2)).
  { intros He. apply pos_reported, (side_cases _ s); [rewrite H2, He; exact Hs | rewrite H1; apply Hqt]. }
  destruct Hb as [Hb | (t & secs' & o & Ht & Hother & Hin)]; [now apply Hapart |].
  destruct (decide (t = s)) as [-> | Hne].
  - rewrite <- Ht in Hin. apply (pos_trimmed _ _ _ _ s (qt s) secs' o); rewrite ?H1, ?H2; auto.
  - apply Hapart. destruct t, s; cbn in *; congruence.
Qed.
Definition good : control -> list call -> Prop := fun c cs => held opp qty cs (control_state c).

Lemma settle_since s m st w :
  filled s st = true -> made_since (fun cs => one_filled cs s st) w ->
  wp (settle_other_leg opp s (leg_size st s) m st) (ok_since good) w.
Proof.
  intros Hf Hp. unfold settle_other_leg. wp_step. eapply wp_mono; [apply (check_both_since s st), Hp |].
  intros both w1 Hb.
  assert (Hh : made_since (fun cs => reported cs s (leg_size st s)) w1 ->
    wp (bind_ok (hedge_depth_check opp s (leg_size st s) st) (fun st1 =>
      bind_ok (market_hedge opp s (leg_size st s) m st1) (fun st2 => ret (Ok (Fall st2))))) (ok_since good) w1).
  { intros Hr. eapply ok_bind; [apply hedge_depth_since; [| exact Hr]; apply reported_lasts |].
    intros st1 w2 H2. destruct H2 as (cs & Hcs & Hleg & Hrep).
    assert (Hsz : leg_size st s = leg_size st1 s) by (unfold leg_size, leg_order; now rewrite Hleg).
    rewrite Hsz. eapply ok_bind; [apply market_hedge_since |].
    - unfold filled. now rewrite Hleg.
    - exists cs. split; [exact Hcs | now rewrite <- Hsz].
    - intros st2 w3 H3. apply wp_ret. exact H3. }
  assert (Hr : made_since (fun cs => reported cs s (leg_size st s)) w1).
  { eapply since_imp; [| exact Hb]. intros cs [(Hr & _) _]. exact Hr. }
  destruct both as [[lq sq | | |] | e]; try now apply Hh.
  set (qt := fun s => match s with Long => lq | Short => sq end).
  wp_step. eapply wp_mono; [apply (balance_since lq sq (fun cs => reported cs s (leg_size st s) /\
    forall t, reported cs t (qt t))) |].
  - intros cs cs' [H1 H2]. split; [exact (reported_lasts opp qty s _ cs cs' H1) | intros t; exact (reported_lasts opp qty t _ cs cs' (H2 t))].
  - eapply since_imp; [| exact Hb]. intros cs [(H1 & _) H2]. split; [exact H1 | exact H2].
  - intros st1 w2 H2. do 3 wp_step. cbv zeta. eapply since_imp; [| exact H2].
    intros cs ((H3 & H4) & H5). unfold good. cbn [control_state].
    pose proof (balanced_position cs s a qt st st1 H3 Hf H4 H5) as Hpos. now destruct s.
Qed.

Lemma on_filled_since s o i st y w :
  (forall t, filled t st = false) -> o = leg_order s st -> is_fully_filled i = true ->
  made_since (fun cs => (forall t, chain cs t (leg_order t st)) /\
                   CDetailed (so_exchange o) (so_id o) y (Ok i) ∈ cs) w ->
  wp (on_filled opp s i st) (ok_since good) w.
Proof.
  intros Hn -> Hi Hp. unfold on_filled. do 4 wp_step. set (st1 := set_leg s _ st).
  assert (Ho : filled (opposite s) st1 = false).
  { unfold filled, st1. rewrite es_leg_set_other. apply Hn. }
  rewrite Ho. apply lock_since. intros w1 Hw.
  replace (osi_filled_quantity i) with (leg_size st1 s) by apply leg_size_set.
  apply settle_since; [unfold filled, st1; now rewrite es_leg_set |].
  destruct Hp as (cs & Hcs & Hch & Hin). exists cs. split; [now rewrite Hw |].
  split; [| split].
  - exists (leg_order s st), y, i. split; [apply Hch |]. split; [exact Hin |]. split; [exact Hi |].
    apply leg_size_set.
  - unfold leg_order at 1, st1. rewrite es_leg_set_other. apply Hch.
  - exists (leg_order s st). split; [apply Hch |]. unfold leg_order at 1 3, st1. now rewrite es_leg_set.
Qed.

Lemma check_leg_since s st w :
  made_since (fun cs => held opp qty cs st) w -> wp (check_leg opp s st) (ok_since good) w.
Proof.
  intros Hp. unfold check_leg. destruct (filled s st) eqn:Hf; [now apply wp_ret |].
  do 2 wp_step. set (w1 := after_call _ _ _ _).
  assert (Hp1 : made_since (fun cs => held opp qty cs st) w1) by (apply since_called; auto with fills).
  destruct a as [i | e]; [| now apply wp_ret].
  destruct (is_fully_filled i) eqn:Hi.
  - destruct Hp as (cs & Hcs & [[[H1 H2] _] | [Hn Hch]]); [destruct s; congruence |].
    apply (on_filled_since s (leg_order s st) i st (ao_symbol opp)); auto.
    exists (cs ++ [CDetailed (so_exchange (leg_order s st)) (so_id (leg_order s st)) (ao_symbol opp) (Ok i)]).
    split; [cbn; now rewrite Hcs, app_assoc |]. split; [intros t; now apply chain_lasts |].
    apply elem_of_app. right. constructor.
  - destruct (is_partially_filled i); [now apply wp_ret |]. case_decide; now apply wp_ret.
Qed.
Lemma chase_since s st w :
  made_since (fun cs => held opp qty cs st) w ->
  wp (chase_leg config s st) (fun st' w' => made_since (fun cs => held opp qty cs st') w') w.
Proof.
  intros Hp. unfold chase_leg. destruct (lg_filled (es_leg s st)) eqn:Hf; cbn [negb andb]; [now apply wp_ret |].
  destruct (_ <? _); [| now apply wp_ret].
  apply (quiet_bind w0 _ _ (fun cs => held opp qty cs st)); [apply quiet_best | apply held_lasts | exact Hp |].
  intros [price | e] w1 Hp1; [| now apply wp_ret]. destruct (should_reprice _ _ _); [| now apply wp_ret].
  wp_step. eapply wp_mono; [apply reprice_order_cases |]. intros r w2 ([[] | e] & Hr).
  - destruct Hr as (secs & p & Hc & Hr). destruct p as [placed | e].
    + destruct Hr as (ev & -> & _). apply wp_ret. eapply since_more; [exact Hp1 | exact Hc |].
      intros cs [[[H1 H2] _] | [Hn Hch]]; [unfold filled in *; destruct s; congruence |]. right. split.
      * apply (side_cases _ s); unfold filled; [now rewrite es_leg_set | rewrite es_leg_set_other; apply Hn].
      * apply (side_cases _ s); unfold leg_order;
          [rewrite es_leg_set | rewrite es_leg_set_other; apply chain_lasts, Hch].
        cbn [lg_order]. eapply chain_repriced; [apply chain_lasts, Hch | |]; apply elem_of_app; right;
          [constructor | do 2 constructor].
    + subst r. apply wp_ret. eapply since_more; [exact Hp1 | exact Hc |]. intros cs. apply held_lasts.
  - destruct Hr as [Hc ->]. apply wp_ret. eapply since_more; [exact Hp1 | exact Hc |]. intros cs. apply held_lasts.
Qed.

Lemma poll_leg_since s st w :
  made_since (fun cs => held opp qty cs st) w -> wp (poll_leg opp config s st) (ok_since good) w.
Proof.
  intros Hp. unfold poll_leg. eapply ok_bind; [now apply check_leg_since |].
  intros [] w1 H1; try now apply wp_ret. wp_step. eapply wp_mono; [now apply chase_since |].
  intros st1 w2 H2. now apply wp_ret.
Qed.

(** A test that may cancel both legs and end the function. *)
Lemma check_since {A} (m : ST (World B) (result unit entry_real_error))
  (k : unit -> ST (World B) (result A entry_real_error)) (P : list call -> Prop) Q w :
  quiet m -> lasting P -> made_since P w -> (forall u w1, made_since P w1 -> wp (k u) (ok_since Q) w1) ->
  wp (bind_ok m k) (ok_since Q) w.
Proof.
  intros Hm Hl Hp Hk. apply wp_bind_ok, (wp_respects (tame (fun _ => True))); [exact Hm |].
  intros [u | e] w1 _ (_ & _ & cs & Hcs & _); [| exact I]. apply Hk, (since_more w0 P P w w1 cs); auto.
Qed.

Lemma poll_turn_since st w :
  made_since (fun cs => held opp qty cs st) w -> wp (poll_turn opp config st) (ok_since good) w.
Proof.
  intros Hp. unfold poll_turn, poll_long, poll_short. do 2 wp_step.
  eapply ok_bind; [apply poll_leg_since; exact Hp |]. intros [st1 | st1 | st1] w1 H1; try now apply wp_ret.
  eapply ok_bind; [apply poll_leg_since; exact H1 |]. intros [st2 | st2 | st2] w2 H2; try now apply wp_ret.
  do 3 (apply (check_since _ _ (fun cs => held opp qty cs st2));
    [unfold check_spread, check_max_reprices, cancel_both; solve_quiet | apply held_lasts | assumption |];
    intros ? ? ?).
  apply wp_ret. now destruct (_ && _)%bool.
Qed.

Lemma poll_loop_since fuel start t st w :
  made_since (fun cs => held opp qty cs st) w ->
  wp (poll_loop opp config fuel start t st) (fun r w' =>
    match r with Some (Ok st') => made_since (fun cs => held opp qty cs st') w' | _ => True end) w.
Proof.
  revert st w. induction fuel as [| fuel IH]; intros st w Hp; cbn [poll_loop]; [now apply wp_ret |].
  do 2 wp_step. destruct (_ && _)%bool; [| now apply wp_ret].
  wp_step. eapply wp_mono; [apply poll_turn_since; exact Hp |].
  intros [[] | e] w1 Hc; try (apply wp_ret; exact Hc); now apply IH.
Qed.

(** *** After the loop *)
Lemma final_status_since s st w :
  (forall t, t = s -> filled t st = false) ->
  made_since (fun cs => forall t, if filled t st then reported cs t (leg_size st t) else chain cs t (leg_order t st)) w ->
  wp (final_status opp s st) (fun st' w' => (forall t, t <> s -> filled t st' = filled t st) /\
    made_since (fun cs => forall t, if filled t st' then reported cs t (leg_size st' t)
                               else chain cs t (leg_order t st')) w') w.
Proof.
  intros Hs Hp. unfold final_status. do 2 wp_step. apply wp_ret. specialize (Hs s eq_refl).
  assert (Hkeep : made_since (fun cs => forall t, if filled t st then reported cs t (leg_size st t)
      else chain cs t (leg_order t st)) (after_call w b (CDetailed (so_exchange (leg_order s st))
        (so_id (leg_order s st)) (ao_symbol opp)) a)).
  { apply since_called; [| exact Hp]. intros cs cs' Hall t. specialize (Hall t).
    destruct (filled t st); [now apply reported_lasts | now apply chain_lasts]. }
  destruct a as [i | e]; [| now split]. destruct (is_fully_filled i) eqn:Hi; [| now split].
  split; [intros t Hne; destruct s, t; now try congruence |].
  eapply since_more; [exact Hp | reflexivity |]. intros cs Hall. set (st1 := set_leg s _ st).
  assert (H1 : filled s st1 = true) by (unfold filled, st1; now rewrite es_leg_set).
  assert (H2 : es_leg (opposite s) st1 = es_leg (opposite s) st) by apply es_leg_set_other.
  apply (side_cases _ s).
  - rewrite H1. exists (leg_order s st), (ao_symbol opp), i. pose proof (Hall s) as Hc. rewrite Hs in Hc.
    split; [now apply chain_lasts |]. split; [apply elem_of_app; right; constructor |].
    split; [exact Hi | apply leg_size_set].
  - unfold leg_size, leg_order, filled. rewrite H2. specialize (Hall (opposite s)).
    unfold leg_size, leg_order, filled in Hall. destruct (lg_filled _); [now apply reported_lasts | now apply chain_lasts].
Qed.

Lemma final_check_since st w :
  made_since (fun cs => held opp qty cs st) w ->
  wp (final_check opp st) (ok_since (fun st' cs => checked opp qty cs st')) w.
Proof.
  intros Hp. unfold final_check. destruct (_ && _)%bool eqn:Hn.
  - apply andb_true_iff in Hn. destruct Hn as [Hn1 Hn2]. apply negb_true_iff in Hn1, Hn2.
    wp_step. eapply wp_mono; [apply final_status_since; [intros t ->; exact Hn1 |] |].
    { eapply since_imp; [| exact Hp]. intros cs [[[H1 _] _] | [Hf Hch]]; [congruence |]. intros t. now rewrite Hf. }
    intros st1 w1 [Hk1 H1]. wp_step.
    eapply wp_mono; [apply final_status_since; [intros t ->; now rewrite Hk1 | exact H1] |].
    intros st2 w2 [Hk2 H2]. destruct (_ && _)%bool.
    + wp_step. apply (wp_respects (tame (fun _ => True))); [apply quiet_cancel_both |]. intros; exact I.
    + apply wp_ret. eapply since_imp; [| exact H2]. intros cs Hall. now right.
  - apply wp_ret. eapply since_imp; [| exact Hp]. intros cs [Hb | [Hf Hch]]; [now left | right].
    intros t. now rewrite Hf.
Qed.
(** What a limit order adds to a final hedge that starts from [base]. *)
Definition limit_adds (cs : list call) (h : OrderSide) (remaining base total : f64) : Prop :=
  total = base \/ exists extra, limit_fill opp cs h remaining extra /\ total = (base + extra)%F.

Lemma aggressive_since h remaining base (P : list call -> Prop) w :
  lasting P -> made_since P w ->
  wp (aggressive_limit opp h remaining base)
    (fun '(total, _) w' => made_since (fun cs => P cs /\ limit_adds cs h remaining base total) w') w.
Proof.
  intros Hl Hp.
  assert (Hsame : forall w1, made_since P w1 -> made_since (fun cs => P cs /\ limit_adds cs h remaining base base) w1).
  { intros w1. apply since_imp. intros cs Hcs. split; [exact Hcs | now left]. }
  unfold aggressive_limit. apply (quiet_bind w0 _ _ P); [destruct h; solve_quiet | exact Hl | exact Hp |].
  intros [best | e] w1 Hp1; [| now apply wp_ret, Hsame].
  do 6 wp_step. destruct a1 as [o | e]; [| apply wp_ret, Hsame, since_called; auto].
  do 4 wp_step. destruct a2 as [i | e].
  - assert (Hadd : forall w2, w_calls w2 = (w_calls w1 ++ [CPlace (set_so_id ("aggressive_hedge_" +:+ a)
        (order_template opp h h Limit best remaining a0)) (Ok o)]) ++
        [CDetailed (exchange_of h opp) (so_id o) (ao_symbol opp) (Ok i)] ->
      made_since (fun cs => P cs /\ limit_adds cs h remaining base (base + osi_filled_quantity i)%F) w2).
    { intros w2 Hw. eapply since_more; [exact Hp1 | rewrite Hw, <- app_assoc; reflexivity |].
      intros cs Hcs. split; [now apply Hl |]. right. exists (osi_filled_quantity i). split; [| reflexivity].
      do 3 eexists. exists o, (ao_symbol opp), i.
      split; [apply elem_of_app; right; constructor |]. split; [| reflexivity].
      apply elem_of_app; right; do 2 constructor. }
    destruct (_ >=? _)%F; [now apply wp_ret, Hadd |]. do 2 wp_step. apply wp_ret.
    apply since_called; [| apply Hadd; reflexivity].
    intros cs cs' [Hcs Ha]. split; [now apply Hl |]. destruct Ha as [-> | (extra & He & ->)]; [now left | right].
    exists extra. split; [now apply limit_lasts | reflexivity].
  - do 2 wp_step. apply wp_ret, Hsame. do 2 (apply since_called; [exact Hl |]).
    apply since_rt, since_called; [exact Hl | exact Hp1].
Qed.

Lemma final_market_since s total m st (P : list call -> Prop) w :
  filled s st = true -> made_since P w ->
  (forall cs, P cs -> reported cs s (leg_size st s) /\ before_market opp qty cs (opposite s) (leg_size st s) total) ->
  (total >=? leg_size st s)%F = false ->
  wp (final_market opp s (leg_size st s - total)%F m st) (ok_since (fun st' cs => checked opp qty cs st')) w.
Proof.
  intros Hf Hp Hev Hlt. unfold final_market. do 2 wp_step.
  wp_step. eapply wp_mono; [apply (retry_evidence opp w0); exact Hp |].
  intros [[o | e] m'] w2 Ho; cbn [fst]; [| apply failed_hedge_since].
  apply wp_ret. eapply since_imp; [| exact Ho]. intros cs (pre & Hpre & Hm). left.
  split; [now apply hedged_both |]. destruct (Hev pre Hpre) as [H1 H2].
  apply (pos_late_market _ _ _ _ s total pre); rewrite ?leg_size_opposite, ?leg_size_set; assumption.
Qed.

Lemma hedged_by_checked s total st cs :
  filled s st = true -> reported cs s (leg_size st s) ->
  before_market opp qty cs (opposite s) (leg_size st s) total -> (total >=? leg_size st s)%F = true ->
  checked opp qty cs (hedged_by (opposite s) total st).
Proof.
  intros Hf Hr Hb Hge. left. unfold hedged_by, set_leg_size.
  split; [now apply hedged_both |].
  apply (pos_late _ _ _ _ s); rewrite leg_size_opposite, ?leg_size_set, ?es_leg_set; cbn; assumption.
Qed.

Lemma final_body_since s st w :
  filled s st = true ->
  made_since (fun cs => reported cs s (leg_size st s) /\ chain cs (opposite s) (leg_order (opposite s) st)) w ->
  wp (final_hedge_body opp s st) (ok_since (fun st' cs => checked opp qty cs st')) w.
Proof.
  intros Hf Hp. unfold final_hedge_body. do 2 wp_step. cbv zeta.
  eapply ok_bind; [apply hedge_depth_since; [| exact Hp] |].
  { intros cs cs' [H1 H2]. split; [exact (reported_lasts opp qty s _ cs cs' H1) | now apply chain_lasts]. }
  intros st1 w1 (cs1 & Hcs1 & Hleg & Hrep & Hch).
  assert (Hsz : so_size (leg_order s st) = leg_size st1 s) by (unfold leg_size, leg_order; now rewrite Hleg).
  assert (Ho : leg_order (opposite s) st1 = leg_order (opposite s) st) by (unfold leg_order; now rewrite Hleg).
  assert (Hf1 : filled s st1 = true) by (unfold filled; now rewrite Hleg).
  change (leg_size st s) with (so_size (leg_order s st)) in Hrep. rewrite Hsz in *. rewrite Ho.
  set (o := leg_order (opposite s) st) in *. set (q := leg_size st1 s) in *.
  do 4 wp_step. set (w2 := after_call _ _ _ a1). set (base := match a1 with Ok _ => _ | Err _ => _ end).
  set (P := fun cs => reported cs s q /\ chain cs (opposite s) o /\ open_fill cs o base).
  assert (HP : lasting P).
  { intros cs cs' (H1 & H2 & H3). split; [exact (reported_lasts opp qty s q cs cs' H1) |].
    split; [now apply chain_lasts | now apply open_lasts]. }
  assert (Hp2 : made_since P w2).
  { eexists. split; [cbn; rewrite <- app_assoc; cbn; rewrite Hcs1, <- app_assoc; reflexivity |].
    split; [exact (reported_lasts opp qty s q cs1 _ Hrep) |]. split; [now apply chain_lasts |].
    exists cs1, (ao_symbol opp), a0, a1, []. split; reflexivity. }
  assert (Hbase : forall cs total, P cs -> limit_adds cs (opposite s) (q - base)%F base total ->
    before_market opp qty cs (opposite s) q total).
  { intros cs total (_ & H2 & H3) Ha. exists o, base. auto. }
  destruct (base >=? q)%F eqn:Hge.
  { apply wp_ret. eapply since_imp; [| exact Hp2]. intros cs Hcs.
    apply hedged_by_checked; auto; [apply Hcs | apply Hbase; [exact Hcs | now left]]. }
  wp_step. eapply wp_mono; [apply (aggressive_since (opposite s) _ base P); assumption |].
  intros [total limit] w3 H3.
  set (st2 := match limit with Some _ => _ | None => _ end).
  assert (Hst2 : filled s st2 = true /\ leg_size st2 s = q).
  { unfold st2. destruct limit; [| auto]. unfold filled. rewrite es_leg_set_opposite, leg_size_opposite. auto. }
  destruct Hst2 as [Hf2 Hq2]. rewrite <- Hq2. destruct (total >=? _)%F eqn:Hge2.
  - apply wp_ret. eapply since_imp; [| exact H3]. intros cs [Hcs Ha].
    apply hedged_by_checked; auto; rewrite Hq2; [apply Hcs | now apply Hbase].
  - eapply (final_market_since s total _ st2); [exact Hf2 | exact H3 | | exact Hge2].
    intros cs [Hcs Ha]. rewrite Hq2. split; [apply Hcs | now apply Hbase].
Qed.

Lemma final_hedge_since s st w :
  made_since (fun cs => checked opp qty cs st) w ->
  wp (final_hedge opp s st) (ok_since (fun st' cs => checked opp qty cs st')) w.
Proof.
  intros Hp. unfold final_hedge. destruct (_ && _)%bool eqn:Hc; [| now apply wp_ret].
  apply andb_true_iff in Hc. destruct Hc as [Hf Ho]. apply negb_true_iff in Ho.
  apply lock_since. intros w1 Hw. apply final_body_since; [exact Hf |].
  destruct Hp as (cs & Hcs & [[[H1 H2] _] | Hall]); [destruct s; cbn in Ho; congruence |].
  exists cs. split; [now rewrite Hw |]. pose proof (Hall s) as H1. pose proof (Hall (opposite s)) as H2.
  rewrite Hf in H1. rewrite Ho in H2. auto.
Qed.

Lemma place_both_since now c w :
  made_since (fun _ => True) w ->
  wp (place_both opp qty now c) (ok_since (fun st cs => held opp qty cs st)) w.
Proof.
  intros Hp. unfold place_both. do 4 wp_step. destruct a as [lo | e]; [| exact I].
  destruct a0 as [so | e]; [| do 2 wp_step; exact I].
  apply wp_ret. eapply since_more; [exact Hp | cbn; rewrite <- app_assoc; reflexivity |].
  intros cs _. right. split; [now intros [] |].
  intros []; eapply chain_placed; apply elem_of_app; right; [constructor | do 2 constructor].
Qed.
End parts.

(** ** The trade *)

(** The size a trade records for a leg. *)
Definition trade_size (t : PaperTrade) (s : OrderSide) : f64 :=
  match s with Long => so_size (pt_long_order t) | Short => so_size (pt_short_order t) end.

(** Evidence for sizes taken from the two legs. *)
Lemma position_ext opp qty cs sz sz' :
  (forall s, sz s = sz' s) -> sizes_backed opp qty cs sz -> sizes_backed opp qty cs sz'.
Proof.
  intros He Hp.
  destruct Hp as [Hr | s q secs o H1 H2 H3 H4 | s pre H1 H2 | s H1 H2 H3 | s total pre H1 H2 H3 H4]; rewrite ?He in *.
  - apply pos_reported. intros s. rewrite <- He. apply Hr.
  - now apply (pos_trimmed _ _ _ _ s q secs o).
  - now apply (pos_hedged _ _ _ _ s pre).
  - now apply (pos_late _ _ _ _ s).
  - now apply (pos_late_market _ _ _ _ s total pre).
Qed.

Section entry.
Context {B : Type} `{Backend B}.

Lemma post_loop_since opp qty (w0 : World B) now size st w :
  made_since w0 (fun cs => held opp qty cs st) w ->
  wp (post_loop opp now size st) (ok_since w0 (fun t cs => sizes_backed opp qty cs (trade_size t))) w.
Proof.
  intros Hp. unfold post_loop, hedge_short_leg, hedge_long_leg.
  eapply ok_bind; [eapply final_check_since, Hp |]. intros st1 w1 H1.
  eapply ok_bind; [eapply final_hedge_since, H1 |]. intros st2 w2 H2.
  eapply ok_bind; [eapply final_hedge_since, H2 |]. intros st3 w3 H3.
  destruct (_ || _)%bool eqn:Hn; [exact I |]. apply orb_false_iff in Hn.
  destruct Hn as [Hn1 Hn2]. apply negb_false_iff in Hn1, Hn2.
  wp_step. eapply wp_mono; [apply complete_entry_spec |]. intros t w4 (cs' & Hc & _ & Hl & Hs & _).
  apply wp_ret. eapply since_more; [exact H3 | exact Hc |]. intros cs Hck. apply position_lasts.
  apply (position_ext _ _ _ (leg_size st3)); [intros []; cbn; now rewrite ?Hl, ?Hs |].
  destruct Hck as [[_ Hpos] | Hall]; [exact Hpos |]. apply pos_reported. intros s.
  specialize (Hall s). destruct s; [rewrite Hn1 in Hall | rewrite Hn2 in Hall]; exact Hall.
Qed.

(** C1. A trade is booked on reports only.  When the entry succeeds, the calls it
    made contain the evidence for the two sizes it records: each leg's own
    order reported filled completely with its size; or one leg reported filled
    with more and cut back to the other one's size by an accepted order for the
    difference; or one leg reported filled and the other one hedged: after that
    report, the market orders of the hedge were each followed by the status
    query of that very order, the quantities reported add up to the size
    recorded, and that size covers the filled leg; or, after the loop, the
    quantities reported of the cancelled order and of the aggressive limit
    order, with the market orders' for the rest, cover it.  A status query that
    fails adds nothing. *)
Theorem entry_fills_reported fuel opp cap size (w : World B) :
  wp (execute_atomic_entry_real fuel opp cap size) (fun r w' =>
    match r with
    | Some (Ok t) => exists qty cs, w_calls w' = w_calls w ++ cs /\ sizes_backed opp qty cs (trade_size t)
    | _ => True
    end) w.
Proof.
  unfold execute_atomic_entry_real, entry_with_config. wp_step.
  apply (wp_respects (tame no_order)); [apply pre_trade_no_order |].
  intros [[[qty now] c] | e] w1 _ (_ & _ & cs1 & Hcs1 & _); [| now apply wp_ret].
  wp_step. eapply wp_mono; [apply (place_both_since _ _ w); exists cs1; auto |].
  intros [st | e] w2 H2; [| now apply wp_ret]. do 3 wp_step.
  eapply wp_mono; [apply (poll_loop_since _ _ qty w); exact H2 |].
  intros [[st' | e] |] w3 H3; [| now apply wp_ret ..].
  wp_step. eapply wp_mono; [eapply post_loop_since, H3 |].
  intros [t | e] w4 H4; apply wp_ret; [| exact I]. destruct H4 as (cs & Hcs & Hpos). eauto.
Qed.
End entry.

(** A run for each of the last two ways: the final check finds the long leg
    filled; the short one is hedged by its cancelled order and a market order,
    or was filled before the cancellation. *)
Example hedged_late :
  let r := EntryRealSpec.run (replicate 60 (pending 0.0%f64) ++
      [full 1.0%f64; pending 0.5%f64; pending 0.5%f64; full 0.5%f64]) [Ok tt] ∅ in
  sizes (fst r) = Some (1.0%f64, 0.5%f64, [1.0%f64; 0.5%f64]).
Proof. vm_compute. reflexivity. Qed.

Example filled_before_cancel :
  let r := EntryRealSpec.run (replicate 60 (pending 0.0%f64) ++
      [full 1.0%f64; pending 0.5%f64; full 1.0%f64]) [] ∅ in
  sizes (fst r) = Some (1.0%f64, 1.0%f64, [1.0%f64; 1.0%f64]).
Proof. vm_compute. reflexivity. Qed.
