(* ===== verification/ConfigStorage.v ===== *)
(** Storage and validation of the repricing configuration
    ([src/src/strategy/config_storage.rs]).

    [serde_json] is a parameter: a printer and a reader for the two structures.
    Nothing is assumed of them (a NaN is printed as [null], and floats need not
    read back exactly).  The storage mutex is never poisoned: nothing panics
    while holding it. *)
From Stdlib Require Import ZArith Lia Bool.
From stdpp Require Import base option list gmap strings.
From S2P Require Import Prelude Float64 Types Backend PriceChaser.

#[local] Open Scope Z_scope.

Record ConfidenceThresholds := { ultra_fast_threshold : f64; balanced_threshold : f64 }.

(** What the code uses of [serde_json]. *)
Class Serde (A : Type) := {
  to_json : A -> result string string;
  of_json : string -> result A string
}.

Abbreviation InMemoryConfigStorage := (gmap string string).

Definition InMemoryConfigStorage_new : InMemoryConfigStorage := ∅.

Definition repricing_key : string := "strategy:config:repricing".
Definition thresholds_key : string := "strategy:config:confidence_thresholds".

Section storage.
Context `{Serde RepricingConfig} `{Serde ConfidenceThresholds}.

Definition save_repricing_config (config : RepricingConfig) (storage : InMemoryConfigStorage)
  : result unit string * InMemoryConfigStorage :=
  match to_json config with
  | Ok json => (Ok tt, <[repricing_key := json]> storage)
  | Err e => (Err ("Failed to serialize config: " +:+ e), storage)
  end.

Definition load_repricing_config (storage : InMemoryConfigStorage) : result RepricingConfig string :=
  match storage !! repricing_key with
  | Some json => map_err (fun e => "Failed to deserialize config: " +:+ e) (of_json json)
  | None => Ok balanced
  end.

Definition save_confidence_thresholds (ultra_fast balanced : f64) (storage : InMemoryConfigStorage)
  : result unit string * InMemoryConfigStorage :=
  match to_json {| ultra_fast_threshold := ultra_fast; balanced_threshold := balanced |} with
  | Ok json => (Ok tt, <[thresholds_key := json]> storage)
  | Err e => (Err ("Failed to serialize thresholds: " +:+ e), storage)
  end.

Definition load_confidence_thresholds (storage : InMemoryConfigStorage) : result (f64 * f64) string :=
  match storage !! thresholds_key with
  | Some json =>
      match of_json json with
      | Ok t => Ok (ultra_fast_threshold t, balanced_threshold t)
      | Err e => Err ("Failed to deserialize thresholds: " +:+ e)
      end
  | None => Ok (90.0%f64, 75.0%f64)
  end.
End storage.

(** ** Validation; an error names the field. *)
Inductive config_error :=
| InvalidThreshold (v : f64)
| InvalidMaxReprices (v : Z)
| InvalidInterval (v : Z)
| InvalidTimeout (v : Z)
| InvalidSpreadCollapse (v : f64)
| InvalidOrder (ultra_fast balanced : f64)
| InvalidUltraFast (v : f64)
| InvalidBalanced (v : f64).

Definition validate_repricing_config (config : RepricingConfig) : result unit config_error :=
  if (reprice_threshold_bps config <? 1.0%f64)%F || (reprice_threshold_bps config >? 20.0%f64)%F
  then Err (InvalidThreshold (reprice_threshold_bps config))
  else if (max_reprices config <? 1) || (10 <? max_reprices config)
  then Err (InvalidMaxReprices (max_reprices config))
  else if (reprice_interval_ms config <? 50) || (500 <? reprice_interval_ms config)
  then Err (InvalidInterval (reprice_interval_ms config))
  else if (total_timeout_seconds config <? 1) || (10 <? total_timeout_seconds config)
  then Err (InvalidTimeout (total_timeout_seconds config))
  else if (spread_collapse_threshold_bps config <? 20.0%f64)%F
       || (spread_collapse_threshold_bps config >? 100.0%f64)%F
  then Err (InvalidSpreadCollapse (spread_collapse_threshold_bps config))
  else Ok tt.

(** [(0.0..=100.0).contains(&x)] *)
Definition in_percent (x : f64) : bool := (0.0%f64 <=? x)%F && (x <=? 100.0%f64)%F.

Definition validate_confidence_thresholds (ultra_fast balanced : f64) : result unit config_error :=
  if (ultra_fast <=? balanced)%F then Err (InvalidOrder ultra_fast balanced)
  else if negb (in_percent ultra_fast) then Err (InvalidUltraFast ultra_fast)
  else if negb (in_percent balanced) then Err (InvalidBalanced balanced)
  else Ok tt.

(** ** Properties *)
Section stored.
Context `{Serde RepricingConfig} `{Serde ConfidenceThresholds}.

(** Loading reads back the text that was saved, and each of the two entries
    leaves the other alone; what was never saved has its default. *)
Lemma config_stored config u b storage :
  match to_json config, to_json {| ultra_fast_threshold := u; balanced_threshold := b |} with
  | Ok j1, Ok j2 =>
      let s1 := snd (save_repricing_config config storage) in
      let s2 := snd (save_confidence_thresholds u b s1) in
      load_repricing_config s2 = map_err (fun e => "Failed to deserialize config: " +:+ e) (of_json j1) /\
      load_confidence_thresholds s1 = load_confidence_thresholds storage /\
      match of_json j2 with
      | Ok t => load_confidence_thresholds s2 = Ok (ultra_fast_threshold t, balanced_threshold t)
      | Err _ => is_ok (load_confidence_thresholds s2) = false
      end
  | _, _ => True
  end.
Proof.
  destruct (to_json config) as [j1 |] eqn:E1, (to_json {| ultra_fast_threshold := u; balanced_threshold := b |})
    as [j2 |] eqn:E2; auto.
  cbv zeta. unfold save_repricing_config, save_confidence_thresholds, load_repricing_config,
    load_confidence_thresholds. rewrite E1, E2. cbn [snd].
  rewrite lookup_insert_ne by discriminate. rewrite !lookup_insert_eq.
  rewrite lookup_insert_ne by discriminate. destruct (of_json j2); auto.
Qed.

Lemma config_defaults :
  load_repricing_config InMemoryConfigStorage_new = Ok balanced /\
  load_confidence_thresholds InMemoryConfigStorage_new = Ok (90.0%f64, 75.0%f64).
Proof. auto. Qed.
End stored.

Lemma guard_ok {A E} (b : bool) (e : E) (r : result A E) a :
  (if b then Err e else r) = Ok a -> b = false /\ r = Ok a.
Proof. destruct b; [discriminate | auto]. Qed.

(** A configuration that passes has its integers in range. *)
Lemma validated_ranges config :
  validate_repricing_config config = Ok tt ->
  1 <= max_reprices config <= 10 /\ 50 <= reprice_interval_ms config <= 500 /\
  1 <= total_timeout_seconds config <= 10.
Proof.
  intros Hv. apply guard_ok in Hv as [_ Hv]. apply guard_ok in Hv as [Hm Hv].
  apply guard_ok in Hv as [Hi Hv]. apply guard_ok in Hv as [Ht _]. bool_simpl.
  rewrite Z.ltb_ge in *. lia.
Qed.

Lemma presets_valid :
  Forall (fun c => validate_repricing_config c = Ok tt) [ultra_fast; balanced; safe].
Proof. repeat constructor. Qed.

(** Chasing under any configuration that the validator accepts ends, for its own
    timeout, within 201 turns (10 s at 50 ms), and replaces the order at most
    ten times. *)
Theorem validated_config_chases {B} `{BackendClock B} config order (w : World B) :
  validate_repricing_config config = Ok tt ->
  wp (chase_until_filled 201 config order (total_timeout_seconds config * 1000 * 1000000))
     (fun r w' => r <> None /\ (placed_calls w' <= placed_calls w + 10)%nat) w.
Proof.
  intros Hv. apply validated_ranges in Hv as (Hm & Hi & Ht).
  assert (Hterm : wp (chase_until_filled 201 config order (total_timeout_seconds config * 1000 * 1000000))
    (fun r _ => r <> None) w).
  { unfold chase_until_filled. do 2 wp_step.
    destruct (b_instant_now (w_backend w)) as [Ha Hb]. rewrite E in Ha, Hb. cbn [fst snd] in Ha, Hb.
    apply chase_loop_terminates; [lia | | lia]. cbn [w_backend after_rt]. subst a. nia. }
  assert (Hbound : wp (chase_until_filled 201 config order (total_timeout_seconds config * 1000 * 1000000))
    (fun _ w' => (placed_calls w' <= placed_calls w + 10)%nat) w).
  { unfold chase_until_filled. do 2 wp_step.
    eapply wp_mono; [apply chase_loop_bounded; unfold U32_MAX; cbn; lia |].
    intros r w' [Hb _]. change (placed_calls (after_rt w b)) with (placed_calls w) in Hb.
    cbn [rm_reprice_count RepricingMetrics_new] in Hb. lia. }
  unfold wp in *. destruct (chase_until_filled _ _ _ _ w). auto.
Qed.

Lemma validated_config_chases_witness :
  validate_repricing_config safe = Ok tt /\
  wp (chase_until_filled 201 safe paper_order (total_timeout_seconds safe * 1000 * 1000000))
     (fun r w' => r <> None /\ (placed_calls w' <= placed_calls paper_world + 10)%nat) paper_world.
Proof. split; [reflexivity | exact (validated_config_chases safe paper_order paper_world eq_refl)]. Defined.

(** A NaN threshold passes the validator, and under it no order is ever
    repriced. *)
Definition nan_config : RepricingConfig :=
  {| reprice_threshold_bps := S754_nan; max_reprices := 5; reprice_interval_ms := 100;
     total_timeout_seconds := 3; spread_collapse_threshold_bps := 50.0%f64; execution_mode := Safe |}.

Theorem nan_threshold_accepted :
  validate_repricing_config nan_config = Ok tt /\
  forall order_price best, should_reprice nan_config order_price best = false.
Proof.
  split; [reflexivity |]. intros p b. unfold should_reprice. cbn [reprice_threshold_bps nan_config].
  destruct (fltb _ _) eqn:E; [| reflexivity]. apply fltb_nan_l in E. discriminate.
Qed.

(** Thresholds that pass are percentages in the right order; NaN never passes. *)
Lemma validated_thresholds u b :
  validate_confidence_thresholds u b = Ok tt ->
  (b <? u)%F = true /\ (0.0%f64 <=? b)%F = true /\ (u <=? 100.0%f64)%F = true.
Proof.
  unfold validate_confidence_thresholds, in_percent.
  destruct (u <=? b)%F eqn:Hle; [discriminate |].
  destruct (_ && _)%bool eqn:Hu; [| discriminate].
  destruct ((0.0%f64 <=? b)%F && (b <=? 100.0%f64)%F)%bool eqn:Hb; [| discriminate].
  intros _. bool_simpl. split; [| auto].
  rewrite fltb_not_fleb, Hle; [reflexivity | eauto using fleb_nan_l, fleb_nan_r ..].
Qed.
