(* ===== verification/FloatError.v ===== *)
(** The rounding error of the program's floats.

    The operations of [Float64.v] on non-negative numbers, as rationals: each result
    is the exact one up to half a unit in the last place, that is up to a relative
    error of [2^-53] and, for the smallest numbers, an absolute one of [2^-1075]. *)
From Stdlib Require Import ZArith Lia Bool QArith Qpower Qround Lqa.
From stdpp Require Import base.
From S2P Require Import Prelude Float64.

#[local] Open Scope Q_scope.

(** ** Powers of two *)
Definition pow2 (e : Z) : Q := Qpower 2 e.

Lemma pow2_pos e : 0 < pow2 e.
Proof. apply Qpower_0_lt. reflexivity. Qed.

Lemma pow2_add a b : pow2 (a + b) == pow2 a * pow2 b.
Proof. apply Qpower_plus. discriminate. Qed.

Lemma pow2_Z e : (0 <= e)%Z -> pow2 e == inject_Z (2 ^ e).
Proof. intros He. unfold pow2. change 2 with (inject_Z 2). symmetry. now apply Zpower_Qpower. Qed.

Lemma pow2_le a b : (a <= b)%Z -> pow2 a <= pow2 b.
Proof. intros H. apply Qpower_le_compat_l; [exact H | discriminate]. Qed.

Lemma pow2_lt_inv a b : pow2 a < pow2 b -> (a < b)%Z.
Proof. intros H. destruct (Z.lt_ge_cases a b) as [| Hba]; [assumption |]. apply pow2_le in Hba. lra. Qed.

(** ** What a record of the right shift stands for *)
Definition fraction (r s : bool) (t : Q) : Prop :=
  match r, s with
  | false, false => t == 0
  | false, true => 0 < t /\ t < 1 # 2
  | true, false => t == 1 # 2
  | true, true => 1 # 2 < t /\ t < 1
  end.

(** The integer kept, and what was shifted out of it. *)
Definition stands_for (mrs : shr_record) (x : Q) : Prop :=
  (0 <= shr_m mrs)%Z /\ exists t, fraction (shr_r mrs) (shr_s mrs) t /\ x == inject_Z (shr_m mrs) + t.

Lemma fraction_bounds r s t : fraction r s t -> 0 <= t /\ t < 1.
Proof. destruct r, s; cbn; lra. Qed.

Lemma shr_1_stands mrs x :
  stands_for mrs x -> stands_for (shr_1 mrs) (x * (1 # 2)) /\ shr_m (shr_1 mrs) = (shr_m mrs / 2)%Z.
Proof.
  destruct mrs as [m r s]. intros [Hm (t & Ht & Hx)]. cbn [shr_m shr_r shr_s] in *.
  assert (Hb : exists b : bool, m = (2 * (m / 2) + Z.b2z b)%Z /\
                 shr_1 (Build_shr_record m r s) = Build_shr_record (m / 2) b (r || s)).
  { destruct m as [| [p | p |] | p]; [exists false | exists true | exists false | exists true | lia].
    all: rewrite <- Z.div2_div; split; reflexivity. }
  destruct Hb as (b & Hmb & ->). cbn [shr_m shr_r shr_s]. split; [| reflexivity].
  split; [cbn; apply Z.div_pos; lia |]. exists ((inject_Z (Z.b2z b) + t) * (1 # 2)). cbn [shr_m shr_r shr_s].
  pose proof (fraction_bounds _ _ _ Ht). split.
  - destruct r, s, b; cbn [fraction orb Z.b2z] in *; change (inject_Z 1) with 1; change (inject_Z 0) with 0; lra.
  - assert (Hq : inject_Z m == 2 * inject_Z (m / 2) + inject_Z (Z.b2z b)).
    { rewrite Hmb at 1. now rewrite inject_Z_plus, inject_Z_mult. }
    rewrite Hx, Hq. lra.
Qed.

Lemma iter_shr_stands p : forall mrs x,
  stands_for mrs x ->
  stands_for (iter_pos shr_1 p mrs) (x * pow2 (- Zpos p)) /\
  shr_m (iter_pos shr_1 p mrs) = (shr_m mrs / 2 ^ Zpos p)%Z.
Proof.
  assert (Hproper : forall m x y, x == y -> stands_for m x -> stands_for m y).
  { intros m x y Hxy [Hm (t & Ht & Hx)]. split; [exact Hm |]. exists t. split; [exact Ht |]. now rewrite <- Hxy. }
  induction p as [p IH | p IH |]; intros mrs x Hs; cbn [iter_pos].
  - destruct (shr_1_stands mrs x Hs) as [H1 E1]. destruct (IH _ _ H1) as [H2 E2]. destruct (IH _ _ H2) as [H3 E3]. split.
    + eapply Hproper; [| exact H3].
      replace (- Z.pos p~1)%Z with (- 1 + - Zpos p + - Zpos p)%Z by lia. rewrite !pow2_add. change (pow2 (-1)) with (1 # 2). lra.
    + rewrite E3, E2, E1, !Z.div_div by lia. f_equal.
      replace (Z.pos p~1) with (1 + Zpos p + Zpos p)%Z by lia. rewrite !Z.pow_add_r by lia. lia.
  - destruct (IH _ _ Hs) as [H2 E2]. destruct (IH _ _ H2) as [H3 E3]. split.
    + eapply Hproper; [| exact H3].
      replace (- Z.pos p~0)%Z with (- Zpos p + - Zpos p)%Z by lia. rewrite !pow2_add. lra.
    + rewrite E3, E2, !Z.div_div by lia. f_equal.
      replace (Z.pos p~0) with (Zpos p + Zpos p)%Z by lia. rewrite !Z.pow_add_r by lia. lia.
  - exact (shr_1_stands mrs x Hs).
Qed.

Lemma digits_bounds m : (0 < m)%Z -> (1 <= Zdigits2 m /\ 2 ^ (Zdigits2 m - 1) <= m < 2 ^ Zdigits2 m)%Z.
Proof.
  intros Hm. destruct m as [| p | p]; [lia | | lia]. clear Hm. cbn [Zdigits2].
  induction p as [p IH | p IH |]; cbn [digits2_pos]; [| | lia].
  all: rewrite Pos2Z.inj_succ; destruct IH as [H1 [H2 H3]]; split; [lia |].
  all: replace (Z.succ (Z.pos (digits2_pos p)) - 1)%Z with (Z.pos (digits2_pos p) - 1 + 1)%Z by lia.
  all: rewrite Z.pow_add_r, Z.pow_succ_r by lia; lia.
Qed.

Lemma fexp_eq e : fexp PREC EMAX e = Z.max (e - 53) (-1074).
Proof. reflexivity. Qed.

Lemma shr_fexp_stands m e l x mrs e' :
  stands_for (shr_record_of_loc m l) x -> shr_fexp PREC EMAX m e l = (mrs, e') ->
  e' = Z.max e (Z.max (Zdigits2 m + e - 53) (-1074)) /\ stands_for mrs (x * pow2 (e - e')) /\
  shr_m mrs = (m / 2 ^ (e' - e))%Z.
Proof.
  intros Hs. unfold shr_fexp, shr. rewrite fexp_eq.
  assert (Hm : shr_m (shr_record_of_loc m l) = m) by (destruct l as [| []]; reflexivity).
  destruct (Z.max (Zdigits2 m + e - 53) (-1074) - e)%Z as [| p | p] eqn:En; intros [= <- <-].
  2: { destruct (iter_shr_stands p _ _ Hs) as [H1 H2]. rewrite Hm in H2. split; [lia |].
       replace (e - (e + Z.pos p))%Z with (- Zpos p)%Z by lia. replace (e + Z.pos p - e)%Z with (Zpos p) by lia. auto. }
  all: split; [lia |]; replace (e - e)%Z with 0%Z by lia; change (2 ^ 0)%Z with 1%Z; rewrite Z.div_1_r.
  all: split; [| exact Hm]; destruct Hs as [H0 (t & Ht & Hx)]; split; [exact H0 |]; exists t; split; [exact Ht |].
  all: rewrite <- Hx; change (pow2 0) with 1; lra.
Qed.

(** Rounding to nearest moves by half a unit at most. *)
Lemma round_nearest_near mrs x :
  stands_for mrs x ->
  let m := round_nearest_even (shr_m mrs) (loc_of_shr_record mrs) in
  (shr_m mrs <= m <= shr_m mrs + 1)%Z /\ x - (1 # 2) <= inject_Z m /\ inject_Z m <= x + (1 # 2).
Proof.
  destruct mrs as [m r s]. intros [Hm (t & Ht & Hx)]. cbn [shr_m shr_r shr_s] in *. cbv zeta.
  assert (H1 : inject_Z (m + 1) == inject_Z m + 1) by (now rewrite inject_Z_plus).
  destruct r, s; cbn [loc_of_shr_record round_nearest_even fraction] in *;
    [| destruct (Z.even m) | |]; (split; [lia | lra]).
Qed.

(** ** One rounding *)
Definition u : Q := pow2 (-53).
Definition eta : Q := pow2 (-1075).

(** [v] is [x] up to one rounding. *)
Definition rounds (x v : Q) : Prop := x - x * u - eta <= v /\ v <= x + x * u + eta.

(** A float that is [v], and not negative. *)
Definition is_val (x : f64) (v : Q) : Prop :=
  match x with
  | S754_zero _ => v == 0
  | S754_finite false m e => v == inject_Z (Zpos m) * pow2 e
  | _ => False
  end.

(** The second shift only takes the zeros of a carry off. *)
Lemma renormalize m e mrs e' :
  (0 <= m <= 2 ^ 53)%Z -> (-1074 <= e)%Z -> shr_fexp PREC EMAX m e loc_Exact = (mrs, e') ->
  (0 <= shr_m mrs)%Z /\ inject_Z (shr_m mrs) * pow2 e' == inject_Z m * pow2 e.
Proof.
  intros Hm He Hs.
  assert (Hst : stands_for (shr_record_of_loc m loc_Exact) (inject_Z m)).
  { split; [cbn; lia |]. exists 0. cbn. split; [reflexivity | lra]. }
  destruct (shr_fexp_stands _ _ _ _ _ _ Hst Hs) as (He' & [H0 _] & Hd). split; [exact H0 |].
  destruct (Z.eq_dec m (2 ^ 53)) as [-> | Hne].
  - change (Zdigits2 (2 ^ 53)) with 54%Z in He'. assert (e' = e + 1)%Z as -> by lia.
    rewrite Hd. replace (e + 1 - e)%Z with 1%Z by lia. rewrite pow2_add.
    change (inject_Z (2 ^ 53 / 2 ^ 1)) with (inject_Z (2 ^ 52)). change (pow2 1) with (inject_Z 2).
    assert (inject_Z (2 ^ 53) == inject_Z (2 ^ 52) * inject_Z 2) as -> by reflexivity. ring.
  - assert (e' = e) as ->.
    { destruct (Z.eq_dec m 0) as [-> | Hnz]; [cbn in He'; lia |].
      destruct (digits_bounds m) as (Hd1 & Hd2 & _); [lia |].
      assert (Zdigits2 m <= 53)%Z; [| lia].
      destruct (Z.le_gt_cases (Zdigits2 m) 53) as [| Hgt]; [assumption |].
      assert (2 ^ 53 <= 2 ^ (Zdigits2 m - 1))%Z by (apply Z.pow_le_mono_r; lia). lia. }
    rewrite Hd, Z.sub_diag. change (2 ^ 0)%Z with 1%Z. now rewrite Z.div_1_r.
Qed.

(** Half a unit in the last place against the two errors. *)
Lemma half_unit e x : (e = -1074)%Z /\ 0 <= x \/ pow2 (e + 52) <= x -> (1 # 2) * pow2 e <= x * u + eta.
Proof.
  intros [[-> Hx] | Hx].
  - assert (0 <= x * u) by (apply Qmult_le_0_compat; [exact Hx | discriminate]).
    assert ((1 # 2) * pow2 (-1074) == eta) as -> by (unfold eta; reflexivity). lra.
  - rewrite pow2_add in Hx. pose proof (pow2_pos e).
    assert (Hu : (1 # 2) * pow2 e == pow2 e * pow2 52 * u).
    { unfold u. rewrite <- Qmult_assoc. change (pow2 52 * pow2 (-53)) with (pow2 52 * (pow2 (-53))).
      assert (pow2 52 * pow2 (-53) == 1 # 2) as -> by reflexivity. ring. }
    rewrite Hu. assert (pow2 e * pow2 52 * u <= x * u) by (apply Qmult_le_compat_r; [exact Hx | discriminate]).
    assert (0 < eta) by reflexivity. lra.
Qed.

(** The first shift leaves 53 bits at most. *)
Lemma kept_bits m e e1 :
  (0 <= m)%Z -> e1 = Z.max e (Z.max (Zdigits2 m + e - 53) (-1074)) -> (0 <= m / 2 ^ (e1 - e) < 2 ^ 53)%Z.
Proof.
  intros Hm ->. split; [apply Z.div_pos; [exact Hm | apply Z.pow_pos_nonneg; lia] |].
  destruct (Z.eq_dec m 0) as [-> | Hnz]; [rewrite Z.div_0_l by (apply Z.pow_nonzero; lia); lia |].
  destruct (digits_bounds m) as (Hd1 & _ & Hd2); [lia |].
  apply Z.div_lt_upper_bound; [apply Z.pow_pos_nonneg; lia |].
  rewrite <- Z.pow_add_r by lia. eapply Z.lt_le_trans; [exact Hd2 |]. apply Z.pow_le_mono_r; lia.
Qed.

(** A number that needs no shift and has no fraction is left as it is. *)
Lemma exact_kept mx ex e1 mrs :
  stands_for mrs (inject_Z mx * pow2 (ex - e1)) -> shr_m mrs = (mx / 2 ^ (e1 - ex))%Z -> e1 = ex ->
  round_nearest_even (shr_m mrs) (loc_of_shr_record mrs) = mx.
Proof.
  intros [_ (t & Ht & Hx)] Hm ->. rewrite Z.sub_diag in *. change (pow2 0) with 1 in Hx.
  change (2 ^ 0)%Z with 1%Z in Hm. rewrite Z.div_1_r in Hm.
  destruct mrs as [m r s]. cbn [shr_m shr_r shr_s] in *. subst m.
  destruct r, s; cbn [fraction] in Ht; try lra. reflexivity.
Qed.

(** What is kept, rounded, against the exact number. *)
Lemma first_rounding mx ex lx x mrs e1 :
  stands_for (shr_record_of_loc mx lx) x ->
  lx = loc_Exact \/ (53 <= Zdigits2 mx)%Z \/ (ex <= -1074)%Z ->
  shr_fexp PREC EMAX mx ex lx = (mrs, e1) ->
  let m := round_nearest_even (shr_m mrs) (loc_of_shr_record mrs) in
  (0 <= m <= 2 ^ 53)%Z /\ (-1074 <= e1)%Z /\ rounds (x * pow2 ex) (inject_Z m * pow2 e1).
Proof.
  intros Hst Hc E1. cbv zeta.
  destruct (shr_fexp_stands _ _ _ _ _ _ Hst E1) as (He1 & Hs1 & Hm1).
  assert (Hmx : (0 <= mx)%Z) by (destruct Hst as [H _]; destruct lx as [| []]; exact H).
  assert (Hx : inject_Z mx <= x).
  { destruct Hst as [_ (t & Ht & ->)]. apply fraction_bounds in Ht. destruct lx as [| []]; cbn [shr_record_of_loc shr_m]; lra. }
  assert (Hx0 : 0 <= inject_Z mx) by (change 0 with (inject_Z 0); rewrite <- Zle_Qle; exact Hmx).
  pose proof (kept_bits mx ex e1 Hmx He1) as Hk. rewrite <- Hm1 in Hk.
  pose proof (pow2_pos ex) as Hpe. pose proof (pow2_pos e1) as Hp1.
  destruct (round_nearest_near mrs _ Hs1) as (Hm & Hlo & Hhi). set (m := round_nearest_even _ _) in *.
  split; [lia |]. split; [lia |].
  assert (HX : x * pow2 (ex - e1) * pow2 e1 == x * pow2 ex).
  { rewrite <- Qmult_assoc, <- pow2_add. now replace (ex - e1 + e1)%Z with ex by lia. }
  assert (Hh : (1 # 2) * pow2 e1 <= x * pow2 ex * u + eta ->
               rounds (x * pow2 ex) (inject_Z m * pow2 e1)).
  { intros Hu. unfold rounds. rewrite <- HX in *. split; nra. }
  destruct (Z.eq_dec e1 (-1074)) as [-> | He].
  { apply Hh, half_unit. left. split; [reflexivity |]. apply Qmult_le_0_compat; lra. }
  destruct (Z.le_gt_cases 53 (Zdigits2 mx)) as [Hd | Hd].
  - apply Hh, half_unit. right.
    assert (0 < mx)%Z by (destruct (Z.eq_dec mx 0) as [-> |]; [cbn in Hd |]; lia).
    destruct (digits_bounds mx) as (_ & Hd2 & _); [assumption |].
    replace (e1 + 52)%Z with (Zdigits2 mx - 1 + ex)%Z by lia. rewrite pow2_add, pow2_Z by lia.
    apply Qmult_le_compat_r; [| lra]. rewrite Zle_Qle in Hd2. lra.
  - destruct Hc as [-> | [Hc | Hc]]; [| lia | lia].
    assert (Hxm : x == inject_Z mx).
    { destruct Hst as [_ (t & Ht & ->)]. cbn [shr_record_of_loc shr_m shr_r shr_s fraction] in *. lra. }
    assert (m = mx) as ->.
    { eapply (exact_kept mx ex e1 mrs); [| exact Hm1 | lia].
      destruct Hs1 as [H0 (t & Ht & Ht')]. split; [exact H0 |]. exists t. split; [exact Ht |]. now rewrite <- Ht', Hxm. }
    assert (e1 = ex) as -> by lia. unfold rounds. rewrite Hxm.
    assert (0 <= inject_Z mx * pow2 ex * u) by (apply Qmult_le_0_compat; [apply Qmult_le_0_compat; lra | discriminate]).
    assert (0 < eta) by reflexivity. lra.
Qed.

Lemma round_aux_rounds mx ex lx x :
  stands_for (shr_record_of_loc mx lx) x ->
  lx = loc_Exact \/ (53 <= Zdigits2 mx)%Z \/ (ex <= -1074)%Z ->
  x * pow2 ex < pow2 960 ->
  exists v, is_val (binary_round_aux PREC EMAX false mx ex lx) v /\ rounds (x * pow2 ex) v.
Proof.
  intros Hst Hc Hlt. unfold binary_round_aux.
  destruct (shr_fexp PREC EMAX mx ex lx) as [mrs e1] eqn:E1.
  destruct (first_rounding _ _ _ _ _ _ Hst Hc E1) as (Hm & He & Hr). set (m := round_nearest_even _ _) in *.
  destruct (shr_fexp PREC EMAX m e1 loc_Exact) as [mrs2 e2] eqn:E2.
  destruct (renormalize _ _ _ _ Hm He E2) as (H0 & Hv).
  exists (inject_Z m * pow2 e1). split; [| exact Hr].
  destruct (shr_m mrs2) as [| p | p]; cbn [is_val].
  - rewrite <- Hv. ring.
  - assert (He2 : (e2 < 972)%Z).
    { apply pow2_lt_inv. destruct Hr as [_ Hr].
      assert (pow2 960 + pow2 960 * u + eta < pow2 972) by (vm_compute; reflexivity).
      assert (x * pow2 ex * u <= pow2 960 * u) by (apply Qmult_le_compat_r; [lra | discriminate]).
      assert (Hp : 1 <= inject_Z (Zpos p)) by (change 1 with (inject_Z 1); rewrite <- Zle_Qle; lia).
      pose proof (pow2_pos e2).
      assert (1 * pow2 e2 <= inject_Z (Zpos p) * pow2 e2) by (apply Qmult_le_compat_r; lra). lra. }
    change (EMAX - PREC)%Z with 971%Z. destruct (Z.leb_spec e2 971); [| lia]. cbn [is_val]. now symmetry.
  - lia.
Qed.

(** ** The operations *)

(** Two roundings of one number agree on its value. *)
Lemma is_val_nonneg x v : is_val x v -> 0 <= v.
Proof.
  destruct x as [| | | [] m e]; cbn [is_val]; intros H; try easy; rewrite H; [lra |].
  pose proof (pow2_pos e). apply Qmult_le_0_compat; [| lra]. change 0 with (inject_Z 0). rewrite <- Zle_Qle. lia.
Qed.

Lemma shl_align_value m e e' :
  inject_Z (Zpos (fst (shl_align m e e'))) * pow2 (snd (shl_align m e e')) == inject_Z (Zpos m) * pow2 e /\
  snd (shl_align m e e') = Z.min e e'.
Proof.
  unfold shl_align. destruct (e' - e)%Z as [| d | d] eqn:Ed; cbn [fst snd]; try (split; [reflexivity | lia]).
  split; [| lia].
  assert (Hi : Zpos (Pos.iter xO m d) = (Zpos m * 2 ^ Zpos d)%Z).
  { clear. induction d as [| d IH] using Pos.peano_ind; [cbn; lia |].
    rewrite Pos.iter_succ, Pos2Z.inj_succ, Z.pow_succ_r, Pos2Z.inj_xO, IH by lia. lia. }
  rewrite Hi, inject_Z_mult, <- pow2_Z by lia.
  replace e with (Zpos d + e')%Z at 1 by lia. rewrite pow2_add. ring.
Qed.

Lemma stands_exact m : (0 <= m)%Z -> stands_for (shr_record_of_loc m loc_Exact) (inject_Z m).
Proof. intros Hm. split; [exact Hm |]. exists 0. cbn [shr_record_of_loc shr_m shr_r shr_s fraction]. split; [reflexivity | ring]. Qed.

Lemma normalize_rounds m e :
  (0 <= m)%Z -> inject_Z m * pow2 e < pow2 960 ->
  exists v, is_val (binary_normalize PREC EMAX m e false) v /\ rounds (inject_Z m * pow2 e) v.
Proof.
  intros Hm Hlt. destruct m as [| p | p]; [| | lia]; cbn [binary_normalize].
  - exists 0. split; [reflexivity |]. change (inject_Z 0) with 0. unfold rounds.
    assert (0 < eta) by reflexivity. lra.
  - unfold binary_round. destruct (shl_align p e _) as [mz ez] eqn:Es.
    pose proof (shl_align_value p e (fexp PREC EMAX (Z.pos (digits2_pos p) + e))) as [Hv _]. rewrite Es in Hv. cbn [fst snd] in Hv.
    destruct (round_aux_rounds (Zpos mz) ez loc_Exact (inject_Z (Zpos mz))) as (v & H1 & H2);
      [now apply stands_exact | auto | now rewrite Hv |].
    exists v. split; [exact H1 |]. unfold rounds in *. now rewrite Hv in H2.
Qed.

Lemma f_of_Z_rounds z :
  (0 <= z)%Z -> inject_Z z < pow2 960 -> exists v, is_val (f_of_Z z) v /\ rounds (inject_Z z) v.
Proof.
  intros Hz Hlt. destruct (normalize_rounds z 0 Hz) as (v & H1 & H2).
  - change (pow2 0) with 1. lra.
  - exists v. split; [exact H1 |]. unfold rounds in *. change (pow2 0) with 1 in H2. lra.
Qed.

Lemma fmul_rounds x y a b :
  is_val x a -> is_val y b -> a * b < pow2 960 ->
  exists v, is_val (x * y)%F v /\ rounds (a * b) v.
Proof.
  intros Hx Hy Hlt. assert (Heta : 0 < eta) by reflexivity.
  assert (Hzero : a * b == 0 -> rounds (a * b) 0) by (intros H; unfold rounds; rewrite H; lra).
  destruct x as [sx | | | [] mx ex], y as [sy | | | [] my ey]; cbn [is_val] in Hx, Hy; try easy.
  1-3: exists 0; split; [reflexivity |]; apply Hzero; first [rewrite Hx; ring | rewrite Hy; ring].
  destruct (round_aux_rounds (Zpos (mx * my)) (ex + ey) loc_Exact (inject_Z (Zpos (mx * my)))) as (v & H1 & H2).
  - now apply stands_exact.
  - auto.
  - rewrite pow2_add, Pos2Z.inj_mul, inject_Z_mult. rewrite Hx, Hy in Hlt. lra.
  - exists v. split; [exact H1 |]. unfold rounds in *.
    rewrite pow2_add, Pos2Z.inj_mul, inject_Z_mult in H2. rewrite Hx, Hy. lra.
Qed.

Lemma rounds_exact x : 0 <= x -> rounds x x.
Proof.
  intros Hx. assert (0 <= x * u) by (apply Qmult_le_0_compat; [exact Hx | discriminate]).
  assert (0 < eta) by reflexivity. unfold rounds. lra.
Qed.

Lemma rounds_proper x x' v : x == x' -> rounds x v -> rounds x' v.
Proof. unfold rounds. intros <-. auto. Qed.

Lemma fadd_rounds x y a b :
  is_val x a -> is_val y b -> a + b < pow2 960 ->
  exists v, is_val (x + y)%F v /\ rounds (a + b) v.
Proof.
  intros Hx Hy Hlt. pose proof (is_val_nonneg _ _ Hx) as Ha. pose proof (is_val_nonneg _ _ Hy) as Hb.
  destruct x as [sx | | | [] mx ex], y as [sy | | | [] my ey]; cbn [is_val] in Hx, Hy; try easy.
  - exists (a + b). split; [destruct sx, sy; cbn; lra | apply rounds_exact; lra].
  - exists b. split; [exact Hy |]. apply (rounds_proper b); [lra | now apply rounds_exact].
  - exists a. split; [exact Hx |]. apply (rounds_proper a); [lra | now apply rounds_exact].
  - unfold fadd, SFadd. cbv zeta. cbn [cond_Zopp].
    destruct (shl_align_value mx ex (Z.min ex ey)) as [Vx Ex], (shl_align_value my ey (Z.min ex ey)) as [Vy Ey].
    assert (Hs : inject_Z (Z.pos (fst (shl_align mx ex (Z.min ex ey))) + Z.pos (fst (shl_align my ey (Z.min ex ey)))) *
                 pow2 (Z.min ex ey) == a + b).
    { rewrite inject_Z_plus, Hx, Hy, <- Vx, <- Vy, Ex, Ey.
      replace (Z.min ex (Z.min ex ey)) with (Z.min ex ey) by lia. replace (Z.min ey (Z.min ex ey)) with (Z.min ex ey) by lia. ring. }
    destruct (normalize_rounds (Z.pos (fst (shl_align mx ex (Z.min ex ey))) + Z.pos (fst (shl_align my ey (Z.min ex ey))))
      (Z.min ex ey)) as (v & H1 & H2); [lia | now rewrite Hs |].
    exists v. split; [exact H1 |]. eapply rounds_proper; [exact Hs | exact H2].
Qed.

Lemma new_location_eq d r :
  new_location d r = if (r =? 0)%Z then loc_Exact else loc_Inexact (2 * r ?= d)%Z.
Proof.
  unfold new_location, new_location_even, new_location_odd. destruct (Z.even d) eqn:Ed; [reflexivity |].
  destruct (r =? 0)%Z; [reflexivity |]. f_equal.
  assert (d = 2 * (d / 2) + 1)%Z by (rewrite <- Z.div2_div; pose proof (Z.div2_odd d); rewrite <- Z.negb_even, Ed in *; cbn in *; lia).
  destruct (Z.compare_spec (2 * r + 1) d), (Z.compare_spec (2 * r) d); try reflexivity; lia.
Qed.

(** The quotient's integer part, and where the rest lies. *)
Lemma new_location_stands q r d :
  (0 <= q)%Z -> (0 <= r < d)%Z ->
  stands_for (shr_record_of_loc q (new_location d r)) (inject_Z q + inject_Z r / inject_Z d).
Proof.
  intros Hq Hr. assert (Hd : 0 < inject_Z d) by (change 0 with (inject_Z 0); rewrite <- Zlt_Qlt; lia).
  rewrite new_location_eq. destruct (Z.eqb_spec r 0) as [-> | Hr0].
  { split; [exact Hq |]. exists 0. split; [reflexivity |]. change (inject_Z 0) with 0. cbn [shr_record_of_loc shr_m]. field. lra. }
  assert (H0 : 0 < inject_Z r / inject_Z d).
  { apply Qlt_shift_div_l; [exact Hd |]. rewrite Qmult_0_l. change 0 with (inject_Z 0). rewrite <- Zlt_Qlt. lia. }
  assert (H1 : inject_Z r / inject_Z d < 1).
  { apply Qlt_shift_div_r; [exact Hd |]. destruct Hr as [_ Hr]. rewrite Zlt_Qlt in Hr. lra. }
  assert (H2 : inject_Z (2 * r) == 2 * inject_Z r) by (now rewrite inject_Z_mult).
  destruct (Z.compare_spec (2 * r) d) as [He | Hl | Hg]; (split; [exact Hq |]);
    exists (inject_Z r / inject_Z d); (split; [| reflexivity]); cbn [shr_record_of_loc shr_r shr_s fraction].
  - rewrite <- He, H2. field. rewrite <- He, H2 in Hd. lra.
  - split; [exact H0 |]. apply Qlt_shift_div_r; [exact Hd |]. rewrite Zlt_Qlt, H2 in Hl. lra.
  - split; [| exact H1]. apply Qlt_shift_div_l; [exact Hd |]. rewrite Zlt_Qlt, H2 in Hg. lra.
Qed.

(** The core of the division: an exact quotient with enough bits. *)
Lemma div_core_exact m1 e1 m2 e2 q e l :
  SFdiv_core_binary PREC EMAX (Zpos m1) e1 (Zpos m2) e2 = (q, e, l) ->
  exists x, stands_for (shr_record_of_loc q l) x /\ (l = loc_Exact \/ (53 <= Zdigits2 q)%Z \/ (e <= -1074)%Z) /\
    x * pow2 e == inject_Z (Zpos m1) * pow2 e1 / (inject_Z (Zpos m2) * pow2 e2).
Proof.
  unfold SFdiv_core_binary. rewrite fexp_eq. set (d1 := Zdigits2 (Zpos m1)). set (d2 := Zdigits2 (Zpos m2)).
  set (e' := Z.min _ (e1 - e2)%Z). set (s := (e1 - e2 - e')%Z). assert (Hs : (0 <= s)%Z) by lia.
  assert (Hm' : match s with Zpos _ => Z.shiftl (Zpos m1) s | Z0 => Zpos m1 | Zneg _ => 0%Z end = (Zpos m1 * 2 ^ s)%Z).
  { destruct s eqn:Es; [lia | apply Z.shiftl_mul_pow2; lia | lia]. }
  rewrite Hm'. pose proof (Z_div_mod (Zpos m1 * 2 ^ s) (Zpos m2) eq_refl) as Hdm.
  destruct (Z.div_eucl _ _) as [q' r]. destruct Hdm as [Hdm Hr]. intros [= <- <- <-].
  assert (Hm2 : 0 < inject_Z (Zpos m2)) by (change 0 with (inject_Z 0); rewrite <- Zlt_Qlt; lia).
  assert (Hpos : (0 < 2 ^ s)%Z) by (apply Z.pow_pos_nonneg; lia).
  assert (Hq : (0 <= q')%Z) by nia.
  exists (inject_Z q' + inject_Z r / inject_Z (Zpos m2)). split; [now apply new_location_stands |]. split.
  - right. destruct (Z.le_gt_cases e' (-1074)) as [| He]; [now right |]. left.
    destruct (digits_bounds (Zpos m1)) as (_ & B1 & _); [lia |]. destruct (digits_bounds (Zpos m2)) as (D2 & _ & B2); [lia |].
    fold d1 in B1. fold d2 in B2, D2.
    assert (Hq52 : (2 ^ 52 <= q')%Z).
    { assert (2 ^ (52 + d2) <= Zpos m1 * 2 ^ s)%Z.
      { assert (0 <= d1 - 1)%Z by (unfold d1; destruct (digits_bounds (Zpos m1)); lia).
        transitivity (2 ^ (d1 - 1) * 2 ^ s)%Z; [| apply Z.mul_le_mono_nonneg_r; lia].
        rewrite <- Z.pow_add_r by lia. apply Z.pow_le_mono_r; lia. }
      rewrite Z.pow_add_r in H by lia. nia. }
    destruct (digits_bounds q') as (_ & _ & B3); [lia |].
    destruct (Z.le_gt_cases 53 (Zdigits2 q')) as [| Hlt]; [assumption |].
    assert (2 ^ Zdigits2 q' <= 2 ^ 52)%Z by (apply Z.pow_le_mono_r; lia). lia.
  - assert (Hx : inject_Z q' + inject_Z r / inject_Z (Zpos m2) == inject_Z (Zpos m1) * pow2 s / inject_Z (Zpos m2)).
    { rewrite pow2_Z, <- inject_Z_mult, Hdm, inject_Z_plus, inject_Z_mult by lia. field. lra. }
    rewrite Hx. pose proof (pow2_pos e2). pose proof (pow2_pos e').
    replace e1 with (s + e' + e2)%Z at 1 by lia. rewrite !pow2_add. field. lra.
Qed.

Lemma fdiv_rounds x y a b :
  is_val x a -> is_val y b -> 0 < b -> a / b < pow2 960 ->
  exists v, is_val (x / y)%F v /\ rounds (a / b) v.
Proof.
  intros Hx Hy Hb Hlt. destruct x as [sx | | | [] mx ex], y as [sy | | | [] my ey]; cbn [is_val] in Hx, Hy; try easy.
  1, 3: exfalso; lra.
  - exists 0. split; [reflexivity |]. apply (rounds_proper 0); [rewrite Hx; field; lra | now apply rounds_exact].
  - unfold fdiv, SFdiv. destruct (SFdiv_core_binary PREC EMAX (Z.pos mx) ex (Z.pos my) ey) as [[q e] l] eqn:Ec.
    destruct (div_core_exact _ _ _ _ _ _ _ Ec) as (z & Hz & Hc & Hv).
    destruct (round_aux_rounds q e l z Hz Hc) as (v & H1 & H2); [rewrite Hv, <- Hx, <- Hy; exact Hlt |].
    exists v. split; [exact H1 |]. eapply rounds_proper; [| exact H2]. now rewrite Hv, <- Hx, <- Hy.
Qed.

(** Truncation to a [u32]. *)
Lemma f_to_u32_val x v :
  is_val x v -> f_to_u32 x = Z.min U32_MAX (Qfloor v).
Proof.
  intros Hx. assert (Hf : (0 <= Qfloor v)%Z).
  { change 0%Z with (Qfloor 0). apply Qfloor_resp_le. now apply (is_val_nonneg x). }
  destruct x as [sx | | | [] m e]; cbn [is_val] in Hx; try easy; unfold f_to_u32, f_to_uint.
  - rewrite Hx. reflexivity.
  - assert (ftrunc_Z (S754_finite false m e) = Qfloor v) as ->; [| unfold U32_MAX; lia].
    rewrite Hx. cbn [ftrunc_Z]. destruct (Z.leb_spec 0 e) as [He | He].
    + rewrite pow2_Z, <- inject_Z_mult by lia. now rewrite Qfloor_Z.
    + assert (Hpos : (0 < 2 ^ (- e))%Z) by (apply Z.pow_pos_nonneg; lia).
      assert (inject_Z (Z.pos m) * pow2 e == Z.pos m # Z.to_pos (2 ^ (- e))) as ->; [| cbn [Qfloor]; now rewrite Z2Pos.id].
      rewrite Qmake_Qdiv, Z2Pos.id, <- pow2_Z by lia. unfold Qdiv.
      assert (/ pow2 (- e) == pow2 e) as ->; [| reflexivity].
      assert (pow2 e * pow2 (- e) == 1) by (rewrite <- pow2_add, Z.add_opp_diag_r; reflexivity).
      pose proof (pow2_pos (- e)). field_simplify_eq; [| lra]. lra.
Qed.
