(* ===== verification/RateLimiter.v ===== *)
(** The token-bucket rate limiter of the exchange clients
    ([src/src/strategy/rate_limiter.rs]).

    [Instant]s are nanoseconds.  [acquire] is a loop that sleeps and tries
    again; [acquire_turn] is one pass of it, with the lock held throughout, so
    concurrent callers are a sequence of turns. *)
From Stdlib Require Import ZArith Lia Bool.
From stdpp Require Import base option list.
From S2P Require Import Prelude Float64.

#[local] Open Scope Z_scope.

Record RateLimiter := {
  rl_requests_per_second : Z;
  rl_burst_capacity : Z;
  rl_tokens : Z;
  rl_last_refill : Z;
  rl_request_timestamps : list Z    (* front first *)
}.

Definition RateLimiter_new (requests_per_second burst_capacity now : Z) : RateLimiter :=
  {| rl_requests_per_second := requests_per_second; rl_burst_capacity := burst_capacity;
     rl_tokens := burst_capacity; rl_last_refill := now; rl_request_timestamps := [] |}.

(** [duration_since] saturates at zero; [as_secs_f64] adds seconds and the
    fraction. *)
Definition since (now t : Z) : Z := Z.max 0 (now - t).
Definition as_secs_f64 (ns : Z) : f64 :=
  (f_of_Z (ns / 1000000000) + f_of_Z (ns mod 1000000000) / 1000000000.0%f64)%F.

Definition SECOND : Z := 1000000000.

(** The refill: [tokens + tokens_to_add] is a [u32] addition. *)
Definition refill (now : Z) (s : RateLimiter) : RateLimiter :=
  let tokens_to_add :=
    f_to_u32 (as_secs_f64 (since now (rl_last_refill s)) * f_of_Z (rl_requests_per_second s))%F in
  if 0 <? tokens_to_add then
    {| rl_requests_per_second := rl_requests_per_second s; rl_burst_capacity := rl_burst_capacity s;
       rl_tokens := Z.min (wrap32 (rl_tokens s + tokens_to_add)) (rl_burst_capacity s);
       rl_last_refill := now; rl_request_timestamps := rl_request_timestamps s |}
  else s.

(** Drops the requests older than a second from the front of the queue. *)
Fixpoint prune (now : Z) (l : list Z) : list Z :=
  match l with
  | t :: l' => if SECOND <? since now t then prune now l' else l
  | [] => []
  end.

Definition set_requests (tokens : Z) (l : list Z) (s : RateLimiter) : RateLimiter :=
  {| rl_requests_per_second := rl_requests_per_second s; rl_burst_capacity := rl_burst_capacity s;
     rl_tokens := tokens; rl_last_refill := rl_last_refill s; rl_request_timestamps := l |}.

(** [None] when the request is granted, otherwise the seconds to sleep before
    the next turn. *)
Definition acquire_turn (now : Z) (s : RateLimiter) : option f64 * RateLimiter :=
  let s := refill now s in
  let timestamps := prune now (rl_request_timestamps s) in
  if 0 <? rl_tokens s
  then (None, set_requests (rl_tokens s - 1) (timestamps ++ [now]) s)
  else (Some (1.0%f64 / f_of_Z (rl_requests_per_second s))%F, set_requests (rl_tokens s) timestamps s).

Record RateLimiterStats := {
  rs_available_tokens : Z;
  rs_requests_last_second : Z;
  rs_limit_per_second : Z
}.

Definition recent (now : Z) (l : list Z) : list Z := List.filter (fun t => since now t <=? SECOND) l.

Definition stats (now : Z) (s : RateLimiter) : RateLimiterStats :=
  {| rs_available_tokens := rl_tokens s;
     rs_requests_last_second := wrap32 (Z.of_nat (length (recent now (rl_request_timestamps s))));
     rs_limit_per_second := rl_requests_per_second s |}.

(** ** Properties *)

(** A run of turns at the given clock readings: the final state and the times at
    which requests were granted. *)
Fixpoint turns (readings : list Z) (s : RateLimiter) : RateLimiter * list Z :=
  match readings with
  | [] => (s, [])
  | now :: readings =>
      let '(r, s) := acquire_turn now s in
      let '(s', granted) := turns readings s in
      (s', match r with None => now :: granted | Some _ => granted end)
  end.

(** What the refills of a run offered. *)
Fixpoint offered (readings : list Z) (s : RateLimiter) : Z :=
  match readings with
  | [] => 0
  | now :: readings =>
      f_to_u32 (as_secs_f64 (since now (rl_last_refill s)) * f_of_Z (rl_requests_per_second s))%F +
      offered readings (snd (acquire_turn now s))
  end.

Definition rl_wf (s : RateLimiter) : Prop :=
  0 <= rl_tokens s <= rl_burst_capacity s /\ rl_burst_capacity s <= U32_MAX.

Lemma refill_wf now s : rl_wf s -> rl_wf (refill now s).
Proof.
  unfold rl_wf, refill. set (k := f_to_u32 _). intros Hs. destruct (0 <? k); [cbn | exact Hs].
  pose proof (wrap32_range (rl_tokens s + k)). unfold in_u32 in *. lia.
Qed.

Lemma refill_keeps now s :
  rl_burst_capacity (refill now s) = rl_burst_capacity s /\
  rl_request_timestamps (refill now s) = rl_request_timestamps s.
Proof. unfold refill. set (k := f_to_u32 _). now destruct (0 <? k). Qed.

Lemma refill_tokens now s :
  rl_wf s ->
  rl_tokens (refill now s) <= rl_tokens s +
    f_to_u32 (as_secs_f64 (since now (rl_last_refill s)) * f_of_Z (rl_requests_per_second s))%F.
Proof.
  intros Hs. unfold refill. set (k := f_to_u32 _).
  assert (Hk : 0 <= k <= U32_MAX) by (apply f_to_uint_range; unfold U32_MAX; lia).
  destruct (0 <? k); cbn; [| lia].
  assert (wrap32 (rl_tokens s + k) <= rl_tokens s + k)
    by (unfold wrap32, rl_wf in *; apply Z.mod_le; lia).
  lia.
Qed.

Lemma acquire_turn_wf now s : rl_wf s -> rl_wf (snd (acquire_turn now s)).
Proof.
  intros Hs. pose proof (refill_wf now s Hs) as Hr. unfold acquire_turn.
  destruct (Z.ltb_spec 0 (rl_tokens (refill now s))); unfold rl_wf in *; cbn; lia.
Qed.

(** Tokens are conserved: along any run of turns, requests granted and tokens
    left together never exceed the tokens there were and those the refills
    offered; and the bucket never holds more than the burst capacity. *)
Theorem tokens_conserved rps burst start readings :
  0 <= burst <= U32_MAX ->
  let s0 := RateLimiter_new rps burst start in
  let '(s, granted) := turns readings s0 in
  0 <= rl_tokens s <= burst /\
  Z.of_nat (length granted) + rl_tokens s <= burst + offered readings s0.
Proof.
  intros Hb. cbv zeta.
  assert (Hgen : forall readings s, rl_wf s ->
    let '(s', granted) := turns readings s in
    rl_wf s' /\ rl_burst_capacity s' = rl_burst_capacity s /\
    Z.of_nat (length granted) + rl_tokens s' <= rl_tokens s + offered readings s).
  { clear. induction readings as [| now readings IH]; intros s Hs; [cbn; split; [exact Hs | split; [reflexivity | lia]] |].
    cbn [turns offered]. pose proof (acquire_turn_wf now s Hs) as Hw.
    pose proof (refill_tokens now s Hs) as Ht. unfold acquire_turn in *.
    pose proof (proj1 (refill_keeps now s)) as Hbc.
    destruct (0 <? rl_tokens (refill now s)); cbn [snd] in *;
      (match goal with |- context [turns readings ?x] => specialize (IH x Hw); destruct (turns readings x) as [s' g] end;
       destruct IH as (Hw' & Hbc' & Hg); split; [exact Hw' |];
       split; [rewrite Hbc'; exact Hbc |]; cbn [length rl_tokens set_requests] in *; lia). }
  specialize (Hgen readings (RateLimiter_new rps burst start)).
  destruct (turns readings _) as [s g]. destruct Hgen as ((Ht & _) & Hbc & Hg).
  - unfold rl_wf. cbn. lia.
  - cbn in Hbc, Hg. rewrite Hbc in Ht. auto.
Qed.

Lemma tokens_conserved_witness :
  0 <= 2 <= U32_MAX /\
  let s0 := RateLimiter_new 10 2 0 in
  let '(s, granted) := turns [0; 1; 2; 200000000] s0 in
  0 <= rl_tokens s <= 2 /\ Z.of_nat (length granted) + rl_tokens s <= 2 + offered [0; 1; 2; 200000000] s0.
Proof.
  split; [unfold U32_MAX; lia |].
  refine (tokens_conserved 10 2 0 [0; 1; 2; 200000000] _). unfold U32_MAX. lia.
Defined.

(** The queue of timestamps: what [prune] drops can never count again. *)
Lemma recent_prune t now l : t <= now -> recent now (prune t l) = recent now l.
Proof.
  intros Ht. induction l as [| x l IH]; [reflexivity |]. cbn [prune].
  destruct (Z.ltb_spec SECOND (since t x)) as [Hx | Hx]; [| reflexivity].
  rewrite IH. cbn [recent List.filter]. destruct (Z.leb_spec (since now x) SECOND); [| reflexivity].
  unfold since in *. lia.
Qed.

Lemma recent_app now a b : recent now (a ++ b) = recent now a ++ recent now b.
Proof. apply List.filter_app. Qed.

(** The statistics are exact: for a clock that does not go back, the requests of
    the last second that [stats] counts are those granted in the last second of
    the whole history, though the queue only keeps a part of it. *)
Theorem stats_count_recent rps burst start readings now :
  Forall (fun t => t <= now) readings ->
  let '(s, granted) := turns readings (RateLimiter_new rps burst start) in
  rs_requests_last_second (stats now s) = wrap32 (Z.of_nat (length (recent now granted))).
Proof.
  intros Hle.
  assert (Hgen : forall readings s, Forall (fun t => t <= now) readings ->
    let '(s', granted) := turns readings s in
    recent now (rl_request_timestamps s') = recent now (rl_request_timestamps s ++ granted)).
  { clear. induction readings as [| t readings IH]; intros s Hle; [cbn; now rewrite app_nil_r |].
    inversion Hle as [| ? ? Ht Hrest]; subst. cbn [turns]. unfold acquire_turn.
    pose proof (proj2 (refill_keeps t s)) as Hq.
    destruct (0 <? rl_tokens (refill t s));
      (match goal with |- context [turns readings ?x] => specialize (IH x Hrest); destruct (turns readings x) as [s' g] end;
       rewrite IH; cbn [rl_request_timestamps set_requests]; rewrite Hq, !recent_app, recent_prune by exact Ht;
       rewrite ?recent_app; try reflexivity).
    rewrite <- app_assoc. f_equal. change (t :: g) with ([t] ++ g). now rewrite recent_app. }
  specialize (Hgen readings (RateLimiter_new rps burst start) Hle).
  destruct (turns readings _) as [s g]. unfold stats. cbn [rs_requests_last_second].
  now rewrite Hgen.
Qed.

Lemma stats_count_recent_witness :
  Forall (fun t => t <= 1500000000) [0; 1; 1400000000] /\
  let '(s, granted) := turns [0; 1; 1400000000] (RateLimiter_new 10 2 0) in
  rs_requests_last_second (stats 1500000000 s) =
    wrap32 (Z.of_nat (length (recent 1500000000 granted))).
Proof.
  split; [repeat constructor; lia |].
  exact (stats_count_recent 10 2 0 [0; 1; 1400000000] 1500000000 ltac:(repeat constructor; lia)).
Defined.

(** The [u32] sum can wrap (in a release build): at 1000 requests per second,
    fifty days without a request offer more tokens than a [u32] holds, and a
    bucket that was not empty is left with one token less instead of full. *)
Lemma idle_refill_wraps :
  let s := set_requests 5 [] (RateLimiter_new 1000 30 0) in
  rl_tokens (refill (50 * 86400 * SECOND) s) = 4.
Proof. vm_compute. reflexivity. Qed.
