(* ===== verification/RateBound.v ===== *)
(** What the token bucket of [RateLimiter.v] promises: a bound on the requests of any
    stretch of time, and that a caller on its own is let through.

    The refill is computed in floats; [FloatError.v] bounds its rounding, which turns out
    never to offer a token too many. *)
From Stdlib Require Import ZArith Lia Bool QArith Qround Lqa.
From stdpp Require Import base option list.
From S2P Require Import Prelude Float64 FloatError RateLimiter.
#[local] Open Scope Z_scope.

(** Seconds of a span, up to roundings. *)
Definition secs (ns : Z) : Q := (inject_Z ns / inject_Z SECOND)%Q.

Lemma small_fits z : 0 <= z < 2 ^ 64 -> (inject_Z z < pow2 960)%Q.
Proof.
  intros Hz. apply Qlt_trans with (inject_Z (2 ^ 64)); [rewrite <- Zlt_Qlt; lia | vm_compute; reflexivity].
Qed.

Lemma as_secs_near ns :
  0 <= ns < 2 ^ 64 ->
  exists t, is_val (as_secs_f64 ns) t /\
    (secs ns * (1 - pow2 (-50)) - pow2 (-1000) <= t /\ t <= secs ns * (1 + pow2 (-50)) + pow2 (-1000))%Q.
Proof.
  intros Hns. unfold as_secs_f64.
  assert (Hs : 0 <= ns / 1000000000 < 2 ^ 64) by (split; [apply Z.div_pos | apply Z.div_lt_upper_bound]; lia).
  pose proof (Z.mod_pos_bound ns 1000000000 eq_refl) as Hn.
  assert (Hsplit : (inject_Z ns == inject_Z 1000000000 * inject_Z (ns / 1000000000) + inject_Z (ns mod 1000000000))%Q).
  { rewrite <- inject_Z_mult, <- inject_Z_plus. now rewrite <- Z_div_mod_eq_full. }
  destruct (f_of_Z_rounds (ns / 1000000000)) as (a & Ha & Ra); [lia | apply small_fits; lia |].
  destruct (f_of_Z_rounds (ns mod 1000000000)) as (b & Hb & Rb); [lia | apply small_fits; lia |].
  set (s := inject_Z (ns / 1000000000)) in *. set (n := inject_Z (ns mod 1000000000)) in *.
  assert (H0 : (0 <= s)%Q) by (change 0%Q with (inject_Z 0); unfold s; rewrite <- Zle_Qle; lia).
  assert (H1 : (0 <= n)%Q) by (change 0%Q with (inject_Z 0); unfold n; rewrite <- Zle_Qle; lia).
  assert (H2 : (s <= inject_Z (2 ^ 64))%Q) by (unfold s; rewrite <- Zle_Qle; lia).
  assert (H3 : (n <= 1000000000)%Q) by (unfold n; change 1000000000%Q with (inject_Z 1000000000); rewrite <- Zle_Qle; lia).
  assert (Hc : is_val 1000000000.0%f64 1000000000%Q) by (vm_compute; reflexivity).
  unfold rounds in Ra, Rb. change u with (1 # 9007199254740992) in *.
  assert (He : (eta == pow2 (-1075))%Q) by reflexivity. assert (He' : (pow2 (-1075) <= 1 # 9007199254740992)%Q) by (vm_compute; discriminate).
  change (inject_Z (2 ^ 64)) with (18446744073709551616 # 1) in *.
  destruct (fdiv_rounds _ _ _ _ Hb Hc) as (c & Hc' & Rc); [reflexivity | |].
  { apply Qlt_shift_div_r; [reflexivity |]. apply Qle_lt_trans with (2000000000 # 1)%Q; [rewrite He in *; lra | vm_compute; reflexivity]. }
  unfold rounds in Rc. change u with (1 # 9007199254740992) in *. 
  assert (Hbd : (b / 1000000000 == b * (1 # 1000000000))%Q) by (unfold Qdiv; reflexivity). rewrite Hbd in Rc.
  destruct (fadd_rounds _ _ _ _ Ha Hc') as (t & Ht & Rt).
  { apply Qle_lt_trans with (18446744073709551616 * 2)%Q; [rewrite He in *; lra | vm_compute; reflexivity]. }
  unfold rounds in Rt. change u with (1 # 9007199254740992) in *.
  exists t. split; [exact Ht |].
  assert (Hsec : (secs ns == s + n * (1 # 1000000000))%Q).
  { unfold secs. rewrite Hsplit. change (inject_Z SECOND) with 1000000000%Q. change (inject_Z 1000000000) with 1000000000%Q. field. }
  rewrite Hsec, He in *. change (pow2 (-50)) with (1 # 1125899906842624).
  assert (Hh : (pow2 (-1000) == pow2 (-1075) * pow2 75)%Q) by (now rewrite <- pow2_add). rewrite Hh.
  change (pow2 75) with (37778931862957161709568 # 1).
  pose proof (pow2_pos (-1075)). set (h := pow2 (-1075)) in *. split; lra.
Qed.

(** The product with the rate, from above and from below. *)
Lemma product_upper T R t r v :
  (0 <= T -> 1 <= R <= inject_Z (2 ^ 32) -> 0 <= t -> t <= T * (1 + pow2 (-50)) + pow2 (-1000) ->
   0 <= r -> r <= R * (1 + pow2 (-50)) -> v <= t * r + t * r * u + eta ->
   v <= (T * R + pow2 (-900)) * (1 + pow2 (-47)))%Q.
Proof.
  intros T0 [R1 R2] Ht0 Ut Hr0 Ur Uv.
  assert (HP : (t * r <= (T * (1 + pow2 (-50)) + pow2 (-1000)) * (R * (1 + pow2 (-50))))%Q)
    by (apply Qmult_le_compat_nonneg; lra).
  assert (HX0 : (0 <= T * R)%Q) by (apply Qmult_le_0_compat; lra).
  assert (pow2 (-1000) * (R * (1 + pow2 (-50))) <= pow2 (-960))%Q.
  { apply Qle_trans with (pow2 (-1000) * (inject_Z (2 ^ 32) * (1 + pow2 (-50))))%Q; [| vm_compute; discriminate].
    pose proof (pow2_pos (-1000)). apply Qmult_le_compat_nonneg; [lra |]. change (pow2 (-50)) with (1 # 1125899906842624). lra. }
  assert (T * R * ((1 + pow2 (-50)) * (1 + pow2 (-50))) <= T * R * (1 + pow2 (-48)))%Q.
  { rewrite !(Qmult_comm (T * R)). apply Qmult_le_compat_r; [vm_compute; discriminate | exact HX0]. }
  assert (eta + pow2 (-960) * 2 <= pow2 (-900))%Q by (vm_compute; discriminate).
  pose proof (pow2_pos (-900)). pose proof (pow2_pos (-960)). change u with (1 # 9007199254740992) in *.
  change (pow2 (-47)) with (1 # 140737488355328). change (pow2 (-48)) with (1 # 281474976710656) in *. lra.
Qed.

Lemma product_lower T R t r v :
  (1 + (1 # 1000000000) <= T * R -> 0 <= T -> 1 <= R <= inject_Z (2 ^ 32) ->
   T * (1 - pow2 (-50)) - pow2 (-1000) <= t -> R * (1 - pow2 (-50)) <= r -> t * r - t * r * u - eta <= v -> 1 <= v)%Q.
Proof.
  intros X1 T0 [R1 R2] Lt Lr Lv.
  assert (T1 : (pow2 (-33) <= T)%Q).
  { destruct (Qlt_le_dec T (pow2 (-33))) as [Hl |]; [exfalso | assumption].
    assert (T * R <= pow2 (-33) * inject_Z (2 ^ 32))%Q by (apply Qmult_le_compat_nonneg; lra).
    assert (pow2 (-33) * inject_Z (2 ^ 32) == 1 # 2)%Q as Hh by reflexivity. lra. }
  assert (Lt' : (T * (1 - pow2 (-49)) <= t)%Q).
  { assert (pow2 (-1000) <= pow2 (-33) * pow2 (-50))%Q by (vm_compute; discriminate).
    assert (pow2 (-33) * pow2 (-50) <= T * pow2 (-50))%Q by (apply Qmult_le_compat_r; [exact T1 | discriminate]).
    change (pow2 (-50)) with (1 # 1125899906842624) in *. change (pow2 (-49)) with (1 # 562949953421312). lra. }
  assert (LP : (T * (1 - pow2 (-49)) * (R * (1 - pow2 (-50))) <= t * r)%Q).
  { apply Qmult_le_compat_nonneg; split; try assumption; change (pow2 (-50)) with (1 # 1125899906842624);
      change (pow2 (-49)) with (1 # 562949953421312); lra. }
  assert (T * R * (1 - pow2 (-48)) <= T * R * ((1 - pow2 (-49)) * (1 - pow2 (-50))))%Q.
  { rewrite !(Qmult_comm (T * R)). apply Qmult_le_compat_r; [vm_compute; discriminate | lra]. }
  assert (eta <= 1 # 9007199254740992)%Q by (vm_compute; discriminate). change u with (1 # 9007199254740992) in *.
  change (pow2 (-48)) with (1 # 281474976710656) in *. lra.
Qed.

Lemma offered_near ns rps :
  0 <= ns < 2 ^ 64 -> 1 <= rps <= U32_MAX ->
  exists v, is_val (as_secs_f64 ns * f_of_Z rps)%F v /\
    (v <= (secs ns * inject_Z rps + pow2 (-900)) * (1 + pow2 (-47)))%Q /\
    (SECOND < ns * rps -> (1 <= v)%Q).
Proof.
  intros Hns Hr. destruct (as_secs_near ns Hns) as (t & Ht & Lt & Ut).
  destruct (f_of_Z_rounds rps) as (r & Hr' & Rr); [lia | apply small_fits; unfold U32_MAX in Hr; lia |].
  assert (R1 : (1 <= inject_Z rps <= inject_Z (2 ^ 32))%Q)
    by (change 1%Q with (inject_Z 1); rewrite <- !Zle_Qle; unfold U32_MAX in Hr; lia).
  assert (T0 : (0 <= secs ns)%Q).
  { unfold secs. apply Qle_shift_div_l; [reflexivity |]. rewrite Qmult_0_l. change 0%Q with (inject_Z 0). rewrite <- Zle_Qle. lia. }
  assert (T2 : (secs ns <= inject_Z (2 ^ 64))%Q).
  { unfold secs. apply Qle_shift_div_r; [reflexivity |]. rewrite <- inject_Z_mult, <- Zle_Qle. unfold SECOND. lia. }
  assert (HX : (secs ns * inject_Z rps == inject_Z (ns * rps) / inject_Z SECOND)%Q)
    by (unfold secs; rewrite inject_Z_mult; field; discriminate).
  pose proof (is_val_nonneg _ _ Ht) as Ht0. pose proof (is_val_nonneg _ _ Hr') as Hr0.
  set (T := secs ns) in *. set (R := inject_Z rps) in *.
  assert (Rr' : (R * (1 - pow2 (-50)) <= r /\ r <= R * (1 + pow2 (-50)))%Q).
  { unfold rounds in Rr. assert (eta <= 1 # 9007199254740992)%Q by (vm_compute; discriminate).
    change u with (1 # 9007199254740992) in Rr. change (pow2 (-50)) with (1 # 1125899906842624). lra. }
  destruct (fmul_rounds _ _ _ _ Ht Hr') as (v & Hv & Lv & Uv).
  { apply Qle_lt_trans with ((inject_Z (2 ^ 64) * (1 + pow2 (-50)) + pow2 (-1000)) * (inject_Z (2 ^ 32) * (1 + pow2 (-50))))%Q;
      [| vm_compute; reflexivity].
    apply Qmult_le_compat_nonneg; split; try assumption; change (pow2 (-50)) with (1 # 1125899906842624) in *;
      pose proof (pow2_pos (-1000)); lra. }
  exists v. split; [exact Hv |]. split; [now apply (product_upper T R t r) |].
  intros Hlt. apply (product_lower T R t r); try assumption; try apply Rr'.
  rewrite HX. apply Qle_shift_div_l; [reflexivity |].
  assert (SECOND + 1 <= ns * rps) as Hl by lia. rewrite Zle_Qle, inject_Z_plus in Hl.
  change (inject_Z SECOND) with 1000000000%Q in *. change (inject_Z 1) with 1%Q in *. lra.
Qed.

(** ** What a refill offers *)
Definition offer (ns rps : Z) : Z := f_to_u32 (as_secs_f64 ns * f_of_Z rps)%F.

(** Never more than the rate allows, up to more tokens than a bucket holds; and nothing
    only if not even one token's time has passed. *)
Lemma offer_bounds ns rps :
  0 <= ns < 2 ^ 64 -> 1 <= rps <= U32_MAX ->
  0 <= offer ns rps <= U32_MAX /\
  (SECOND * offer ns rps <= ns * rps \/ SECOND * 2 ^ 16 <= ns * rps) /\
  (offer ns rps = 0 -> ns * rps <= SECOND).
Proof.
  intros Hns Hr. destruct (offered_near ns rps Hns Hr) as (v & Hv & Uv & Lv).
  pose proof (f_to_u32_val _ _ Hv) as Hk. fold (offer ns rps) in Hk.
  pose proof (is_val_nonneg _ _ Hv) as H0. apply Qfloor_resp_le in H0. change (Qfloor 0) with 0 in H0.
  split; [unfold U32_MAX in *; lia |]. split.
  - destruct (Z.le_gt_cases (SECOND * offer ns rps) (ns * rps)) as [| Hgt]; [now left | right].
    destruct (Z.le_gt_cases (SECOND * 2 ^ 16) (ns * rps)) as [| Hlt]; [assumption | exfalso].
    assert (Hf : (inject_Z (offer ns rps) <= v)%Q).
    { eapply Qle_trans; [| apply Qfloor_le]. rewrite <- Zle_Qle. lia. }
    assert (HX : (secs ns * inject_Z rps == inject_Z (ns * rps) * (1 # 1000000000))%Q)
      by (unfold secs; rewrite inject_Z_mult; change (inject_Z SECOND) with 1000000000%Q; field).
    assert (H1 : ns * rps + 1 <= SECOND * offer ns rps) by lia. assert (H2 : ns * rps <= 65536000000000) by (unfold SECOND in Hlt; lia).
    set (p := ns * rps) in *. rewrite Zle_Qle, inject_Z_plus, inject_Z_mult in H1. rewrite Zle_Qle in H2. rewrite HX in Uv.
    change (inject_Z SECOND) with 1000000000%Q in H1. change (inject_Z 1) with 1%Q in H1.
    change (inject_Z 65536000000000) with 65536000000000%Q in H2.
    assert (H3 : (pow2 (-900) <= 1 # 1000000000000)%Q) by (vm_compute; discriminate).
    change (pow2 (-47)) with (1 # 140737488355328) in Uv. lra.
  - intros Hz. destruct (Z.le_gt_cases (ns * rps) SECOND) as [| Hgt]; [assumption | exfalso].
    specialize (Lv Hgt). apply Qfloor_resp_le in Lv. change (Qfloor 1) with 1 in Lv. unfold U32_MAX in Hk. lia.
Qed.

(** ** Credit: the tokens held and the time not yet turned into tokens *)
Definition credit (s : RateLimiter) (t : Z) : Z :=
  SECOND * rl_tokens s + rl_requests_per_second s * (t - rl_last_refill s).

(** A bucket of the rate and size the bound is about, last refilled at [now] or before. *)
Record bucket (rps burst now : Z) (s : RateLimiter) : Prop := {
  b_rps : rl_requests_per_second s = rps;
  b_burst : rl_burst_capacity s = burst;
  b_tokens : 0 <= rl_tokens s <= burst;
  b_refill : rl_last_refill s <= now
}.

Section bound.
Context (rps burst : Z) (Hrps : 1 <= rps <= U32_MAX) (Hburst : 0 <= burst <= 2 ^ 16).

Lemma refill_eq now s :
  bucket rps burst now s ->
  refill now s = if 0 <? offer (now - rl_last_refill s) rps
                 then {| rl_requests_per_second := rps; rl_burst_capacity := burst;
                         rl_tokens := Z.min (wrap32 (rl_tokens s + offer (now - rl_last_refill s) rps)) burst;
                         rl_last_refill := now; rl_request_timestamps := rl_request_timestamps s |}
                 else s.
Proof.
  intros [Hr Hb Ht Hl]. unfold refill, since, offer. rewrite Hr, Hb.
  replace (Z.max 0 (now - rl_last_refill s)) with (now - rl_last_refill s) by lia. reflexivity.
Qed.

(** A refill adds no credit, and leaves less than one token of time unused. *)
Lemma refill_credit now s t :
  bucket rps burst now s -> now - rl_last_refill s < 2 ^ 64 ->
  bucket rps burst now (refill now s) /\ credit (refill now s) t <= credit s t /\
  credit (refill now s) now <= SECOND * (burst + 1).
Proof.
  intros Hs Hd. rewrite (refill_eq now s Hs). pose proof Hs as [Hr Hb Ht Hl].
  destruct (offer_bounds (now - rl_last_refill s) rps) as (Hk & Hu & Hz); [lia | exact Hrps |].
  destruct (Z.ltb_spec 0 (offer (now - rl_last_refill s) rps)) as [Hpos | Hzero].
  - pose proof (wrap32_range (rl_tokens s + offer (now - rl_last_refill s) rps)) as Hw. unfold in_u32 in Hw.
    assert (wrap32 (rl_tokens s + offer (now - rl_last_refill s) rps) <= rl_tokens s + offer (now - rl_last_refill s) rps)
      by (unfold wrap32; apply Z.mod_le; lia).
    set (k := offer _ _) in *. set (tok := wrap32 _) in *.
    split; [constructor; cbn [rl_requests_per_second rl_burst_capacity rl_tokens rl_last_refill]; lia |]. unfold credit. cbn [rl_tokens rl_requests_per_second rl_last_refill].
    replace (rps * (now - now)) with 0 by ring. rewrite Hr.
    replace (rps * (t - rl_last_refill s)) with (rps * (t - now) + (now - rl_last_refill s) * rps) by ring.
    unfold SECOND in *. lia.
  - split; [assumption |]. split; [lia |]. unfold credit. rewrite Hr. specialize (Hz ltac:(lia)).
    rewrite Z.mul_comm in Hz. unfold SECOND in *. lia.
Qed.

(** A turn spends the credit of the request it lets through. *)
Definition spent (r : option f64) : Z := match r with None => SECOND | Some _ => 0 end.

Lemma turn_credit now s t :
  bucket rps burst now s -> now - rl_last_refill s < 2 ^ 64 ->
  let '(r, s') := acquire_turn now s in
  bucket rps burst now s' /\ rl_last_refill s <= rl_last_refill s' /\
  spent r + credit s' t = credit (refill now s) t.
Proof.
  intros Hs Hd. destruct (refill_credit now s t Hs Hd) as ([Hr Hb Ht Hl] & _ & _).
  assert (Hm : rl_last_refill s <= rl_last_refill (refill now s)).
  { rewrite (refill_eq now s Hs). destruct Hs. destruct_if; cbn; lia. }
  unfold acquire_turn. destruct (Z.ltb_spec 0 (rl_tokens (refill now s))); unfold credit, spent;
    (split; [constructor; cbn; lia | split; cbn; lia]).
Qed.

(** The readings of a clock that does not go back, in the range of one [u64]. *)
Fixpoint clock_from (start now : Z) (readings : list Z) : Prop :=
  match readings with
  | [] => True
  | t :: readings => now <= t < start + 2 ^ 64 /\ clock_from start t readings
  end.

Definition until (b : Z) (l : list Z) : list Z := List.filter (fun t => t <=? b) l.
Definition window (a b : Z) (l : list Z) : list Z := List.filter (fun t => (a <=? t) && (t <=? b)) l.

Lemma until_cons b t l : length (until b (t :: l)) = ((if (t <=? b)%Z then 1 else 0) + length (until b l))%nat.
Proof. unfold until. cbn [List.filter]. now destruct (t <=? b). Qed.

Lemma granted_late start now b readings s :
  clock_from start now readings -> b < now -> until b (snd (turns readings s)) = [].
Proof.
  revert now s. induction readings as [| t readings IH]; intros now s Hc Hb; [reflexivity |].
  destruct Hc as [Ht Hc]. cbn [turns]. destruct (acquire_turn t s) as [r s'].
  specialize (IH t s' Hc ltac:(lia)). destruct (turns readings s') as [s2 g]. cbn [snd] in *.
  destruct r; [exact IH |]. unfold until in *. cbn [List.filter]. destruct (Z.leb_spec t b); [lia | exact IH].
Qed.

(** A first turn before [b], when the credit it leaves pays for the others. *)
Lemma turn_until b t readings s :
  bucket rps burst t s -> t - rl_last_refill s < 2 ^ 64 -> t <= b ->
  (let s' := snd (acquire_turn t s) in
   bucket rps burst t s' -> rl_last_refill s <= rl_last_refill s' ->
   SECOND * Z.of_nat (length (until b (snd (turns readings s')))) <= credit s' b) ->
  SECOND * Z.of_nat (length (until b (snd (turns (t :: readings) s)))) <= credit (refill t s) b.
Proof.
  intros Hs Hd Hb IH. pose proof (turn_credit t s b Hs Hd) as Htc. cbn [turns].
  destruct (acquire_turn t s) as [r s']. destruct Htc as (Hb' & Hl' & Hcr). cbn [snd] in IH. specialize (IH Hb' Hl').
  destruct (turns readings s') as [s2 g]. cbn [snd] in *. destruct r; cbn [spent] in Hcr; [lia |].
  rewrite until_cons. destruct (Z.leb_spec t b); [| lia]. unfold SECOND in *. lia.
Qed.

(** From a bucket on, the requests until [b] are paid by its credit at [b]. *)
Lemma requests_until start now b readings s :
  clock_from start now readings -> bucket rps burst now s -> start <= rl_last_refill s -> rl_last_refill s <= b ->
  SECOND * Z.of_nat (length (until b (snd (turns readings s)))) <= credit s b.
Proof.
  revert now s. induction readings as [| t readings IH]; intros now s Hc Hs Hst Hb.
  { cbn. destruct Hs. unfold credit, SECOND. nia. }
  pose proof Hc as [Ht Hc'].
  assert (Hs' : bucket rps burst t s) by (destruct Hs; constructor; auto; lia).
  destruct (Z.le_gt_cases t b) as [Htb | Htb].
  - assert (Hd : t - rl_last_refill s < 2 ^ 64) by lia. destruct (refill_credit t s b Hs' Hd) as (_ & Hrc & _).
    etransitivity; [| exact Hrc]. apply turn_until; auto. intros s' Hb' Hl'.
    apply (IH t); [exact Hc' | exact Hb' | lia |]. destruct Hb'. lia.
  - rewrite (granted_late start t); [| now split; [lia |] | exact Htb]. destruct Hs. cbn. unfold credit, SECOND. nia.
Qed.

Lemma window_until a b l : (length (window a b l) <= length (until b l))%nat.
Proof.
  unfold window, until. induction l as [| t l IH]; [auto |]. cbn [List.filter].
  destruct (t <=? b); [| now rewrite andb_false_r]. rewrite andb_true_r. destruct (a <=? t); cbn [length]; lia.
Qed.

Lemma requests_in_window start now a b readings s :
  clock_from start now readings -> bucket rps burst now s -> start <= rl_last_refill s -> a <= b ->
  SECOND * Z.of_nat (length (window a b (snd (turns readings s)))) <= SECOND * (burst + 1) + rps * (b - a).
Proof.
  revert now s. induction readings as [| t readings IH]; intros now s Hc Hs Hst Hab.
  { cbn. unfold SECOND. nia. }
  pose proof Hc as [Ht Hc'].
  assert (Hs' : bucket rps burst t s) by (destruct Hs; constructor; auto; lia).
  assert (Hd : t - rl_last_refill s < 2 ^ 64) by lia.
  pose proof (window_until a b (snd (turns (t :: readings) s))) as Hw.
  destruct (Z.lt_ge_cases b t) as [Hbt | Hbt]; [| destruct (Z.le_gt_cases a t) as [Hat | Hat]].
  - rewrite (granted_late start t) in Hw; [| now split; [lia |] | exact Hbt].
    cbn [length] in Hw. assert (length (window a b (snd (turns (t :: readings) s))) = 0%nat) as -> by lia.
    unfold SECOND. nia.
  - assert (Hr : SECOND * Z.of_nat (length (until b (snd (turns (t :: readings) s)))) <= credit (refill t s) b).
    { apply turn_until; auto. intros s' Hb' Hl'. apply (requests_until start t); [exact Hc' | exact Hb' | lia |].
      destruct Hb'. lia. }
    destruct (refill_credit t s t Hs' Hd) as ([Hrr _ _ _] & _ & Hcr).
    assert (credit (refill t s) b = credit (refill t s) t + rps * (b - t)) by (unfold credit; rewrite Hrr; ring).
    assert (rps * (b - t) <= rps * (b - a)) by (apply Z.mul_le_mono_nonneg_l; lia). unfold SECOND in *. lia.
  - pose proof (turn_credit t s b Hs' Hd) as Htc. cbn [turns]. destruct (acquire_turn t s) as [r s'].
    destruct Htc as (Hb' & Hl' & _). specialize (IH t s' Hc' Hb' ltac:(lia) Hab).
    destruct (turns readings s') as [s2 g]. cbn [snd] in *. destruct r; [exact IH |].
    unfold window in *. cbn [List.filter]. destruct (Z.leb_spec a t); [lia |]. exact IH.
Qed.
End bound.

Lemma new_bucket rps burst start : 0 <= burst -> bucket rps burst start (RateLimiter_new rps burst start).
Proof. intros Hb. constructor; cbn; lia. Qed.

(** C26. However the callers' turns fall, no stretch of time sees more requests let
    through than the rate allows for its length, the burst capacity, and one more. *)
Theorem requests_bounded rps burst start readings a b :
  1 <= rps <= U32_MAX -> 0 <= burst <= 2 ^ 16 -> clock_from start start readings -> a <= b ->
  SECOND * Z.of_nat (length (window a b (snd (turns readings (RateLimiter_new rps burst start))))) <=
  SECOND * (burst + 1) + rps * (b - a).
Proof.
  intros Hr Hb Hc Hab. apply (requests_in_window rps burst Hr Hb start start); auto.
  - apply new_bucket. lia.
  - cbn. lia.
Qed.

(** The one more is reached: ten requests a second in bursts of two let three through
    within a nanosecond. *)
Example three_in_a_nanosecond :
  window 99999999 100000000 (snd (turns [99999999; 99999999; 99999999; 100000000] (RateLimiter_new 10 2 0))) =
  [99999999; 99999999; 100000000].
Proof. vm_compute. reflexivity. Qed.

Lemma requests_bounded_witness :
  (1 <= 10 <= U32_MAX /\ 0 <= 2 <= 2 ^ 16 /\ clock_from 0 0 [99999999; 99999999; 99999999; 100000000]) /\
  SECOND * Z.of_nat (length (window 99999999 100000000
    (snd (turns [99999999; 99999999; 99999999; 100000000] (RateLimiter_new 10 2 0))))) <= SECOND * (2 + 1) + 10 * (100000000 - 99999999).
Proof.
  assert (Hh : 1 <= 10 <= U32_MAX /\ 0 <= 2 <= 2 ^ 16 /\ clock_from 0 0 [99999999; 99999999; 99999999; 100000000])
    by (unfold U32_MAX; cbn; lia).
  split; [exact Hh |]. destruct Hh as (Hr & Hb & Hc).
  exact (requests_bounded 10 2 0 _ 99999999 100000000 Hr Hb Hc ltac:(lia)).
Defined.

(** ** A caller on its own is let through *)
Section waiting.
Context (rps burst : Z) (Hrps : 1 <= rps <= U32_MAX) (Hburst : 1 <= burst <= 2 ^ 16).

(** A refused turn leaves no token. *)
Lemma refused_drains t s :
  bucket rps burst t s -> t - rl_last_refill s < 2 ^ 64 -> fst (acquire_turn t s) <> None ->
  let s' := snd (acquire_turn t s) in
  bucket rps burst t s' /\ rl_tokens s' = 0 /\ rl_last_refill s <= rl_last_refill s'.
Proof.
  intros Hs Hd. pose proof (turn_credit rps burst Hrps ltac:(lia) t s t Hs Hd) as Ht.
  unfold acquire_turn in *. destruct (Z.ltb_spec 0 (rl_tokens (refill t s))); [easy |]. intros _. cbn [snd].
  destruct Ht as (Hb & Hl & _). split; [exact Hb |]. split; [| exact Hl]. destruct Hb. cbn in *. lia.
Qed.

(** An empty bucket: a turn finds a token exactly if the refill offers one. *)
Lemma drained_turn t s :
  bucket rps burst t s -> rl_tokens s = 0 -> t - rl_last_refill s < 2 ^ 64 ->
  (0 < offer (t - rl_last_refill s) rps -> fst (acquire_turn t s) = None) /\
  (offer (t - rl_last_refill s) rps = 0 -> rl_tokens (snd (acquire_turn t s)) = 0 /\
     rl_last_refill (snd (acquire_turn t s)) = rl_last_refill s).
Proof.
  intros Hs Ht Hd. unfold acquire_turn. rewrite (refill_eq rps burst t s Hs).
  destruct (offer_bounds (t - rl_last_refill s) rps) as (Hk & _ & _); [destruct Hs; lia | exact Hrps |].
  set (k := offer _ _) in *. split.
  - intros Hpos. destruct (Z.ltb_spec 0 k); [| lia]. cbn [rl_tokens].
    rewrite Ht, Z.add_0_l. unfold wrap32. rewrite Z.mod_small by (unfold U32_MAX in Hk; lia).
    destruct (Z.ltb_spec 0 (Z.min k burst)); [reflexivity | lia].
  - intros ->. cbn [Z.ltb Z.compare]. rewrite Ht. cbn [Z.ltb Z.compare]. split; reflexivity.
Qed.

(** Three turns of a caller on its own, more than a token's time apart together: one of
    them is granted. *)
Theorem third_turn_granted t0 t1 t2 s :
  bucket rps burst t0 s -> t0 <= t1 <= t2 -> t2 - rl_last_refill s < 2 ^ 64 -> SECOND < rps * (t2 - t0) ->
  let s1 := snd (acquire_turn t0 s) in
  let s2 := snd (acquire_turn t1 s1) in
  fst (acquire_turn t0 s) = None \/ fst (acquire_turn t1 s1) = None \/ fst (acquire_turn t2 s2) = None.
Proof.
  intros Hs Ht Hd Hgap. cbv zeta. destruct (fst (acquire_turn t0 s)) eqn:E0; [right | now left].
  destruct (refused_drains t0 s Hs ltac:(lia) ltac:(congruence)) as (Hs1 & Ht1 & Hl1).
  set (s1 := snd (acquire_turn t0 s)) in *.
  assert (Hs1' : bucket rps burst t1 s1) by (destruct Hs1; constructor; auto; lia).
  destruct (drained_turn t1 s1 Hs1' Ht1 ltac:(lia)) as [Hg1 Hz1].
  destruct (offer_bounds (t1 - rl_last_refill s1) rps) as (Hk1 & _ & _); [destruct Hs1; lia | exact Hrps |].
  destruct (Z.eq_dec (offer (t1 - rl_last_refill s1) rps) 0) as [E1 |]; [right | left; apply Hg1; lia].
  destruct (Hz1 E1) as [Ht2 Hl2]. pose proof (turn_credit rps burst Hrps ltac:(lia) t1 s1 t1 Hs1' ltac:(lia)) as Hb2.
  destruct (acquire_turn t1 s1) as [r s2]. cbn [snd] in *. destruct Hb2 as (Hs2 & _ & _).
  assert (Hs2' : bucket rps burst t2 s2) by (destruct Hs2; constructor; auto; lia).
  destruct (drained_turn t2 s2 Hs2' Ht2 ltac:(lia)) as [Hg2 _]. apply Hg2.
  destruct (offer_bounds (t2 - rl_last_refill s2) rps) as (Hk2 & _ & Hk0); [destruct Hs1; lia | exact Hrps |].
  destruct (Z.eq_dec (offer (t2 - rl_last_refill s2) rps) 0) as [E |]; [| lia]. specialize (Hk0 E). destruct Hs1. nia.
Qed.
End waiting.
