(* ===== verification/LatencyTracker.v ===== *)
(** Latency statistics ([src/src/strategy/latency_tracker.rs] and
    [latency.rs]): the running percentiles and maximum, the lock-free update of
    the maximum by several threads, and the staleness monitor. *)
From Stdlib Require Import ZArith Lia Bool.
From stdpp Require Import base option list gmap strings.
From S2P Require Import Prelude Float64.

#[local] Open Scope Z_scope.

(** ** [LatencyStats]; the five fields are [AtomicU64]s. *)
Record LatencyStats := {
  p50_ns : Z;
  p95_ns : Z;
  p99_ns : Z;
  max_ns : Z;
  ls_count : Z
}.

Definition LatencyStats_new : LatencyStats :=
  {| p50_ns := 0; p95_ns := 0; p99_ns := 0; max_ns := 0; ls_count := 0 |}.

(** [((1.0 - w) * current as f64 + w * latency as f64) as u64] *)
Definition ema (w : f64) (current latency : Z) : Z :=
  f_to_u64 ((1.0%f64 - w) * f_of_Z current + w * f_of_Z latency)%F.

Definition alpha : f64 := 0.1%f64.

(** One thread's [record]; [record_step] below has the loop on the maximum. *)
Definition record (latency_ns : Z) (s : LatencyStats) : LatencyStats :=
  let count := wrap64 (ls_count s + 1) in
  let max := if max_ns s <? latency_ns then latency_ns else max_ns s in
  let current_p50 := p50_ns s in
  let new_p50 := ema alpha current_p50 latency_ns in
  let new_p95 := if current_p50 <? latency_ns
                 then ema (alpha * 0.5%f64)%F (p95_ns s) latency_ns else p95_ns s in
  let new_p99 := if new_p95 <? latency_ns
                 then ema (alpha * 0.2%f64)%F (p99_ns s) latency_ns else p99_ns s in
  {| p50_ns := new_p50; p95_ns := new_p95; p99_ns := new_p99; max_ns := max; ls_count := count |}.

Definition snapshot (s : LatencyStats) : LatencyStats := s.
Definition reset (s : LatencyStats) : LatencyStats := LatencyStats_new.

Definition ns_to_us (ns : Z) : f64 := (f_of_Z ns / 1000.0%f64)%F.
Definition ns_to_ms (ns : Z) : f64 := (f_of_Z ns / 1000000.0%f64)%F.
Definition p50_us (s : LatencyStats) : f64 := ns_to_us (p50_ns s).
Definition p95_us (s : LatencyStats) : f64 := ns_to_us (p95_ns s).
Definition p99_us (s : LatencyStats) : f64 := ns_to_us (p99_ns s).
Definition max_us (s : LatencyStats) : f64 := ns_to_us (max_ns s).
Definition p50_ms (s : LatencyStats) : f64 := ns_to_ms (p50_ns s).
Definition p95_ms (s : LatencyStats) : f64 := ns_to_ms (p95_ns s).
Definition p99_ms (s : LatencyStats) : f64 := ns_to_ms (p99_ns s).
Definition max_ms (s : LatencyStats) : f64 := ns_to_ms (max_ns s).

(** ** The maximum, updated by several threads

    A thread in [record] has loaded the maximum and is in its
    [while latency_ns > current_max] loop, or has left it. *)
Inductive max_pc :=
| MStart (latency : Z)
| MLoop (latency current_max : Z)
| MDone (latency : Z).

(** [compare_exchange_weak] may fail although the value is the expected one;
    it then reports the value it found. *)
Inductive record_step : list max_pc * Z -> list max_pc * Z -> Prop :=
| record_load i l ts m :
    ts !! i = Some (MStart l) -> record_step (ts, m) (<[i := MLoop l m]> ts, m)
| record_exit i l c ts m :
    ts !! i = Some (MLoop l c) -> l <= c -> record_step (ts, m) (<[i := MDone l]> ts, m)
| record_cas i l c ts m :
    ts !! i = Some (MLoop l c) -> c < l -> m = c -> record_step (ts, m) (<[i := MDone l]> ts, l)
| record_cas_fail i l c ts m :
    ts !! i = Some (MLoop l c) -> c < l -> record_step (ts, m) (<[i := MLoop l m]> ts, m).

Definition pc_latency (p : max_pc) : Z :=
  match p with MStart l | MLoop l _ | MDone l => l end.

(** ** [LatencyMonitor] *)
Abbreviation LatencyMonitor := (gmap string (list Z)).

Definition LatencyMonitor_new : LatencyMonitor := ∅.

(** [sum::<u64>() / len as u64] over an entry that is not empty. *)
Definition average (latencies : list Z) : Z :=
  fold_left (fun a l => wrap64 (a + l)) latencies 0 / Z.of_nat (length latencies).

Definition any_stale (threshold_ms : Z) (m : LatencyMonitor) : bool :=
  existsb (fun kv => match snd kv with [] => false | l => threshold_ms <? average l end)
    (map_to_list m).

(** ** Properties *)

Definition record_all (ls : list Z) (s : LatencyStats) : LatencyStats := fold_left (fun s l => record l s) ls s.

(** After any sequence of measurements the maximum is the largest of them and
    the count is their number, modulo 2^64. *)
Theorem latency_max_count ls :
  let s := record_all ls LatencyStats_new in
  max_ns s = fold_left Z.max ls 0 /\ ls_count s = wrap64 (Z.of_nat (length ls)).
Proof.
  cbv zeta.
  assert (Hgen : forall ls s, max_ns (record_all ls s) = fold_left Z.max ls (max_ns s) /\
    (ls_count s = wrap64 (ls_count s) ->
     ls_count (record_all ls s) = wrap64 (ls_count s + Z.of_nat (length ls)))).
  { clear. induction ls as [| l ls IH]; intros s; [cbn; split; [reflexivity | intros H; now rewrite Z.add_0_r] |].
    change (record_all (l :: ls) s) with (record_all ls (record l s)).
    cbn [fold_left]. destruct (IH (record l s)) as [Hm Hc]. split.
    - rewrite Hm. cbn. f_equal. destruct (Z.ltb_spec (max_ns s) l); lia.
    - intros _. rewrite Hc; cbn [ls_count record length].
      + rewrite wrap64_add_l. f_equal. lia.
      + symmetry. apply wrap64_small, wrap64_range. }
  destruct (Hgen ls LatencyStats_new) as [Hm Hc]. split; [exact Hm | now apply Hc].
Qed.

Section interleaving.
Variables (latencies : list Z) (m0 : Z).

Definition max_inv (s : list max_pc * Z) : Prop :=
  pc_latency <$> s.1 = latencies /\ m0 <= s.2 /\ (s.2 = m0 \/ s.2 ∈ latencies) /\
  forall i p, s.1 !! i = Some p ->
    match p with MStart _ => True | MLoop _ c => c <= s.2 | MDone l => l <= s.2 end.

Lemma max_inv_step a b : max_inv a -> record_step a b -> max_inv b.
Proof.
  intros (Hl & H0 & Hm & Hp) Hs.
  destruct Hs as [i l ts m Hi | i l c ts m Hi Hle | i l c ts m Hi Hlt Hmc | i l c ts m Hi Hlt];
    cbn [fst snd] in *; unfold max_inv; cbn [fst snd];
    (split; [rewrite list_fmap_insert; cbn; rewrite list_insert_id; [exact Hl |
       rewrite list_lookup_fmap, Hi; reflexivity] |]).
  - split; [exact H0 |]. split; [exact Hm |]. intros j p Hj. insert_cases Hi; [lia | now apply Hp in Hj].
  - split; [exact H0 |]. split; [exact Hm |]. intros j p Hj. apply Hp in Hi as Hc.
    insert_cases Hi; [lia | now apply Hp in Hj].
  - split; [lia |]. split.
    + right. rewrite <- Hl. apply list_elem_of_lookup. exists i. rewrite list_lookup_fmap, Hi. reflexivity.
    + intros j p Hj. insert_cases Hi; [lia |]. apply Hp in Hj. destruct p; lia.
  - split; [exact H0 |]. split; [exact Hm |]. intros j p Hj. insert_cases Hi; [lia | now apply Hp in Hj].
Qed.
End interleaving.

(** Whatever the interleaving, and whichever exchanges fail, when every thread
    has left its loop the maximum is the largest of the old one and all the
    latencies recorded: no update is lost. *)
Theorem concurrent_max_exact latencies m0 ts m :
  star record_step (MStart <$> latencies, m0) (ts, m) ->
  Forall (fun p => exists l, p = MDone l) ts ->
  m = fold_left Z.max latencies m0.
Proof.
  intros Hr Hdone.
  assert (Hinv : max_inv latencies m0 (ts, m)).
  { eapply star_invariant; [| intros; eapply max_inv_step; eauto | exact Hr].
    split; [cbn; rewrite <- list_fmap_compose; apply list_fmap_id |]. cbn. split; [lia |]. split; [auto |].
    intros i p Hp. apply list_lookup_fmap_Some in Hp as (x & -> & _). exact I. }
  destruct Hinv as (Hl & H0 & Hm & Hp). cbn [fst snd] in *.
  assert (Hall : forall l, l ∈ latencies -> l <= m).
  { intros l Hin. rewrite <- Hl in Hin. apply list_elem_of_fmap in Hin as (p & -> & Hin).
    rewrite Forall_forall in Hdone. destruct (Hdone p Hin) as [l ->].
    apply list_elem_of_lookup in Hin as [i Hi]. now apply Hp in Hi. }
  assert (Hfold : forall ls a, a <= fold_left Z.max ls a /\ (forall l, l ∈ ls -> l <= fold_left Z.max ls a) /\
    (forall b, a <= b -> (forall l, l ∈ ls -> l <= b) -> fold_left Z.max ls a <= b)).
  { clear. induction ls as [| x ls IH]; intros a; cbn [fold_left].
    - split; [lia |]. split; [intros l Hl; inversion Hl | auto].
    - destruct (IH (Z.max a x)) as (H1 & H2 & H3). split; [lia |]. split.
      + intros l [-> | Hl]%elem_of_cons; [lia | auto].
      + intros b Ha Hb. apply H3; [| intros; apply Hb; now apply elem_of_cons; right].
        specialize (Hb x). rewrite elem_of_cons in Hb. specialize (Hb (or_introl eq_refl)). lia. }
  destruct (Hfold latencies m0) as (H1 & H2 & H3).
  apply Z.le_antisymm; [destruct Hm as [-> | Hm]; [exact H1 | now apply H2] | now apply H3].
Qed.

Lemma concurrent_max_exact_witness : 7 = fold_left Z.max [3; 7] 5.
Proof.
  apply (concurrent_max_exact [3; 7] 5 [MDone 3; MDone 7] 7); [| repeat constructor; eauto].
  eapply star_step; [eapply star_step; [eapply star_step; [eapply star_step; [eapply star_step;
    [apply star_refl |] |] |] |] |].
  - exact (record_load 0 3 [MStart 3; MStart 7] 5 eq_refl).
  - exact (record_load 1 7 [MLoop 3 5; MStart 7] 5 eq_refl).
  - exact (record_cas_fail 1 7 5 [MLoop 3 5; MLoop 7 5] 5 eq_refl ltac:(lia)).
  - exact (record_cas 1 7 5 [MLoop 3 5; MLoop 7 5] 5 eq_refl ltac:(lia) eq_refl).
  - exact (record_exit 0 3 5 [MLoop 3 5; MDone 7] 7 eq_refl ltac:(lia)).
Defined.

(** The monitor has no operation that records a latency, so one that was created
    never reports a stale exchange. *)
Lemma monitor_never_stale threshold : any_stale threshold LatencyMonitor_new = false.
Proof. reflexivity. Qed.

(** The running median cannot rise to a latency less than 10 ns above it: the
    cast truncates what the average gains. *)
Lemma median_sticks : ema alpha 100 109 = 100 /\ ema alpha 100 110 = 101.
Proof. split; vm_compute; reflexivity. Qed.
