(* ===== verification/BufferPool.v ===== *)
(** The pool of string buffers of the hot path
    ([src/src/strategy/buffer_pool.rs]).

    A [&mut String] handed out is the index of its buffer, and what the client
    writes through it is [write_buffer].  Capacities are an allocation matter
    and are left out.  The thread-local pool is behind a [RefCell]: borrowing it
    again while a client runs panics. *)
From Stdlib Require Import ZArith Lia Bool.
From stdpp Require Import base option list strings.
From S2P Require Import Prelude.

Record BufferPool := { format_buffers : list string; next_buffer_idx : nat }.

Definition BufferPool_new : BufferPool :=
  {| format_buffers := replicate 100 ""%string; next_buffer_idx := 0 |}.

Definition buffer_count (p : BufferPool) : nat := length (format_buffers p).

(** [None]: the division by the length of an empty pool panics. *)
Definition get_string_buffer (p : BufferPool) : option (nat * BufferPool) :=
  match buffer_count p with
  | O => None
  | n =>
      let idx := next_buffer_idx p in
      Some (idx, {| format_buffers := <[idx := ""%string]> (format_buffers p);
                    next_buffer_idx := (next_buffer_idx p + 1) mod n |})
  end.

Definition write_buffer (i : nat) (text : string) (p : BufferPool) : BufferPool :=
  {| format_buffers := <[i := text]> (format_buffers p); next_buffer_idx := next_buffer_idx p |}.

(** ** The thread-local pool: the flag is [RefCell]'s. *)
Record ThreadPool := { tp_pool : BufferPool; tp_borrowed : bool }.

(** [f] gets the buffer's content and answers with what it wrote; it is given
    the borrowed pool so that it may call back.  [None] is a panic. *)
Definition with_string_buffer {R} (f : string -> ThreadPool -> option (R * string))
  (t : ThreadPool) : option (R * ThreadPool) :=
  if tp_borrowed t then None else
  match get_string_buffer (tp_pool t) with
  | None => None
  | Some (i, p) =>
      match f (default ""%string (format_buffers p !! i)) {| tp_pool := p; tp_borrowed := true |} with
      | None => None
      | Some (r, text) => Some (r, {| tp_pool := write_buffer i text p; tp_borrowed := false |})
      end
  end.

(** ** Properties *)

(** A run: each call writes its text into the buffer it got. *)
Fixpoint use_buffers (texts : list string) (p : BufferPool) : option (list nat * BufferPool) :=
  match texts with
  | [] => Some ([], p)
  | text :: texts =>
      match get_string_buffer p with
      | None => None
      | Some (i, p) =>
          match use_buffers texts (write_buffer i text p) with
          | None => None
          | Some (idxs, p) => Some (i :: idxs, p)
          end
      end
  end.

Definition pool_wf (k : nat) (p : BufferPool) : Prop :=
  buffer_count p = 100 /\ next_buffer_idx p = k mod 100.

Lemma get_string_buffer_spec k p :
  pool_wf k p ->
  exists p', get_string_buffer p = Some (k mod 100, p') /\ pool_wf (S k) p' /\
    format_buffers p' !! (k mod 100) = Some ""%string.
Proof.
  intros [Hn Hi]. unfold get_string_buffer. rewrite Hn. eexists. split; [rewrite Hi; reflexivity |].
  assert (Hlt : k mod 100 < 100) by (apply Nat.mod_upper_bound; lia).
  split; [split; cbn [next_buffer_idx format_buffers] |].
  - unfold buffer_count in *. cbn [format_buffers]. now rewrite length_insert.
  - rewrite ?Hi, Nat.Div0.add_mod_idemp_l. now rewrite Nat.add_1_r.
  - cbn [format_buffers]. rewrite ?Hi. apply list_lookup_insert_eq. unfold buffer_count in Hn. lia.
Qed.

Lemma write_wf k i text p : pool_wf k p -> pool_wf k (write_buffer i text p).
Proof. intros [Hn Hi]. split; [| exact Hi]. unfold buffer_count in *. cbn. now rewrite length_insert. Qed.

Lemma use_buffers_spec texts k p :
  pool_wf k p ->
  exists p', use_buffers texts p = Some ((fun j => (k + j) mod 100) <$> seq 0 (length texts), p') /\
    pool_wf (k + length texts) p'.
Proof.
  revert k p. induction texts as [| text texts IH]; intros k p Hp.
  - exists p. cbn. rewrite Nat.add_0_r. auto.
  - destruct (get_string_buffer_spec k p Hp) as (p1 & Hg & H1 & _). cbn [use_buffers]. rewrite Hg.
    destruct (IH (S k) _ (write_wf _ (k mod 100) text _ H1)) as (p2 & Hu & H2). rewrite Hu.
    exists p2. split; [| cbn [length]; now replace (k + S (length texts)) with (S k + length texts) by lia].
    cbn [length seq fmap list_fmap]. rewrite Nat.add_0_r. do 2 f_equal.
    rewrite <- seq_shift. rewrite <- list_fmap_compose. f_equal. apply list_fmap_ext. intros i x _. cbn.
    now rewrite Nat.add_succ_r.
Qed.

(** The pool never runs out and never hands out a dirty buffer: whatever earlier
    clients wrote, the next call succeeds, its buffer is empty, the buffers go
    round in order, and one handed out comes back only after 99 others. *)
Theorem buffers_go_round texts :
  exists p' p'',
    use_buffers texts BufferPool_new = Some ((fun j => j mod 100) <$> seq 0 (length texts), p') /\
    get_string_buffer p' = Some (length texts mod 100, p'') /\
    format_buffers p'' !! (length texts mod 100) = Some ""%string.
Proof.
  destruct (use_buffers_spec texts 0 BufferPool_new) as (p' & Hu & Hw); [split; reflexivity |].
  destruct (get_string_buffer_spec _ _ Hw) as (p'' & Hg & _ & He). eauto.
Qed.

(** Calling back into the pool from a client panics. *)
Lemma nested_use_panics (t : ThreadPool) :
  with_string_buffer (fun _ t' =>
    match with_string_buffer (fun s _ => Some (tt, s)) t' with
    | Some (r, _) => Some (r, ""%string)
    | None => None
    end) t = None.
Proof.
  unfold with_string_buffer at 1. destruct (tp_borrowed t); [reflexivity |].
  destruct (get_string_buffer (tp_pool t)) as [[i p] |]; reflexivity.
Qed.
