(* ===== verification/ExchangeParser.v ===== *)
(** The exchange message parser ([src/src/exchange_parser.rs]): the number
    parser, the field a message of each exchange keeps its funding rate and its
    best prices in, the Redis keys, and the normalisation of symbol names.

    [serde_json::Value] is a third-party type: [Json] has the accessors the code
    uses.  Strings are ASCII.  The number parser for targets with AVX-512 is in
    [PriceSimd.v]; the default build has [parse_price_fast]. *)
From Stdlib Require Import ZArith Lia Bool Ascii String.
From stdpp Require Import base option list strings.
From S2P Require Import Prelude Float64 NumberText ExchangeFees.

#[local] Open Scope string_scope.
#[local] Open Scope Z_scope.

(** ** [f64::powi] by repeated squaring, for a positive exponent. *)
Fixpoint powi_pos (a r : f64) (n : positive) : f64 :=
  match n with
  | xH => (r * a)%F
  | xO n => powi_pos (a * a)%F r n
  | xI n => powi_pos (a * a)%F (r * a)%F n
  end.
Definition powi (a : f64) (n : Z) : f64 :=
  match n with Zpos n => powi_pos a 1.0%f64 n | _ => 1.0%f64 end.

(** ** The fast parser *)

(** How the loop over the bytes ends: the number read, the standard parser, or
    no number. *)
Inductive fast_result :=
| FastNumber (result : f64) (decimal_places : Z)
| FastFallback
| FastInvalid.

Fixpoint fast_loop (s : string) (result : f64) (decimal_places : Z) (found_decimal : bool)
  : fast_result :=
  match s with
  | EmptyString => FastNumber result decimal_places
  | String c s =>
      if bool_decide (c = "."%char) then
        if found_decimal then FastFallback else fast_loop s result decimal_places true
      else match digit_of c with
      | Some digit =>
          fast_loop s (result * 10.0%f64 + f_of_Z digit)%F
            (if found_decimal then decimal_places + 1 else decimal_places) found_decimal
      | None =>
          if bool_decide (c = "e"%char \/ c = "E"%char) then FastFallback else FastInvalid
      end
  end.

Definition parse_price_fast (s : string) : option f64 :=
  let len := String.length s in
  if (len =? 0)%nat || (32 <? len)%nat then std_parse_f64 s
  else
    let '(is_negative, rest) := match s with String "-" rest => (true, rest) | _ => (false, s) end in
    match fast_loop rest 0.0%f64 0 false with
    | FastFallback => std_parse_f64 s
    | FastInvalid => None
    | FastNumber result decimal_places =>
        let result := if 0 <? decimal_places
                      then (result / powi 10.0%f64 decimal_places)%F else result in
        Some (if is_negative then fneg result else result)
    end.

Definition parse_price_simd (s : string) : option f64 :=
  match s with EmptyString => None | _ => parse_price_fast s end.

(** [option.and_then(f)] *)
Definition and_then {A C} (o : option A) (f : A -> option C) : option C :=
  match o with Some a => f a | None => None end.
#[local] Infix ".>" := and_then (at level 50, left associativity).

(** ** JSON values: what the code uses of [serde_json::Value]. *)
Class Json (V : Type) := {
  j_get : string -> V -> option V;          (* [get(key)] of an object *)
  j_as_str : V -> option string;
  j_as_array : V -> option (list V);
  j_is_f64 : V -> bool;
  j_as_f64 : V -> option f64;
  j_from_str : string -> option V           (* [from_str(..).ok()] *)
}.

(** The three methods every exchange defines. *)
Record ExchangeParser (V : Type) := {
  parse_funding_rate : V -> option f64;
  parse_bid : V -> option string;
  parse_ask : V -> option string
}.
Arguments parse_funding_rate {V} _ _.
Arguments parse_bid {V} _ _.
Arguments parse_ask {V} _ _.

Section parsers.
Context {V : Type} `{Json V}.

(** [json.get(k1).and_then(|v| v.get(k2))...] *)
Fixpoint get_path (ks : list string) (json : V) : option V :=
  match ks with [] => Some json | k :: ks => j_get k json .> get_path ks end.

Definition str_at (ks : list string) (json : V) : option string := get_path ks json .> j_as_str.
Definition nth_of (n : nat) (v : V) : option V := j_as_array v .> (fun a => a !! n).
Definition rate_of (v : option string) : option f64 := v .> parse_price_simd.

(** [data[0].key]. *)
Definition first_str (key : string) (json : V) : option string :=
  get_path ["data"] json .> nth_of 0 .> str_at [key].

Definition BinanceParser : ExchangeParser V :=
  {| parse_funding_rate json := rate_of (str_at ["r"] json);
     parse_bid := str_at ["b"]; parse_ask := str_at ["a"] |}.

(** An array gives its first element, anything else itself. *)
Definition BybitParser : ExchangeParser V :=
  {| parse_funding_rate json :=
       rate_of (get_path ["data"] json .>
         (fun d => match j_as_array d with Some a => head a | None => Some d end) .>
         str_at ["fundingRate"]);
     parse_bid := str_at ["data"; "bid1Price"]; parse_ask := str_at ["data"; "ask1Price"] |}.

Definition OKXParser : ExchangeParser V :=
  {| parse_funding_rate json := rate_of (first_str "fundingRate" json);
     parse_bid := first_str "bidPx"; parse_ask := first_str "askPx" |}.

(** [impactPxs] first, then the [bbo] structure. *)
Definition hyperliquid_price (n : nat) (json : V) : option string :=
  match get_path ["data"; "ctx"; "impactPxs"] json .> nth_of n .> j_as_str with
  | Some price => Some price
  | None => get_path ["data"; "bbo"] json .> nth_of n .> str_at ["px"]
  end.

Definition HyperliquidParser : ExchangeParser V :=
  {| parse_funding_rate json := rate_of (str_at ["data"; "ctx"; "funding"] json);
     parse_bid := hyperliquid_price 0; parse_ask := hyperliquid_price 1 |}.

Definition KucoinParser : ExchangeParser V :=
  {| parse_funding_rate json :=
       get_path ["data"; "fundingRate"] json .>
         (fun v => if j_is_f64 v then j_as_f64 v else rate_of (j_as_str v));
     parse_bid := str_at ["data"; "bestBidPrice"]; parse_ask := str_at ["data"; "bestAskPrice"] |}.

Definition BitgetParser : ExchangeParser V :=
  {| parse_funding_rate json := rate_of (first_str "fundingRate" json);
     parse_bid := first_str "bidPr"; parse_ask := first_str "askPr" |}.

Definition gateio_price (ticker book : string) (json : V) : option string :=
  match str_at ["result"; ticker] json with
  | Some price => Some price
  | None => str_at ["result"; book] json
  end.

Definition GateioParser : ExchangeParser V :=
  {| parse_funding_rate json := rate_of (str_at ["result"; "funding_rate"] json);
     parse_bid := gateio_price "highest_bid" "b"; parse_ask := gateio_price "lowest_ask" "a" |}.

Definition ParadexParser : ExchangeParser V :=
  {| parse_funding_rate json := rate_of (str_at ["params"; "data"; "funding_rate"] json);
     parse_bid := str_at ["params"; "data"; "bid"]; parse_ask := str_at ["params"; "data"; "ask"] |}.

Definition get_parser (exchange : string) : ExchangeParser V :=
  if String.eqb exchange "binance" then BinanceParser
  else if String.eqb exchange "bybit" then BybitParser
  else if String.eqb exchange "okx" then OKXParser
  else if String.eqb exchange "hyperliquid" then HyperliquidParser
  else if String.eqb exchange "kucoin" then KucoinParser
  else if String.eqb exchange "bitget" then BitgetParser
  else if String.eqb exchange "gateio" then GateioParser
  else if String.eqb exchange "paradex" then ParadexParser
  else BinanceParser.

(** The methods no exchange redefines. *)
Record OrderbookDepth := {
  ob_bids : list (string * string);
  ob_asks : list (string * string)
}.

Record ExchangeData := {
  ed_exchange : string;
  ed_ticker : string;
  ed_funding_rate : option f64;
  ed_bid : option string;
  ed_ask : option string;
  ed_orderbook_depth : option OrderbookDepth
}.

Definition parse_ticker (_ : ExchangeParser V) (_ : V) : option string := None.
Definition parse_orderbook (_ : ExchangeParser V) (_ : V) : option OrderbookDepth := None.

Definition extract_all (p : ExchangeParser V) (exchange : string) (json : V) : option ExchangeData :=
  match parse_ticker p json with
  | Some ticker =>
      Some {| ed_exchange := exchange; ed_ticker := ticker; ed_funding_rate := parse_funding_rate p json;
              ed_bid := parse_bid p json; ed_ask := parse_ask p json; ed_orderbook_depth := parse_orderbook p json |}
  | None => None
  end.
End parsers.

(** ** Redis keys *)

Definition get_redis_key_patterns (exchange symbol : string) : list string :=
  let e := lower exchange in
  if String.eqb e "bybit" then [exchange ++ ":linear:tickers:" ++ symbol]
  else if String.eqb e "bitget" then [exchange ++ ":usdt:tickers:" ++ symbol]
  else if String.eqb e "binance" then
    [exchange ++ ":linear:tickers:" ++ symbol; exchange ++ ":usdm:book:" ++ symbol]
  else if String.eqb e "okx" then
    let base := trim_end_matches "USDT" symbol in
    [exchange ++ ":usdt:tickers:" ++ base ++ "-USDT-SWAP"; exchange ++ ":usdt:tickers:" ++ symbol]
  else if String.eqb e "kucoin" then
    [exchange ++ ":futures:tickerV2:" ++ symbol ++ "M"; exchange ++ ":futures:tickerV2:" ++ symbol]
  else if String.eqb e "hyperliquid" then
    let base := trim_end_matches "USDT" symbol in
    [exchange ++ ":usdc:ctx:" ++ base; exchange ++ ":usdc:bbo:" ++ base]
  else if String.eqb e "gateio" then [exchange ++ ":usdt:tickers:" ++ symbol]
  else if String.eqb e "paradex" then
    let base := trim_end_matches "USDT" symbol in
    [exchange ++ ":usdt:bbo:" ++ base ++ "-USD-PERP"; exchange ++ ":usdt:tickers:" ++ symbol]
  else if String.eqb e "lighter" then [exchange ++ ":usdt:data:" ++ symbol]
  else [exchange ++ ":linear:tickers:" ++ symbol].

(** ** Symbol names *)

(** [replace("-", "")] *)
Fixpoint remove_char (c : ascii) (s : string) : string :=
  match s with
  | EmptyString => EmptyString
  | String d s => if Ascii.eqb d c then remove_char c s else String d (remove_char c s)
  end.

(** [contains(p)] *)
Fixpoint has_substring (p s : string) : bool :=
  (String.prefix p s || match s with EmptyString => false | String _ s => has_substring p s end)%bool.

(** [replace(from, to)] for a non-empty [from]: the matches from the left that do
    not overlap. *)
Fixpoint replace_fuel (fuel : nat) (from to s : string) : string :=
  match fuel, s with
  | S fuel, String c s' =>
      if String.prefix from s
      then to ++ replace_fuel fuel from to
                   (String.substring (String.length from) (String.length s - String.length from) s)
      else String c (replace_fuel fuel from to s')
  | _, _ => s
  end.
Definition replace (from to s : string) : string := replace_fuel (String.length s) from to s.

Definition normalize_symbol (symbol : string) : string :=
  let normalized := remove_char "-" (upper symbol) in
  let normalized := if ends_with "SWAP" normalized then drop_end 4 normalized else normalized in
  let normalized := if ends_with "PERP" normalized then drop_end 4 normalized else normalized in
  let normalized := if ends_with "USDTM" normalized then drop_end 1 normalized else normalized in
  let normalized := if (has_substring "USD" normalized && negb (has_substring "USDT" normalized))%bool
                    then replace "USD" "USDT" normalized else normalized in
  if negb (has_substring "USDT" normalized) then normalized ++ "USDT" else normalized.

Example parse_price_examples :
  parse_price_simd "12345.67" = Some 12345.67%f64 /\ parse_price_simd "-0.5" = Some (-0.5)%f64 /\
  parse_price_simd "1e-3" = Some 0.001%f64 /\ parse_price_simd "1.2.3" = None /\
  parse_price_simd "" = None /\ parse_price_simd "12a" = None.
Proof. vm_compute. auto 10. Qed.

Example normalize_examples :
  normalize_symbol "LDO-USDT-SWAP" = "LDOUSDT" /\ normalize_symbol "cake-usd-perp" = "CAKEUSDT" /\
  normalize_symbol "MASKUSDTM" = "MASKUSDT" /\ normalize_symbol "LDO" = "LDOUSDT".
Proof. vm_compute. auto. Qed.
