(* ===== verification/PriceSimd.v ===== *)
(** The number parser for processors with AVX-512 ([parse_price_avx512] of
    [src/src/exchange_parser.rs]), which [parse_price_simd] uses on such a target
    instead of [parse_price_fast].

    A 256-bit register is a list of 32 signed bytes, lowest lane first; the intrinsics
    are those of [std::arch::x86_64].  Strings are ASCII. *)
From Stdlib Require Import ZArith Lia Bool Ascii String.
From stdpp Require Import base option list strings.
From S2P Require Import Prelude Float64 NumberText ExchangeParser.

#[local] Open Scope string_scope.
#[local] Open Scope list_scope.
#[local] Open Scope Z_scope.

(** ** Registers *)
Abbreviation m256i := (list Z).

(** A value modulo 2^8 as a signed byte, modulo 2^32 as an [i32]. *)
Definition as_i8 (z : Z) : Z := (z + 128) mod 256 - 128.
Definition as_i32 (z : Z) : Z := (z + 2147483648) mod 4294967296 - 2147483648.

Definition mm256_set1_epi8 (b : Z) : m256i := replicate 32 (as_i8 b).
Definition mm256_loadu_si256 (bytes : list Z) : m256i := as_i8 <$> bytes.
Definition mm256_sub_epi8 (a b : m256i) : m256i := zip_with (fun x y => as_i8 (x - y)) a b.
Definition mm256_add_epi8 (a b : m256i) : m256i := zip_with (fun x y => as_i8 (x + y)) a b.
Definition mm256_cmpeq_epi8 (a b : m256i) : m256i := zip_with (fun x y => if x =? y then -1 else 0) a b.
Definition mm256_cmpgt_epi8 (a b : m256i) : m256i := zip_with (fun x y => if y <? x then -1 else 0) a b.
Definition mm256_and_si256 (a b : m256i) : m256i := zip_with Z.land a b.

(** The signs of the lanes, as the bits of an [i32]. *)
Fixpoint sign_bits (a : m256i) : Z :=
  match a with [] => 0 | x :: a => (if x <? 0 then 1 else 0) + 2 * sign_bits a end.
Definition mm256_movemask_epi8 (a : m256i) : Z := as_i32 (sign_bits a).

(** ** The parser *)
Definition byte_of (c : ascii) : Z := Z.of_nat (nat_of_ascii c).
Definition zero_vec : m256i := mm256_set1_epi8 (byte_of "0").
Definition nine_vec : m256i := mm256_set1_epi8 (byte_of "9").
Definition dot_vec : m256i := mm256_set1_epi8 (byte_of ".").

Definition bytes_of (s : string) : list Z := byte_of <$> list_ascii_of_string s.

(** Sixteen bytes in a buffer of thirty-two. *)
Definition chunk_of (rest : string) : list Z := take 16 (bytes_of rest) ++ replicate 16 0.

(** [while i + 16 <= len]; the argument is what is left from byte [i] on. *)
Fixpoint simd_loop (fuel : nat) (rest : string) (result : f64) : string * f64 :=
  match fuel with
  | O => (rest, result)
  | S fuel =>
      if (String.length rest <? 16)%nat then (rest, result) else
      let data := mm256_loadu_si256 (chunk_of rest) in
      let dot_bits := mm256_movemask_epi8 (mm256_cmpeq_epi8 data dot_vec) in
      if negb (dot_bits =? 0) then (rest, result) else
      let ge_zero := mm256_cmpgt_epi8 data (mm256_sub_epi8 zero_vec (mm256_set1_epi8 1)) in
      let le_nine := mm256_cmpgt_epi8 (mm256_add_epi8 nine_vec (mm256_set1_epi8 1)) data in
      let valid_mask := mm256_movemask_epi8 (mm256_and_si256 ge_zero le_nine) in
      if negb (valid_mask =? -1) then (rest, result) else
      let digit_array := (fun d => d mod 256) <$> mm256_sub_epi8 data zero_vec in
      let result := fold_left (fun r d => (r * 10.0%f64 + f_of_Z d)%F) (take 16 digit_array) result in
      simd_loop fuel (String.substring 16 (String.length rest - 16) rest) result
  end.

(** The remaining bytes one by one: a letter is no number here. *)
Fixpoint scalar_loop (s : string) (result : f64) (decimal_places : Z) (found_decimal : bool) : fast_result :=
  match s with
  | EmptyString => FastNumber result decimal_places
  | String c s =>
      if bool_decide (c = "."%char) then
        if found_decimal then FastFallback else scalar_loop s result decimal_places true
      else match digit_of c with
      | Some digit =>
          scalar_loop s (result * 10.0%f64 + f_of_Z digit)%F
            (if found_decimal then decimal_places + 1 else decimal_places) found_decimal
      | None => FastInvalid
      end
  end.

(** [s.contains(c)] *)
Definition has_char (c : ascii) (s : string) : bool := existsb (Ascii.eqb c) (list_ascii_of_string s).

Definition parse_price_avx512 (s : string) : option f64 :=
  let len := String.length s in
  if (len =? 0)%nat || (32 <? len)%nat then parse_price_fast s
  else if (len <? 8)%nat || has_char "e" s || has_char "E" s then parse_price_fast s
  else
    let '(is_negative, rest) := match s with String "-" rest => (true, rest) | _ => (false, s) end in
    let '(rest, result) := simd_loop len rest 0.0%f64 in
    match scalar_loop rest result 0 false with
    | FastFallback => parse_price_fast s
    | FastInvalid => None
    | FastNumber result decimal_places =>
        let result := if 0 <? decimal_places
                      then (result / powi 10.0%f64 decimal_places)%F else result in
        Some (if is_negative then fneg result else result)
    end.

(** [parse_price_simd] on such a target. *)
Definition parse_price_simd_avx512 (s : string) : option f64 :=
  match s with EmptyString => None | _ => parse_price_avx512 s end.

Example avx512_price : parse_price_avx512 "-12345.678" = parse_price_fast "-12345.678".
Proof. vm_compute. reflexivity. Qed.

(** ** The vectors are never used

    The upper sixteen lanes of the buffer are zero, which is no digit: the mask of
    the valid lanes is never all ones. *)
Lemma sign_bits_app a b : sign_bits (a ++ b) = sign_bits a + 2 ^ Z.of_nat (length a) * sign_bits b.
Proof.
  induction a as [| x a IH]; cbn [app sign_bits length]; [now rewrite Z.mul_1_l |].
  rewrite IH, Nat2Z.inj_succ, Z.pow_succ_r by lia. lia.
Qed.

Lemma sign_bits_bound a : 0 <= sign_bits a < 2 ^ Z.of_nat (length a).
Proof.
  induction a as [| x a IH]; cbn [sign_bits length]; [lia |]. rewrite Nat2Z.inj_succ, Z.pow_succ_r by lia.
  destruct (x <? 0); lia.
Qed.

(** The upper half of a mask is that of the upper halves of the registers. *)
Lemma low_mask a : length a = 16%nat -> mm256_movemask_epi8 (a ++ replicate 16 0) <> -1.
Proof.
  intros Ha. unfold mm256_movemask_epi8, as_i32. rewrite sign_bits_app.
  change (sign_bits (replicate 16 0)) with 0. pose proof (sign_bits_bound a) as Hb. rewrite Ha in Hb.
  rewrite Z.mod_small; lia.
Qed.

Lemma invalid_half a :
  length a = 16%nat ->
  mm256_movemask_epi8
    (mm256_and_si256
      (mm256_cmpgt_epi8 (a ++ replicate 16 0) (mm256_sub_epi8 zero_vec (mm256_set1_epi8 1)))
      (mm256_cmpgt_epi8 (mm256_add_epi8 nine_vec (mm256_set1_epi8 1)) (a ++ replicate 16 0))) <> -1.
Proof.
  intros Ha. unfold mm256_cmpgt_epi8, mm256_and_si256.
  change (mm256_sub_epi8 zero_vec (mm256_set1_epi8 1)) with (replicate 16 47 ++ replicate 16 47).
  change (mm256_add_epi8 nine_vec (mm256_set1_epi8 1)) with (replicate 16 58 ++ replicate 16 58).
  rewrite !zip_with_app by now rewrite ?length_zip_with, ?length_replicate, ?Ha.
  apply low_mask. rewrite !length_zip_with, !length_replicate, Ha. reflexivity.
Qed.

Lemma chunk_length rest : (16 <= String.length rest)%nat -> length (take 16 (bytes_of rest)) = 16%nat.
Proof.
  intros Hl. rewrite length_take. unfold bytes_of. rewrite length_fmap.
  enough (length (list_ascii_of_string rest) = String.length rest) by lia.
  clear. induction rest; cbn; congruence.
Qed.

Lemma simd_loop_idle fuel rest result : simd_loop fuel rest result = (rest, result).
Proof.
  destruct fuel as [| fuel]; [reflexivity |]. cbn [simd_loop].
  destruct (Nat.ltb_spec (String.length rest) 16) as [Hl | Hl]; [reflexivity |]. cbv zeta.
  destruct (negb (_ =? 0)); [reflexivity |].
  unfold mm256_loadu_si256, chunk_of. rewrite fmap_app.
  change (as_i8 <$> replicate 16 0) with (replicate 16 0).
  pose proof (invalid_half (as_i8 <$> take 16 (bytes_of rest))) as Hi. rewrite length_fmap in Hi.
  specialize (Hi (chunk_length rest Hl)). apply Z.eqb_neq in Hi. now rewrite Hi.
Qed.

(** ** Both parsers read the same numbers *)
Lemma scalar_fast s result dp found :
  has_char "e" s = false -> has_char "E" s = false ->
  scalar_loop s result dp found = fast_loop s result dp found.
Proof.
  unfold has_char. revert result dp found. induction s as [| c s IH]; intros result dp found He HE; [reflexivity |].
  cbn [list_ascii_of_string existsb] in He, HE. apply orb_false_elim in He as [He He'], HE as [HE HE'].
  cbn [scalar_loop fast_loop]. destruct (bool_decide (c = "."%char)); [destruct found; auto |].
  destruct (digit_of c); [auto |].
  apply Ascii.eqb_neq in He, HE. rewrite bool_decide_false by intuition congruence. reflexivity.
Qed.

(** A leading minus sign is taken off. *)
Lemma sign_cases t :
  (match t with String "-" rest => (true, rest) | _ => (false, t) end) = (false, t) \/
  exists s, t = String "-" s /\ (match t with String "-" rest => (true, rest) | _ => (false, t) end) = (true, s).
Proof. destruct t as [| [[] [] [] [] [] [] [] []] t]; auto. right. eauto. Qed.

(** C40. The parser for AVX-512 is equivalent to the scalar one: on every text, with or
    without vectors, the two targets read the same price. *)
Theorem avx512_agrees s : parse_price_simd_avx512 s = parse_price_simd s.
Proof.
  destruct s as [| c s]; [reflexivity |]. unfold parse_price_simd_avx512, parse_price_simd.
  generalize (String c s) as t. clear c s. intros t. unfold parse_price_avx512. destruct (_ || (32 <? String.length t)%nat) eqn:El; [reflexivity |].
  destruct (_ || has_char "E" t) eqn:Eh; [reflexivity |].
  apply orb_false_elim in Eh as [[_ He]%orb_false_elim HE].
  destruct (match t with String "-" rest => (true, rest) | _ => (false, t) end) as [is_negative rest] eqn:Er.
  assert (Hr : has_char "e" rest = false /\ has_char "E" rest = false).
  { destruct (sign_cases t) as [Hs | (s' & Ht & Hs)]; rewrite Hs in Er; injection Er as _ <-; [auto |].
    rewrite Ht in He, HE. now apply orb_false_elim in He as [_ He], HE as [_ HE]. }
  rewrite simd_loop_idle, scalar_fast by apply Hr.
  destruct (fast_loop rest 0.0%f64 0 false) eqn:Ef; [| reflexivity |];
    unfold parse_price_fast; now rewrite El, Er, Ef.
Qed.
