(* ===== verification/SymbolNames.v ===== *)
(** Symbol names of the exchanges ([normalize_symbol] and
    [get_redis_key_patterns] of [src/src/exchange_parser.rs]): the spelling under
    which an exchange's data is stored leads back to the symbol, and the numbers
    the fast parser accepts that are none. *)
From Stdlib Require Import ZArith Lia Bool Ascii String.
From stdpp Require Import base option list strings.
From S2P Require Import Prelude Float64 NumberText ExchangeParser.

#[local] Open Scope string_scope.

(** ** Strings with a known end *)

#[local] Arguments String.append !s1 s2 /.
#[local] Arguments ascii_dec : simpl never.

Lemma length_app_string a b : String.length (a ++ b) = (String.length a + String.length b)%nat.
Proof. induction a as [| c a IH]; cbn; congruence. Qed.

Lemma substring_whole s : String.substring 0 (String.length s) s = s.
Proof. induction s as [| c s IH]; cbn; congruence. Qed.

Lemma substring_drop a s m k : String.substring (String.length a + m) k (a ++ s) = String.substring m k s.
Proof. induction a as [| c a IH]; cbn; [reflexivity | exact IH]. Qed.

Lemma substring_take a s k : String.substring 0 (String.length a + k) (a ++ s) = a ++ String.substring 0 k s.
Proof. induction a as [| c a IH]; cbn; [reflexivity | now rewrite IH]. Qed.

Lemma ends_with_app suffix a s :
  (String.length suffix <= String.length s)%nat -> ends_with suffix (a ++ s) = ends_with suffix s.
Proof.
  intros Hl. unfold ends_with. rewrite length_app_string.
  replace (String.length suffix <=? String.length a + String.length s)%nat with true by (symmetry; apply Nat.leb_le; lia).
  replace (String.length suffix <=? String.length s)%nat with true by (symmetry; apply Nat.leb_le; lia).
  replace (String.length a + String.length s - String.length suffix)%nat
    with (String.length a + (String.length s - String.length suffix))%nat by lia.
  now rewrite substring_drop.
Qed.

Lemma drop_end_app k a s :
  (k <= String.length s)%nat -> drop_end k (a ++ s) = a ++ drop_end k s.
Proof.
  intros Hl. unfold drop_end, truncate. rewrite length_app_string.
  replace (String.length a + String.length s - k)%nat with (String.length a + (String.length s - k))%nat by lia.
  apply substring_take.
Qed.

Lemma has_substring_app p a s : has_substring p s = true -> has_substring p (a ++ s) = true.
Proof. intros Hs. induction a as [| c a IH]; cbn [append]; [exact Hs |]. cbn. now rewrite IH, orb_true_r. Qed.

Lemma split_at n k s :
  (n + k = String.length s)%nat -> s = String.substring 0 n s ++ String.substring n k s.
Proof.
  revert n k. induction s as [| c s IH]; intros n k H; cbn [String.length] in H.
  { now replace n with O by lia; replace k with O by lia. }
  destruct n as [| n]; cbn; [| f_equal; apply IH; lia].
  destruct k as [| k]; [lia |]. cbn in H. f_equal. replace k with (String.length s) by lia.
  symmetry. apply substring_whole.
Qed.

Lemma ends_with_true suffix s : ends_with suffix s = true -> exists a, s = a ++ suffix.
Proof.
  unfold ends_with. rewrite andb_true_iff, Nat.leb_le, String.eqb_eq. intros [Hl He].
  exists (String.substring 0 (String.length s - String.length suffix) s).
  etransitivity; [apply split_at with (k := String.length suffix) | now rewrite He]. lia.
Qed.

Fixpoint last_ascii (s : string) : option ascii :=
  match s with
  | EmptyString => None
  | String c EmptyString => Some c
  | String _ s => last_ascii s
  end.

Lemma last_ascii_app a c s : last_ascii (a ++ String c s) = last_ascii (String c s).
Proof. induction a as [| d a IH]; [reflexivity |]. cbn [append]. rewrite <- IH. now destruct a. Qed.

(** Two names whose last letters differ do not end alike. *)
Lemma ends_with_last c suffix a d t :
  last_ascii (String c suffix) <> last_ascii (String d t) -> ends_with (String c suffix) (a ++ String d t) = false.
Proof.
  intros Hne. destruct (ends_with _ _) eqn:E; [| reflexivity]. apply ends_with_true in E as [b E].
  apply (f_equal last_ascii) in E. rewrite !last_ascii_app in E. congruence.
Qed.

(** ** Base names *)

(** Upper-case letters, digits and the like: no character of it is changed or
    dropped by the normalisation, and none separates the parts of a key. *)
Fixpoint plain (b : string) : Prop :=
  match b with
  | EmptyString => True
  | String c b => upper_ascii c = c /\ c <> "-"%char /\ c <> ":"%char /\ plain b
  end.

Lemma upper_app a b : upper (a ++ b) = upper a ++ upper b.
Proof. induction a as [| c a IH]; cbn; congruence. Qed.
Lemma remove_app c a b : remove_char c (a ++ b) = remove_char c a ++ remove_char c b.
Proof. induction a as [| d a IH]; cbn; [reflexivity |]. rewrite IH. now destruct (Ascii.eqb d c). Qed.
Lemma upper_plain b : plain b -> upper b = b.
Proof. induction b as [| c b IH]; cbn; [reflexivity |]. intros (-> & _ & _ & Hb). now rewrite IH. Qed.
Lemma remove_plain b : plain b -> remove_char "-" b = b.
Proof.
  induction b as [| c b IH]; cbn; [reflexivity |]. intros (_ & Hc & _ & Hb).
  destruct (Ascii.eqb_spec c "-"); [contradiction | now rewrite IH].
Qed.

(** The first two steps of the normalisation. *)
Lemma cleaned_app b s : plain b -> remove_char "-" (upper (b ++ s)) = b ++ remove_char "-" (upper s).
Proof. intros Hb. now rewrite upper_app, remove_app, (upper_plain b Hb), (remove_plain b Hb). Qed.

(** No "USD" begins inside a base name that holds none, whatever follows with a
    "U" or nothing. *)
Lemma prefix_usd_app c b s :
  has_substring "USD" (String c b) = false -> (s = "" \/ exists t, s = String "U" t) ->
  String.prefix "USD" (String c (b ++ s)) = false.
Proof.
  cbn [has_substring]. rewrite orb_false_iff. intros [Hp _] Hs. revert Hp. cbn.
  destruct (ascii_dec "U" c); [| reflexivity].
  destruct b as [| c1 b]; [destruct Hs as [-> | [t ->]]; reflexivity |]. cbn.
  destruct (ascii_dec "S" c1); [| reflexivity].
  destruct b as [| c2 b]; [destruct Hs as [-> | [t ->]]; reflexivity |]. cbn.
  destruct (ascii_dec "D" c2); [destruct b; discriminate | reflexivity].
Qed.

Lemma no_usd_tail c b : has_substring "USD" (String c b) = false -> has_substring "USD" b = false.
Proof. cbn [has_substring]. rewrite orb_false_iff. tauto. Qed.

(** The only "USD" of [b ++ "USD"] is the one at its end. *)
Lemma replace_last b fuel : has_substring "USD" b = false ->
  (String.length b < fuel)%nat -> replace_fuel fuel "USD" "USDT" (b ++ "USD") = b ++ "USDT".
Proof.
  revert fuel. induction b as [| c b IH]; intros fuel Hb Hf; (destruct fuel as [| fuel]; [lia |]).
  { destruct fuel; reflexivity. }
  cbn [append replace_fuel]. rewrite prefix_usd_app by (eauto || exact Hb).
  f_equal. apply IH; [now apply no_usd_tail in Hb | cbn in Hf; lia].
Qed.

Lemma prefix_shorter s : String.prefix "USDT" s = true -> String.prefix "USD" s = true.
Proof.
  destruct s as [| c1 [| c2 [| c3 s]]]; cbn; try discriminate;
    repeat match goal with |- context [ascii_dec ?x ?y] => destruct (ascii_dec x y); [| discriminate] end;
    try discriminate. now destruct s.
Qed.

Lemma no_usd_no_usdt s : has_substring "USD" s = false -> has_substring "USDT" s = false.
Proof.
  induction s as [| c s IH]; intros Hs; [reflexivity |]. cbn [has_substring] in *. apply orb_false_iff in Hs. destruct Hs as [Hp Hs].
  rewrite (IH Hs), orb_false_r. destruct (String.prefix "USDT" (String c s)) eqn:E; [| reflexivity].
  apply prefix_shorter in E. congruence.
Qed.

Lemma no_usdt_usd b : has_substring "USD" b = false -> has_substring "USDT" (b ++ "USD") = false.
Proof.
  induction b as [| c b IH]; intros Hb; [reflexivity |]. cbn [append has_substring].
  rewrite (IH (no_usd_tail _ _ Hb)), orb_false_r.
  destruct (String.prefix "USDT" (String c (b ++ "USD"))) eqn:E; [| reflexivity].
  apply prefix_shorter in E. rewrite prefix_usd_app in E by (eauto || exact Hb). discriminate.
Qed.

(** A name without "USD" has no suffix that contains it. *)
Lemma no_usd_no_end p b :
  has_substring "USD" b = false -> has_substring "USD" p = true -> ends_with p b = false.
Proof.
  intros Hb Hp. destruct (ends_with _ _) eqn:E; [| reflexivity]. apply ends_with_true in E as [a ->].
  now rewrite has_substring_app in Hb.
Qed.

(** ** Spellings *)

(** A base name: no character the normalisation changes, no "USD" inside, and
    none of the suffixes it cuts off. *)
Definition base_name (b : string) : Prop :=
  plain b /\ has_substring "USD" b = false /\
  ends_with "SWAP" b = false /\ ends_with "PERP" b = false.

Ltac other_end := rewrite ends_with_last by (cbn; congruence).

Ltac keeps_usdt b :=
  rewrite (has_substring_app "USDT" b "USDT") by reflexivity; cbn [negb];
  rewrite andb_false_r; now rewrite (has_substring_app "USDT" b "USDT").

Lemma normalize_usdt b : plain b -> normalize_symbol (b ++ "USDT") = b ++ "USDT".
Proof.
  intros Hb. unfold normalize_symbol. rewrite cleaned_app by exact Hb.
  change (remove_char "-" (upper "USDT")) with "USDT". cbv zeta. do 3 other_end.
  keeps_usdt b.
Qed.

Lemma normalize_m b : plain b -> normalize_symbol (b ++ "USDTM") = b ++ "USDT".
Proof.
  intros Hb. unfold normalize_symbol. rewrite cleaned_app by exact Hb.
  change (remove_char "-" (upper "USDTM")) with "USDTM". cbv zeta. do 2 other_end.
  rewrite ends_with_app, drop_end_app by (cbn; lia). cbn -[has_substring append].
  keeps_usdt b.
Qed.

Lemma normalize_swap b : plain b -> normalize_symbol (b ++ "-USDT-SWAP") = b ++ "USDT".
Proof.
  intros Hb. unfold normalize_symbol. rewrite cleaned_app by exact Hb.
  change (remove_char "-" (upper "-USDT-SWAP")) with "USDTSWAP". cbv zeta.
  rewrite ends_with_app, drop_end_app by (cbn; lia).
  change (ends_with "SWAP" "USDTSWAP") with true. change (drop_end 4 "USDTSWAP") with "USDT". cbv iota.
  do 2 other_end. keeps_usdt b.
Qed.

Lemma normalize_perp b : base_name b -> normalize_symbol (b ++ "-USD-PERP") = b ++ "USDT".
Proof.
  intros (Hb & Hu & _ & _). unfold normalize_symbol. rewrite cleaned_app by exact Hb.
  change (remove_char "-" (upper "-USD-PERP")) with "USDPERP". cbv zeta.
  rewrite (ends_with_app "SWAP") by (cbn; lia). change (ends_with "SWAP" "USDPERP") with false. cbv iota.
  rewrite ends_with_app, drop_end_app by (cbn; lia).
  change (ends_with "PERP" "USDPERP") with true. change (drop_end 4 "USDPERP") with "USD". cbv iota. other_end.
  rewrite (has_substring_app "USD" b "USD") by reflexivity. rewrite no_usdt_usd by exact Hu.
  unfold replace. rewrite replace_last by (exact Hu || rewrite length_app_string; cbn; lia).
  cbn [andb negb]. now rewrite (has_substring_app "USDT" b "USDT") by reflexivity.
Qed.

Lemma normalize_base b : base_name b -> normalize_symbol b = b ++ "USDT".
Proof.
  intros (Hb & Hu & Hs & Hp). unfold normalize_symbol.
  rewrite (upper_plain b Hb), (remove_plain b Hb), Hs, Hp. cbv zeta.
  rewrite (no_usd_no_end "USDTM" b Hu), Hu by reflexivity. cbn [andb]. now rewrite (no_usd_no_usdt _ Hu).
Qed.

Lemma trim_usdt b : has_substring "USD" b = false -> trim_end_matches "USDT" (b ++ "USDT") = b.
Proof.
  intros Hu. unfold trim_end_matches. rewrite length_app_string, Nat.add_comm. cbn [String.length Nat.add trim_end_fuel].
  rewrite ends_with_app, drop_end_app by (cbn; lia). change (ends_with "USDT" "USDT") with true. cbv iota.
  change (drop_end _ "USDT") with EmptyString. rewrite app_nil_string.
  now rewrite (no_usd_no_end "USDT" b Hu).
Qed.

(** ** The spelling of an exchange leads back to the symbol *)

Definition EXCHANGES : list string :=
  ["bybit"; "bitget"; "binance"; "okx"; "kucoin"; "hyperliquid"; "gateio"; "paradex"; "lighter"].

Fixpoint no_colon (s : string) : Prop :=
  match s with EmptyString => True | String c s => c <> ":"%char /\ no_colon s end.

Lemma no_colon_plain b s : plain b -> no_colon s -> no_colon (b ++ s).
Proof. induction b as [| c b IH]; cbn; [auto |]. intros (_ & _ & Hc & Hb) Hs. auto. Qed.

Lemma app_assoc_string a b c : (a ++ b) ++ c = a ++ b ++ c.
Proof. induction a as [| d a IH]; cbn; congruence. Qed.

Lemma no_colon_base b : plain b -> no_colon b.
Proof. rewrite <- (app_nil_string b) at 2. intros Hb. now apply no_colon_plain. Qed.

Ltac spelled channel native :=
  exists channel, native; split; [reflexivity |]; split;
  [rewrite ?app_assoc_string; (now apply no_colon_base) ||
   (apply no_colon_plain; [assumption | cbn; repeat split; congruence]) |].

(** What an exchange calls the perpetual of a base name, the last part of the
    first key tried, is normalised to the symbol the key was built from: for all
    nine exchanges, whether they append a suffix, put dashes, cut the quote
    currency off or call it "USD". *)
Lemma native_spelling exchange b (He : exchange ∈ EXCHANGES) (Hb : base_name b) :
  exists channel native,
    head (get_redis_key_patterns exchange (b ++ "USDT")) = Some (exchange ++ ":" ++ channel ++ ":" ++ native) /\
    no_colon native /\ normalize_symbol native = b ++ "USDT".
Proof.
  pose proof Hb as (Hp & Hu & _ & _). unfold EXCHANGES in He.
  repeat (apply elem_of_cons in He as [-> | He]); [.. | now apply elem_of_nil in He];
    unfold get_redis_key_patterns; rewrite ?trim_usdt by exact Hu; vm_compute (lower _).
  - spelled "linear:tickers" (b ++ "USDT"). now apply normalize_usdt.
  - spelled "usdt:tickers" (b ++ "USDT"). now apply normalize_usdt.
  - spelled "linear:tickers" (b ++ "USDT"). now apply normalize_usdt.
  - spelled "usdt:tickers" (b ++ "-USDT-SWAP"). now apply normalize_swap.
  - spelled "futures:tickerV2" ((b ++ "USDT") ++ "M"). rewrite app_assoc_string. now apply normalize_m.
  - spelled "usdc:ctx" b. now apply normalize_base.
  - spelled "usdt:tickers" (b ++ "USDT"). now apply normalize_usdt.
  - spelled "usdt:bbo" (b ++ "-USD-PERP"). now apply normalize_perp.
  - spelled "usdt:data" (b ++ "USDT"). now apply normalize_usdt.
Qed.

Lemma native_spelling_okx :
  base_name "LDO" /\ exists channel native,
    head (get_redis_key_patterns "okx" "LDOUSDT") = Some ("okx" ++ ":" ++ channel ++ ":" ++ native) /\
    no_colon native /\ normalize_symbol native = "LDOUSDT".
Proof.
  assert (Hb : base_name "LDO") by (unfold base_name; cbn; repeat split; congruence).
  split; [exact Hb | apply (native_spelling "okx" "LDO"); [| exact Hb]]. unfold EXCHANGES. now repeat constructor.
Qed.

(** The side conditions are needed: a base name that ends in a suffix, holds "USD"
    or is quoted in another currency is changed.  The first is the "base" of the
    symbol "PERPUSDT" on Hyperliquid. *)
Example names_that_collide :
  normalize_symbol "PERP" = "USDT" /\ normalize_symbol "USDE-USD-PERP" = "USDTEUSDT" /\
  normalize_symbol "BTCUSDC" = "BTCUSDTC" /\ normalize_symbol EmptyString = "USDT".
Proof. vm_compute. auto. Qed.

(** The fast number parser accepts a sign or a point alone, which are no numbers. *)
Example signs_without_digits :
  parse_price_simd "-" = Some (fneg 0%f64) /\ parse_price_simd "." = Some 0%f64 /\ std_parse_f64 "." = None /\
  std_parse_f64 "-" = None.
Proof. vm_compute. auto. Qed.
