(* ===== verification/Ingest.v ===== *)
(** From a connector's message to the market pipeline
    ([parse_to_market_update] and [redis_bridge] of [src/src/main.rs]; the binary
    [src/src/bin/bybit-synthetic-test.rs] has the same text).

    The bridge is the one task that pushes: it reads the connectors' messages in
    order, parses each one into an update of the pipeline and queues its text for
    Redis. *)
From Stdlib Require Import ZArith Lia Bool Ascii String.
From stdpp Require Import base option list gmap strings.
From S2P Require Import Prelude Float64 NumberText Types ArrayQueue Pipeline SymbolMap MarketData ExchangeParser SymbolNames.

#[local] Open Scope string_scope.
#[local] Open Scope list_scope.
#[local] Open Scope Z_scope.

#[local] Arguments String.append !s1 s2 /.

Abbreviation message := (string * string)%type.

Definition REDIS_QUEUE_CAPACITY : Z := 32768.

Section ingest.
Context {T F V MQ RQ : Type} `{DashMap T key Z} `{DashMap F Z key} `{JV : Json V}
  `{ArrayQueue MQ MarketUpdate} `{ArrayQueue RQ message}.
Abbreviation symbols := (SymbolMap T F).

(** [now] is the clock in microseconds; each [?] ends the function. *)
Definition parse_to_market_update (key value : string) (now : Z) (symbol_map : symbols)
  : option MarketUpdate * symbols :=
  let parts := split_char ":" key in
  if (length parts <? 3)%nat then (None, symbol_map) else
  let exchange := default "" (parts !! 0%nat) in
  let symbol_raw := default "" (parts !! (length parts - 1)%nat) in
  let symbol := normalize_symbol symbol_raw in
  match j_from_str value with
  | None => (None, symbol_map)
  | Some json =>
      let parser := get_parser exchange in
      match parse_bid parser json with
      | None => (None, symbol_map)
      | Some bid_str =>
      match parse_ask parser json with
      | None => (None, symbol_map)
      | Some ask_str =>
      match parse_price_simd bid_str with
      | None => (None, symbol_map)
      | Some bid =>
      match parse_price_simd ask_str with
      | None => (None, symbol_map)
      | Some ask =>
          if (bid <=? 0.0%f64)%F || (ask <=? 0.0%f64)%F || (bid >=? ask)%F then (None, symbol_map)
          else
            let '(symbol_id, symbol_map) := get_or_insert exchange symbol symbol_map in
            (Some (MarketUpdate_new symbol_id bid ask now), symbol_map)
      end end end end
  end.

(** What the bridge holds: all three are shared with the other threads. *)
Record bridge := {
  br_symbols : symbols;
  br_pipeline : CountedQueue MQ;
  br_queue : RQ
}.

(** When the queue is full its oldest text is dropped. *)
Definition queue_text (kv : message) (queue : RQ) : RQ :=
  match aq_push kv queue with
  | (Err rejected_item, queue) =>
      let queue := snd (aq_pop queue) in
      snd (aq_push rejected_item queue)
  | (Ok _, queue) => queue
  end.

Definition bridge_message (b : bridge) (m : message * Z) : bridge :=
  let '((key, value), now) := m in
  let '(update, symbol_map) := parse_to_market_update key value now (br_symbols b) in
  {| br_symbols := symbol_map;
     br_pipeline := match update with
                    | Some update => MarketProducer_push update (br_pipeline b)
                    | None => br_pipeline b
                    end;
     br_queue := queue_text (key, value) (br_queue b) |}.

(** [while let Some((key, value)) = rx.recv().await]: the messages received, each
    with the time it was parsed. *)
Definition redis_bridge (ms : list (message * Z)) (b : bridge) : bridge := fold_left bridge_message ms b.
End ingest.
Arguments bridge T F MQ RQ : clear implicits.

(** ** Keys *)

Lemma split_char_app sep a s :
  (forall c, In c (list_ascii_of_string a) -> c <> sep) ->
  split_char sep (a ++ String sep s)%string = a :: split_char sep s.
Proof.
  induction a as [| c a IH]; intros Ha; cbn.
  { now rewrite Ascii.eqb_refl. }
  destruct (Ascii.eqb_spec c sep) as [-> | Hc]; [exfalso; apply (Ha sep); cbn; auto |].
  rewrite IH; [reflexivity |]. intros d Hd. apply Ha. cbn. auto.
Qed.

Lemma split_char_none sep s :
  (forall c, In c (list_ascii_of_string s) -> c <> sep) -> split_char sep s = [s].
Proof.
  induction s as [| c s IH]; intros Hs; cbn; [reflexivity |].
  destruct (Ascii.eqb_spec c sep) as [-> | Hc]; [exfalso; apply (Hs sep); cbn; auto |].
  rewrite IH; [reflexivity |]. intros d Hd. apply Hs. cbn. auto.
Qed.

Lemma no_colon_in s : no_colon s -> forall c, In c (list_ascii_of_string s) -> c <> ":"%char.
Proof. induction s as [| d s IH]; cbn; [tauto |]. intros [Hd Hs] c [-> | Hc]; auto. Qed.

(** Something, a separator and a last part without one. *)
Lemma split_char_last sep p s :
  (forall c, In c (list_ascii_of_string s) -> c <> sep) ->
  exists l, split_char sep (p ++ String sep s)%string = l ++ [s] /\ l <> [].
Proof.
  intros Hs. induction p as [| c p (l & IH & Hl)]; cbn.
  { rewrite Ascii.eqb_refl. exists [EmptyString]. now rewrite split_char_none. }
  rewrite IH.
  destruct (Ascii.eqb c sep).
  - exists (EmptyString :: l). split; [reflexivity | discriminate].
  - destruct l as [| x l]; [contradiction |]. exists (String c x :: l). split; [reflexivity | discriminate].
Qed.

(** The parts of a Redis key: the exchange first, the native symbol last. *)
Lemma key_parts e channel native :
  no_colon e -> no_colon native ->
  let parts := split_char ":" (e ++ ":" ++ channel ++ ":" ++ native)%string in
  (3 <= length parts)%nat /\ parts !! 0%nat = Some e /\ parts !! (length parts - 1)%nat = Some native.
Proof.
  intros He Hn. cbv zeta.
  change (e ++ ":" ++ channel ++ ":" ++ native)%string with (e ++ String ":" (channel ++ String ":" native))%string.
  rewrite split_char_app by now apply no_colon_in.
  destruct (split_char_last ":" channel native (no_colon_in _ Hn)) as (l & -> & Hl).
  destruct l as [| x l]; [contradiction |]. cbn [length]. rewrite length_app. cbn [length].
  split; [lia |]. split; [reflexivity |].
  replace (S (S (length l) + 1) - 1)%nat with (length (e :: x :: l)) by (cbn; lia).
  exact (list_lookup_middle (e :: x :: l) [] native _ eq_refl).
Qed.

Lemma exchange_no_colon e : e ∈ EXCHANGES -> no_colon e.
Proof.
  unfold EXCHANGES. intros He. repeat (apply elem_of_cons in He as [-> | He]); [.. | now apply elem_of_nil in He];
    cbn; repeat split; congruence.
Qed.

(** ** What a message means *)
Section meaning.
Context {T F V MQ RQ : Type} `{DashMap T key Z} `{DashMap F Z key} `{JV : Json V}
  `{ArrayQueue MQ MarketUpdate} `{ArrayQueue RQ message}
  `{!DashMapLaws T key Z} `{!DashMapLaws F Z key}.
Abbreviation symbols := (SymbolMap T F).
Abbreviation ids s := (dm_view (to_id s)).
Abbreviation keys s := (dm_view (from_id s)).

(** The quote in a message: whose it is, bid and ask. *)
Definition quote_of (key value : string) : option (SymbolMap.key * (f64 * f64)) :=
  let parts := split_char ":" key in
  if (length parts <? 3)%nat then None else
  let exchange := default "" (parts !! 0%nat) in
  match j_from_str value with
  | None => None
  | Some json =>
      match parse_bid (get_parser exchange) json, parse_ask (get_parser exchange) json with
      | Some bid_str, Some ask_str =>
          match parse_price_simd bid_str, parse_price_simd ask_str with
          | Some bid, Some ask =>
              if (bid <=? 0.0%f64)%F || (ask <=? 0.0%f64)%F || (bid >=? ask)%F then None
              else Some ((exchange, normalize_symbol (default "" (parts !! (length parts - 1)%nat))), (bid, ask))
          | _, _ => None
          end
      | _, _ => None
      end
  end.

(** A message without a quote leaves no trace; one with a quote becomes an update
    under the id of its pair. *)
Lemma parse_quote k v now (sm : symbols) :
  parse_to_market_update k v now sm =
    match quote_of k v with
    | None => (None, sm)
    | Some (p, (bid, ask)) =>
        let '(id, sm) := get_or_insert (fst p) (snd p) sm in
        (Some (MarketUpdate_new id bid ask now), sm)
    end.
Proof.
  unfold parse_to_market_update, quote_of. cbv zeta. destruct (_ <? 3)%nat; [reflexivity |].
  destruct (j_from_str v) as [json |]; [| reflexivity].
  destruct (parse_bid _ json) as [bs |]; [| reflexivity].
  destruct (parse_ask _ json) as [aks |]; [| reflexivity].
  destruct (parse_price_simd bs) as [b |]; [| reflexivity].
  destruct (parse_price_simd aks) as [a |]; [| reflexivity].
  now destruct (_ || _ || _).
Qed.

(** What passes for a quote: two prices that are not zero or below, the bid not at
    or above the ask. *)
Lemma quote_prices k v p bid ask :
  quote_of k v = Some (p, (bid, ask)) ->
  (bid <=? 0.0%f64)%F = false /\ (ask <=? 0.0%f64)%F = false /\ (bid >=? ask)%F = false.
Proof.
  unfold quote_of. cbv zeta. destruct (_ <? 3)%nat; [discriminate |].
  destruct (j_from_str v) as [json |]; [| discriminate].
  destruct (parse_bid _ json) as [bs |]; [| discriminate].
  destruct (parse_ask _ json) as [aks |]; [| discriminate].
  destruct (parse_price_simd bs) as [b |]; [| discriminate].
  destruct (parse_price_simd aks) as [a |]; [| discriminate].
  destruct (_ || _ || _) eqn:E; [discriminate |]. intros [= <- <- <-]. bool_simpl. auto.
Qed.

(** The text stored under the first key of an exchange and a symbol is parsed
    into an update for that very symbol: whatever spelling the exchange has, the
    id is the one the runner and the detector ask for with the plain symbol name,
    with the prices in the exchange's own message fields. *)
Theorem stored_ticker_is_found exchange b value json bs aks bid ask now (sm : symbols)
  (He : exchange ∈ EXCHANGES) (Hb : base_name b) (Hj : j_from_str value = Some json)
  (Hbs : parse_bid (get_parser exchange) json = Some bs) (Has : parse_ask (get_parser exchange) json = Some aks)
  (Hbid : parse_price_simd bs = Some bid) (Hask : parse_price_simd aks = Some ask)
  (Hpos : (0.0%f64 <? bid)%F = true) (Hlt : (bid <? ask)%F = true) :
  exists k, head (get_redis_key_patterns exchange (b ++ "USDT")%string) = Some k /\
    parse_to_market_update k value now sm =
      (let '(id, sm) := get_or_insert exchange (b ++ "USDT")%string sm in
       (Some (MarketUpdate_new id bid ask now), sm)).
Proof.
  destruct (native_spelling exchange b He Hb) as (channel & native & Hk & Hn & Hnorm).
  eexists. split; [exact Hk |]. rewrite parse_quote.
  destruct (key_parts exchange channel native (exchange_no_colon _ He) Hn) as (Hlen & Hfirst & Hlast).
  unfold quote_of. cbv zeta. destruct (Nat.ltb_spec (length (split_char ":" (exchange ++ ":" ++ channel ++ ":" ++ native)%string)) 3); [lia |].
  rewrite Hfirst, Hlast, Hj. cbn [default from_option id]. rewrite Hbs, Has, Hbid, Hask, Hnorm.
  now rewrite (fltb_fleb_false _ _ Hpos), (fltb_fleb_false _ _ (fltb_trans _ _ _ Hpos Hlt)), (fltb_fleb_false _ _ Hlt).
Qed.

(** ** From the bridge to the prices that are read *)

(** The last quote of a pair in a sequence of messages, with the time it was
    parsed. *)
Definition newer_quote (p : SymbolMap.key) (d : option (f64 * f64 * Z)) (m : message * Z)
  : option (f64 * f64 * Z) :=
  match quote_of (fst (fst m)) (snd (fst m)) with
  | Some (p', (bid, ask)) => if decide (p' = p) then Some (bid, ask, snd m) else d
  | None => d
  end.
Definition last_quote (p : SymbolMap.key) (ms : list (message * Z)) : option (f64 * f64 * Z) :=
  fold_left (newer_quote p) ms None.

Lemma last_quote_snoc p ms m : last_quote p (ms ++ [m]) = newer_quote p (last_quote p ms) m.
Proof. unfold last_quote. now rewrite fold_left_app. Qed.

Lemma last_for_snoc id us u d :
  last_for id (us ++ [u]) d =
    if mu_symbol_id u =? id then (mu_bid u, mu_ask u, mu_timestamp_us u) else last_for id us d.
Proof. revert d. induction us as [| x us IH]; intros d; cbn; [reflexivity | apply IH]. Qed.

(** What the bridge has made of the messages so far. *)
Record bridged (ms : list (message * Z)) (us : list MarketUpdate) (n0 : Z) (sm : symbols) : Prop := {
  bd_wf : sm_wf sm;
  bd_next : next_id sm <= n0 + Z.of_nat (length ms);
  bd_count : (length us <= length ms)%nat;
  bd_ids : Forall (fun u => in_u32 (mu_symbol_id u)) us;
  bd_quotes p bid ask t : last_quote p ms = Some (bid, ask, t) ->
    exists id, ids sm !! p = Some id /\ last_for id us (0.0%f64, 0.0%f64, 0) = (bid, ask, t) /\
      Exists (fun u => mu_symbol_id u = id) us
}.

Lemma ids_injective (sm : symbols) p q id :
  sm_wf sm -> ids sm !! p = Some id -> ids sm !! q = Some id -> p = q.
Proof. intros Hwf Hp Hq. apply (wf_inverse sm Hwf) in Hp, Hq. congruence. Qed.

Lemma ids_u32 (sm : symbols) p id : sm_wf sm -> ids sm !! p = Some id -> in_u32 id.
Proof.
  intros Hwf Hp. apply (wf_inverse sm Hwf) in Hp. pose proof (wf_next sm Hwf).
  assert (Hs : is_Some (keys sm !! id)) by eauto. apply (wf_range sm Hwf) in Hs. unfold in_u32. lia.
Qed.

Lemma bridged_skip ms us n0 (sm : symbols) m :
  quote_of (fst (fst m)) (snd (fst m)) = None -> bridged ms us n0 sm -> bridged (ms ++ [m]) us n0 sm.
Proof.
  intros Hq [Hwf Hn Hc Hi Hl]. split; rewrite ?length_app; cbn; auto; try lia.
  intros p bid ask t. rewrite last_quote_snoc. unfold newer_quote. rewrite Hq. apply Hl.
Qed.

Lemma bridged_update ms us n0 (sm : symbols) k v now p b a :
  quote_of k v = Some (p, (b, a)) -> next_id sm < U32_MAX -> bridged ms us n0 sm ->
  bridged (ms ++ [((k, v), now)])
    (us ++ [MarketUpdate_new (fst (get_or_insert (fst p) (snd p) sm)) b a now]) n0
    (snd (get_or_insert (fst p) (snd p) sm)).
Proof.
  intros Hq Hmax [Hwf Hn Hc Hi Hl]. destruct p as [e y]. cbn [fst snd].
  pose proof (get_or_insert_wf e y sm Hwf Hmax) as Hwf'. pose proof (get_or_insert_lookup e y sm) as Hid.
  set (id := fst (get_or_insert e y sm)) in *. split; rewrite ?length_app; cbn [length]; try lia.
  - exact Hwf'.
  - pose proof (get_or_insert_next e y sm Hwf). lia.
  - apply Forall_app. split; [exact Hi |]. constructor; [| constructor]. cbn. now apply (ids_u32 _ _ _ Hwf' Hid).
  - intros q bid ask t. rewrite last_quote_snoc. unfold newer_quote. cbn [fst snd]. rewrite Hq.
    destruct (decide ((e, y) = q)) as [<- | Hne].
    + intros [= <- <- <-]. exists id. split; [exact Hid |]. rewrite last_for_snoc. cbn. rewrite Z.eqb_refl.
      split; [reflexivity |]. apply Exists_app. right. now constructor.
    + intros Hlast. destruct (Hl q bid ask t Hlast) as (i & Hq' & Hf & Hx). exists i.
      pose proof (get_or_insert_stable e y sm q i Hq') as Hs. split; [exact Hs |]. rewrite last_for_snoc. cbn.
      destruct (Z.eqb_spec id i) as [-> | _]; [exfalso; apply Hne; eapply ids_injective; eauto |].
      split; [exact Hf | apply Exists_app; now left].
Qed.
End meaning.

Section store.
Context {T F V MQ RQ : Type} `{DashMap T key Z} `{DashMap F Z key} `{JV : Json V}
  `{!ArrayQueue MQ MarketUpdate} `{!ArrayQueue RQ message}
  `{!DashMapLaws T key Z} `{!DashMapLaws F Z key} `{!ArrayQueueLaws MQ MarketUpdate}.

Lemma bridge_run ms (b0 : bridge T F MQ RQ) :
  sm_wf (br_symbols b0) -> next_id (br_symbols b0) + Z.of_nat (length ms) <= U32_MAX ->
  aq_view (cq_queue (br_pipeline b0)) = [] -> Z.of_nat (length ms) <= capacity (br_pipeline b0) ->
  let b := redis_bridge (V:=V) ms b0 in
  exists us, aq_view (cq_queue (br_pipeline b)) = us /\
    bridged (V:=V) ms us (next_id (br_symbols b0)) (br_symbols b) /\
    capacity (br_pipeline b) = capacity (br_pipeline b0).
Proof.
  intros Hwf. induction ms as [| [[k v] now] ms IH] using rev_ind; intros Hn Hv Hc; cbv zeta.
  { exists []. split; [exact Hv |]. split; [| reflexivity]. split; cbn; auto; [lia | discriminate]. }
  rewrite length_app in Hn, Hc. cbn [length] in Hn, Hc.
  destruct IH as (us & Hus & Hb & Hcap); [lia | exact Hv | lia |].
  unfold redis_bridge. rewrite fold_left_app. cbn [fold_left].
  change (fold_left (bridge_message (V:=V)) ms b0) with (redis_bridge (V:=V) ms b0).
  set (b := redis_bridge (V:=V) ms b0) in *. unfold bridge_message. rewrite parse_quote.
  destruct (quote_of k v) as [[p [bid ask]] |] eqn:Eq.
  - pose proof (bd_next _ _ _ _ Hb) as Hnext. pose proof (bd_count _ _ _ _ Hb) as Hcount.
    pose proof (bridged_update ms us _ (br_symbols b) k v now p bid ask Eq ltac:(lia) Hb) as Hb'.
    destruct (get_or_insert (fst p) (snd p) (br_symbols b)) as [id sm]. cbn [br_pipeline br_symbols fst snd] in *.
    eexists. split; [reflexivity |]. unfold MarketProducer_push. rewrite push_capacity.
    assert (Hroom : (length (aq_view (cq_queue (br_pipeline b))) < Z.to_nat (capacity (br_pipeline b)))%nat)
      by (rewrite Hus; lia).
    destruct (push_room (MarketUpdate_new id bid ask now) _ Hroom) as (-> & _). rewrite Hus. auto.
  - cbn [br_pipeline br_symbols]. exists us. split; [exact Hus |]. split; [| exact Hcap].
    now apply bridged_skip.
Qed.

(** C31. What the runner reads: when the pipeline is empty, the bridge reads a batch
    of messages, no more than the pipeline holds, and the runner then takes the
    updates into its store, the bid, the ask and the time it finds for an exchange
    and a symbol are those of the last message of the batch that held a quote of
    that pair, however the messages of the pairs were mixed.  This is for a symbol
    map whose ids stay below 2^32, and for pairs among the first [MAX_SYMBOLS] =
    256 known: the store drops the others. *)
Theorem store_holds_last_quote ms (b0 : bridge T F MQ RQ) e y bid ask t
  (Hwf : sm_wf (br_symbols b0)) (Hn : next_id (br_symbols b0) + Z.of_nat (length ms) <= U32_MAX)
  (Hv : aq_view (cq_queue (br_pipeline b0)) = []) (Hc : Z.of_nat (length ms) <= capacity (br_pipeline b0))
  (Hlast : last_quote (V:=V) (e, y) ms = Some (bid, ask, t)) :
  let b := redis_bridge (V:=V) ms b0 in
  let store := replay (fst (pop_batch (length ms) (br_pipeline b))) MarketDataStore_new in
  let id := fst (get_or_insert e y (br_symbols b)) in
  (Z.to_nat id < MAX_SYMBOLS)%nat ->
  get_bid id store = Some bid /\ get_ask id store = Some ask /\ get_timestamp id store = Some t.
Proof.
  intros b store id Hid. destruct (bridge_run ms b0 Hwf Hn Hv Hc) as (us & Hus & Hb & _).
  fold b in Hus, Hb. destruct (bd_quotes _ _ _ _ Hb _ _ _ _ Hlast) as (i & Hi & Hf & Hx).
  assert (Hii : id = i) by (unfold id; now rewrite (get_or_insert_hit _ _ _ _ Hi)). clearbody id. subst i.
  destruct (pop_batch_spec (length ms) (br_pipeline b)) as [Hpop _].
  unfold store. rewrite Hpop, Hus, take_ge by exact (bd_count _ _ _ _ Hb).
  destruct (replayed_reads us id bid ask t (bd_ids _ _ _ _ Hb) (ids_u32 _ _ _ (bd_wf _ _ _ _ Hb) Hi) Hid Hf Hx)
    as (Hbid & Hask & Ht & _). auto.
Qed.
End store.

(** ** Concrete messages

    A text with a bid and an ask, for Bybit's message fields. *)
#[local] Instance pair_json : Json string := {
  j_get k v := if String.eqb k "bid1Price" then split_char "," v !! 0%nat
               else if String.eqb k "ask1Price" then split_char "," v !! 1%nat
               else Some v;
  j_as_str v := Some v;
  j_as_array _ := None;
  j_is_f64 _ := false;
  j_as_f64 _ := None;
  j_from_str v := Some v
}.

Abbreviation demo_bridge :=
  (bridge (gmap SymbolMap.key Z) (gmap Z SymbolMap.key) (list_queue MarketUpdate) (list_queue message)).
Definition empty_bridge : demo_bridge :=
  {| br_symbols := sm_empty; br_pipeline := with_capacity 16; br_queue := aq_new 2 |}.

Lemma stored_ticker_is_found_witness :
  base_name "LDO" /\
  exists k, head (get_redis_key_patterns "bybit" "LDOUSDT") = Some k /\
    parse_to_market_update (V:=string) k "2.5,2.6" 7 (br_symbols empty_bridge) =
      (let '(id, sm) := get_or_insert "bybit" "LDOUSDT" (br_symbols empty_bridge) in
       (Some (MarketUpdate_new id 2.5%f64 2.6%f64 7), sm)).
Proof.
  assert (Hb : base_name "LDO") by (unfold base_name; cbn; repeat split; congruence).
  split; [exact Hb |].
  apply (stored_ticker_is_found (V:=string) "bybit" "LDO" "2.5,2.6" "2.5,2.6" "2.5" "2.6");
    [unfold EXCHANGES; constructor | exact Hb | vm_compute; reflexivity..].
Defined.

(** Two quotes of one pair, one of another, a message without a quote. *)
Definition demo_messages : list (message * Z) :=
  [(("bybit:linear:tickers:LDOUSDT", "2.5,2.6"), 7);
   (("bybit:linear:tickers:BTCUSDT", "100.0,100.5"), 8);
   (("bybit:linear:tickers:LDOUSDT", "2.7,2.8"), 9);
   (("bybit:linear:tickers:LDOUSDT", "2.9,2.9"), 10)].

Lemma store_holds_last_quote_witness :
  let b := redis_bridge (V:=string) demo_messages empty_bridge in
  let store := replay (fst (pop_batch 4 (br_pipeline b))) MarketDataStore_new in
  let id := fst (get_or_insert "bybit" "LDOUSDT" (br_symbols b)) in
  id = 1 /\ get_bid id store = Some 2.7%f64 /\ get_ask id store = Some 2.8%f64 /\ get_timestamp id store = Some 9.
Proof.
  intros b store id. assert (Hid : id = 1) by (vm_compute; reflexivity). split; [exact Hid |].
  apply (store_holds_last_quote (V:=string) demo_messages empty_bridge "bybit" "LDOUSDT");
    [apply sm_empty_wf | vm_compute; discriminate | vm_compute; reflexivity | vm_compute; discriminate
    | vm_compute; reflexivity |].
  change (Z.to_nat id < MAX_SYMBOLS)%nat. rewrite Hid. unfold MAX_SYMBOLS. lia.
Defined.

(** The queue for Redis keeps the newest texts. *)
Example full_queue_drops_oldest :
  lq_items (br_queue (redis_bridge (V:=string) demo_messages empty_bridge)) = drop 2 (map fst demo_messages).
Proof. vm_compute. reflexivity. Qed.

(** An ask beyond the largest number is infinite, and passes the check of the
    prices. *)
Lemma infinite_ask_accepted :
  exists u sm, parse_to_market_update (V:=string) "bybit:linear:tickers:LDOUSDT" "2.5,1e999" 7
                 (br_symbols empty_bridge) = (Some u, sm) /\
    is_finite (mu_ask u) = false.
Proof. eexists _, _. split; vm_compute; reflexivity. Qed.
