(* ===== verification/Feed.v ===== *)
(** From the exchanges' messages to the opportunities the runner is given: the
    bridge and the detector over the pipeline, the symbol map and the opportunity
    queue that [main] shares between them ([src/src/main.rs]).

    A step is one message of the bridge, one turn of the detector, one call by
    which another task draws an id from the symbol map, or one opportunity taken by
    the runner; any sequence of them may happen.  The runner is given no consumer
    of the market pipeline, so the detector is the only one that pops it. *)
From Stdlib Require Import ZArith Lia Bool Ascii String.
From stdpp Require Import base option list gmap strings.
From S2P Require Import Prelude Float64 NumberText Types ArrayQueue Pipeline OpportunityQueue SymbolMap MarketData ExchangeParser SymbolNames Ingest Detector.

#[local] Open Scope Z_scope.

(** ** The shared state and its steps *)
Section feed.
Context {MQ OQ T F V RQ : Type} `{ArrayQueue MQ MarketUpdate} `{ArrayQueue OQ ArbitrageOpportunity}
  `{DashMap T key Z} `{DashMap F Z key} `{JV : Json V} `{ArrayQueue RQ message}.
Context (instant_ms : nat -> Z) (unix_secs : nat -> Z).

(** The detector's record has the pipeline, the symbol map and the opportunity queue;
    [fd_taken] are the opportunities the runner has taken. *)
Record feed := {
  fd_detector : OpportunityDetector MQ OQ T F;
  fd_queue : RQ;
  fd_taken : list ArbitrageOpportunity
}.

Inductive feed_event :=
| FeedMessage (m : message * Z)
| FeedTurn
| FeedDraw (exchange symbol : string)
| FeedTake.

Definition feed_step (f : feed) (e : feed_event) : feed :=
  let d := fd_detector f in
  match e with
  | FeedMessage m =>
      let b := bridge_message (V:=V)
                 {| br_symbols := symbol_map d; br_pipeline := market_consumer d; br_queue := fd_queue f |} m in
      {| fd_detector := set_symbol_map (br_symbols b) (set_market_consumer (br_pipeline b) d);
         fd_queue := br_queue b; fd_taken := fd_taken f |}
  | FeedTurn =>
      {| fd_detector := run_iteration instant_ms unix_secs d; fd_queue := fd_queue f; fd_taken := fd_taken f |}
  | FeedDraw exchange symbol =>
      {| fd_detector := set_symbol_map (snd (get_or_insert exchange symbol (symbol_map d))) d;
         fd_queue := fd_queue f; fd_taken := fd_taken f |}
  | FeedTake =>
      let '(o, q) := oq_pop (opportunity_producer d) in
      {| fd_detector := set_opportunity_producer q d; fd_queue := fd_queue f;
         fd_taken := fd_taken f ++ option_list o |}
  end.

Definition run_feed (evs : list feed_event) (f : feed) : feed := fold_left feed_step evs f.

(** The wiring of [main]. *)
Definition feed_start (sm : SymbolMap T F) (mc : CountedQueue MQ) (op : OpportunityQueue OQ) (rq : RQ) : feed :=
  {| fd_detector := OpportunityDetector_new instant_ms mc sm op; fd_queue := rq; fd_taken := [] |}.

Definition main_feed : feed :=
  feed_start SymbolMap_new MarketPipeline_new oq_new (aq_new REDIS_QUEUE_CAPACITY).

(** The messages of a run, in order. *)
Definition feed_messages (evs : list feed_event) : list (message * Z) :=
  omap (fun e => match e with FeedMessage m => Some m | _ => None end) evs.
End feed.
Arguments feed MQ OQ T F RQ : clear implicits.

(** ** Messages and the updates made of them *)
Section carried.
Context {T F V : Type} `{DashMap T key Z} `{DashMap F Z key} `{JV : Json V}
  `{!DashMapLaws T key Z} `{!DashMapLaws F Z key}.
Abbreviation symbols := (SymbolMap T F).
Abbreviation ids s := (dm_view (to_id s)).

(** The updates of a sequence of messages: one for every message with a quote,
    under the id of its pair. *)
Inductive carries (sm : symbols) : list (message * Z) -> list MarketUpdate -> Prop :=
| carries_nil : carries sm [] []
| carries_skip m ms us :
    quote_of (V:=V) (fst (fst m)) (snd (fst m)) = None -> carries sm ms us -> carries sm (m :: ms) us
| carries_quote m ms us p bid ask id :
    quote_of (V:=V) (fst (fst m)) (snd (fst m)) = Some (p, (bid, ask)) -> ids sm !! p = Some id ->
    carries sm ms us -> carries sm (m :: ms) (MarketUpdate_new id bid ask (snd m) :: us).

(** Ids are only ever added. *)
Record map_extends (s s' : symbols) (n : nat) : Prop := {
  ext_wf : sm_wf s';
  ext_next : next_id s' <= next_id s + Z.of_nat n;
  ext_ids : ids s ⊆ ids s'
}.

Lemma map_extends_refl s n : sm_wf s -> map_extends s s n.
Proof. intros Hwf. split; [exact Hwf | lia | reflexivity]. Qed.

Lemma map_extends_trans s1 s2 s3 n m : map_extends s1 s2 n -> map_extends s2 s3 m -> map_extends s1 s3 (n + m).
Proof. intros [_ ? ?] [? ? ?]. split; [assumption | lia | etransitivity; eassumption]. Qed.

Lemma get_or_insert_extends e y (s : symbols) :
  sm_wf s -> next_id s < U32_MAX -> map_extends s (snd (get_or_insert e y s)) 1.
Proof.
  intros Hwf Hn. split.
  - now apply get_or_insert_wf.
  - apply get_or_insert_next; [exact Hwf | lia].
  - apply map_subseteq_spec. intros k id. apply get_or_insert_stable.
Qed.

Lemma carries_extends s s' ms us : ids s ⊆ ids s' -> carries s ms us -> carries s' ms us.
Proof.
  intros Hs Hc. induction Hc; [constructor | now apply carries_skip |].
  eapply carries_quote; eauto using lookup_weaken.
Qed.

Lemma carries_app s ms1 us1 ms2 us2 :
  carries s ms1 us1 -> carries s ms2 us2 -> carries s (ms1 ++ ms2) (us1 ++ us2).
Proof. intros Hc Hc'. induction Hc; cbn [app]; [exact Hc' | now apply carries_skip | eapply carries_quote; eauto]. Qed.

(** The first update comes from the first message with a quote. *)
Lemma carries_cons s ms u us :
  carries s ms (u :: us) ->
  exists ms1 m ms2, ms = ms1 ++ m :: ms2 /\ carries s ms1 [] /\ carries s [m] [u] /\ carries s ms2 us.
Proof.
  remember (u :: us) as l eqn:El. intros Hc. induction Hc as [| m ms us' Hq Hc IH | m ms us' p b a id Hq Hi Hc IH].
  - discriminate.
  - destruct (IH El) as (ms1 & m0 & ms2 & -> & H1 & H2 & H3). exists (m :: ms1), m0, ms2. repeat split; auto. now apply carries_skip.
  - injection El as <- <-. exists [], m, ms. repeat split; auto; [constructor |]. eapply carries_quote; eauto. constructor.
Qed.

Lemma carries_length s ms us : carries s ms us -> (length us <= length ms)%nat.
Proof. induction 1; cbn; lia. Qed.

Lemma carries_u32 s ms us : sm_wf s -> carries s ms us -> Forall (fun u => in_u32 (mu_symbol_id u)) us.
Proof. intros Hwf. induction 1; [constructor | assumption |]. constructor; [cbn; now apply (ids_u32 s p) | assumption]. Qed.

(** The last update under the id of a pair has the last quote of the pair. *)
Lemma carries_last s ms us p id :
  sm_wf s -> ids s !! p = Some id -> carries s ms us ->
  forall d, last_for id us (default (0.0%f64, 0.0%f64, 0) d) =
    default (0.0%f64, 0.0%f64, 0) (fold_left (newer_quote (V:=V) p) ms d).
Proof.
  intros Hwf Hp Hc. induction Hc as [| m ms us Hq Hc IH | m ms us q b a i Hq Hi Hc IH]; intros d; cbn [last_for fold_left].
  - reflexivity.
  - rewrite IH. do 2 f_equal. unfold newer_quote. now rewrite Hq.
  - rewrite <- IH. do 2 f_equal. unfold newer_quote. rewrite Hq.
    cbn [MarketUpdate_new mu_symbol_id mu_bid mu_ask mu_timestamp_us]. destruct (decide (q = p)) as [-> | Hne].
    + assert (i = id) as -> by congruence. now rewrite Z.eqb_refl.
    + destruct (Z.eqb_spec i id) as [-> | _]; [exfalso; apply Hne; eapply ids_injective; eauto | reflexivity].
Qed.

(** Positive prices read from the store under the id of a pair are its last quote. *)
Lemma carried_reads s ms us p id bid ask :
  sm_wf s -> carries s ms us -> ids s !! p = Some id ->
  get_bid id (replay us MarketDataStore_new) = Some bid ->
  get_ask id (replay us MarketDataStore_new) = Some ask ->
  (bid <=? 0.0%f64)%F = false ->
  exists t, last_quote (V:=V) p ms = Some (bid, ask, t).
Proof.
  intros Hwf Hc Hp Hb Ha Hpos. pose proof (carries_u32 s ms us Hwf Hc) as Hus.
  pose proof (ids_u32 s p id Hwf Hp) as Hid.
  pose proof (carries_last s ms us p id Hwf Hp Hc None) as Hl. cbn [default] in Hl.
  change (fold_left (newer_quote (V:=V) p) ms None) with (last_quote (V:=V) p ms) in Hl.
  assert (Hlt : (Z.to_nat id < MAX_SYMBOLS)%nat).
  { destruct (replay_cell us MarketDataStore_new 0 new_wf Hus) as (_ & _ & Hmd); [unfold in_u32; lia | unfold MAX_SYMBOLS; lia |].
    pose proof (wf_count _ Hmd). revert Hb. unfold get_bid. destruct (Nat.ltb_spec (Z.to_nat id) (count (replay us MarketDataStore_new))); [lia | discriminate]. }
  destruct (replay_cell us MarketDataStore_new id new_wf Hus Hid Hlt) as (Hcell & _ & _).
  rewrite new_cell in Hcell by exact Hlt. unfold cell in Hcell.
  unfold get_bid, get_ask in Hb, Ha. destruct (_ <? _)%nat; [| discriminate]. injection Hb as Hb. injection Ha as Ha.
  rewrite Hb, Ha, Hl in Hcell.
  destruct (last_quote p ms) as [[[b a] t] |]; cbn in Hcell; [injection Hcell as -> -> _; eauto |].
  injection Hcell as -> -> _. vm_compute in Hpos. discriminate.
Qed.
End carried.

(** ** One turn of the detector *)
Section turn.
Context {MQ OQ T F V : Type} `{ArrayQueueLaws MQ MarketUpdate} `{ArrayQueueLaws OQ ArbitrageOpportunity}
  `{DashMap T key Z} `{DashMap F Z key} `{JV : Json V} `{!DashMapLaws T key Z} `{!DashMapLaws F Z key}.
Context (instant_ms : nat -> Z) (unix_secs : nat -> Z).
Abbreviation state := (OpportunityDetector MQ OQ T F).
Abbreviation published d := (aq_view (oq_queue (opportunity_producer d))).
Abbreviation ids s := (dm_view (to_id s)).

(** Both prices of an opportunity are the last quotes of their exchanges for its
    symbol among [heard]. *)
Definition quoted_by (heard : list (message * Z)) (o : ArbitrageOpportunity) : Prop :=
  (exists bid t, last_quote (V:=V) (ao_long_exchange o, ao_symbol o) heard = Some (bid, ao_long_price o, t)) /\
  (exists ask t, last_quote (V:=V) (ao_short_exchange o, ao_symbol o) heard = Some (ao_short_price o, ask, t)).

(** Asking the map about an exchange only adds ids, and leaves the rest alone. *)
Lemma filter_exchanges_extends symbol l (d : state) :
  sm_wf (symbol_map d) -> next_id (symbol_map d) + Z.of_nat (length l) <= U32_MAX ->
  let d' := snd (filter_exchanges symbol l d) in
  map_extends (symbol_map d) (symbol_map d') (length l) /\
  forall ex, ex ∈ l -> is_Some (ids (symbol_map d') !! (ex, symbol)).
Proof.
  revert d. induction l as [| ex l IH]; intros d Hwf Hn; cbn [filter_exchanges length].
  { split; [now apply map_extends_refl |]. intros ex Hex. inversion Hex. }
  cbn [length] in Hn. unfold has_valid_bid.
  pose proof (get_or_insert_extends ex symbol (symbol_map d) Hwf ltac:(lia)) as Hx.
  pose proof (get_or_insert_lookup ex symbol (symbol_map d)) as Hl.
  destruct (get_or_insert ex symbol (symbol_map d)) as [id sm]. cbn [fst snd] in Hx, Hl.
  specialize (IH (set_symbol_map sm d) (ext_wf _ _ _ Hx)).
  pose proof (ext_next _ _ _ Hx) as Hnx. specialize (IH ltac:(cbn; lia)).
  set (keep := match get_bid id _ with Some _ => _ | None => _ end). clearbody keep.
  destruct (filter_exchanges symbol l _) as [out d']. cbn [snd symbol_map set_symbol_map upd] in *.
  destruct IH as [IHx IHs]. split; [exact (map_extends_trans _ _ _ 1 _ Hx IHx) |].
  intros e [-> | He]%elem_of_cons; [| now apply IHs]. exists id.
  exact (lookup_weaken _ _ _ _ Hl (ext_ids _ _ _ IHx)).
Qed.

Lemma set_same_symbol_map (d : state) : set_symbol_map (symbol_map d) d = d.
Proof. now destruct d. Qed.

(** With the ids known, the prices read are the last quotes. *)
Lemma get_prices_quoted ex symbol (d : state) ms us :
  sm_wf (symbol_map d) -> carries (V:=V) (symbol_map d) ms us ->
  market_data_store d = replay us MarketDataStore_new ->
  is_Some (ids (symbol_map d) !! (ex, symbol)) ->
  let '(p, d') := get_prices ex symbol d in
  d' = d /\ forall bid ask, p = Some (bid, ask) ->
    exists t, last_quote (V:=V) (ex, symbol) ms = Some (bid, ask, t).
Proof.
  intros Hwf Hc Hst [id Hid]. unfold get_prices. rewrite (get_or_insert_hit _ _ _ _ Hid).
  rewrite set_same_symbol_map, Hst.
  destruct (get_bid id (replay us MarketDataStore_new)) as [b |] eqn:Eb; [| now split].
  destruct (get_ask id (replay us MarketDataStore_new)) as [a |] eqn:Ea; [| now split].
  destruct (_ || _) eqn:Eo; [now split |]. split; [reflexivity |]. intros bid ask [= <- <-].
  apply orb_false_elim in Eo. eapply carried_reads; intuition eauto.
Qed.

(** What the loops over the exchanges keep, while the store and the map stand still. *)
Record publishes (d0 : state) (Q : ArbitrageOpportunity -> Prop) (d : state) : Prop := {
  pb_symbols : symbol_map d = symbol_map d0;
  pb_store : market_data_store d = market_data_store d0;
  pb_consumer : market_consumer d = market_consumer d0;
  pb_all : Forall Q (published d)
}.

Lemma check_opportunity_publishes symbol le se la sb (d0 d : state) Q :
  (forall o, ao_symbol o = symbol -> ao_long_exchange o = le -> ao_short_exchange o = se ->
     ao_long_price o = la -> ao_short_price o = sb -> Q o) ->
  publishes d0 Q d -> publishes d0 Q (check_opportunity instant_ms unix_secs symbol le se la sb d).
Proof.
  intros HQ [Hs Hm Hc Ha].
  destruct (check_opportunity_spec instant_ms unix_secs symbol le se la sb d) as ((_ & _ & _ & Hst & Hmc) & Hsm & Hcase).
  split; [congruence .. |]. destruct (passes_filters _ _ _ _ d); [| now rewrite Hcase].
  destruct Hcase as [now ->]. rewrite (proj1 (oq_push_spec _ _)). apply fifo_append_Forall; auto.
Qed.

Lemma check_pair_publishes symbol ex1 ex2 (d0 d : state) ms us (Q : ArbitrageOpportunity -> Prop) :
  sm_wf (symbol_map d0) -> carries (V:=V) (symbol_map d0) ms us ->
  market_data_store d0 = replay us MarketDataStore_new ->
  is_Some (ids (symbol_map d0) !! (ex1, symbol)) -> is_Some (ids (symbol_map d0) !! (ex2, symbol)) ->
  (forall o, quoted_by ms o -> Q o) ->
  publishes d0 Q d -> publishes d0 Q (check_pair instant_ms unix_secs symbol ex1 ex2 d).
Proof.
  intros Hwf Hc Hst H1' H2' HQ Hd. pose proof Hd as [Hs Hm _ _]. rewrite <- Hs in Hwf, Hc, H1', H2'. rewrite <- Hm in Hst.
  pose proof (get_prices_quoted ex1 symbol d ms us Hwf Hc Hst H1') as G1.
  pose proof (get_prices_quoted ex2 symbol d ms us Hwf Hc Hst H2') as G2. unfold check_pair.
  destruct (get_prices ex1 symbol d) as [p1 d1]. destruct G1 as [-> G1].
  destruct (get_prices ex2 symbol d) as [p2 d2]. destruct G2 as [-> G2].
  destruct p1 as [[b1 a1] |], p2 as [[b2 a2] |]; auto.
  destruct (G1 b1 a1 eq_refl) as [t1 L1], (G2 b2 a2 eq_refl) as [t2 L2].
  repeat apply check_opportunity_publishes; auto; intros o Ho1 Ho2 Ho3 Ho4 Ho5; apply HQ; unfold quoted_by;
    rewrite Ho1, Ho2, Ho3, Ho4, Ho5; split; eauto.
Qed.

(** Looking for opportunities of a symbol publishes only last quotes. *)
Lemma detect_publishes symbol ex (d : state) ms us (Q : ArbitrageOpportunity -> Prop) :
  sm_wf (symbol_map d) -> next_id (symbol_map d) + 8 <= U32_MAX ->
  carries (V:=V) (symbol_map d) ms us -> market_data_store d = replay us MarketDataStore_new ->
  (forall o, quoted_by ms o -> Q o) -> Forall Q (published d) ->
  let d' := detect_opportunities_for_symbol instant_ms unix_secs symbol ex d in
  map_extends (symbol_map d) (symbol_map d') 8 /\ market_data_store d' = market_data_store d /\
  market_consumer d' = market_consumer d /\ Forall Q (published d').
Proof.
  intros Hwf Hn Hc Hst HQ Ha. unfold detect_opportunities_for_symbol, get_exchanges_for_symbol.
  pose proof (filter_exchanges_spec symbol detector_exchanges d) as Hs.
  destruct (filter_exchanges_extends symbol detector_exchanges d Hwf Hn) as [Hx Hids].
  destruct (filter_exchanges symbol detector_exchanges d) as [exs d1]. cbn [snd] in Hx, Hids.
  destruct Hs as ((_ & _ & _ & Hmd & Hmc) & Ho & [Hnd Hin]%sublist_exchanges). cbv zeta.
  assert (Hp : publishes d1 Q d1) by (split; auto; now rewrite Ho).
  destruct (_ <? 2)%nat; [rewrite Ho; auto |].
  pose proof (pair_loops instant_ms unix_secs (publishes d1 Q) symbol exs d1 Hnd) as Hloop.
  destruct Hloop as [Hsm Hmd' Hmc' Ha']; [| exact Hp | rewrite Hsm, Hmd', Hmc'; auto].
  intros ex1 ex2 d2 H1' H2' _. eapply (check_pair_publishes symbol ex1 ex2 d1 d2 ms us);
    eauto using ext_wf, carries_extends, ext_ids; congruence.
Qed.
End turn.

(** ** The invariant of any run *)
Section safety.
Context {MQ OQ T F V RQ : Type} `{ArrayQueueLaws MQ MarketUpdate} `{ArrayQueueLaws OQ ArbitrageOpportunity}
  `{DashMap T key Z} `{DashMap F Z key} `{JV : Json V} `{!DashMapLaws T key Z} `{!DashMapLaws F Z key}
  `{ArrayQueue RQ message}.
Context (instant_ms : nat -> Z) (unix_secs : nat -> Z).
Abbreviation state := (feed MQ OQ T F RQ).
Abbreviation symbols f := (symbol_map (fd_detector f)).
Abbreviation pipeline f := (market_consumer (fd_detector f)).
Abbreviation queued f := (aq_view (cq_queue (pipeline f))).
Abbreviation ids_of s := (dm_view (to_id s)).
Abbreviation drops f := (cq_drop_count (pipeline f)).
Abbreviation opportunities f := (fd_taken f ++ aq_view (oq_queue (opportunity_producer (fd_detector f)))).

(** The prices of an opportunity were the newest of their exchanges among the
    messages [moment] that had come by some moment, less at most [dropped] of them. *)
Definition timely (ms : list (message * Z)) (dropped : Z) (o : ArbitrageOpportunity) : Prop :=
  exists moment heard, moment `prefix_of` ms /\ heard `sublist_of` moment /\
    Z.of_nat (length moment) <= Z.of_nat (length heard) + dropped /\ quoted_by (V:=V) heard o.

Lemma timely_mono ms l dropped dropped' o :
  dropped <= dropped' -> timely ms dropped o -> timely (ms ++ l) dropped' o.
Proof.
  intros Hd (p & h & Hp & Hs & Hl & Hq). exists p, h. split; [now apply prefix_app_r |].
  split; [exact Hs |]. split; [lia | exact Hq].
Qed.

(** [mt] are the messages whose updates the detector has taken into its store, [mq]
    the ones that are waiting in the pipeline. *)
Record split_at (ms mt mq : list (message * Z)) (us : list MarketUpdate) (f : state) : Prop := {
  sp_taken : carries (V:=V) (symbols f) mt us;
  sp_queued : carries (V:=V) (symbols f) mq (queued f);
  sp_store : market_data_store (fd_detector f) = replay us MarketDataStore_new;
  sp_order : mt ++ mq `sublist_of` ms;
  sp_whole : Z.of_nat (length ms) <= Z.of_nat (length (mt ++ mq)) + drops f
}.

Record feed_inv (n : Z) (ms : list (message * Z)) (events : nat) (f : state) : Prop := {
  fi_wf : sm_wf (symbols f);
  fi_next : next_id (symbols f) <= n + 8 * Z.of_nat events;
  fi_drops : 0 <= drops f <= Z.of_nat events;
  fi_split : exists mt mq us, split_at ms mt mq us f;
  fi_all : Forall (timely ms (drops f)) (opportunities f)
}.

Lemma feed_inv_later n ms k (f : state) : feed_inv n ms k f -> feed_inv n ms (S k) f.
Proof. intros [Hwf Hn Hd Hs Ha]. split; auto; lia. Qed.

Lemma taken_timely ms mt mq us f o : split_at ms mt mq us f -> quoted_by (V:=V) mt o -> timely ms (drops f) o.
Proof.
  intros [_ _ _ Hsub Hwh] Hq. apply sublist_app_l in Hsub as (p & q & -> & Hp & Hq').
  exists p, mt. split; [now apply prefix_app_r |]. split; [exact Hp |]. split; [| exact Hq].
  apply sublist_length in Hq'. rewrite !length_app in Hwh. lia.
Qed.

Lemma pop_drop_count (s : CountedQueue MQ) : cq_drop_count (snd (pop s)) = cq_drop_count s.
Proof. unfold pop. now destruct (aq_pop (cq_queue s)) as [[u |] q]. Qed.

(** Another task draws an id. *)
Lemma draw_inv n ms k e y (f : state) :
  n + 8 * Z.of_nat (S k) <= U32_MAX -> feed_inv n ms k f ->
  feed_inv n ms (S k) (feed_step (V:=V) instant_ms unix_secs f (FeedDraw e y)).
Proof.
  intros Hb [Hwf Hn Hd (mt & mq & us & [Ht Hq Hs Ho Hw]) Ha].
  destruct (get_or_insert_extends e y (symbols f) Hwf ltac:(lia)) as [Hwf' Hn' Hids].
  cbn [feed_step]. split; cbn [fd_detector fd_taken symbol_map market_consumer opportunity_producer set_symbol_map upd];
    auto; try lia.
  exists mt, mq, us. split; cbn [fd_detector symbol_map market_consumer market_data_store set_symbol_map upd];
    eauto using carries_extends.
Qed.

(** The runner takes an opportunity. *)
Lemma take_inv n ms k (f : state) :
  feed_inv n ms k f -> feed_inv n ms (S k) (feed_step (V:=V) instant_ms unix_secs f FeedTake).
Proof.
  intros [Hwf Hn Hd (mt & mq & us & [Ht Hq Hs Ho Hw]) Ha]. cbn [feed_step].
  destruct (oq_pop_spec (opportunity_producer (fd_detector f))) as (Hh & Htl & _).
  destruct (oq_pop (opportunity_producer (fd_detector f))) as [o q]. cbn [fst snd] in Hh, Htl.
  split; cbn [fd_detector fd_taken symbol_map market_consumer opportunity_producer set_opportunity_producer upd]; auto; try lia.
  - exists mt, mq, us. now split.
  - rewrite Htl, Hh, <- app_assoc. now destruct (aq_view (oq_queue (opportunity_producer (fd_detector f)))).
Qed.

(** The state after the update [u] was popped, leaving [mc], and stored. *)
Definition took (u : MarketUpdate) (mc : CountedQueue MQ) (f : state) : state :=
  let d := set_market_consumer mc (fd_detector f) in
  {| fd_detector := set_market_data_store (update_from_market_update u (market_data_store d)) d;
     fd_queue := fd_queue f; fd_taken := fd_taken f |}.

(** The message of the update moves from the waiting to the taken ones. *)
Lemma took_split ms mt mq us u us' mc (f : state) :
  split_at ms mt mq us f -> queued f = u :: us' -> aq_view (cq_queue mc) = us' -> cq_drop_count mc = drops f ->
  exists m1 m2, split_at ms (mt ++ m1) m2 (us ++ [u]) (took u mc f).
Proof.
  intros [Ht Hq Hs Ho Hw] Hv Hmc Hd. rewrite Hv in Hq. destruct (carries_cons _ _ _ _ Hq) as (m1 & m & m2 & -> & Hc1 & Hcm & Hc2).
  pose proof (carries_app _ _ _ _ _ Hc1 Hcm) as Hc. cbn [app] in Hc. exists (m1 ++ [m]), m2. split; cbn [took fd_detector symbol_map market_consumer market_data_store set_market_consumer set_market_data_store upd];
    rewrite ?Hmc, ?Hd, <- ?app_assoc; auto using carries_app.
  unfold replay. rewrite fold_left_app. fold (replay us MarketDataStore_new). cbn. now rewrite Hs.
Qed.

(** Looking for opportunities after that. *)
Lemma detect_inv n ms k mt mq us y e (f : state) :
  n + 8 * Z.of_nat (S k) <= U32_MAX -> feed_inv n ms k f -> split_at ms mt mq us f ->
  feed_inv n ms (S k)
    {| fd_detector := detect_opportunities_for_symbol instant_ms unix_secs y e (fd_detector f);
       fd_queue := fd_queue f; fd_taken := fd_taken f |}.
Proof.
  intros Hb [Hwf Hn Hd _ Ha] Hsp. pose proof Hsp as [Ht Hq Hs Ho Hw]. apply Forall_app in Ha as [Ha1 Ha2].
  destruct (detect_publishes (V:=V) instant_ms unix_secs y e (fd_detector f) mt us (timely ms (drops f)))
    as ([Hwf' Hn' Hids] & Hst' & Hmc' & Hall); auto; [lia | eauto using taken_timely |].
  split; cbn [fd_detector fd_taken]; rewrite ?Hmc'; auto; try lia.
  - exists mt, mq, us. split; cbn [fd_detector]; rewrite ?Hmc', ?Hst'; eauto using carries_extends.
  - now apply Forall_app.
Qed.

(** The detector takes an update. *)
Lemma turn_inv n ms k (f : state) :
  n + 8 * Z.of_nat (S k) <= U32_MAX -> feed_inv n ms k f ->
  feed_inv n ms (S k) (feed_step (V:=V) instant_ms unix_secs f FeedTurn).
Proof.
  intros Hb [Hwf Hn Hd (mt & mq & us & Hsp) Ha]. cbn [feed_step]. unfold run_iteration.
  destruct (pop_spec (pipeline f)) as (Hh & Htl & _). pose proof (pop_drop_count (pipeline f)) as Hpd.
  destruct (pop (pipeline f)) as [[u |] mc]; cbn [fst snd] in Hh, Htl, Hpd.
  - destruct (queued f) as [| u' us'] eqn:Ev; [discriminate |]. injection Hh as ->.
    destruct (took_split _ _ _ _ _ _ mc f Hsp Ev Htl Hpd) as (m1 & m2 & Hsp1).
    assert (Hf1 : feed_inv n ms k (took u' mc f)).
    { split; [exact Hwf | exact Hn | | eauto |]; unfold took; cbn; now rewrite Hpd. }
    destruct (sm_get _ _) as [[e y] |]; [exact (detect_inv _ _ _ _ _ _ y e _ Hb Hf1 Hsp1) |].
    exact (feed_inv_later _ _ _ _ Hf1).
  - split; cbn [fd_detector fd_taken symbol_map market_consumer opportunity_producer set_market_consumer upd];
      rewrite ?Hpd; auto; try lia. exists mt, mq, us. destruct Hsp as [Ht Hq Hs Ho Hw].
    split; cbn [fd_detector symbol_map market_consumer market_data_store set_market_consumer upd]; rewrite ?Hpd; auto.
    rewrite Htl. now destruct (queued f).
Qed.

(** What a push does to the messages that wait. *)
Lemma push_split ms mt mq us m u (f : state) sm mc :
  split_at ms mt mq us f -> ids_of (symbols f) ⊆ ids_of sm -> carries (V:=V) sm [m] [u] ->
  0 <= drops f < U32_MAX -> mc = push u (pipeline f) ->
  let f' := {| fd_detector := set_symbol_map sm (set_market_consumer mc (fd_detector f));
               fd_queue := fd_queue f; fd_taken := fd_taken f |} in
  drops f <= drops f' <= drops f + 1 /\ exists mq', split_at (ms ++ [m]) mt mq' us f'.
Proof.
  intros [Ht Hq Hs Ho Hw] Hids Hm Hd ->. cbv zeta.
  cbn [fd_detector symbol_map market_consumer set_symbol_map set_market_consumer upd].
  apply (carries_extends _ _ _ _ Hids) in Ht, Hq.
  pose proof (view_bound (pipeline f)). pose proof (cap_pos (pipeline f)).
  destruct (Nat.ltb_spec (length (queued f)) (Z.to_nat (capacity (pipeline f)))) as [Hr | Hr].
  - destruct (push_room u (pipeline f) Hr) as (Hv & _ & _ & Hdr). rewrite Hdr. split; [lia |].
    exists (mq ++ [m]). split; cbn [fd_detector symbol_map market_consumer market_data_store set_symbol_map set_market_consumer upd];
      auto; rewrite ?Hv, ?Hdr, ?app_assoc; auto using carries_app, sublist_app.
    rewrite !length_app in *. cbn. lia.
  - destruct (push_full u (pipeline f) (Nat.le_antisymm _ _ (view_bound _) Hr)) as (Hv & _ & _ & Hdr). unfold U32_MAX in Hd.
    rewrite wrap64_small in Hdr by (unfold in_u64; lia). rewrite Hdr. split; [lia |].
    destruct (queued f) as [| u' us'] eqn:Ev; [cbn in *; lia |].
    destruct (carries_cons _ _ _ _ Hq) as (m1 & m0 & m2 & -> & Hc1 & _ & Hc2). exists ((m1 ++ m2) ++ [m]).
    split; cbn [fd_detector symbol_map market_consumer market_data_store set_symbol_map set_market_consumer upd];
      auto; rewrite ?Hv, ?Hdr.
    + apply carries_app; [| exact Hm]. exact (carries_app _ _ _ _ _ Hc1 Hc2).
    + rewrite app_assoc. apply sublist_app; [| reflexivity]. etransitivity; [| exact Ho].
      apply sublist_app; [reflexivity |]. apply sublist_app; [reflexivity | now apply sublist_cons].
    + rewrite !length_app in *. cbn [length] in *. lia.
Qed.

(** The bridge handles a message. *)
Lemma message_inv n ms k m (f : state) :
  n + 8 * Z.of_nat (S k) <= U32_MAX -> 1 <= n -> feed_inv n ms k f ->
  feed_inv n (ms ++ [m]) (S k) (feed_step (V:=V) instant_ms unix_secs f (FeedMessage m)).
Proof.
  intros Hb Hn0 Hf. pose proof Hf as [Hwf Hn Hd (mt & mq & us & Hsp) Ha]. destruct m as [[key value] now].
  cbn [feed_step]. unfold bridge_message. cbn [br_symbols br_pipeline br_queue]. rewrite parse_quote.
  destruct (quote_of (V:=V) key value) as [[[e y] [bid ask]] |] eqn:Eq; cbn [fst snd].
  - pose proof (get_or_insert_extends e y (symbols f) Hwf ltac:(lia)) as Hx.
    pose proof (get_or_insert_lookup e y (symbols f)) as Hl.
    destruct (get_or_insert e y (symbols f)) as [id sm]. cbn [fst snd br_symbols br_pipeline br_queue] in *.
    destruct Hx as [Hwf' Hn' Hids].
    assert (Hc : carries (V:=V) sm [((key, value), now)] [MarketUpdate_new id bid ask now]).
    { exact (carries_quote sm ((key, value), now) [] [] (e, y) bid ask id Eq Hl (carries_nil sm)). }
    destruct (push_split ms mt mq us _ _ f sm _ Hsp Hids Hc ltac:(lia) eq_refl) as (Hdr & mq' & Hsp').
    unfold MarketProducer_push.
    cbn [fd_detector symbol_map market_consumer set_symbol_map set_market_consumer upd] in Hdr.
    split; cbn [fd_detector fd_taken symbol_map market_consumer opportunity_producer set_symbol_map set_market_consumer upd];
      [exact Hwf' | lia | lia | exists mt, mq', us; now destruct Hsp' |].
    eapply Forall_impl; [exact Ha |]. intros o. apply timely_mono. lia.
  - cbn [br_symbols br_pipeline br_queue].
    replace (set_symbol_map _ _) with (fd_detector f) by (now destruct (fd_detector f)).
    split; [exact Hwf | cbn; lia | cbn; lia | | eapply Forall_impl; [exact Ha |]; intros o; now apply timely_mono].
    destruct Hsp as [Ht Hq Hs Ho Hw]. exists mt, (mq ++ [((key, value), now)]), us.
    split; cbn [fd_detector]; auto; rewrite ?app_assoc; auto using sublist_app.
    + rewrite <- (app_nil_r (queued f)). apply carries_app; [exact Hq | apply carries_skip; [exact Eq | constructor]].
    + rewrite !length_app in *. cbn. lia.
Qed.

Lemma feed_messages_snoc evs e :
  feed_messages (evs ++ [e]) = feed_messages evs ++ feed_messages [e].
Proof. apply omap_app. Qed.

Lemma run_feed_inv evs n (f : state) :
  1 <= n -> n + 8 * Z.of_nat (length evs) <= U32_MAX -> feed_inv n [] 0 f ->
  feed_inv n (feed_messages evs) (length evs) (run_feed (V:=V) instant_ms unix_secs evs f).
Proof.
  intros Hn0. induction evs as [| e evs IH] using rev_ind; intros Hb Hf; [exact Hf |].
  rewrite length_app in *. cbn [length] in *. replace (length evs + 1)%nat with (S (length evs)) in * by lia.
  specialize (IH ltac:(lia) Hf). unfold run_feed in *. rewrite fold_left_app. cbn [fold_left]. rewrite feed_messages_snoc.
  destruct e as [m | | e y |]; cbn [feed_messages omap list_omap]; rewrite ?app_nil_r.
  - now apply message_inv.
  - now apply turn_inv.
  - now apply draw_inv.
  - now apply take_inv.
Qed.

Lemma start_inv sm (mc : CountedQueue MQ) (op : OpportunityQueue OQ) (rq : RQ) :
  sm_wf sm -> aq_view (cq_queue mc) = [] -> cq_drop_count mc = 0 -> aq_view (oq_queue op) = [] ->
  feed_inv (next_id sm) [] 0 (feed_start instant_ms sm mc op rq : state).
Proof.
  intros Hwf Hv Hd Ho. split; cbn; [exact Hwf | lia | lia | | rewrite Ho; constructor].
  exists [], [], []. split; cbn; rewrite ?Hv, ?Hd; [apply carries_nil | apply carries_nil | reflexivity | constructor | lia].
Qed.

(** C24. No made-up and no mixed-up prices: however the messages, the turns of the
    detector, the other users of the symbol map and the runner's taking are
    interleaved, for 2^29 - 126 of these events at most, both prices of every
    opportunity the runner has taken or will find on the queue are the newest quotes of
    that opportunity's own exchanges and symbol among the messages that had come by one
    and the same moment, less at most as many of them as the pipeline counts as dropped:
    exactly among those that had come, if it dropped none. *)
Theorem published_prices_quoted evs (f := main_feed instant_ms : state)
  (Hevents : 8 * Z.of_nat (length evs) <= U32_MAX - 1000) :
  let f' := run_feed (V:=V) instant_ms unix_secs evs f in
  Forall (fun o => exists moment heard,
    moment `prefix_of` feed_messages evs /\ heard `sublist_of` moment /\
    Z.of_nat (length moment) <= Z.of_nat (length heard) + drops f' /\
    (exists bid t, last_quote (V:=V) (ao_long_exchange o, ao_symbol o) heard = Some (bid, ao_long_price o, t)) /\
    (exists ask t, last_quote (V:=V) (ao_short_exchange o, ao_symbol o) heard = Some (ao_short_price o, ask, t)))
    (fd_taken f' ++ aq_view (oq_queue (opportunity_producer (fd_detector f')))).
Proof.
  intros f'. destruct (SymbolMap_new_ok (T:=T) (F:=F)) as [Hwf Hn]. pose proof (wf_next _ Hwf).
  refine (fi_all _ _ _ _ (run_feed_inv evs (next_id SymbolMap_new) f _ _ _)); [lia | lia |].
  apply start_inv; [exact Hwf | now apply aq_new_view | reflexivity | now apply aq_new_view].
Qed.
End safety.

(** A part that is as long is the whole. *)
Lemma sublist_whole {A} (l k : list A) : l `sublist_of` k -> (length k <= length l)%nat -> l = k.
Proof.
  induction 1 as [| x l k Hs IH | x l k Hs IH]; cbn; intros Hl; [reflexivity | f_equal; apply IH; lia |].
  apply sublist_length in Hs. lia.
Qed.

(** ** A concrete run *)
Abbreviation demo_feed :=
  (feed (list_queue MarketUpdate) (list_queue ArbitrageOpportunity) (gmap SymbolMap.key Z) (gmap Z SymbolMap.key)
     (list_queue message)).

#[local] Open Scope string_scope.

(** A text with a bid and an ask, for the message fields of Bybit and Binance. *)
#[local] Instance two_prices : Json string := {
  j_get k v := if String.eqb k "data" then Some v
               else split_char ","%char v !! (if String.eqb k "bid1Price" || String.eqb k "b" then 0 else 1)%nat;
  j_as_str v := Some v;
  j_as_array _ := None;
  j_is_f64 _ := false;
  j_as_f64 _ := None;
  j_from_str v := Some v
}.

(** The second quote of Bybit waits in the pipeline while the detector compares its
    first one with Binance's. *)
Definition demo_events : list feed_event :=
  [FeedMessage (("bybit:linear:tickers:BTCUSDT", "100.9,101.0"), 5); FeedTurn;
   FeedMessage (("binance:usdm:bookTicker:BTCUSDT", "99.9,100.0"), 6); FeedDraw "okx" "LDOUSDT";
   FeedMessage (("bybit:linear:tickers:BTCUSDT", "101.1,101.2"), 7); FeedTurn; FeedTake].

Lemma published_prices_quoted_witness :
  let f : demo_feed := main_feed (fun _ => 0) in
  let f' := run_feed (V:=string) (fun _ => 0) (fun _ => 1700000000) demo_events f in
  map (fun o => (ao_long_exchange o, ao_short_exchange o, ao_long_price o, ao_short_price o)) (fd_taken f') =
    [("binance", "bybit", 100.0%f64, 100.9%f64)] /\
  Forall (fun o => exists heard, heard `prefix_of` feed_messages demo_events /\
    exists bid t, last_quote (V:=string) (ao_long_exchange o, ao_symbol o) heard = Some (bid, ao_long_price o, t))
    (fd_taken f').
Proof.
  intros f f'. split; [vm_compute; reflexivity |].
  pose proof (published_prices_quoted (V:=string) (RQ:=list_queue message) (fun _ => 0) (fun _ => 1700000000)
    demo_events (MQ:=list_queue MarketUpdate) (OQ:=list_queue ArbitrageOpportunity)
    (T:=gmap SymbolMap.key Z) (F:=gmap Z SymbolMap.key) ltac:(vm_compute; discriminate)) as Hall.
  apply Forall_app in Hall as [Hall _]. eapply Forall_impl; [exact Hall |].
  intros o (moment & heard & Hp & Hs & Hn & Hl & _). exists heard. split; [| exact Hl].
  replace heard with moment; [exact Hp |]. symmetry. apply sublist_whole; [exact Hs |].
  revert Hn. match goal with |- context [cq_drop_count ?q] => replace (cq_drop_count q) with 0 by (vm_compute; reflexivity) end. lia.
Defined.
