(* ===== verification/Persistence.v ===== *)
(** The Redis writer thread ([redis_writer_thread] and [flush_redis_buffer] of
    [src/src/main.rs], and the end of [redis_bridge]).

    The bridge pushes texts into a bounded queue and drops the oldest when it is
    full; the writer thread takes them out into a buffer and sends the buffer to
    Redis.  Both run at once: every access to the queue is one step.  The answer
    of Redis to a pipeline of commands is the step's own.  What a pipeline that
    failed may have done in Redis is not modelled. *)
From Stdlib Require Import ZArith Lia Bool.
From stdpp Require Import base option list strings.
From S2P Require Import Prelude ArrayQueue Ingest.

#[local] Open Scope list_scope.

Definition REDIS_FLUSH_MAX_ITEMS : nat := 512.

Section persistence.
Context {RQ : Type} `{!ArrayQueue RQ message}.

(** Where the bridge is in the push of one text: before it, about to drop the
    oldest, about to try again. *)
Inductive bridge_pc := BIdle | BEvict (rejected_item : message) | BRetry (rejected_item : message).

(** Where the writer is: at the top of its loop, filling the buffer, flushing it;
    after the shutdown request draining the queue, flushing on the way, flushing
    the rest, gone. *)
Inductive writer_pc := WTop | WFill | WFlush | WDrain | WDrainFlush | WFinal | WExit.

(** The queue and both threads.  The last five fields record what happened: texts
    sent, taken out (by the writer or to make room), accepted by Redis, dropped by
    a failed second push, and whether a flush failed. *)
Record io_config := {
  io_queue : RQ;
  io_bridge : bridge_pc;
  io_writer : writer_pc;
  io_buffer : list message;
  io_shutdown : bool;
  io_sent : list message;
  io_taken : list (bool * message);
  io_acked : list message;
  io_lost : list message;
  io_failed : bool
}.

Definition io_start (queue : RQ) : io_config :=
  {| io_queue := queue; io_bridge := BIdle; io_writer := WTop; io_buffer := []; io_shutdown := false;
     io_sent := []; io_taken := []; io_acked := []; io_lost := []; io_failed := false |}.

(** ** The bridge *)
Definition bridge_to (pc : bridge_pc) (queue : RQ) (sent : list message) (taken : list (bool * message))
  (lost : list message) (c : io_config) : io_config :=
  {| io_queue := queue; io_bridge := pc; io_writer := io_writer c; io_buffer := io_buffer c;
     io_shutdown := io_shutdown c; io_sent := io_sent c ++ sent; io_taken := io_taken c ++ taken;
     io_acked := io_acked c; io_lost := io_lost c ++ lost; io_failed := io_failed c |}.

Definition taken_by (writer : bool) (o : option message) : list (bool * message) :=
  match o with Some m => [(writer, m)] | None => [] end.

(** [kv] is the next message when the bridge is idle. *)
Definition bridge_step (kv : message) (c : io_config) : io_config :=
  match io_bridge c with
  | BIdle =>
      match aq_push kv (io_queue c) with
      | (Err rejected_item, q) => bridge_to (BEvict rejected_item) q [kv] [] [] c
      | (Ok _, q) => bridge_to BIdle q [kv] [] [] c
      end
  | BEvict rejected_item =>
      let '(oldest, q) := aq_pop (io_queue c) in
      bridge_to (BRetry rejected_item) q [] (taken_by false oldest) [] c
  | BRetry rejected_item =>
      match aq_push rejected_item (io_queue c) with
      | (Err rejected_item, q) => bridge_to BIdle q [] [] [rejected_item] c
      | (Ok _, q) => bridge_to BIdle q [] [] [] c
      end
  end.

(** ** The writer *)
Definition writer_at (pc : writer_pc) (c : io_config) : io_config :=
  {| io_queue := io_queue c; io_bridge := io_bridge c; io_writer := pc; io_buffer := io_buffer c;
     io_shutdown := io_shutdown c; io_sent := io_sent c; io_taken := io_taken c;
     io_acked := io_acked c; io_lost := io_lost c; io_failed := io_failed c |}.

(** [queue.pop()], and [buffer.push(item)] if there was one. *)
Definition take_item (c : io_config) : option message * io_config :=
  let '(item, q) := aq_pop (io_queue c) in
  (item,
   {| io_queue := q; io_bridge := io_bridge c; io_writer := io_writer c;
      io_buffer := io_buffer c ++ option_list item; io_shutdown := io_shutdown c; io_sent := io_sent c;
      io_taken := io_taken c ++ taken_by true item; io_acked := io_acked c; io_lost := io_lost c;
      io_failed := io_failed c |}).

(** The pipeline of [SET] and [PUBLISH] for each text; [ok] is Redis's answer.
    Only an accepted buffer is cleared. *)
Definition flush_redis_buffer (ok : bool) (c : io_config) : io_config :=
  {| io_queue := io_queue c; io_bridge := io_bridge c; io_writer := io_writer c;
     io_buffer := if ok then [] else io_buffer c; io_shutdown := io_shutdown c; io_sent := io_sent c;
     io_taken := io_taken c; io_acked := if ok then io_acked c ++ io_buffer c else io_acked c;
     io_lost := io_lost c; io_failed := io_failed c || negb ok |}.

(** [if !buffer.is_empty() { flush }] *)
Definition flush_some (ok : bool) (c : io_config) : io_config :=
  match io_buffer c with [] => c | _ => flush_redis_buffer ok c end.

Definition writer_step (ok : bool) (c : io_config) : io_config :=
  match io_writer c with
  | WTop => writer_at (if io_shutdown c then WDrain else WFill) c
  | WFill =>
      if (length (io_buffer c) <? REDIS_FLUSH_MAX_ITEMS)%nat then
        match take_item c with
        | (Some _, c) => c
        | (None, c) => writer_at WFlush c
        end
      else writer_at WFlush c
  | WFlush => writer_at WTop (flush_some ok c)
  | WDrain =>
      match take_item c with
      | (Some _, c) =>
          if (REDIS_FLUSH_MAX_ITEMS <=? length (io_buffer c))%nat then writer_at WDrainFlush c else c
      | (None, c) => writer_at WFinal c
      end
  | WDrainFlush => writer_at WDrain (flush_redis_buffer ok c)
  | WFinal => writer_at WExit (flush_some ok c)
  | WExit => c
  end.

Definition request_shutdown (c : io_config) : io_config :=
  {| io_queue := io_queue c; io_bridge := io_bridge c; io_writer := io_writer c; io_buffer := io_buffer c;
     io_shutdown := true; io_sent := io_sent c; io_taken := io_taken c;
     io_acked := io_acked c; io_lost := io_lost c; io_failed := io_failed c |}.

Inductive io_step : io_config -> io_config -> Prop :=
| io_step_bridge kv c : io_step c (bridge_step kv c)
| io_step_writer ok c : io_step c (writer_step ok c)
| io_step_shutdown c : io_step c (request_shutdown c).
End persistence.
Arguments io_config RQ : clear implicits.

(** ** Properties *)
Section conservation.
Context {RQ : Type} `{!ArrayQueue RQ message} `{!ArrayQueueLaws RQ message}.
Abbreviation config := (io_config RQ).

Definition in_hand (pc : bridge_pc) : list message :=
  match pc with BIdle => [] | BEvict m | BRetry m => [m] end.

(** The texts the writer took out, in order. *)
Definition received (taken : list (bool * message)) : list message :=
  omap (fun t : bool * message => if fst t then Some (snd t) else None) taken.

Record io_inv (c : config) : Prop := {
  inv_order : map snd (io_taken c) ++ aq_view (io_queue c) ++ in_hand (io_bridge c) = io_sent c;
  inv_received : received (io_taken c) = io_acked c ++ io_buffer c;
  inv_lost : io_lost c = [];
  inv_room : forall m, io_bridge c = BRetry m -> (Z.of_nat (length (aq_view (io_queue c))) < aq_capacity (io_queue c))%Z;
  inv_bound : io_writer c = WTop \/ io_writer c = WFill \/ io_writer c = WFlush \/ io_failed c = false ->
    (length (io_buffer c) <= REDIS_FLUSH_MAX_ITEMS)%nat;
  inv_top : io_writer c = WTop -> io_failed c = false -> io_buffer c = [];
  inv_drain : io_writer c = WDrain -> io_failed c = false -> (length (io_buffer c) < REDIS_FLUSH_MAX_ITEMS)%nat;
  inv_exit : io_writer c = WExit -> io_failed c = false -> io_buffer c = []
}.

Lemma received_app t u : received (t ++ u) = received t ++ received u.
Proof. apply omap_app. Qed.

Lemma received_by w o : received (taken_by w o) = if w then option_list o else [].
Proof. now destruct o, w. Qed.

Lemma snd_taken w o : map snd (taken_by w o) = option_list o.
Proof. now destruct o. Qed.

Lemma pop_app (q : RQ) :
  option_list (fst (aq_pop q)) ++ aq_view (snd (aq_pop q)) = aq_view q.
Proof. destruct (aq_pop_view q) as (Ht & Hh & _). rewrite Ht, Hh. now destruct (aq_view q). Qed.

Lemma io_inv_start (q : RQ) : aq_view q = [] -> io_inv (io_start q).
Proof. intros Hq. split; cbn; rewrite ?Hq; auto; try discriminate. intros. unfold REDIS_FLUSH_MAX_ITEMS. lia. Qed.

(** The bridge does not touch the writer's side. *)
Lemma bridge_step_inv kv c : io_inv c -> io_inv (bridge_step kv c).
Proof.
  intros [Ho Hr Hl Hroom Hb Ht Hd Hx]. unfold bridge_step. destruct (io_bridge c) as [| r | r] eqn:Ep; cbn [in_hand] in Ho.
  - destruct (aq_push_view kv (io_queue c)) as [Ha Hv]. pose proof (aq_push_capacity kv (io_queue c)) as Hc.
    destruct (aq_push kv (io_queue c)) as [[[] | e] q]; cbn in Ha, Hv, Hc; subst; split; cbn; rewrite ?app_nil_r in *;
      auto; try discriminate; rewrite Hv, <- Ho, ?app_nil_r, <- ?app_assoc; reflexivity.
  - pose proof (pop_app (io_queue c)) as Hp. destruct (aq_pop_view (io_queue c)) as (Htl & Hh & Hcap).
    destruct (aq_pop (io_queue c)) as [o q] eqn:Eq. cbn [fst snd] in *.
    split; cbn; rewrite ?app_nil_r; auto.
    + rewrite map_app, snd_taken, <- Ho, <- Hp, <- !app_assoc. reflexivity.
    + now rewrite received_app, received_by, app_nil_r.
    + intros m _. rewrite Hcap, Htl. pose proof (aq_bounded (io_queue c)). pose proof (aq_capacity_pos (io_queue c)).
      destruct (aq_view (io_queue c)); cbn in *; lia.
  - destruct (aq_push_room r (io_queue c) (Hroom r eq_refl)) as (Hok & Hv & Hcap).
    destruct (aq_push r (io_queue c)) as [res q]. cbn [fst snd] in *. subst res. split; cbn; rewrite ?app_nil_r; auto; try discriminate.
    now rewrite Hv, <- Ho.
Qed.

(** What taking an item out does to the invariant's first half. *)
Lemma take_item_order (c c' : config) o :
  take_item c = (o, c') -> io_inv c ->
  map snd (io_taken c') ++ aq_view (io_queue c') ++ in_hand (io_bridge c') = io_sent c' /\
  received (io_taken c') = io_acked c' ++ io_buffer c' /\ io_lost c' = [] /\
  (forall m, io_bridge c' = BRetry m -> (Z.of_nat (length (aq_view (io_queue c'))) < aq_capacity (io_queue c'))%Z) /\
  io_buffer c' = io_buffer c ++ option_list o /\ io_writer c' = io_writer c /\ io_failed c' = io_failed c.
Proof.
  intros Ht [Ho Hr Hl Hroom _ _ _ _]. unfold take_item in Ht. pose proof (pop_app (io_queue c)) as Hp.
  destruct (aq_pop_view (io_queue c)) as (Htl & Hh & Hcap). destruct (aq_pop (io_queue c)) as [o' q].
  cbn [fst snd] in *. injection Ht as <- <-. cbn. split; [| split; [| split; [exact Hl | split; [| auto]]]].
  - rewrite map_app, snd_taken, <- Ho, <- Hp, <- !app_assoc. reflexivity.
  - now rewrite received_app, received_by, Hr, app_assoc.
  - intros m Hm. specialize (Hroom m Hm). rewrite Htl, Hcap. destruct (aq_view (io_queue c)); cbn in *; lia.
Qed.

(** A flush moves the buffer to the accepted texts or leaves it. *)
Lemma flush_some_order ok (c : config) :
  io_inv c ->
  received (io_taken (flush_some ok c)) = io_acked (flush_some ok c) ++ io_buffer (flush_some ok c) /\
  (io_failed (flush_some ok c) = false -> io_failed c = false /\ io_buffer (flush_some ok c) = []) /\
  (length (io_buffer (flush_some ok c)) <= length (io_buffer c))%nat.
Proof.
  intros Hi. pose proof (inv_received c Hi) as Hr. unfold flush_some. destruct (io_buffer c) as [| m l] eqn:Eb.
  { rewrite Eb, Hr, app_nil_r. auto. }
  destruct ok; cbn -[received]; rewrite ?Eb, ?orb_false_r, ?orb_true_r, ?app_nil_r, ?Hr.
  - split; [reflexivity |]. split; [auto | cbn; lia].
  - split; [reflexivity |]. split; [discriminate | reflexivity].
Qed.

Lemma flush_some_frame ok (c : config) :
  io_queue (flush_some ok c) = io_queue c /\ io_bridge (flush_some ok c) = io_bridge c /\
  io_sent (flush_some ok c) = io_sent c /\ io_taken (flush_some ok c) = io_taken c /\ io_lost (flush_some ok c) = io_lost c.
Proof. unfold flush_some. now destruct (io_buffer c). Qed.

Lemma writer_step_inv ok c : io_inv c -> io_inv (writer_step ok c).
Proof.
  intros Hi. pose proof Hi as [Ho Hr Hl Hroom Hb Ht Hd Hx]. unfold writer_step. destruct (io_writer c) eqn:Ew.
  - destruct (io_shutdown c); split; cbn; auto; try discriminate.
    intros _ Hf. rewrite Ht by auto. unfold REDIS_FLUSH_MAX_ITEMS. cbn. lia.
  - destruct (Nat.ltb_spec (length (io_buffer c)) REDIS_FLUSH_MAX_ITEMS) as [Hlt | Hge]; [| split; cbn; auto; discriminate].
    destruct (take_item c) as [o c'] eqn:Eo. destruct (take_item_order c c' o Eo Hi) as (Ho' & Hr' & Hl' & Hroom' & Hb' & Hw' & Hf').
    destruct o as [item |]; split; cbn -[received]; auto; rewrite ?Hb', ?Hw', ?Ew, ?length_app; try discriminate; intros; cbn; lia.
  - destruct (flush_some_order ok c Hi) as (Hr' & Hf' & Hlen). destruct (flush_some_frame ok c) as (Hq & Hbr & Hs & Htk & Hls).
    split; cbn; rewrite ?Hq, ?Hbr, ?Hs, ?Htk, ?Hls in *; auto; try discriminate.
    + intros _. etransitivity; [exact Hlen | apply Hb; auto].
    + intros _ Hf. now apply Hf'.
  - destruct (take_item c) as [o c'] eqn:Eo. destruct (take_item_order c c' o Eo Hi) as (Ho' & Hr' & Hl' & Hroom' & Hb' & Hw' & Hf').
    destruct o as [item |].
    + destruct (Nat.leb_spec REDIS_FLUSH_MAX_ITEMS (length (io_buffer c'))) as [Hge | Hlt].
      * split; cbn; auto; try discriminate. intros [| [| [| Hf]]]; try discriminate.
        rewrite Hb', length_app. rewrite Hf' in Hf. specialize (Hd eq_refl Hf). cbn. lia.
      * split; auto; rewrite ?Hw', ?Ew; try discriminate. intros _. lia.
    + split; cbn -[received]; auto; try discriminate.
      rewrite Hb', Hf', app_nil_r. intros [| [| [| Hf]]]; try discriminate. specialize (Hd eq_refl Hf). lia.
  - destruct ok; split; cbn -[received]; rewrite ?orb_false_r, ?orb_true_r, ?app_nil_r; auto; try discriminate.
    + intros _. unfold REDIS_FLUSH_MAX_ITEMS. lia.
    + intros _ _. unfold REDIS_FLUSH_MAX_ITEMS. lia.
    + intros [| [| [|]]]; discriminate.
  - destruct (flush_some_order ok c Hi) as (Hr' & Hf' & Hlen). destruct (flush_some_frame ok c) as (Hq & Hbr & Hs & Htk & Hls).
    split; cbn; rewrite ?Hq, ?Hbr, ?Hs, ?Htk, ?Hls in *; auto; try discriminate.
    + intros [| [| [| Hf]]]; try discriminate. destruct (Hf' Hf) as [_ ->]. cbn. lia.
    + intros _ Hf. now apply Hf'.
  - exact Hi.
Qed.

Lemma io_reachable_inv (q : RQ) c : aq_view q = [] -> star io_step (io_start q) c -> io_inv c.
Proof.
  intros Hq. apply (star_invariant io_step io_inv); [now apply io_inv_start |].
  intros a b Ha Hs. destruct Hs as [kv c0 | ok c0 | c0].
  - now apply bridge_step_inv.
  - now apply writer_step_inv.
  - destruct Ha as [Ho Hr Hl Hroom Hb Ht Hd Hx]. split; cbn; auto.
Qed.

(** C32. However the bridge and the writer interleave, nothing goes missing between
    the connectors and Redis but what was dropped as the oldest text of a full
    queue: the texts taken out, those queued and the one in hand are the texts
    sent, in order, and the texts the writer took are those Redis accepted
    followed by the buffer.  The buffer never exceeds 512 texts before the
    shutdown; a writer that has exited without a failed flush has an empty one. *)
Theorem persistence_conserves (q : RQ) c :
  aq_view q = [] -> star io_step (io_start q) c ->
  map snd (io_taken c) ++ aq_view (io_queue c) ++ in_hand (io_bridge c) = io_sent c /\
  received (io_taken c) = io_acked c ++ io_buffer c /\ io_lost c = [] /\
  (io_writer c = WTop \/ io_writer c = WFill \/ io_writer c = WFlush \/ io_failed c = false ->
     (length (io_buffer c) <= REDIS_FLUSH_MAX_ITEMS)%nat) /\
  (io_writer c = WExit -> io_failed c = false -> io_buffer c = []).
Proof. intros Hq Hs. destruct (io_reachable_inv q c Hq Hs). auto 10. Qed.
End conservation.

(** ** The shutdown *)
Section shutdown.
Context {RQ : Type} `{!ArrayQueue RQ message} `{!ArrayQueueLaws RQ message}.
Abbreviation config := (io_config RQ).

(** The writer alone: its steps with Redis's answers to the flushes among them. *)
Definition writer_turns (answers : list bool) (c : config) : config :=
  fold_left (fun c ok => writer_step ok c) answers c.

(** Where the writer still looks at the queue. *)
Definition looking (pc : writer_pc) : bool := match pc with WFinal | WExit => false | _ => true end.

(** The steps to the exit, for [n] queued texts, once the shutdown is requested. *)
Definition steps_left (pc : writer_pc) (n : nat) : nat :=
  match pc with
  | WExit => 0 | WFinal => 1
  | WDrain => 2 * n + 2 | WDrainFlush => 2 * n + 3 | WTop => 2 * n + 3 | WFlush => 2 * n + 4 | WFill => 2 * n + 5
  end.

(** Between [c] and [c'] no text was lost or reordered, the queue is empty if the writer
    no longer looks at it, and nothing is left in the buffer by a writer whose flushes
    were [accepted]. *)
Record flushed (accepted : bool) (c c' : config) : Prop := {
  fl_texts : io_acked c' ++ io_buffer c' ++ aq_view (io_queue c') = io_acked c ++ io_buffer c ++ aq_view (io_queue c);
  fl_shutdown : io_shutdown c' = true;
  fl_queue : looking (io_writer c') = false -> aq_view (io_queue c') = [];
  fl_buffer : accepted = true -> io_writer c' = WExit -> io_buffer c' = []
}.

(** Taking an item moves it from the queue to the buffer. *)
Lemma take_item_moves (c : config) :
  let '(o, c') := take_item c in
  aq_view (io_queue c) = option_list o ++ aq_view (io_queue c') /\ (o = None -> aq_view (io_queue c') = []) /\
  io_buffer c' = io_buffer c ++ option_list o /\ io_acked c' = io_acked c /\ io_writer c' = io_writer c /\
  io_shutdown c' = io_shutdown c.
Proof.
  unfold take_item. pose proof (pop_app (io_queue c)) as Hp. destruct (aq_pop_view (io_queue c)) as (Ht & Hh & _).
  destruct (aq_pop (io_queue c)) as [o q]. cbn [fst snd] in *. cbn. split; [now rewrite Hp |]. split; [| auto].
  intros ->. rewrite Ht. now destruct (aq_view (io_queue c)).
Qed.

Lemma flush_some_texts ok (c : config) :
  io_acked (flush_some ok c) ++ io_buffer (flush_some ok c) = io_acked c ++ io_buffer c /\
  (ok = true -> io_buffer (flush_some ok c) = []) /\ io_shutdown (flush_some ok c) = io_shutdown c /\
  io_queue (flush_some ok c) = io_queue c.
Proof. unfold flush_some. destruct (io_buffer c) eqn:Eb; [| destruct ok]; cbn; rewrite ?Eb, ?app_nil_r; auto 6; repeat split; auto; discriminate. Qed.

(** One step towards the exit. *)
Lemma writer_step_flushes ok a (c0 c : config) :
  flushed a c0 c -> (a = true -> ok = true) ->
  flushed a c0 (writer_step ok c) /\
  (steps_left (io_writer (writer_step ok c)) (length (aq_view (io_queue (writer_step ok c)))) <=
   steps_left (io_writer c) (length (aq_view (io_queue c))) - 1)%nat.
Proof.
  intros [Hx Hs Hq Hb] Ha. unfold writer_step. rewrite Hs.
  pose proof (take_item_moves c) as Hm. pose proof (flush_some_texts ok c) as (Hf1 & Hf2 & Hf3 & Hf4).
  destruct (io_writer c) eqn:Ew; cbn [looking] in Hq.
  - split; [split; cbn; auto; discriminate | cbn; lia].
  - destruct (_ <? _)%nat; [| split; [split; cbn; auto; discriminate | cbn; lia]].
    destruct (take_item c) as [[m |] c1]; destruct Hm as (H1 & H2 & H3 & H4 & H5 & H6); unfold option_list in *; cbn [option_rect app] in *.
    + split; [split |]; rewrite ?H4, ?H5, ?Ew; cbn [looking]; auto; try congruence; try discriminate.
      * rewrite H3, <- app_assoc. cbn [app]. rewrite <- H1. exact Hx.
      * rewrite H1. cbn. lia.
    + rewrite app_nil_r in H3. split; [split; cbn; auto; congruence || discriminate | cbn; rewrite <- H1; lia].
  - split; [split; cbn; rewrite ?Hf4; auto; try congruence; try discriminate | cbn; rewrite Hf4; lia].
    rewrite app_assoc, Hf1, <- app_assoc. exact Hx.
  - destruct (take_item c) as [[m |] c1]; destruct Hm as (H1 & H2 & H3 & H4 & H5 & H6); unfold option_list in *; cbn [option_rect app] in *.
    + assert (Ht : io_acked c1 ++ io_buffer c1 ++ aq_view (io_queue c1) = io_acked c0 ++ io_buffer c0 ++ aq_view (io_queue c0)).
      { rewrite H4, H3, <- app_assoc. cbn [app]. rewrite <- H1. exact Hx. }
      rewrite H1. destruct (_ <=? _)%nat; (split; [split |]); cbn; rewrite ?H5, ?Ew; auto; try congruence; try discriminate; cbn; lia.
    + rewrite app_nil_r in H3. split; [split; cbn; auto; congruence || discriminate | cbn; lia].
  - split; [| cbn; lia]. split; cbn; auto; try discriminate. destruct ok; cbn; [| exact Hx]. rewrite <- app_assoc. exact Hx.
  - split; [| cbn; lia]. specialize (Hq eq_refl). split; cbn; rewrite ?Hf4; auto; try congruence.
    rewrite app_assoc, Hf1, <- app_assoc. exact Hx.
  - split; [split; rewrite ?Ew; auto | rewrite Ew; cbn; lia].
Qed.

Lemma writer_turns_flush a answers : forall c0 c : config,
  flushed a c0 c -> (a = true -> Forall (eq true) answers) ->
  flushed a c0 (writer_turns answers c) /\
  (steps_left (io_writer (writer_turns answers c)) (length (aq_view (io_queue (writer_turns answers c)))) <=
   steps_left (io_writer c) (length (aq_view (io_queue c))) - length answers)%nat.
Proof.
  induction answers as [| ok answers IH]; intros c0 c Hf Ha; [cbn; split; [exact Hf | lia] |].
  destruct (writer_step_flushes ok a c0 c Hf) as [Hf1 Hs1].
  { intros Hat. specialize (Ha Hat). apply Forall_inv in Ha. auto. }
  destruct (IH c0 (writer_step ok c) Hf1) as [Hf2 Hs2].
  { intros Hat. specialize (Ha Hat). now apply Forall_inv_tail in Ha. }
  split; [exact Hf2 |]. cbn [writer_turns fold_left length] in *. fold (writer_turns answers (writer_step ok c)). lia.
Qed.

Lemma writer_ends a (c : config) answers :
  looking (io_writer c) = true -> io_shutdown c = true -> (2 * length (aq_view (io_queue c)) + 5 <= length answers)%nat ->
  (a = true -> Forall (eq true) answers) ->
  let c' := writer_turns answers c in
  io_writer c' = WExit /\ aq_view (io_queue c') = [] /\
  io_acked c' ++ io_buffer c' = io_acked c ++ io_buffer c ++ aq_view (io_queue c) /\ (a = true -> io_buffer c' = []).
Proof.
  intros Hl Hs Hn Ha c'. destruct (writer_turns_flush a answers c c) as [[Hx _ Hq Hb] Hm]; [| exact Ha |].
  { split; auto; try congruence. intros _ He. rewrite He in Hl. discriminate. }
  fold c' in Hx, Hq, Hb, Hm.
  assert (Hw : io_writer c' = WExit).
  { destruct (io_writer c'), (io_writer c); try reflexivity; cbn in Hm, Hl; discriminate || lia. }
  rewrite Hw in Hq. specialize (Hq eq_refl). rewrite Hq, app_nil_r in Hx. auto.
Qed.

(** C33. After the shutdown request the writer ends, whatever Redis answers: a writer that
    still looks at the queue exits within two steps for each queued text and five more,
    counting its own steps while no text arrives.  It leaves the queue empty, and what
    Redis accepted followed by what is left in the buffer is, in order, what was
    accepted, buffered and queued before; if Redis accepted every flush, nothing is left. *)
Theorem shutdown_flushes (c : config) answers :
  looking (io_writer c) = true -> io_shutdown c = true -> (2 * length (aq_view (io_queue c)) + 5 <= length answers)%nat ->
  let c' := writer_turns answers c in
  io_writer c' = WExit /\ aq_view (io_queue c') = [] /\
  io_acked c' ++ io_buffer c' = io_acked c ++ io_buffer c ++ aq_view (io_queue c) /\
  (Forall (eq true) answers -> io_acked c' = io_acked c ++ io_buffer c ++ aq_view (io_queue c)).
Proof.
  intros Hl Hs Hn c'. destruct (writer_ends false c answers Hl Hs Hn ltac:(discriminate)) as (Hw & Hq & Hx & _).
  split; [exact Hw |]. split; [exact Hq |]. split; [exact Hx |]. intros Ha.
  destruct (writer_ends true c answers Hl Hs Hn (fun _ => Ha)) as (_ & _ & Hx' & Hb). fold c' in Hx', Hb.
  now rewrite Hb, app_nil_r in Hx' by reflexivity.
Qed.
End shutdown.

(** ** Concrete runs *)

Definition demo_io : io_config (list_queue message) := io_start (lq_new 2).
Definition demo_text (n : Z) : message := ("k", if (n =? 0)%Z then "a" else "b")%string.

Lemma persistence_conserves_witness :
  let c := writer_step true (bridge_step (demo_text 0) demo_io) in
  aq_view (Q:=list_queue message) (io_queue demo_io) = [] /\
  map snd (io_taken c) ++ aq_view (io_queue c) ++ in_hand (io_bridge c) = [demo_text 0].
Proof.
  intros c. split; [reflexivity |].
  assert (Hr : star io_step demo_io c)
    by (eapply star_step; [eapply star_step; [apply star_refl | apply io_step_bridge] | apply io_step_writer]).
  assert (Hq : aq_view (Q:=list_queue message) (lq_new 2) = []) by reflexivity.
  destruct (persistence_conserves (lq_new 2) c Hq Hr) as (Ho & _). exact Ho.
Defined.

Lemma shutdown_flushes_witness :
  let c := request_shutdown (bridge_step (demo_text 1) (bridge_step (demo_text 0) demo_io)) in
  let c' := writer_turns (repeat true 9) c in
  (looking (io_writer c) = true /\ io_shutdown c = true) /\
  io_acked c' = [demo_text 0; demo_text 1] /\ io_writer c' = WExit.
Proof.
  intros c c'. split; [split; reflexivity |].
  destruct (shutdown_flushes c (repeat true 9) eq_refl eq_refl) as (Hx & _ & _ & Ha); [vm_compute; lia |].
  split; [apply Ha; repeat constructor | exact Hx].
Defined.

(** The writer looks only at the queue, not at the bridge: a text that arrives
    after the queue was found empty stays behind. *)
Lemma text_after_exit_is_lost :
  let c := bridge_step (demo_text 0) (writer_turns (repeat true 3) (request_shutdown demo_io)) in
  star io_step demo_io c /\ io_writer c = WExit /\
  aq_view (Q:=list_queue message) (io_queue (writer_turns (repeat true 100) c)) = [demo_text 0].
Proof.
  cbv zeta. split; [| split; vm_compute; reflexivity]. cbn [writer_turns fold_left repeat].
  repeat (eapply star_step; [| apply io_step_bridge || apply io_step_writer || apply io_step_shutdown]). apply star_refl.
Qed.

(** With Redis down, a flush is tried again for every text drained above 512. *)
Lemma failed_drain_keeps_all (c : io_config (list_queue message)) :
  io_writer c = WDrainFlush -> io_buffer (writer_step false c) = io_buffer c.
Proof. intros Hw. unfold writer_step. now rewrite Hw. Qed.
