(* ===== verification/Connectors.v ===== *)
(** Which symbols the WebSocket connectors follow, and how their workers
    subscribe ([src/src/bybit.rs], [bitget.rs], [kucoin.rs], [okx.rs],
    [hyperliquid.rs], [paradex.rs], [binance.rs], and [lighter.rs], which the
    program has switched off).

    Every connector asks its exchange for the list of instruments, keeps the
    tradeable ones, sorts them and removes duplicates, cuts the list into batches
    of one connection each, and subscribes each batch in messages of a limited
    size.  The answers of the exchanges are arguments: the records below are what
    the code deserializes.  A subscription message is kept as what it asks for;
    its JSON text is the library's. *)
From Stdlib Require Import ZArith Lia Bool Ascii String.
From stdpp Require Import base option list sorting strings pretty.
From S2P Require Import Prelude NumberText Utils.

#[local] Open Scope string_scope.
#[local] Open Scope list_scope.
#[local] Open Scope Z_scope.

(** ** [sort] and [dedup] of a vector of strings *)

(** The order of [String]: by bytes. *)
Definition str_le (a b : string) : Prop := String.leb a b = true.
#[export] Instance str_le_decision a b : Decision (str_le a b) := decide (String.leb a b = true).

Definition sort (l : list string) : list string := merge_sort str_le l.

(** Of equal neighbours the first one stays. *)
Fixpoint dedup_from (x : string) (l : list string) : list string :=
  match l with
  | [] => [x]
  | y :: l => if String.eqb x y then dedup_from x l else x :: dedup_from y l
  end.
Definition dedup (l : list string) : list string :=
  match l with [] => [] | x :: l => dedup_from x l end.

(** ** The tradeable instruments *)
Module Bybit.
Definition TOPICS_PER_CONNECTION : nat := 100.
Definition SUBSCRIBE_BATCH_SIZE : nat := 10.
Definition SUBSCRIBE_BATCH_DELAY_MS : Z := 100.

Record InstrumentInfo := { ii_symbol : string; ii_status : string; ii_quote_coin : option string }.
Record InstrumentsInfoResult := { ir_list : list InstrumentInfo; ir_next_page_cursor : option string }.
Record InstrumentsInfoResponse := { ret_code : Z; ir_result : option InstrumentsInfoResult }.

Definition is_valid (i : InstrumentInfo) : bool :=
  String.eqb (ii_status i) "Trading" && bool_decide (ii_quote_coin i = Some "USDT").

Inductive fetch_error := RequestFailed (message : string) | ReturnedCode (code : Z).

Section fetch.
Context {W : Type} (instruments_info : option string -> ST W (result InstrumentsInfoResponse string)).

(** One page after the other until there is no further cursor; the number of
    pages is the server's, [None] if it never ends. *)
Fixpoint fetch_pages (fuel : nat) (cursor : option string) (symbols : list string)
  : ST W (option (result (list string) fetch_error)) :=
  match fuel with
  | O => ret None
  | S fuel =>
      (let! resp := instruments_info cursor in
       match resp with
       | Err e => ret (Some (Err (RequestFailed e)))
       | Ok resp =>
           if negb (ret_code resp =? 0) then ret (Some (Err (ReturnedCode (ret_code resp)))) else
           match ir_result resp with
           | None => ret (Some (Ok (dedup (sort symbols))))
           | Some r =>
               let symbols := symbols ++ map ii_symbol (List.filter is_valid (ir_list r)) in
               match ir_next_page_cursor r with
               | None => ret (Some (Ok (dedup (sort symbols))))
               | Some c => if String.eqb c "" then ret (Some (Ok (dedup (sort symbols))))
                           else fetch_pages fuel (Some c) symbols
               end
           end
       end)%st
  end.

Definition fetch_valid_linear_symbols (fuel : nat) := fetch_pages fuel None [].
End fetch.

Definition topics (symbols : list string) : list string :=
  map (fun s => "tickers." +:+ s) symbols ++ map (fun s => "funding." +:+ s) symbols.
End Bybit.

(** The exchanges that answer in one piece: a code and a list. *)
Definition listed {A} (ok : string) (valid : A -> bool) (symbol : A -> string) (code : string) (data : list A)
  : result (list string) string :=
  if negb (String.eqb code ok) then Err code else Ok (dedup (sort (map symbol (List.filter valid data)))).

Module Bitget.
Definition SYMBOLS_PER_CONNECTION : nat := 40.
Definition SUBSCRIBE_SYMBOLS_PER_MSG : nat := 20.
Definition SUBSCRIBE_BATCH_DELAY_MS : Z := 100.

Record BitgetContract := { bc_symbol : string; bc_quote_coin : string; bc_symbol_type : string; bc_symbol_status : string }.

Definition fetch_valid_usdt_perp_symbols (code : string) (data : list BitgetContract) :=
  listed "00000" (fun c => String.eqb (bc_quote_coin c) "USDT" && String.eqb (bc_symbol_type c) "perpetual" &&
                           String.eqb (bc_symbol_status c) "normal") bc_symbol code data.
End Bitget.

Module Kucoin.
Definition SYMBOLS_PER_CONNECTION : nat := 50.
Definition SUBSCRIBE_SYMBOLS_PER_MSG : nat := 20.
Definition SUBSCRIBE_BATCH_DELAY_MS : Z := 50.

Record ContractInfo := { ci_symbol : string; ci_status : string; ci_quote_currency : string; ci_settle_currency : string }.

Definition fetch_valid_contract_symbols (code : string) (data : list ContractInfo) :=
  listed "200000" (fun c => String.eqb (ci_status c) "Open" && String.eqb (ci_quote_currency c) "USDT" &&
                            String.eqb (ci_settle_currency c) "USDT") ci_symbol code data.

Record WsInstanceServer := { endpoint : string; ping_interval_ms : Z }.

(** The address to connect to and the interval of the pings. *)
Definition fetch_ws_endpoint_and_token (code token : string) (instance_servers : list WsInstanceServer) (now_nanos : Z)
  : result (string * Z) string :=
  if negb (String.eqb code "200000") then Err ("KuCoin bullet-public returned code=" +:+ code)
  else match instance_servers with
       | [] => Err "KuCoin bullet-public returned empty instanceServers"
       | server :: _ => Ok (endpoint server +:+ "?token=" +:+ token +:+ "&connectId=" +:+ pretty now_nanos,
                            ping_interval_ms server)
       end.
End Kucoin.

Module Okx.
Definition INSTRUMENTS_PER_CONNECTION : nat := 80.
Definition SUBSCRIBE_INSTRUMENTS_PER_MSG : nat := 25.
Definition SUBSCRIBE_BATCH_DELAY_MS : Z := 50.

Record OkxInstrument := { oi_inst_id : string; oi_state : string; oi_settle_ccy : string }.

Definition fetch_valid_usdt_swap_instruments (code : string) (data : list OkxInstrument) :=
  listed "0" (fun i => String.eqb (oi_state i) "live" && String.eqb (oi_settle_ccy i) "USDT") oi_inst_id code data.
End Okx.

Module Hyperliquid.
Definition COINS_PER_CONNECTION : nat := 50.
Definition SUBSCRIBE_BATCH_DELAY_MS : Z := 20.

Definition fetch_perp_coins (universe : list string) : list string := dedup (sort universe).
End Hyperliquid.

Module Paradex.
Definition MARKETS_PER_CONNECTION : nat := 15.
Definition SUBSCRIBE_BATCH_DELAY_MS : Z := 30.

Record ParadexMarket := { pm_symbol : string; pm_asset_kind : string; pm_quote_currency : string }.

Definition fetch_perp_markets (results : list ParadexMarket) : list string :=
  dedup (sort (map pm_symbol (List.filter
    (fun m => String.eqb (pm_asset_kind m) "PERP" && String.eqb (pm_quote_currency m) "USD") results))).
End Paradex.

Module Lighter.
Definition MARKETS_PER_CONNECTION : nat := 20.
Definition SUBSCRIBE_BATCH_DELAY_MS : Z := 25.

(** The markets are numbers; the exchange is not asked which there are. *)
Definition fetch_markets : list string := map (fun i => pretty (Z.of_nat i)) (seq 0 100).
End Lighter.

Module Binance.
Definition STREAMS_PER_CONNECTION : nat := 100.

Record ExchangeSymbol := { es_symbol : string; es_status : string; es_quote_asset : string; es_contract_type : string }.

Definition is_plain_byte (c : ascii) : bool :=
  let n := Z.of_nat (nat_of_ascii c) in ((48 <=? n) && (n <=? 57)) || ((65 <=? n) && (n <=? 90)).

Definition is_ascii (s : string) : bool :=
  forallb (fun c => Z.of_nat (nat_of_ascii c) <? 128) (list_ascii_of_string s).

Definition is_plain_usdt_symbol (symbol : string) : bool :=
  if negb (is_ascii symbol) then false
  else if negb (ends_with "USDT" symbol) then false
  else forallb is_plain_byte (list_ascii_of_string symbol).

(** Sorted only: this list keeps its duplicates. *)
Definition fetch_valid_usdt_perp_symbols (symbols : list ExchangeSymbol) : list string :=
  sort (map es_symbol (List.filter
    (fun s => String.eqb (es_status s) "TRADING" && String.eqb (es_quote_asset s) "USDT" &&
              String.eqb (es_contract_type s) "PERPETUAL" && is_plain_usdt_symbol (es_symbol s)) symbols)).

(** A worker of Binance counts its connection attempts in windows of five
    minutes, and waits longer the more there were.  Times are in milliseconds;
    [took] is how long the connection lasted. *)
Record worker := { wk_now : Z; wk_backoff_ms : Z; wk_attempts : Z; wk_last_reset : Z }.

Definition worker_start (now : Z) : worker :=
  {| wk_now := now; wk_backoff_ms := 0; wk_attempts := 0; wk_last_reset := now |}.

Definition reset_window (w : worker) : worker :=
  if 300 <=? (wk_now w - wk_last_reset w) / 1000
  then {| wk_now := wk_now w; wk_backoff_ms := wk_backoff_ms w; wk_attempts := 0; wk_last_reset := wk_now w |}
  else w.

Definition penalty_ms (attempts : Z) : Z := if 10 <? attempts then (attempts - 10) * 5000 else 0.

Definition worker_turn {E} (res : result unit E) (took : Z) (w : worker) : worker :=
  let w := reset_window w in
  let attempts := wk_attempts w + 1 in
  let connected := wk_now w + penalty_ms attempts in
  let '(slept, backoff_ms) := match res with
                              | Ok _ => (None, 0)
                              | Err _ => apply_backoff (wk_backoff_ms w)
                              end in
  {| wk_now := connected + took + default 0 slept + Z.max 2000 backoff_ms;
     wk_backoff_ms := backoff_ms; wk_attempts := attempts; wk_last_reset := wk_last_reset w |}.

Definition build_streams (symbols : list string) : list string :=
  s ← symbols; let sym := lower s in [sym +:+ "@markPrice@1s"; sym +:+ "@bookTicker"].
End Binance.

(** ** Subscriptions *)

(** A message that subscribes: to Bybit topics, to a channel for several
    instruments, to one topic of KuCoin with its symbols, to a coin's data on
    Hyperliquid, to a channel of Paradex or Lighter for one market. *)
Inductive subscription :=
| SubTopics (args : list string)
| SubChannel (channel : string) (inst_ids : list string)
| SubTopic (id : Z) (prefix : string) (symbols : list string)
| SubAnnouncement (id : Z)
| SubCoin (type coin : string)
| SubMarket (channel_type market : string).

(** The topic KuCoin is sent. *)
Definition topic_text (prefix : string) (symbols : list string) : string :=
  prefix +:+ ":" +:+ String.concat "," symbols.

Section subscribe.
Context {W E : Type} (send : subscription -> ST W (result unit E)) (sleep : Z -> ST W unit).

(** Each message followed by its delay, if it has one. *)
Fixpoint send_each (ms : list (subscription * Z)) : ST W (result unit E) :=
  match ms with
  | [] => ret (Ok tt)
  | (m, delay_ms) :: ms =>
      (let? _ := send m in
       do! (if 0 <? delay_ms then sleep delay_ms else ret tt) in
       send_each ms)%st
  end.

Fixpoint each_chunk {X} (body : X -> ST W (result unit E)) (l : list X) : ST W (result unit E) :=
  match l with
  | [] => ret (Ok tt)
  | x :: l => (let? _ := body x in each_chunk body l)%st
  end.

Definition bybit_subscribe (topics : list string) : ST W (result unit E) :=
  subscribe_in_batches sleep topics Bybit.SUBSCRIBE_BATCH_SIZE Bybit.SUBSCRIBE_BATCH_DELAY_MS
    (fun chunk => send (SubTopics chunk)).

Definition bitget_subscribe (symbols : list string) : ST W (result unit E) :=
  each_chunk (fun chunk => send_each [(SubChannel "ticker" chunk, Bitget.SUBSCRIBE_BATCH_DELAY_MS);
                                      (SubChannel "books5" chunk, Bitget.SUBSCRIBE_BATCH_DELAY_MS)])
    (chunks Bitget.SUBSCRIBE_SYMBOLS_PER_MSG symbols).

(** The ids of the messages count on from 2. *)
Definition kucoin_topics : list string :=
  ["/contractMarket/tickerV2"; "/contractMarket/level2"; "/contract/instrument"].
Definition kucoin_messages (sub_id : Z) (chunk : list string) : list (subscription * Z) :=
  imap (fun i topic => (SubTopic (sub_id + Z.of_nat i + 1) topic chunk, Kucoin.SUBSCRIBE_BATCH_DELAY_MS)) kucoin_topics.

Fixpoint kucoin_chunks (sub_id : Z) (cs : list (list string)) : ST W (result unit E) :=
  match cs with
  | [] => send (SubAnnouncement (sub_id + 1))
  | chunk :: cs =>
      (let? _ := send_each (kucoin_messages sub_id chunk) in
       kucoin_chunks (sub_id + Z.of_nat (length kucoin_topics)) cs)%st
  end.
Definition kucoin_subscribe (symbols : list string) : ST W (result unit E) :=
  kucoin_chunks 1 (chunks Kucoin.SUBSCRIBE_SYMBOLS_PER_MSG symbols).

Definition okx_subscribe (inst_ids : list string) : ST W (result unit E) :=
  subscribe_in_batches sleep inst_ids Okx.SUBSCRIBE_INSTRUMENTS_PER_MSG 0
    (fun chunk => send_each (map (fun channel => (SubChannel channel chunk, Okx.SUBSCRIBE_BATCH_DELAY_MS))
                               ["tickers"; "funding-rate"; "books5"])).

Definition hyperliquid_subscribe (coins : list string) : ST W (result unit E) :=
  each_chunk (fun coin => send_each [(SubCoin "activeAssetCtx" coin, 0);
                                     (SubCoin "bbo" coin, Hyperliquid.SUBSCRIBE_BATCH_DELAY_MS)]) coins.

Definition paradex_subscribe (markets : list string) : ST W (result unit E) :=
  each_chunk (fun market => send_each [(SubMarket "bbo" market, 0);
                                       (SubMarket "funding_data" market, Paradex.SUBSCRIBE_BATCH_DELAY_MS)]) markets.

Definition lighter_subscribe (markets : list string) : ST W (result unit E) :=
  each_chunk (fun market => send_each [(SubMarket "market_stats" market, 0);
                                       (SubMarket "order_book" market, Lighter.SUBSCRIBE_BATCH_DELAY_MS)]) markets.
End subscribe.

(** A connector, for what its workers subscribe to: how the symbols become the
    items of the batches, how many items a connection has, and what is sent. *)
Record connector (W E : Type) := {
  cn_items : list string -> list string;
  cn_per_connection : nat;
  cn_subscribe : (subscription -> ST W (result unit E)) -> (Z -> ST W unit) -> list string -> ST W (result unit E)
}.
Arguments cn_items {W E} _.
Arguments cn_per_connection {W E} _.
Arguments cn_subscribe {W E} _.

Section connectors.
Context {W E : Type}.

Definition bybit_connector : connector W E :=
  {| cn_items := Bybit.topics; cn_per_connection := Bybit.TOPICS_PER_CONNECTION; cn_subscribe := bybit_subscribe |}.
Definition bitget_connector : connector W E :=
  {| cn_items := id; cn_per_connection := Bitget.SYMBOLS_PER_CONNECTION; cn_subscribe := bitget_subscribe |}.
Definition kucoin_connector : connector W E :=
  {| cn_items := id; cn_per_connection := Kucoin.SYMBOLS_PER_CONNECTION; cn_subscribe := kucoin_subscribe |}.
Definition okx_connector : connector W E :=
  {| cn_items := id; cn_per_connection := Okx.INSTRUMENTS_PER_CONNECTION; cn_subscribe := okx_subscribe |}.
Definition hyperliquid_connector : connector W E :=
  {| cn_items := id; cn_per_connection := Hyperliquid.COINS_PER_CONNECTION; cn_subscribe := hyperliquid_subscribe |}.
Definition paradex_connector : connector W E :=
  {| cn_items := id; cn_per_connection := Paradex.MARKETS_PER_CONNECTION; cn_subscribe := paradex_subscribe |}.
Definition lighter_connector : connector W E :=
  {| cn_items := id; cn_per_connection := Lighter.MARKETS_PER_CONNECTION; cn_subscribe := lighter_subscribe |}.

(** [run]: one worker for each batch. *)
Definition worker_batches (c : connector W E) (symbols : list string) : list (list string) :=
  chunk_vec (cn_items c symbols) (cn_per_connection c).
End connectors.
