(* ===== verification/ConnectorSpec.v ===== *)
(** What the connectors subscribe to ([Connectors.v]): every tradeable symbol,
    each of its channels once, within the limits of messages and connections; and
    the reconnects of a Binance worker. *)
From Stdlib Require Import ZArith Lia Bool Ascii String OrderedTypeEx.
From stdpp Require Import base option list sorting strings.
From S2P Require Import Prelude NumberText Utils Connectors.

#[local] Open Scope string_scope.
#[local] Open Scope list_scope.
#[local] Open Scope Z_scope.

(** ** Sorting *)

Lemma str_le_compare a b : str_le a b <-> String.compare a b <> Gt.
Proof. unfold str_le, String.leb. destruct (String.compare a b); split; congruence. Qed.

#[local] Instance str_le_trans : Transitive str_le.
Proof.
  intros a b c. rewrite !str_le_compare. intros Hab Hbc.
  destruct (String.compare a b) eqn:Eab; [| | congruence].
  - apply String.compare_eq_iff in Eab. now subst.
  - destruct (String.compare b c) eqn:Ebc; [| | congruence].
    + apply String.compare_eq_iff in Ebc. subst. congruence.
    + apply String_as_OT.cmp_lt in Eab, Ebc. pose proof (String_as_OT.lt_trans _ _ _ Eab Ebc) as Hac.
      apply String_as_OT.cmp_lt in Hac. change (String.compare a c = Lt) in Hac. congruence.
Qed.
#[local] Instance str_le_total : Total str_le.
Proof. intros a b. apply String.leb_total. Qed.





(** ** What a worker asks for *)

Definition asks (m : subscription) : list (string * string) :=
  match m with
  | SubTopics args => pair "" <$> args
  | SubChannel channel ids => pair channel <$> ids
  | SubTopic _ prefix symbols => pair prefix <$> symbols
  | SubAnnouncement _ => []
  | SubCoin type coin => [(type, coin)]
  | SubMarket channel_type market => [(channel_type, market)]
  end.

(** A connection that accepts every message, and its record of them. *)
Definition log_send (m : subscription) : ST (list subscription) (result unit unit) := fun log => (Ok tt, log ++ [m]).
Definition log_sleep (ms : Z) : ST (list subscription) unit := ret tt.

Abbreviation logged := (connector (list subscription) unit).

Definition worker_log (c : logged) (batch : list string) : list subscription :=
  snd (cn_subscribe c log_send log_sleep batch []).

(** The messages of all the workers. *)
Definition subscribed (c : logged) (symbols : list string) : list subscription :=
  b ← worker_batches c symbols; worker_log c b.

Definition pairs (channels items : list string) : list (string * string) :=
  i ← items; (fun ch => (ch, i)) <$> channels.

(** A body that sends what [ms] says and succeeds. *)
Definition sends {X} (body : X -> ST (list subscription) (result unit unit)) (ms : X -> list subscription) : Prop :=
  forall x log, body x log = (Ok tt, log ++ ms x).

Lemma sends_each (l : list (subscription * Z)) log : send_each log_send log_sleep l log = (Ok tt, log ++ l.*1).
Proof.
  revert log. induction l as [| [m d] l IH]; intros log; cbn [send_each]; [cbn; now rewrite app_nil_r |].
  unfold bind_ok, bind, log_send at 1. replace ((if 0 <? d then log_sleep d else ret tt) (log ++ [m])) with (tt, log ++ [m])
    by now destruct (0 <? d). rewrite IH, <- app_assoc. reflexivity.
Qed.

Lemma sends_chunks {X} (body : X -> ST (list subscription) (result unit unit)) ms l log :
  sends body ms -> each_chunk body l log = (Ok tt, log ++ (l ≫= ms)).
Proof.
  intros Hb. revert log. induction l as [| x l IH]; intros log; cbn; [now rewrite app_nil_r |].
  unfold bind_ok. rewrite Hb, IH, <- app_assoc. reflexivity.
Qed.


(** ** The law of a connector *)

(** A worker asks for every channel of every item of its batch, and nothing else. *)
Record connector_law (c : logged) (channels : list string) : Prop := {
  law_asks items : worker_log c items ≫= asks ≡ₚ pairs channels items;
  law_channels : NoDup channels;
  law_room : (0 < cn_per_connection c)%nat;
  law_items symbols : NoDup symbols -> NoDup (cn_items c symbols)
}.

Lemma pairs_app chs a b : pairs chs (a ++ b) = pairs chs a ++ pairs chs b.
Proof. apply bind_app. Qed.



(** Chunk by chunk is the same as all at once. *)
Lemma chunked_asks (f : list string -> list subscription) channels n l :
  (0 < n)%nat -> (forall c, f c ≫= asks ≡ₚ pairs channels c) ->
  (chunks n l ≫= f) ≫= asks ≡ₚ pairs channels l.
Proof.
  intros Hn Hf. destruct (concat_chunks (length l) n l Hn (le_n _)) as [Hc _].
  rewrite <- Hc at 2. fold (chunks n l). generalize (chunks n l) as cs.
  induction cs as [| c cs IH]; [reflexivity |]. cbn [concat mbind list_bind]. cbn.
  rewrite bind_app, pairs_app, <- IH, <- Hf. reflexivity.
Qed.

Lemma each_asks (f : string -> list subscription) channels l :
  (forall i, f i ≫= asks ≡ₚ pairs channels [i]) -> (l ≫= f) ≫= asks ≡ₚ pairs channels l.
Proof.
  intros Hf. induction l as [| i l IH]; [reflexivity |]. change (i :: l) with ([i] ++ l).
  rewrite pairs_app, !bind_app, <- IH, <- Hf. cbn. now rewrite app_nil_r.
Qed.


Lemma worker_log_sends (c : logged) items log :
  (forall w, cn_subscribe c log_send log_sleep items w = (Ok tt, w ++ log)) -> worker_log c items = log.
Proof. intros Hl. unfold worker_log. now rewrite Hl. Qed.


Ltac law_fields := split; [intros items | apply (bool_decide_unpack _); vm_compute; exact I | apply Nat.ltb_lt; reflexivity |].












Lemma workers_asks c channels symbols :
  connector_law c channels -> subscribed c symbols ≫= asks ≡ₚ pairs channels (cn_items c symbols).
Proof.
  intros [Ha _ Hr _]. unfold subscribed, worker_batches.
  destruct (proj1 (chunk_vec_chunks (cn_items c symbols) (cn_per_connection c)) ltac:(lia)) as (Hch & Hcc & _).
  rewrite Hch. now apply chunked_asks.
Qed.

(** ** From the exchange's list to the subscriptions *)

(** What an exchange answers to the question for its instruments.  Bybit answers in
    pages, each with the cursor of the next one; Bitget, KuCoin and OKX with a code. *)
Inductive listing :=
| OfBybit (page : list Bybit.InstrumentInfo) (further : list (string * list Bybit.InstrumentInfo))
| OfBitget (code : string) (data : list Bitget.BitgetContract)
| OfKucoin (code : string) (data : list Kucoin.ContractInfo)
| OfOkx (code : string) (data : list Okx.OkxInstrument)
| OfHyperliquid (universe : list string)
| OfParadex (results : list Paradex.ParadexMarket).

(** Bybit's pages in order: a question is answered if it has the cursor that was given
    for it. *)
Fixpoint bybit_pages (cursor : option string) (page : list Bybit.InstrumentInfo)
  (further : list (string * list Bybit.InstrumentInfo)) : list (option string * Bybit.InstrumentsInfoResponse) :=
  let answer next := (cursor, {| Bybit.ret_code := 0;
    Bybit.ir_result := Some {| Bybit.ir_list := page; Bybit.ir_next_page_cursor := next |} |}) in
  match further with
  | [] => [answer None]
  | (next, page') :: further =>
      let next := Some ("page=" +:+ next) in answer next :: bybit_pages next page' further
  end.

Definition bybit_server (cursor : option string)
  : ST (list (option string * Bybit.InstrumentsInfoResponse)) (result Bybit.InstrumentsInfoResponse string) :=
  fun pages => match pages with
               | (expected, answer) :: pages => if decide (cursor = expected) then (Ok answer, pages) else (Err "bad cursor", pages)
               | [] => (Err "no such page", [])
               end.

(** The names a connector follows: none if it could not get the list. *)
Definition names {E} (r : result (list string) E) : list string := match r with Ok symbols => symbols | Err _ => [] end.

Definition followed (l : listing) : list string :=
  match l with
  | OfBybit page further =>
      match fst (Bybit.fetch_valid_linear_symbols bybit_server (S (length further)) (bybit_pages None page further)) with
      | Some r => names r | None => [] end
  | OfBitget code data => names (Bitget.fetch_valid_usdt_perp_symbols code data)
  | OfKucoin code data => names (Kucoin.fetch_valid_contract_symbols code data)
  | OfOkx code data => names (Okx.fetch_valid_usdt_swap_instruments code data)
  | OfHyperliquid universe => Hyperliquid.fetch_perp_coins universe
  | OfParadex results => Paradex.fetch_perp_markets results
  end.

Definition connector_of (l : listing) : logged :=
  match l with
  | OfBybit _ _ => bybit_connector | OfBitget _ _ => bitget_connector | OfKucoin _ _ => kucoin_connector
  | OfOkx _ _ => okx_connector | OfHyperliquid _ => hyperliquid_connector | OfParadex _ => paradex_connector
  end.

(** What all the workers ask for. *)
Definition asked (l : listing) : list (string * string) := subscribed (connector_of l) (followed l) ≫= asks.













(** Two pages of Bybit with a name on both and one that is not tradeable. *)
Example bybit_asked :
  let i s status := {| Bybit.ii_symbol := s; Bybit.ii_status := status; Bybit.ii_quote_coin := Some "USDT" |} in
  asked (OfBybit [i "SOLUSDT" "Trading"; i "OLDUSDT" "Closed"] [("2", [i "ADAUSDT" "Trading"; i "SOLUSDT" "Trading"])]) =
    [("", "tickers.ADAUSDT"); ("", "tickers.SOLUSDT"); ("", "funding.ADAUSDT"); ("", "funding.SOLUSDT")].
Proof. vm_compute. reflexivity. Qed.

Example kucoin_log :
  subscribed kucoin_connector (dedup (sort ["SOLUSDTM"; "ADAUSDTM"; "SOLUSDTM"])) =
    [SubTopic 2 "/contractMarket/tickerV2" ["ADAUSDTM"; "SOLUSDTM"];
     SubTopic 3 "/contractMarket/level2" ["ADAUSDTM"; "SOLUSDTM"];
     SubTopic 4 "/contract/instrument" ["ADAUSDTM"; "SOLUSDTM"]; SubAnnouncement 5].
Proof. vm_compute. reflexivity. Qed.

(** ** Lighter *)

Lemma lighter_law : connector_law lighter_connector ["market_stats"; "order_book"].
Proof.
  law_fields; [| auto].
  erewrite worker_log_sends; [| intros w; apply sends_chunks; intros c log; apply sends_each].
  now apply (each_asks (fun i => [SubMarket "market_stats" i; SubMarket "order_book" i])).
Qed.

(** The hundred markets in five connections: every one is asked for once in each of
    the two channels. *)
Lemma lighter_markets :
  length (worker_batches (lighter_connector : logged) Lighter.fetch_markets) = 5%nat /\
  subscribed lighter_connector Lighter.fetch_markets ≫= asks ≡ₚ
    pairs ["market_stats"; "order_book"] Lighter.fetch_markets.
Proof. split; [reflexivity | apply (workers_asks _ _ _ lighter_law)]. Qed.

(** ** Binance: attempts in a window *)

(** What [n] turns of one window take at least. *)
Definition min_elapsed (n : Z) : Z := 2000 * n + 2500 * (Z.max 0 (n - 10) * (Z.max 0 (n - 10) + 1)).

Lemma min_elapsed_next n : 0 <= n -> min_elapsed (n + 1) = min_elapsed n + 2000 + Binance.penalty_ms (n + 1).
Proof. intros Hn. unfold min_elapsed, Binance.penalty_ms. destruct (Z.ltb_spec 10 (n + 1)); nia. Qed.

Lemma min_elapsed_mono n m : 0 <= n <= m -> min_elapsed n <= min_elapsed m.
Proof. intros H. unfold min_elapsed. nia. Qed.

Definition worker_ok (w : Binance.worker) : Prop :=
  0 <= Binance.wk_backoff_ms w /\ 0 <= Binance.wk_attempts w <= 20 /\
  min_elapsed (Binance.wk_attempts w) <= Binance.wk_now w - Binance.wk_last_reset w.

Lemma reset_window_ok w : worker_ok w ->
  0 <= Binance.wk_backoff_ms (Binance.reset_window w) /\ 0 <= Binance.wk_attempts (Binance.reset_window w) <= 19 /\
  min_elapsed (Binance.wk_attempts (Binance.reset_window w)) <=
    Binance.wk_now (Binance.reset_window w) - Binance.wk_last_reset (Binance.reset_window w).
Proof.
  intros (Hb & Ha & He). unfold Binance.reset_window. destruct (Z.leb_spec 300 ((Binance.wk_now w - Binance.wk_last_reset w) / 1000)) as [Hr | Hr].
  - cbn. unfold min_elapsed. lia.
  - split; [exact Hb |]. split; [| exact He]. split; [lia |].
    destruct (Z.le_gt_cases (Binance.wk_attempts w) 19) as [Hle | Hgt]; [exact Hle | exfalso].
    pose proof (min_elapsed_mono 20 (Binance.wk_attempts w) ltac:(lia)) as Hm.
    assert (H20 : min_elapsed 20 = 315000) by reflexivity.
    pose proof (Z.mul_succ_div_gt (Binance.wk_now w - Binance.wk_last_reset w) 1000 ltac:(lia)). lia.
Qed.

Lemma worker_turn_ok {E} (res : result unit E) took w :
  0 <= took -> worker_ok w -> worker_ok (Binance.worker_turn res took w) /\
  Binance.wk_now w + 2000 <= Binance.wk_now (Binance.worker_turn res took w).
Proof.
  intros Ht Hw. apply reset_window_ok in Hw as (Hb & Ha & He).
  assert (Hnow : Binance.wk_now (Binance.reset_window w) = Binance.wk_now w)
    by (unfold Binance.reset_window; now destruct (300 <=? _)).
  unfold Binance.worker_turn. set (v := Binance.reset_window w) in *. clearbody v.
  assert (Hs : exists slept b, (match res with Ok _ => (None, 0) | Err _ => apply_backoff (Binance.wk_backoff_ms v) end) = (slept, b) /\
    0 <= default 0 slept /\ 0 <= b).
  { destruct res as [u | e]; [now exists None, 0 |]. unfold apply_backoff.
    destruct (Z.ltb_spec 0 (Binance.wk_backoff_ms v)); eexists _, _; (split; [reflexivity |]); cbn; [| lia].
    pose proof (wrap64_range (Binance.wk_backoff_ms v * 2)) as Hr. unfold in_u64 in Hr. lia. }
  destruct Hs as (slept & b & -> & Hsl & Hb'). pose proof (min_elapsed_next (Binance.wk_attempts v) ltac:(lia)) as Hn.
  unfold worker_ok. cbn [Binance.wk_now Binance.wk_backoff_ms Binance.wk_attempts Binance.wk_last_reset].
  assert (Hp : 0 <= Binance.penalty_ms (Binance.wk_attempts v + 1)) by (unfold Binance.penalty_ms; destruct (Z.ltb_spec 10 (Binance.wk_attempts v + 1)); lia).
  lia.
Qed.

(** However the connections of a worker end and however long they last: it makes at
    most twenty attempts in a window of five minutes and waits at least two
    seconds between two of them; eleven workers stay below Binance's 300. *)
Lemma binance_attempts_bounded {E} (turns : list (result unit E * Z)) now :
  Forall (fun t => 0 <= snd t) turns ->
  let w := fold_left (fun w t => Binance.worker_turn (fst t) (snd t) w) turns (Binance.worker_start now) in
  Binance.wk_attempts w <= 20 /\ now + 2000 * Z.of_nat (length turns) <= Binance.wk_now w.
Proof.
  intros Ht w. enough (H : worker_ok w /\ now + 2000 * Z.of_nat (length turns) <= Binance.wk_now w)
    by (destruct H as [(_ & Ha & _) Hw]; lia).
  subst w. induction turns as [| t turns IH] using rev_ind; [cbn; unfold worker_ok, min_elapsed; cbn; lia |].
  apply Forall_app in Ht as [Ht Hl]. apply Forall_inv in Hl. rewrite fold_left_app, length_app. cbn [fold_left length].
  destruct (IH Ht) as [Hok Hnow]. destruct (worker_turn_ok (fst t) (snd t) _ Hl Hok) as [Hok' Hnow']. split; [exact Hok' | lia].
Qed.
