(* ===== verification/Sessions.v ===== *)
(** What the WebSocket connectors do with a message ([src/src/bybit.rs],
    [bitget.rs], [kucoin.rs], [okx.rs], [hyperliquid.rs], [paradex.rs],
    [binance.rs], [lighter.rs]): the Redis key it is stored under, the text that is stored, and
    the update that is pushed when the connector has a producer.

    A handler is the part of the loop after the message was parsed.  It answers
    the connector's state, the updates it pushed, and the texts it sends in order;
    [None] is the error that ends the connection.  [session_run] is the loop: it
    stops at the first text the channel refuses.  JSON texts and values are the
    libraries'; [JsonObject] is what the code uses of mutable objects. *)
From Stdlib Require Import ZArith Lia Bool Ascii String.
From stdpp Require Import base option list gmap strings.
From S2P Require Import Prelude Float64 NumberText Types ExchangeParser Ingest.

#[local] Open Scope string_scope.
#[local] Open Scope list_scope.
#[local] Open Scope Z_scope.

#[local] Infix ".>" := and_then (at level 50, left associativity).

(** [as_object], an object with given fields, [serde_json::to_string(..).ok()]. *)
Class JsonObject (V : Type) := {
  j_object : V -> option (gmap string V);
  j_of_object : gmap string V -> V;
  j_to_string : V -> option string
}.

(** [get] of a string looks at the fields of an object and finds nothing in any
    other value. *)
Class JsonObjectLaws (V : Type) `{Json V, JsonObject V} := {
  j_get_object k (v : V) : j_get k v = match j_object v with Some m => m !! k | None => None end;
  j_object_of (m : gmap string V) : j_object (j_of_object m) = Some m
}.

(** [trim_start_matches(p)] for a non-empty [p]. *)
Fixpoint trim_start_fuel (fuel : nat) (p s : string) : string :=
  match fuel with
  | O => s
  | S fuel => if String.prefix p s
              then trim_start_fuel fuel p (String.substring (String.length p) (String.length s - String.length p) s)
              else s
  end.
Definition trim_start_matches (p s : string) : string := trim_start_fuel (String.length s) p s.

(** [split(c).nth(n)] *)
Definition split_nth (c : ascii) (n : nat) (s : string) : option string := split_char c s !! n.

Record handled (S : Type) := {
  hd_state : S;
  hd_updates : list MarketUpdate;
  hd_sends : option (list message)
}.
Arguments hd_state {S} _.
Arguments hd_updates {S} _.
Arguments hd_sends {S} _.

Section handlers.
Context {V : Type} `{Json V, JsonObject V}.
Abbreviation state := (gmap string V).

(** [continue] *)
Definition skip (st : state) : handled state := {| hd_state := st; hd_updates := []; hd_sends := Some [] |}.

(** [let payload = serde_json::to_string(&v)?; tx.send((key, payload))] *)
Definition publish (key : string) (v : V) : option (list message) :=
  j_to_string v .> (fun payload => Some [(key, payload)]).

Definition f64_at (ks : list string) (v : V) : option f64 := str_at ks v .> std_parse_f64.

(** The update pushed for a bid and an ask, if the symbol is in the static table. *)
Definition pushed (producer : bool) (symbol : string) (bid ask : option f64) (timestamp_us : Z)
  : list MarketUpdate :=
  match bid, ask, symbol_to_id symbol with
  | Some bid, Some ask, Some symbol_id =>
      if producer then [MarketUpdate_new symbol_id bid ask timestamp_us] else []
  | _, _, _ => []
  end.

(** ** Objects that are changed in place *)

(** [for (k, v) in new { obj.insert(k, v) }] *)
Definition insert_all (new obj : gmap string V) : gmap string V :=
  map_fold (fun k v obj => <[k := v]> obj) obj new.

Definition change_object (f : gmap string V -> gmap string V) (v : V) : V :=
  match j_object v with Some obj => j_of_object (f obj) | None => v end.

(** [get_mut(key)] followed by a change of the value found. *)
Definition change_at (key : string) (f : V -> V) (v : V) : V := change_object (alter f key) v.

(** ** Bybit *)
Definition bybit_topic (topic : string) : option (string * string) :=
  if String.prefix "tickers." topic then Some ("tickers", trim_start_matches "tickers." topic)
  else if String.prefix "funding." topic then Some ("funding", trim_start_matches "funding." topic)
  else None.

(** The delta [v] with its data merged into what is known of the symbol. *)
Definition merge_ticker (v data known : V) : V :=
  let merged := change_at "data" (fun state_data =>
    match j_object data with
    | Some new_data => change_object (insert_all new_data) state_data
    | None => state_data
    end) known in
  change_object (insert_all (delete "data" (default ∅ (j_object v)))) merged.

Definition bybit_handle (producer : bool) (now : Z) (v : V) (ticker_state : state) : handled state :=
  match str_at ["topic"] v .> bybit_topic with
  | None => skip ticker_state
  | Some (key_type, symbol) =>
      let key := "bybit:linear:" +:+ key_type +:+ ":" +:+ symbol in
      if String.eqb key_type "tickers" then
        match j_get "data" v with
        | None => skip ticker_state
        | Some data =>
            let merged := merge_ticker v data (default v (ticker_state !! symbol)) in
            {| hd_state := <[symbol := merged]> ticker_state;
               hd_updates := pushed producer symbol (f64_at ["bid1Price"] data) (f64_at ["ask1Price"] data) now;
               hd_sends := publish key merged |}
        end
      else {| hd_state := ticker_state; hd_updates := []; hd_sends := publish key v |}
  end.

(** ** Bitget: a ticker is stored under two keys; a text that cannot be written is
    skipped. *)
Definition bitget_handle (producer : bool) (now : Z) (v : V) (st : state) : handled state :=
  match str_at ["arg"; "channel"] v, str_at ["arg"; "instId"] v, j_to_string v with
  | Some channel, Some inst_id, Some payload =>
      let sends :=
        if String.eqb channel "ticker" then
          [("bitget:usdt:tickers:" +:+ inst_id, payload); ("bitget:usdt:funding:" +:+ inst_id, payload)]
        else if String.eqb channel "books5" then [("bitget:usdt:book:" +:+ inst_id, payload)]
        else [] in
      {| hd_state := st; hd_updates := []; hd_sends := Some sends |}
  | _, _, _ => skip st
  end.

(** ** KuCoin *)
Definition kucoin_symbol (topic : string) (data : option V) : option string :=
  match data .> str_at ["symbol"] with
  | Some symbol => Some symbol
  | None => split_nth ":" 1 topic
  end.

Definition kucoin_redis_key_and_payload (topic subject : string) (data : option V) (full : V) : option message :=
  let with_key key := j_to_string full .> (fun payload => Some (key, payload)) in
  if String.prefix "/contractMarket/tickerV2:" topic then
    kucoin_symbol topic data .> (fun symbol => with_key ("kucoin:futures:tickerV2:" +:+ symbol))
  else if String.prefix "/contractMarket/level2:" topic then
    split_nth ":" 1 topic .> (fun symbol => with_key ("kucoin:futures:level2:" +:+ symbol))
  else if String.prefix "/contract/instrument:" topic then
    split_nth ":" 1 topic .> (fun symbol => with_key ("kucoin:futures:instrument:" +:+ symbol +:+ ":" +:+ subject))
  else if String.eqb topic "/contract/announcement" then
    (data .> str_at ["symbol"]) .>
      (fun symbol => with_key ("kucoin:futures:funding_settlement:" +:+ symbol +:+ ":" +:+ subject))
  else None.

Definition kucoin_handle (producer : bool) (now : Z) (v : V) (symbol_state : state) : handled state :=
  if negb (bool_decide (str_at ["type"] v = Some "message")) then skip symbol_state else
  match str_at ["topic"] v with
  | None => skip symbol_state
  | Some topic =>
      let subject := default "" (str_at ["subject"] v) in
      let data := j_get "data" v in
      if String.prefix "/contractMarket/tickerV2:" topic then
        match kucoin_symbol topic data with
        | None => skip symbol_state
        | Some symbol =>
            let merged := match j_object v with
                          | Some new_obj => change_object (insert_all new_obj) (default v (symbol_state !! symbol))
                          | None => default v (symbol_state !! symbol)
                          end in
            {| hd_state := <[symbol := merged]> symbol_state; hd_updates := [];
               hd_sends := publish ("kucoin:futures:tickerV2:" +:+ symbol) merged |}
        end
      else if String.prefix "/contract/instrument:" topic && String.eqb subject "funding.rate" then
        match split_nth ":" 1 topic with
        | None => skip symbol_state
        | Some symbol =>
            {| hd_state := symbol_state; hd_updates := [];
               hd_sends := publish ("kucoin:futures:instrument:" +:+ symbol +:+ ":" +:+ subject) v |}
        end
      else
        {| hd_state := symbol_state; hd_updates := [];
           hd_sends := Some (option_list (kucoin_redis_key_and_payload topic subject data v)) |}
  end.

(** ** OKX *)

(** [data.bids[0][0]] *)
Definition best_of_book (side : string) (data : V) : option f64 :=
  get_path [side] data .> nth_of 0 .> nth_of 0 .> j_as_str .> std_parse_f64.

Definition okx_quote (channel : string) (v : V) : option f64 * option f64 :=
  match get_path ["data"] v .> nth_of 0 with
  | None => (None, None)
  | Some data =>
      if String.eqb channel "tickers" then (f64_at ["bidPx"] data, f64_at ["askPx"] data)
      else (best_of_book "bids" data, best_of_book "asks" data)
  end.

Definition okx_handle (producer : bool) (now : Z) (v : V) (st : state) : handled state :=
  match str_at ["arg"; "channel"] v, str_at ["arg"; "instId"] v with
  | Some channel, Some inst_id =>
      let updates :=
        if String.eqb channel "tickers" || String.eqb channel "books5"
        then let '(bid, ask) := okx_quote channel v in
             pushed producer (remove_char "-" inst_id) bid ask now
        else [] in
      let sends :=
        if String.eqb channel "tickers" then publish ("okx:usdt:tickers:" +:+ inst_id) v
        else if String.eqb channel "funding-rate" then publish ("okx:usdt:funding:" +:+ inst_id) v
        else if String.eqb channel "books5" then publish ("okx:usdt:book:" +:+ inst_id) v
        else Some [] in
      {| hd_state := st; hd_updates := updates; hd_sends := sends |}
  | _, _ => skip st
  end.

(** ** Hyperliquid *)
Definition hyperliquid_handle (producer : bool) (now : Z) (v : V) (st : state) : handled state :=
  let channel := default "" (str_at ["channel"] v) in
  if negb (String.eqb channel "activeAssetCtx") && negb (String.eqb channel "bbo") then skip st else
  match str_at ["data"; "coin"] v with
  | None => skip st
  | Some coin =>
      let key := if String.eqb channel "activeAssetCtx" then "hyperliquid:usdc:ctx:" +:+ coin
                 else "hyperliquid:usdc:bbo:" +:+ coin in
      {| hd_state := st; hd_updates := []; hd_sends := publish key v |}
  end.

(** ** Paradex *)
Definition paradex_handle (producer : bool) (now : Z) (v : V) (st : state) : handled state :=
  if negb (String.eqb (default "" (str_at ["method"] v)) "subscription") then skip st else
  let channel := default "" (str_at ["params"; "channel"] v) in
  match str_at ["params"; "data"; "market"] v with
  | None => skip st
  | Some market =>
      let channel_type := default "" (head (split_char "." channel)) in
      {| hd_state := st; hd_updates := [];
         hd_sends := publish ("paradex:usdt:" +:+ channel_type +:+ ":" +:+ market) v |}
  end.

(** ** Lighter *)
Definition lighter_handle (producer : bool) (now : Z) (v : V) (st : state) : handled state :=
  let channel := default "" (str_at ["channel"] v) in
  if negb (String.prefix "market_stats/" channel) && negb (String.prefix "order_book/" channel) then skip st else
  let market_id := if String.prefix "market_stats/" channel then trim_start_matches "market_stats/" channel
                   else trim_start_matches "order_book/" channel in
  {| hd_state := st; hd_updates := []; hd_sends := publish ("lighter:usdt:data:" +:+ market_id) v |}.

(** ** Binance: combined streams *)
Definition redis_key_for (stream_name symbol : string) : option string :=
  if ends_with "@bookTicker" stream_name then Some ("binance:usdm:book:" +:+ symbol)
  else if has_substring "@markPrice" stream_name then Some ("binance:usdm:mark:" +:+ symbol)
  else None.

Definition binance_handle (producer : bool) (now : Z) (v : V) (st : state) : handled state :=
  match str_at ["stream"] v, j_get "data" v with
  | Some stream_name, Some data =>
      match str_at ["s"] data with
      | None => skip st
      | Some symbol =>
          let updates := if ends_with "@bookTicker" stream_name
                         then pushed producer symbol (f64_at ["b"] data) (f64_at ["a"] data) now else [] in
          {| hd_state := st; hd_updates := updates;
             hd_sends := match redis_key_for stream_name symbol with
                         | None => Some []
                         | Some key => publish key data
                         end |}
      end
  | _, _ => skip st
  end.

(** ** The loop of a connection *)
Inductive frame := FText (text : string) | FBinary (bytes : string) | FPing | FPong | FClose | FRaw.

(** What [select!] yields: the ping timer, with the outcome of the ping sent, or
    the next item of the stream. *)
Inductive event := EvTick (sent : bool) | EvRead (item : option (result frame string)).

Definition frame_bytes (f : frame) : option string :=
  match f with FText s | FBinary s => Some s | _ => None end.

Record session_result := {
  sn_updates : list MarketUpdate;
  sn_sent : list message;
  sn_end : option (result unit string)       (* [None]: still connected *)
}.

Definition session_after (us : list MarketUpdate) (ms : list message) (r : session_result) : session_result :=
  {| sn_updates := us ++ sn_updates r; sn_sent := ms ++ sn_sent r; sn_end := sn_end r |}.
Definition session_end (us : list MarketUpdate) (ms : list message) (r : result unit string) : session_result :=
  {| sn_updates := us; sn_sent := ms; sn_end := Some r |}.

(** [room] is the number of texts the channel takes before its receiver is gone;
    [is_pong] are the texts OKX and Bitget answer pings with. *)
Fixpoint session_run (handle : Z -> V -> state -> handled state) (is_pong : string -> bool) (room : nat)
  (st : state) (evs : list (event * Z)) : session_result :=
  match evs with
  | [] => {| sn_updates := []; sn_sent := []; sn_end := None |}
  | (EvTick sent, _) :: evs =>
      if sent then session_run handle is_pong room st evs else session_end [] [] (Ok tt)
  | (EvRead None, _) :: _ => session_end [] [] (Ok tt)
  | (EvRead (Some (Err e)), _) :: _ => session_end [] [] (Err e)
  | (EvRead (Some (Ok f)), now) :: evs =>
      match frame_bytes f with
      | None => session_run handle is_pong room st evs
      | Some bytes =>
          if is_pong bytes then session_run handle is_pong room st evs else
          match j_from_str bytes with
          | None => session_run handle is_pong room st evs
          | Some v =>
              let h := handle now v st in
              match hd_sends h with
              | None => session_end (hd_updates h) [] (Err "to_string")
              | Some ms =>
                  if (length ms <=? room)%nat
                  then session_after (hd_updates h) ms
                         (session_run handle is_pong (room - length ms) (hd_state h) evs)
                  else session_end (hd_updates h) (take room ms) (Ok tt)
              end
          end
      end
  end.

(** What a turn of a Binance connection meets: the next item of the stream, whether a
    pong could be sent, whether the channel has room, and the time. *)
Record binance_turn := { bt_item : option (result frame string); bt_ponged : bool; bt_room : bool; bt_now : Z }.

(** The streams are part of the URL, there is no ping timer, pings are answered, a
    close frame ends the session, and a text that finds no room is dropped. *)
Fixpoint run_binance_ws_batch (producer : bool) (evs : list binance_turn) : session_result :=
  match evs with
  | [] => {| sn_updates := []; sn_sent := []; sn_end := None |}
  | e :: evs =>
      match bt_item e with
      | None | Some (Ok FClose) => session_end [] [] (Ok tt)
      | Some (Err e) => session_end [] [] (Err e)
      | Some (Ok FPing) => if bt_ponged e then run_binance_ws_batch producer evs else session_end [] [] (Ok tt)
      | Some (Ok f) =>
          match frame_bytes f .> j_from_str with
          | None => run_binance_ws_batch producer evs
          | Some v =>
              let h := binance_handle producer (bt_now e) v ∅ in
              match hd_sends h with
              | None => session_end (hd_updates h) [] (Err "to_string")
              | Some ms => session_after (hd_updates h) (if bt_room e then ms else []) (run_binance_ws_batch producer evs)
              end
          end
      end
  end.

Definition no_pong (bytes : string) : bool := false.
Definition text_pong (bytes : string) : bool := String.eqb bytes "pong".

Definition run_bybit_linear_ws_batch (producer : bool) (room : nat) := session_run (bybit_handle producer) no_pong room ∅.
Definition run_bitget_ws_batch (room : nat) := session_run (bitget_handle false) text_pong room ∅.
Definition run_kucoin_ws_batch (room : nat) := session_run (kucoin_handle false) no_pong room ∅.
Definition run_okx_ws_batch (producer : bool) (room : nat) := session_run (okx_handle producer) text_pong room ∅.
Definition run_hyperliquid_batch (room : nat) := session_run (hyperliquid_handle false) no_pong room ∅.
Definition run_paradex_batch (room : nat) := session_run (paradex_handle false) no_pong room ∅.
Definition run_lighter_batch (room : nat) := session_run (lighter_handle false) no_pong room ∅.
End handlers.
