(* ===== verification/JsonValue.v ===== *)
(** JSON values, and the values the derived serializers make of the trades and the
    portfolio ([src/src/strategy/types.rs]).

    [json] is [serde_json::Value].  Texts are written and read by the library: the
    class [JsonText] is that interface; a value comes back as it was written, except
    that a float may come back as another one, [reread]. *)
From Stdlib Require Import ZArith Lia Bool Ascii String.
From stdpp Require Import base option list strings countable.
From S2P Require Import Prelude Float64 Types ExchangeParser.

#[local] Open Scope string_scope.
#[local] Open Scope Z_scope.

#[warnings="-register-all"]
Inductive json :=
| JNull
| JBool (b : bool)
| JInt (n : Z)
| JFloat (x : f64)
| JString (s : string)
| JArray (l : list json)
| JObject (fields : list (string * json)).

(** [get(key)] *)
Fixpoint field (key : string) (fields : list (string * json)) : option json :=
  match fields with
  | [] => None
  | (k, v) :: fields => if String.eqb k key then Some v else field key fields
  end.

Definition json_get (key : string) (v : json) : option json :=
  match v with JObject fields => field key fields | _ => None end.
Definition json_str (v : json) : option string := match v with JString s => Some s | _ => None end.
Definition json_array (v : json) : option (list json) := match v with JArray l => Some l | _ => None end.
(** [as_f64]: integers count. *)
Definition json_f64 (v : json) : option f64 :=
  match v with JFloat x => Some x | JInt n => Some (f_of_Z n) | _ => None end.

(** The floats of a value, read again. *)
Fixpoint map_floats (f : f64 -> f64) (v : json) : json :=
  match v with
  | JFloat x => JFloat (f x)
  | JArray l => JArray (map (map_floats f) l)
  | JObject fields => JObject (map (fun '(k, v) => (k, map_floats f v)) fields)
  | v => v
  end.

Class JsonText := {
  to_text : json -> string;
  of_text : string -> option json;
  reread : f64 -> f64
}.
Class JsonTextLaws `{JsonText} := {
  of_to_text v : of_text (to_text v) = Some (map_floats reread v)
}.

(** What the exchange parsers use of a value. *)
#[export] Instance json_values `{JsonText} : Json json := {
  j_get := json_get;
  j_as_str := json_str;
  j_as_array := json_array;
  j_is_f64 v := match v with JFloat _ => true | _ => false end;
  j_as_f64 := json_f64;
  j_from_str := of_text
}.

(** ** Derived serializers: a struct is an object of its fields, a fieldless variant
    its name, [None] is null, and so is a float that is not finite. *)
Definition float_json (x : f64) : json := if is_finite x then JFloat x else JNull.
Definition opt_json {A} (f : A -> json) (o : option A) : json := match o with Some a => f a | None => JNull end.

Definition OrderSide_json (s : OrderSide) : json := JString (match s with Long => "Long" | Short => "Short" end).
Definition OrderType_json (t : OrderType) : json := JString (match t with Limit => "Limit" | Market => "Market" end).
Definition OrderStatus_json (s : OrderStatus) : json :=
  JString (match s with Pending => "Pending" | Filled => "Filled" | Cancelled => "Cancelled" end).
Definition TradeStatus_json (s : TradeStatus) : json :=
  JString (match s with TPending => "Pending" | TActive => "Active" | TExiting => "Exiting" | TClosed => "Closed" end).

Definition QueuePosition_json (q : QueuePosition) : json :=
  JObject [("price", float_json (qp_price q));
           ("cumulative_volume_at_price", float_json (qp_cumulative_volume_at_price q));
           ("resting_depth_at_entry", float_json (qp_resting_depth_at_entry q));
           ("fill_threshold_pct", float_json (qp_fill_threshold_pct q));
           ("is_filled", JBool (qp_is_filled q))].

Definition SimulatedOrder_json (o : SimulatedOrder) : json :=
  JObject [("id", JString (so_id o)); ("exchange", JString (so_exchange o)); ("symbol", JString (so_symbol o));
           ("side", OrderSide_json (so_side o)); ("order_type", OrderType_json (so_order_type o));
           ("price", float_json (so_price o)); ("size", float_json (so_size o));
           ("queue_position", opt_json QueuePosition_json (so_queue_position o));
           ("created_at", JInt (so_created_at o)); ("filled_at", opt_json JInt (so_filled_at o));
           ("fill_price", opt_json float_json (so_fill_price o)); ("status", OrderStatus_json (so_status o))].

Definition LegOutEvent_json (e : LegOutEvent) : json :=
  JObject [("filled_leg", JString (lo_filled_leg e)); ("filled_at", JInt (lo_filled_at e));
           ("unfilled_leg", JString (lo_unfilled_leg e)); ("hedge_executed", JBool (lo_hedge_executed e));
           ("hedge_price", float_json (lo_hedge_price e))].

Definition PaperTrade_json (t : PaperTrade) : json :=
  JObject [("id", JString (pt_id t)); ("symbol", JString (pt_symbol t));
           ("long_exchange", JString (pt_long_exchange t)); ("short_exchange", JString (pt_short_exchange t));
           ("entry_time", JInt (pt_entry_time t)); ("entry_long_price", float_json (pt_entry_long_price t));
           ("entry_short_price", float_json (pt_entry_short_price t));
           ("entry_spread_bps", float_json (pt_entry_spread_bps t));
           ("position_size_usd", float_json (pt_position_size_usd t));
           ("funding_delta_entry", float_json (pt_funding_delta_entry t));
           ("projected_profit_usd", float_json (pt_projected_profit_usd t));
           ("actual_profit_usd", float_json (pt_actual_profit_usd t)); ("status", TradeStatus_json (pt_status t));
           ("exit_reason", opt_json JString (pt_exit_reason t));
           ("exit_spread_bps", opt_json float_json (pt_exit_spread_bps t));
           ("exit_time", opt_json JInt (pt_exit_time t));
           ("long_order", SimulatedOrder_json (pt_long_order t)); ("short_order", SimulatedOrder_json (pt_short_order t));
           ("long_exit_order", opt_json SimulatedOrder_json (pt_long_exit_order t));
           ("short_exit_order", opt_json SimulatedOrder_json (pt_short_exit_order t));
           ("stop_loss_triggered", JBool (pt_stop_loss_triggered t));
           ("stop_loss_long_price", float_json (pt_stop_loss_long_price t));
           ("stop_loss_short_price", float_json (pt_stop_loss_short_price t));
           ("leg_out_event", opt_json LegOutEvent_json (pt_leg_out_event t))].

(** [to_serializable] and the serializer of its result. *)
Definition PortfolioState_json (s : PortfolioState) : json :=
  JObject [("starting_capital", float_json (ps_starting_capital s));
           ("available_capital", float_json (ps_available_capital s));
           ("total_open_positions", float_json (ps_total_open_positions s));
           ("active_trades", JArray (map PaperTrade_json (ps_active_trades s)));
           ("closed_trades", JArray (map PaperTrade_json (ps_closed_trades s)));
           ("cumulative_pnl", float_json (ps_cumulative_pnl s)); ("win_count", JInt (ps_win_count s));
           ("loss_count", JInt (ps_loss_count s)); ("leg_out_count", JInt (ps_leg_out_count s));
           ("leg_out_total_loss", float_json (ps_leg_out_total_loss s)); ("last_updated", JInt (ps_last_updated s))].

Definition PortfolioMetrics_json (m : PortfolioMetrics) : json :=
  JObject [("total_trades", JInt (pm_total_trades m)); ("win_rate", float_json (pm_win_rate m));
           ("cumulative_pnl", float_json (pm_cumulative_pnl m)); ("pnl_percentage", float_json (pm_pnl_percentage m));
           ("available_capital", float_json (pm_available_capital m)); ("utilization_pct", float_json (pm_utilization_pct m));
           ("leg_out_count", JInt (pm_leg_out_count m)); ("leg_out_loss_pct", float_json (pm_leg_out_loss_pct m));
           ("realistic_apr", float_json (pm_realistic_apr m))].

(** ** Derived deserializers of the numbers *)

(** An [f64] field: any number, but not null. *)
Definition read_f64 (key : string) (v : json) : option f64 := and_then (json_get key v) json_f64.
(** A [u32] field: an integer of that range. *)
Definition read_u32 (key : string) (v : json) : option Z :=
  and_then (json_get key v) (fun v => match v with JInt n => if (0 <=? n) && (n <=? U32_MAX) then Some n else None | _ => None end).
(** A [Vec<Value>] field. *)
Definition read_values (key : string) (v : json) : option (list json) := and_then (json_get key v) json_array.

Lemma json_get_map f key v : json_get key (map_floats f v) = map_floats f <$> json_get key v.
Proof.
  destruct v as [| | | | | | fields]; try reflexivity. cbn [json_get map_floats].
  induction fields as [| [k v] fields IH]; [reflexivity |]. cbn. destruct (String.eqb k key); [reflexivity | exact IH].
Qed.

Lemma read_f64_map f key v :
  read_f64 key (map_floats f v) =
    and_then (json_get key v) (fun v => match v with JFloat x => Some (f x) | JInt n => Some (f_of_Z n) | _ => None end).
Proof. unfold read_f64. rewrite json_get_map. now destruct (json_get key v) as [[] |]. Qed.

Lemma read_u32_map f key v : read_u32 key (map_floats f v) = read_u32 key v.
Proof. unfold read_u32. rewrite json_get_map. now destruct (json_get key v) as [[] |]. Qed.

Lemma read_values_map f key v : read_values key (map_floats f v) = map (map_floats f) <$> read_values key v.
Proof. unfold read_values. rewrite json_get_map. now destruct (json_get key v) as [[] |]. Qed.

Lemma json_str_map f v : json_str (map_floats f v) = json_str v.
Proof. now destruct v. Qed.

(** Reads of a value that was read back from its text. *)
Ltac reread_values := rewrite ?json_get_map, ?read_f64_map, ?read_u32_map, ?read_values_map, ?json_str_map.

(** A float that was written as a field. *)
Lemma written_float f x :
  (match float_json x with JFloat x => Some (f x) | JInt n => Some (f_of_Z n) | _ => None end) =
    if is_finite x then Some (f x) else None.
Proof. unfold float_json. now destruct (is_finite x). Qed.

(** ** Texts that satisfy the laws

    One text per value: the bits of its code. *)
Section induction.
Context (P : json -> Prop) (Hnull : P JNull) (Hbool : forall b, P (JBool b)) (Hint : forall n, P (JInt n))
  (Hfloat : forall x, P (JFloat x)) (Hstring : forall s, P (JString s))
  (Harray : forall l, Forall P l -> P (JArray l)) (Hobject : forall fields, Forall (fun kv => P (snd kv)) fields -> P (JObject fields)).

Fixpoint json_values_ind (v : json) : P v :=
  match v with
  | JNull => Hnull
  | JBool b => Hbool b
  | JInt n => Hint n
  | JFloat x => Hfloat x
  | JString s => Hstring s
  | JArray l => Harray l ((fix go l : Forall P l :=
      match l with [] => Forall_nil_2 _ | v :: l => Forall_cons_2 _ v l (json_values_ind v) (go l) end) l)
  | JObject fields => Hobject fields ((fix go l : Forall (fun kv => P (snd kv)) l :=
      match l with [] => Forall_nil_2 _ | kv :: l => Forall_cons_2 _ kv l (json_values_ind (snd kv)) (go l) end) fields)
  end.
End induction.

#[export] Instance f64_eq_dec : EqDecision f64.
Proof. solve_decision. Defined.

#[export] Instance f64_countable : Countable f64.
Proof.
  refine (inj_countable'
    (fun x => match x with S754_zero b => inl (inl b) | S754_infinity b => inl (inr b) | S754_nan => inr (inl tt)
              | S754_finite b m e => inr (inr (b, m, e)) end)
    (fun c => match c with inl (inl b) => S754_zero b | inl (inr b) => S754_infinity b | inr (inl _) => S754_nan
              | inr (inr (b, m, e)) => S754_finite b m e end) _).
  now intros [].
Defined.

Abbreviation leaf := (unit + bool + Z + f64 + string)%type.

Fixpoint json_tree (v : json) : gen_tree leaf :=
  match v with
  | JNull => GenLeaf (inl (inl (inl (inl tt))))
  | JBool b => GenLeaf (inl (inl (inl (inr b))))
  | JInt n => GenLeaf (inl (inl (inr n)))
  | JFloat x => GenLeaf (inl (inr x))
  | JString s => GenLeaf (inr s)
  | JArray l => GenNode 0 (map json_tree l)
  | JObject fields => GenNode 1 (map (fun kv => GenNode 2 [GenLeaf (inr (fst kv)); json_tree (snd kv)]) fields)
  end.

Fixpoint tree_json (t : gen_tree leaf) : json :=
  match t with
  | GenLeaf (inl (inl (inl (inl _)))) => JNull
  | GenLeaf (inl (inl (inl (inr b)))) => JBool b
  | GenLeaf (inl (inl (inr n))) => JInt n
  | GenLeaf (inl (inr x)) => JFloat x
  | GenLeaf (inr s) => JString s
  | GenNode 0 ts => JArray (map tree_json ts)
  | GenNode _ ts => JObject (map (fun t => match t with GenNode _ [GenLeaf (inr k); v] => (k, tree_json v) | _ => ("", JNull) end) ts)
  end.

Lemma tree_json_tree v : tree_json (json_tree v) = v.
Proof.
  induction v as [| b | n | x | s | l IH | fields IH] using json_values_ind; try reflexivity; cbn; f_equal; rewrite map_map.
  - induction IH as [| v l Hv _ IHl]; cbn; [reflexivity | now rewrite Hv, IHl].
  - induction IH as [| [k v] l Hv _ IHl]; cbn; [reflexivity |]. cbn in Hv. now rewrite Hv, IHl.
Qed.

Fixpoint bits (p : positive) : string :=
  match p with xH => "" | xO p => String "0" (bits p) | xI p => String "1" (bits p) end.
Fixpoint of_bits (s : string) : positive :=
  match s with EmptyString => xH | String c s => if Ascii.eqb c "1" then xI (of_bits s) else xO (of_bits s) end.

Lemma of_bits_bits p : of_bits (bits p) = p.
Proof. induction p as [p IH | p IH |]; cbn; now rewrite ?IH. Qed.

Lemma map_floats_id v : map_floats (fun x => x) v = v.
Proof.
  induction v as [| b | n | x | s | l IH | fields IH] using json_values_ind; try reflexivity; cbn; f_equal.
  - induction IH as [| v l Hv _ IHl]; cbn; [reflexivity | now rewrite Hv, IHl].
  - induction IH as [| [k v] l Hv _ IHl]; cbn; [reflexivity |]. cbn in Hv. now rewrite Hv, IHl.
Qed.

(** A local instance where it is used. *)
Definition coded_json : JsonText := {|
  to_text v := bits (encode (json_tree v));
  of_text s := tree_json <$> decode (of_bits s);
  reread x := x
|}.

Lemma coded_json_laws : @JsonTextLaws coded_json.
Proof. split. intros v. cbn. rewrite of_bits_bits, decode_encode. cbn. now rewrite tree_json_tree, map_floats_id. Qed.
