(* ===== verification/SessionSpec.v ===== *)
(** What the connectors' messages become ([Sessions.v], [Ingest.v]): the text
    Bybit's connector stores has the newest value of every field, and the price
    messages of the exchanges reach the pipeline under the plain symbol name. *)
From Stdlib Require Import ZArith Lia Bool Ascii String.
From stdpp Require Import base option list gmap strings.
From S2P Require Import Prelude Float64 NumberText Types ArrayQueue Pipeline SymbolMap MarketData ExchangeParser SymbolNames Ingest JsonValue Sessions.

#[local] Open Scope string_scope.
#[local] Open Scope list_scope.
#[local] Open Scope Z_scope.

#[local] Arguments String.append !s1 s2 /.
#[local] Arguments ascii_dec : simpl never.
#[local] Infix ".>" := and_then (at level 50, left associativity).

(** ** Merged objects *)
Section objects.
Context {V : Type} `{Json V, JsonObject V, !JsonObjectLaws V}.

Lemma insert_all_union (new obj : gmap string V) : insert_all new obj = new ∪ obj.
Proof.
  unfold insert_all. apply (map_fold_weak_ind (fun r m => r = m ∪ obj)).
  - now rewrite (left_id_L ∅ (∪)).
  - intros k x m r _ ->. apply insert_union_l.
Qed.

Lemma change_at_object key f (v : V) m x :
  j_object v = Some m -> m !! key = Some x -> j_object (change_at key f v) = Some (<[key := f x]> m).
Proof.
  intros Hv Hx. unfold change_at, change_object. rewrite Hv, j_object_of. f_equal.
  apply map_eq. intros k. destruct (decide (key = k)) as [<- | Hne].
  - now rewrite lookup_alter_eq, lookup_insert_eq, Hx.
  - now rewrite lookup_alter_ne, lookup_insert_ne by exact Hne.
Qed.

(** The data of a Bybit message, if it is an object with an object for data. *)
Definition data_of (v : V) : option (gmap string V) := j_get "data" v .> j_object.

Lemma data_of_some v m : data_of v = Some m <-> exists o d, j_object v = Some o /\ o !! "data" = Some d /\ j_object d = Some m.
Proof.
  unfold data_of. rewrite j_get_object. destruct (j_object v) as [o |]; cbn; [| split; [discriminate | intros (? & ? & [=] & _)]].
  destruct (o !! "data") as [d |] eqn:Ed; cbn; (split; [intros Hm | intros (o' & d' & [= <-] & Hd & Hm); congruence]).
  - eauto.
  - discriminate.
Qed.

(** Merging a delta: its fields win, the others stay. *)
Lemma merge_ticker_data v data known new old :
  j_get "data" v = Some data -> j_object data = Some new -> data_of known = Some old ->
  data_of (merge_ticker v data known) = Some (new ∪ old).
Proof.
  intros Hd Hn (o & d & Ho & Hod & Hold)%data_of_some. unfold merge_ticker. rewrite Hn.
  set (g := fun state_data : V => change_object (insert_all new) state_data).
  pose proof (change_at_object "data" g known o d Ho Hod) as Hm.
  apply data_of_some. unfold change_object at 1. fold g. rewrite Hm. exists (insert_all (delete "data" (default ∅ (j_object v))) (<["data" := g d]> o)), (g d).
  rewrite j_object_of. split; [reflexivity |]. split.
  - rewrite insert_all_union, lookup_union_r by apply lookup_delete_eq. apply lookup_insert_eq.
  - unfold g, change_object. rewrite Hold, j_object_of. now rewrite insert_all_union.
Qed.

(** ** The newest value of every field *)

(** A ticker of [y]: the fields of its data. *)
Definition ticker_of (y : string) (v : V) : option (gmap string V) :=
  match str_at ["topic"] v .> bybit_topic with
  | Some (key_type, symbol) => if String.eqb key_type "tickers" && String.eqb symbol y then data_of v else None
  | None => None
  end.

(** The last value given for a field of [y], in the order received. *)
Definition newer_field (y f : string) (known : option V) (v : V) : option V :=
  match ticker_of y v .> (fun m => m !! f) with Some x => Some x | None => known end.
Definition latest_field (y f : string) (vs : list V) : option V := fold_left (newer_field y f) vs None.

(** Every ticker of the exchange has an object for its data, if it has any. *)
Definition object_data (v : V) : Prop := forall d, j_get "data" v = Some d -> is_Some (j_object d).

Definition bybit_after (producer : bool) (vs : list (Z * V)) : gmap string V :=
  fold_left (fun st m => hd_state (bybit_handle producer (fst m) (snd m) st)) vs ∅.

Definition known_data (y : string) (st : gmap string V) : gmap string V :=
  default ∅ (st !! y .> data_of).

Definition tickers_ok (st : gmap string V) : Prop := forall y v, st !! y = Some v -> is_Some (data_of v).

(** One message: the state stays well formed and the fields known are the newer ones. *)
Lemma bybit_handle_state producer now v st :
  object_data v -> tickers_ok st ->
  tickers_ok (hd_state (bybit_handle producer now v st)) /\
  forall y f, known_data y (hd_state (bybit_handle producer now v st)) !! f = newer_field y f (known_data y st !! f) v.
Proof.
  intros Hv Hst. unfold bybit_handle, newer_field, ticker_of.
  destruct (str_at ["topic"] v .> bybit_topic) as [[kt s] |]; [| auto].
  destruct (String.eqb kt "tickers"); cbn [andb].
  2: { split; [exact Hst | reflexivity]. }
  destruct (j_get "data" v) as [data |] eqn:Ed.
  2: { split; [exact Hst |]. intros y f. unfold data_of. rewrite Ed. cbn. now destruct (String.eqb s y). }
  destruct (Hv data Ed) as [new Hnew]. cbn [hd_state].
  assert (Hdv : data_of v = Some new) by (unfold data_of; now rewrite Ed).
  assert (Hm : data_of (merge_ticker v data (default v (st !! s))) = Some (new ∪ known_data s st)).
  { unfold known_data. destruct (st !! s) as [k |] eqn:Ek; cbn.
    - destruct (Hst s k Ek) as [old Hold]. rewrite Hold. now apply merge_ticker_data.
    - rewrite (merge_ticker_data v data v new new Ed Hnew Hdv). f_equal.
      rewrite (right_id_L ∅ (∪)). apply (idemp_L (∪)). }
  split.
  - intros y w. destruct (decide (s = y)) as [<- | Hne];
      [rewrite lookup_insert_eq; intros [= <-]; eauto | rewrite lookup_insert_ne by exact Hne; apply Hst].
  - intros y f. destruct (String.eqb_spec s y) as [<- | Hne].
    + unfold known_data at 1. rewrite lookup_insert_eq. cbn. rewrite Hm, Hdv. cbn. rewrite lookup_union.
      destruct (new !! f), (known_data s st !! f); reflexivity.
    + unfold known_data at 1. rewrite lookup_insert_ne by exact Hne. reflexivity.
Qed.

Lemma bybit_after_known producer vs :
  Forall (fun m => object_data (snd m)) vs ->
  tickers_ok (bybit_after producer vs) /\
  forall y f, known_data y (bybit_after producer vs) !! f = latest_field y f (map snd vs).
Proof.
  induction vs as [| [now v] vs IH] using rev_ind.
  { intros _. split; [intros y v; cbn; rewrite lookup_empty; discriminate | reflexivity]. }
  intros [Hvs Hv]%Forall_app. apply Forall_inv in Hv. destruct (IH Hvs) as [Hok Hk]. unfold bybit_after, latest_field.
  rewrite map_app, !fold_left_app. cbn [fold_left map fst snd]. fold (bybit_after producer vs).
  destruct (bybit_handle_state producer now v _ Hv Hok) as [Hok' Hk']. split; [exact Hok' |].
  intros y f. rewrite Hk', Hk. unfold latest_field. now rewrite fold_left_app.
Qed.

Lemma ticker_of_some y v m :
  ticker_of y v = Some m ->
  (str_at ["topic"] v .> bybit_topic) = Some ("tickers", y) /\ data_of v = Some m.
Proof.
  unfold ticker_of. destruct (_ .> bybit_topic) as [[kt s] |]; [| discriminate].
  destruct (String.eqb_spec kt "tickers") as [-> | _]; [| discriminate].
  destruct (String.eqb_spec s y) as [-> | _]; [auto | discriminate].
Qed.

Lemma bybit_sends_latest producer vs now v y m
  (Hobj : Forall (fun m => object_data (snd m)) (vs ++ [(now, v)])) (Ht : ticker_of y v = Some m) :
  exists published,
    hd_sends (bybit_handle producer now v (bybit_after producer vs)) =
      publish ("bybit:linear:tickers:" +:+ y) published /\
    forall f, str_at ["data"; f] published = (latest_field y f (map snd vs ++ [v]) .> j_as_str).
Proof.
  destruct (bybit_after_known producer _ Hobj) as [Hok Hk]. unfold bybit_after in Hok, Hk.
  rewrite fold_left_app in Hok, Hk. cbn [fold_left fst snd] in Hok, Hk. fold (bybit_after producer vs) in Hok, Hk.
  rewrite map_app in Hk. cbn [map snd] in Hk. apply ticker_of_some in Ht as [Htop Hd]. apply data_of_some in Hd as (o & d & Ho & Hod & _).
  assert (Hg : j_get "data" v = Some d) by (rewrite j_get_object, Ho; exact Hod).
  revert Hok Hk. unfold bybit_handle. rewrite Htop, Hg. cbn [String.eqb Ascii.eqb Bool.eqb hd_state hd_sends].
  set (published := merge_ticker _ _ _). intros Hok Hk. exists published. split; [reflexivity |]. intros f.
  destruct (Hok y published (lookup_insert_eq _ _ _)) as [mm Hm].
  rewrite <- (Hk y f). unfold known_data. rewrite lookup_insert_eq. cbn [and_then]. rewrite Hm. cbn [default from_option id].
  apply data_of_some in Hm as (o' & d' & Ho' & Hod' & Hmm).
  unfold str_at. cbn [get_path and_then]. rewrite !j_get_object, Ho', Hod'. cbn [and_then]. rewrite j_get_object, Hmm.
  now destruct (mm !! f).
Qed.
(** C30. Bybit sends only the fields that changed; the connector stores the whole.
    After any messages, the text it sends for a ticker of a symbol has, in every
    field of the data, the last value the exchange gave for that field of that
    symbol, this message included, however the tickers of the symbols were mixed:
    the text reads the same as one with all the fields would. *)
Theorem bybit_publishes_latest producer vs now v y m
  (Hobj : Forall (fun m => object_data (snd m)) (vs ++ [(now, v)])) (Ht : ticker_of y v = Some m) :
  exists published,
    hd_sends (bybit_handle producer now v (bybit_after producer vs)) =
      publish ("bybit:linear:tickers:" +:+ y) published /\
    forall f, str_at ["data"; f] published = (latest_field y f (map snd vs ++ [v]) .> j_as_str).
Proof. exact (bybit_sends_latest producer vs now v y m Hobj Ht). Qed.
End objects.

(** ** Texts inside a value *)

Inductive step := Field (k : string) | Item (n : nat).

Section paths.
Context {V : Type} `{Json V}.

Fixpoint at_path (p : list step) (v : V) : option V :=
  match p with
  | [] => Some v
  | Field k :: p => j_get k v .> at_path p
  | Item n :: p => j_as_array v .> (fun l => l !! n) .> at_path p
  end.

(** The string found by following [p]. *)
Definition text_at (p : list step) (v : V) : option string := at_path p v .> j_as_str.

Lemma text_field k p v : text_at (Field k :: p) v = (j_get k v .> text_at p).
Proof. unfold text_at. cbn. now destruct (j_get k v). Qed.
End paths.

(** What is written can be read back, with the same strings at the same places:
    [to_string] and [from_str] of [serde_json], for a value that is a message. *)
Class JsonReadBack (V : Type) `{Json V, JsonObject V} :=
  read_back (v : V) : exists payload v', j_to_string v = Some payload /\ j_from_str payload = Some v' /\
    forall p, text_at p v' = text_at p v.

(** ** From a price message to the pipeline *)
Section sources.
Context {V : Type} `{Json V, JsonObject V}.

(** A connector: its handler, what its exchange calls the perpetual of a base
    name, how the exchange marks a price message of an instrument, what its
    messages are like, and where they have the best bid and ask: [ps_quotes n vs
    bid ask] says that [bid] and [ask] are the prices of instrument [n] after the
    messages [vs], the last of which is a price message of [n]. *)
Record price_source := {
  ps_exchange : string;
  ps_handle : bool -> Z -> V -> gmap string V -> handled (gmap string V);
  ps_native : string -> string;
  ps_marks : string -> V -> Prop;
  ps_sends : V -> Prop;
  ps_quotes : string -> list V -> string -> string -> Prop
}.

(** The prices are strings of the last message. *)
Definition quoted_at (bid ask : list step) (n : string) (vs : list V) (bs aks : string) : Prop :=
  exists v, last vs = Some v /\ text_at bid v = Some bs /\ text_at ask v = Some aks.

Definition bybit_source : price_source :=
  {| ps_exchange := "bybit"; ps_handle := bybit_handle; ps_native b := (b ++ "USDT")%string;
     ps_marks n v := str_at ["topic"] v = Some ("tickers." ++ n)%string /\ is_Some (j_get "data" v);
     ps_sends := object_data;
     (* only the fields that changed are sent *)
     ps_quotes n vs bs aks := (latest_field n "bid1Price" vs .> j_as_str) = Some bs /\
       (latest_field n "ask1Price" vs .> j_as_str) = Some aks |}.
Definition bitget_source : price_source :=
  {| ps_exchange := "bitget"; ps_handle := bitget_handle; ps_native b := (b ++ "USDT")%string;
     ps_marks n v := str_at ["arg"; "channel"] v = Some "ticker" /\ str_at ["arg"; "instId"] v = Some n;
     ps_sends _ := True;
     ps_quotes := quoted_at [Field "data"; Item 0; Field "bidPr"] [Field "data"; Item 0; Field "askPr"] |}.
Definition kucoin_source : price_source :=
  {| ps_exchange := "kucoin"; ps_handle := kucoin_handle; ps_native b := (b ++ "USDTM")%string;
     ps_marks n v := str_at ["type"] v = Some "message" /\
       str_at ["topic"] v = Some ("/contractMarket/tickerV2:" ++ n)%string /\
       (str_at ["data"; "symbol"] v = Some n \/ str_at ["data"; "symbol"] v = None);
     ps_sends _ := True;
     ps_quotes := quoted_at [Field "data"; Field "bestBidPrice"] [Field "data"; Field "bestAskPrice"] |}.
Definition okx_source : price_source :=
  {| ps_exchange := "okx"; ps_handle := okx_handle; ps_native b := (b ++ "-USDT-SWAP")%string;
     ps_marks n v := str_at ["arg"; "channel"] v = Some "tickers" /\ str_at ["arg"; "instId"] v = Some n;
     ps_sends _ := True;
     ps_quotes := quoted_at [Field "data"; Item 0; Field "bidPx"] [Field "data"; Item 0; Field "askPx"] |}.
Definition hyperliquid_source : price_source :=
  {| ps_exchange := "hyperliquid"; ps_handle := hyperliquid_handle; ps_native b := b;
     ps_marks n v := str_at ["channel"] v = Some "activeAssetCtx" /\ str_at ["data"; "coin"] v = Some n;
     ps_sends _ := True;
     ps_quotes := quoted_at [Field "data"; Field "ctx"; Field "impactPxs"; Item 0]
                    [Field "data"; Field "ctx"; Field "impactPxs"; Item 1] |}.
Definition paradex_source : price_source :=
  {| ps_exchange := "paradex"; ps_handle := paradex_handle; ps_native b := (b ++ "-USD-PERP")%string;
     ps_marks n v := str_at ["method"] v = Some "subscription" /\
       str_at ["params"; "channel"] v = Some ("bbo." ++ n)%string /\
       str_at ["params"; "data"; "market"] v = Some n;
     ps_sends _ := True;
     ps_quotes := quoted_at [Field "params"; Field "data"; Field "bid"] [Field "params"; Field "data"; Field "ask"] |}.

Definition price_sources : list price_source :=
  [bybit_source; bitget_source; kucoin_source; okx_source; hyperliquid_source; paradex_source].

(** What the connector keeps after some messages. *)
Definition kept (src : price_source) (producer : bool) (vs : list (Z * V)) : gmap string V :=
  fold_left (fun st m => hd_state (ps_handle src producer (fst m) (snd m) st)) vs ∅.

Lemma prefix_self p x : String.prefix p (p ++ x)%string = true.
Proof. induction p as [| c p IH]; cbn; [now destruct x |]. now destruct (Ascii.ascii_dec c c). Qed.

Lemma trim_start_one p x :
  String.prefix p x = false -> (0 < String.length p)%nat -> trim_start_matches p (p ++ x)%string = x.
Proof.
  intros Hx Hp. unfold trim_start_matches. rewrite length_app_string.
  destruct (String.length p + String.length x)%nat as [| n] eqn:En; [lia |].
  cbn [trim_start_fuel]. rewrite prefix_self, length_app_string.
  replace (String.length p + String.length x - String.length p)%nat with (String.length x) by lia.
  replace (String.length p) with (String.length p + 0)%nat by lia. rewrite substring_drop, substring_whole.
  destruct n; cbn; [reflexivity | now rewrite Hx].
Qed.

(** An instrument does not begin like a topic. *)
Lemma plain_no_prefix b : plain b -> String.prefix "tickers." (b ++ "USDT")%string = false.
Proof.
  destruct b as [| c b]; cbn; [reflexivity |]. intros (Hc & _).
  destruct (Ascii.ascii_dec "t" c) as [<- | _]; [discriminate Hc | reflexivity].
Qed.

Lemma publish_some key (v : V) ms : publish key v = Some ms -> exists payload, ms = [(key, payload)].
Proof. unfold publish. destruct (j_to_string v); cbn; [intros [= <-]; eauto | discriminate]. Qed.

Lemma str_at_cons k ks (v : V) : str_at (k :: ks) v = (j_get k v .> str_at ks).
Proof. unfold str_at. cbn [get_path]. now destruct (j_get k v). Qed.

(** The symbol of a KuCoin ticker, from its data or from its topic. *)
Lemma kucoin_symbol_native n v :
  no_colon n -> str_at ["data"; "symbol"] v = Some n \/ str_at ["data"; "symbol"] v = None ->
  kucoin_symbol ("/contractMarket/tickerV2:" ++ n)%string (j_get "data" v) = Some n.
Proof.
  intros Hn. rewrite str_at_cons. unfold kucoin_symbol. intros [-> | ->]; [reflexivity |]. unfold split_nth.
  change ("/contractMarket/tickerV2:" ++ n)%string with ("/contractMarket/tickerV2" ++ String ":" n)%string.
  rewrite split_char_app by (cbn; intros c Hc; repeat destruct Hc as [<- | Hc]; congruence || contradiction).
  now rewrite (split_char_none _ n (no_colon_in _ Hn)).
Qed.

End sources.

Section reads.
Context {V : Type} `{Json V, JsonObject V, !JsonObjectLaws V}.

(** A value that was sent has the prices where the parser of exchange [e] looks. *)
Definition parses (e : string) (v : V) (bs aks : string) : Prop :=
  parse_bid (get_parser e) v = Some bs /\ parse_ask (get_parser e) v = Some aks.

(** Where the parsers read the prices. *)
Definition price_places : list (string * list step * list step) :=
    [("bybit", [Field "data"; Field "bid1Price"], [Field "data"; Field "ask1Price"]);
     ("bitget", [Field "data"; Item 0; Field "bidPr"], [Field "data"; Item 0; Field "askPr"]);
     ("kucoin", [Field "data"; Field "bestBidPrice"], [Field "data"; Field "bestAskPrice"]);
     ("okx", [Field "data"; Item 0; Field "bidPx"], [Field "data"; Item 0; Field "askPx"]);
     ("hyperliquid", [Field "data"; Field "ctx"; Field "impactPxs"; Item 0],
        [Field "data"; Field "ctx"; Field "impactPxs"; Item 1]);
     ("paradex", [Field "params"; Field "data"; Field "bid"], [Field "params"; Field "data"; Field "ask"])].

(** They read the strings there. *)
Lemma parses_fields e bid ask (v : V) bs aks :
  In (e, bid, ask) price_places ->
  text_at bid v = Some bs -> text_at ask v = Some aks -> parses e v bs aks.
Proof.
  intros Hin Hb Ha. cbn in Hin. repeat destruct Hin as [[= <- <- <-] | Hin]; [.. | contradiction];
    unfold parses, text_at in *; cbn [at_path] in *;
    cbn [get_parser String.eqb Ascii.eqb Bool.eqb parse_bid parse_ask BybitParser BitgetParser KucoinParser OKXParser
         HyperliquidParser ParadexParser]; unfold first_str, hyperliquid_price, str_at, nth_of; cbn [get_path];
    split;
    repeat lazymatch goal with
    | Hx : context [and_then (j_get ?k ?w)] |- _ => destruct (j_get k w); cbn [and_then] in *; try discriminate
    | Hx : context [and_then (j_as_array ?w)] |- _ => destruct (j_as_array w); cbn [and_then] in *; try discriminate
    | Hx : context [and_then (?l !! ?n)] |- _ => destruct (l !! n); cbn [and_then] in *; try discriminate
    end; rewrite ?Hb, ?Ha; auto.
Qed.

(** The first text a connector sends for a price message: its key is the first
    one the readers try for the symbol, and it is the text of a value with the
    prices [bs] and [aks] where they are looked for. *)
Definition sent (e b : string) (sends : option (list message)) (bs aks : string) : Prop :=
  exists key published rest,
    (forall payload, j_to_string published = Some payload -> sends = Some ((key, payload) :: rest payload)) /\
    head (get_redis_key_patterns e (b ++ "USDT")%string) = Some key /\
    forall v', (forall p, text_at p v' = text_at p published) -> parses e v' bs aks.

Lemma sent_publish e b key published bs aks bid ask :
  head (get_redis_key_patterns e (b ++ "USDT")%string) = Some key ->
  In (e, bid, ask) price_places -> text_at bid published = Some bs -> text_at ask published = Some aks ->
  sent e b (publish key published) bs aks.
Proof.
  intros Hk Hin Hb Ha. exists key, published, (fun _ => []). split; [| split; [exact Hk |]].
  - intros payload Hp. unfold publish. now rewrite Hp.
  - intros v' Hv. apply (parses_fields e bid ask); [exact Hin | now rewrite Hv ..].
Qed.

Definition sends_prices (src : price_source (V:=V)) : Prop := forall producer now b vs (v : V) bs aks,
  base_name b -> Forall (ps_sends src) (map snd vs ++ [v]) -> ps_marks src (ps_native src b) v ->
  ps_quotes src (ps_native src b) (map snd vs ++ [v]) bs aks ->
  sent (ps_exchange src) b (hd_sends (ps_handle src producer now v (kept src producer vs))) bs aks.

(** The last message is the one handled. *)
Lemma quoted_last bid ask n vs (v : V) bs aks :
  quoted_at bid ask n (vs ++ [v]) bs aks -> text_at bid v = Some bs /\ text_at ask v = Some aks.
Proof. intros (v' & Hl & Hq). rewrite last_snoc in Hl. now injection Hl as ->. Qed.

Ltac place := cbn; tauto.
Ltac key_of Hb :=
  unfold get_redis_key_patterns; rewrite ?trim_usdt by (apply Hb); vm_compute (lower _); reflexivity.

Lemma bybit_sends_prices : sends_prices bybit_source.
Proof.
  intros producer now b vs v bs aks Hb Hobj [Ht [d Hd]] [Hbid Hask]. cbn [ps_exchange ps_handle ps_native bybit_source] in *.
  assert (Hobj' : Forall (fun m => object_data (snd m)) (vs ++ [(now, v)])).
  { apply Forall_map. now rewrite map_app. }
  destruct (proj1 (Forall_app _ _ _) Hobj) as [_ Hv%Forall_inv]. destruct (Hv d Hd) as [m Hm].
  assert (Htick : ticker_of (b ++ "USDT")%string v = Some m).
  { unfold ticker_of, bybit_topic. rewrite Ht. cbn [and_then].
    rewrite prefix_self, trim_start_one by (apply plain_no_prefix, Hb || (cbn; lia)).
    cbn [String.eqb Ascii.eqb Bool.eqb andb]. rewrite String.eqb_refl. unfold data_of. now rewrite Hd. }
  destruct (bybit_sends_latest producer vs now v _ m Hobj' Htick) as (published & Hs & Hf).
  change (kept bybit_source producer vs) with (bybit_after producer vs). rewrite Hs.
  eapply sent_publish; [key_of Hb | place | |].
  - etransitivity; [exact (Hf "bid1Price") | exact Hbid].
  - etransitivity; [exact (Hf "ask1Price") | exact Hask].
Qed.

Lemma bitget_sends_prices : sends_prices bitget_source.
Proof.
  intros producer now b vs v bs aks Hb _ [Hc Hi] Hq. apply (quoted_last _ _ "") in Hq as [Hbid Hask].
  cbn [ps_exchange ps_handle ps_native bitget_source] in *. unfold bitget_handle. rewrite Hc, Hi.
  exists ("bitget:usdt:tickers:" ++ b ++ "USDT")%string, v, (fun payload => [(("bitget:usdt:funding:" ++ b ++ "USDT")%string, payload)]). split; [intros payload ->; reflexivity |]. split; [key_of Hb |].
  intros v' Hv. eapply parses_fields; [place | rewrite Hv; eassumption ..].
Qed.

Lemma okx_sends_prices : sends_prices okx_source.
Proof.
  intros producer now b vs v bs aks Hb _ [Hc Hi] Hq. apply (quoted_last _ _ "") in Hq as [Hbid Hask].
  cbn [ps_exchange ps_handle ps_native okx_source] in *. unfold okx_handle. rewrite Hc, Hi.
  eapply sent_publish; [key_of Hb | place | eassumption ..].
Qed.

Lemma hyperliquid_sends_prices : sends_prices hyperliquid_source.
Proof.
  intros producer now b vs v bs aks Hb _ [Hc Hi] Hq. apply (quoted_last _ _ "") in Hq as [Hbid Hask].
  cbn [ps_exchange ps_handle ps_native hyperliquid_source] in *. unfold hyperliquid_handle. rewrite Hc, Hi.
  cbn [default from_option id]. rewrite String.eqb_refl. cbn [negb andb hd_sends].
  eapply sent_publish; [key_of Hb | place | eassumption ..].
Qed.

Lemma paradex_sends_prices : sends_prices paradex_source.
Proof.
  intros producer now b vs v bs aks Hb _ (Hm & Hc & Hi) Hq. apply (quoted_last _ _ "") in Hq as [Hbid Hask].
  cbn [ps_exchange ps_handle ps_native paradex_source] in *. unfold paradex_handle. rewrite Hm, Hc, Hi.
  cbn [default from_option id]. rewrite String.eqb_refl. cbn [negb hd_sends].
  eapply sent_publish; [key_of Hb | place | eassumption ..].
Qed.

(** KuCoin's connector keeps objects. *)
Lemma kucoin_keeps producer vs : forall y w, kept kucoin_source producer vs !! y = Some w -> is_Some (j_object w).
Proof.
  induction vs as [| [now v] vs IH] using rev_ind; [intros y w; unfold kept; cbn; now rewrite lookup_empty |].
  unfold kept. rewrite fold_left_app. cbn [fold_left fst snd ps_handle kucoin_source].
  change (fold_left _ vs ∅) with (kept kucoin_source producer vs). intros y w. unfold kucoin_handle.
  case_bool_decide as Ht; cbn [negb]; [| apply IH].
  destruct (str_at ["topic"] v) as [topic |]; [| apply IH].
  destruct (String.prefix _ topic).
  - destruct (kucoin_symbol _ _) as [s |]; [| apply IH]. cbn [hd_state].
    destruct (j_object v) as [new |] eqn:Ev.
    2: { unfold str_at in Ht. cbn in Ht. rewrite j_get_object, Ev in Ht. discriminate. }
    destruct (decide (s = y)) as [<- | Hne]; [rewrite lookup_insert_eq | rewrite lookup_insert_ne by exact Hne; apply IH].
    intros [= <-]. unfold change_object. destruct (kept _ _ _ !! s) as [old |] eqn:Eo; cbn.
    + destruct (IH s old Eo) as [m ->]. rewrite j_object_of. eauto.
    + rewrite Ev, j_object_of. eauto.
  - destruct (_ && _)%bool; [destruct (split_nth _ _ _); apply IH | apply IH].
Qed.

Lemma kucoin_sends_prices : sends_prices kucoin_source.
Proof.
  intros producer now b vs v bs aks Hb _ (Ht & Hto & Hs) Hq. apply (quoted_last _ _ "") in Hq as [Hbid Hask].
  cbn [ps_exchange ps_handle ps_native kucoin_source] in *. pose proof Hb as (Hp & Hu & _ & _).
  unfold kucoin_handle. rewrite Ht, bool_decide_true, Hto by reflexivity. cbn [negb].
  rewrite prefix_self, kucoin_symbol_native by (exact Hs || (apply no_colon_plain; [exact Hp | cbn; repeat split; congruence])).
  cbn [hd_sends]. set (y := (b ++ "USDTM")%string).
  destruct (j_object v) as [new |] eqn:Ev.
  2: { unfold str_at in Hto. cbn in Hto. rewrite j_get_object, Ev in Hto. discriminate. }
  assert (Hsame : forall p, is_Some (text_at (Field "data" :: p) v) ->
    text_at (Field "data" :: p) (change_object (insert_all new) (default v (kept kucoin_source producer vs !! y))) =
    text_at (Field "data" :: p) v).
  { intros p Hp'. rewrite !text_field in *. rewrite !j_get_object, Ev in *.
    destruct (new !! "data") as [d |] eqn:Ed; [| now destruct Hp'].
    assert (Ho : exists old, j_object (default v (kept kucoin_source producer vs !! y)) = Some old).
    { destruct (kept _ _ _ !! y) as [w |] eqn:Ew; cbn; [now apply (kucoin_keeps producer vs y) | eauto]. }
    destruct Ho as [old Ho]. unfold change_object. rewrite Ho, j_object_of, insert_all_union.
    now rewrite (lookup_union_Some_l _ _ _ _ Ed). }
  eapply sent_publish; [| place | rewrite Hsame by eauto; eassumption ..].
  unfold get_redis_key_patterns. rewrite trim_usdt by exact Hu. vm_compute (lower _). unfold y. cbn [head]. now rewrite app_assoc_string.
Qed.
End reads.

Section reaches.
Context {T F V : Type} `{DashMap T key Z} `{DashMap F Z key} `{Json V, JsonObject V, !JsonObjectLaws V, !JsonReadBack V}.

(** C29. From an exchange's message to the pipeline, for the six exchanges the
    program connects to and every coin with a base name (no lower-case letter,
    dash, colon or "USD" in it, not ending in SWAP or PERP): when a connector
    has handled any messages and then a price message of the exchange's own
    spelling of the symbol, it sends a text under the first key the readers try
    for the plain symbol name, and the bridge parses that text into an update for
    the id of the plain symbol name with the bid and the ask of the exchange:
    the newest values of Bybit's fields, and for the others the fields of the
    message itself (of Hyperliquid's [activeAssetCtx], the impact prices).  The
    numbers are those the number parser reads, the bid positive and below the
    ask. *)
Theorem ticker_reaches_pipeline src producer now b vs v bs aks bid ask time (sm : SymbolMap T F)
  (Hsrc : src ∈ price_sources) (Hb : base_name b)
  (Hsends : Forall (ps_sends src) (map snd vs ++ [v])) (Hv : ps_marks src (ps_native src b) v)
  (Hq : ps_quotes src (ps_native src b) (map snd vs ++ [v]) bs aks)
  (Hbid : parse_price_simd bs = Some bid) (Hask : parse_price_simd aks = Some ask)
  (Hpos : (0.0%f64 <? bid)%F = true) (Hlt : (bid <? ask)%F = true) :
  exists key payload rest,
    hd_sends (ps_handle src producer now v (kept src producer vs)) = Some ((key, payload) :: rest) /\
    head (get_redis_key_patterns (ps_exchange src) (b ++ "USDT")%string) = Some key /\
    parse_to_market_update key payload time sm =
      (let '(id, sm) := get_or_insert (ps_exchange src) (b ++ "USDT")%string sm in
       (Some (MarketUpdate_new id bid ask time), sm)).
Proof.
  assert (Hsent : sent (ps_exchange src) b (hd_sends (ps_handle src producer now v (kept src producer vs))) bs aks /\
    ps_exchange src ∈ EXCHANGES).
  { unfold price_sources in Hsrc. repeat (apply elem_of_cons in Hsrc as [-> | Hsrc]); [.. | now apply elem_of_nil in Hsrc];
      (split; [| unfold EXCHANGES; cbn; repeat constructor]);
      [now apply bybit_sends_prices | now apply bitget_sends_prices | now apply kucoin_sends_prices | now apply okx_sends_prices
      | now apply hyperliquid_sends_prices | now apply paradex_sends_prices]. }
  destruct Hsent as [(key & published & rest & Hms & Hkey & Hparse) He].
  destruct (read_back published) as (payload & v' & Hw & Hr & Hsame).
  destruct (Hparse v' Hsame) as [Hbs Has].
  destruct (stored_ticker_is_found (ps_exchange src) b payload v' bs aks bid ask time sm He Hb Hr Hbs Has Hbid Hask Hpos Hlt)
    as (k & Hk & Hp). rewrite Hkey in Hk. injection Hk as <-.
  exists key, payload, (rest payload). split; [exact (Hms payload Hw) | split; [exact Hkey | exact Hp]].
Qed.
End reaches.

(** ** The values of [JsonValue.v] are read back *)
Section json.
Context `{JsonTextLaws}.

Definition json_fields (v : json) : option (gmap string json) :=
  match v with JObject fields => Some (list_to_map fields) | _ => None end.

#[export] Instance json_object : JsonObject json := {
  j_object := json_fields;
  j_of_object m := JObject (map_to_list m);
  j_to_string v := Some (to_text v)
}.

Lemma field_lookup k fields : field k fields = (list_to_map fields : gmap string json) !! k.
Proof.
  induction fields as [| [k' v] fields IH]; cbn; [reflexivity |].
  destruct (String.eqb_spec k' k) as [-> | Hne]; [now rewrite lookup_insert_eq | now rewrite lookup_insert_ne].
Qed.

#[export] Instance json_object_laws : JsonObjectLaws json.
Proof.
  split.
  - intros k [| | | | | | fields]; try reflexivity. apply field_lookup.
  - intros m. cbn. now rewrite list_to_map_to_list.
Qed.

Lemma at_path_reread f p (v : json) : at_path p (map_floats f v) = map_floats f <$> at_path p v.
Proof.
  revert v. induction p as [| [k | n] p IH]; intros v; [reflexivity | |]; cbn [at_path j_get j_as_array json_values].
  - rewrite json_get_map. destruct (json_get k v); [apply IH | reflexivity].
  - destruct v as [| | | | | l |]; try reflexivity. cbn. change (List.map (map_floats f) l) with (map_floats f <$> l).
    rewrite list_lookup_fmap. destruct (l !! n); [apply IH | reflexivity].
Qed.

#[export] Instance json_reads_back : JsonReadBack json.
Proof.
  intros v. exists (to_text v), (map_floats reread v). split; [reflexivity |]. split; [apply of_to_text |].
  intros p. unfold text_at. rewrite at_path_reread. destruct (at_path p v) as [w |]; [apply json_str_map | reflexivity].
Qed.
End json.

(** ** Concrete messages *)
#[local] Unset Elimination Schemes.
Inductive tree := Leaf (s : string) | Node (fields : list (string * tree)).
#[local] Set Elimination Schemes.

Definition fields_of (t : tree) : option (gmap string tree) :=
  match t with Node l => Some (list_to_map l) | Leaf _ => None end.

(** One text can be read back. *)
Definition stored_tree : tree :=
  Node [("topic", Leaf "tickers.LDOUSDT"); ("data", Node [("bid1Price", Leaf "2.5"); ("ask1Price", Leaf "2.6")])].

#[local] Instance tree_json : Json tree := {
  j_get k v := match fields_of v with Some m => m !! k | None => None end;
  j_as_str v := match v with Leaf s => Some s | Node _ => None end;
  j_as_array _ := None;
  j_is_f64 _ := false;
  j_as_f64 _ := None;
  j_from_str s := if String.eqb s "stored" then Some stored_tree else None
}.
#[local] Instance tree_object : JsonObject tree := {
  j_object := fields_of;
  j_of_object m := Node (map_to_list m);
  j_to_string _ := Some "stored"
}.
#[local] Instance tree_object_laws : JsonObjectLaws tree.
Proof. split; [reflexivity |]. intros m. cbn. now rewrite list_to_map_to_list. Defined.

(** The bid has changed, the ask has not. *)
Definition delta_tree : tree :=
  Node [("topic", Leaf "tickers.LDOUSDT"); ("data", Node [("bid1Price", Leaf "2.55")])].

Lemma bybit_publishes_latest_witness :
  exists published,
    hd_sends (bybit_handle true 8 delta_tree (bybit_after true [(7, stored_tree)])) =
      publish "bybit:linear:tickers:LDOUSDT" published /\
    str_at ["data"; "bid1Price"] published = Some "2.55" /\ str_at ["data"; "ask1Price"] published = Some "2.6".
Proof.
  assert (Hobj : Forall (fun m => object_data (snd m)) ([(7, stored_tree)] ++ [(8, delta_tree)])).
  { repeat constructor; intros d; vm_compute; intros [= <-]; eexists; reflexivity. }
  assert (Ht : ticker_of "LDOUSDT" delta_tree = Some (list_to_map [("bid1Price", Leaf "2.55")])) by (vm_compute; reflexivity).
  destruct (bybit_publishes_latest true _ _ _ _ _ Hobj Ht) as (p & Hs & Hf).
  exists p. split; [exact Hs |]. rewrite !Hf. split; vm_compute; reflexivity.
Defined.

(** A snapshot, then a message with the bid only. *)
Definition ldo_data (fields : list (string * json)) : json :=
  JObject [("topic", JString "tickers.LDOUSDT"); ("data", JObject fields)].
Definition ldo_snapshot : json := ldo_data [("bid1Price", JString "2.5"); ("ask1Price", JString "2.6")].
Definition ldo_delta : json := ldo_data [("bid1Price", JString "2.55")].

Lemma ticker_reaches_pipeline_witness :
  let _ := coded_json in
  exists key payload rest,
    hd_sends (bybit_handle true 8 ldo_delta (kept bybit_source true [(7, ldo_snapshot)])) = Some ((key, payload) :: rest) /\
    head (get_redis_key_patterns "bybit" "LDOUSDT") = Some key /\
    parse_to_market_update (V:=json) key payload 9 (br_symbols empty_bridge) =
      (let '(id, sm) := get_or_insert "bybit" "LDOUSDT" (br_symbols empty_bridge) in
       (Some (MarketUpdate_new id 2.55%f64 2.6%f64 9), sm)).
Proof.
  intros text. pose proof coded_json_laws as Hlaws. pose proof json_object_laws as Hobj. pose proof json_reads_back as Hback.
  apply (ticker_reaches_pipeline bybit_source true 8 "LDO" [(7, ldo_snapshot)] ldo_delta "2.55" "2.6");
    [constructor | unfold base_name; cbn; repeat split; congruence | | | | vm_compute; reflexivity ..].
  - repeat constructor; intros d; vm_compute; intros [= <-]; eexists; reflexivity.
  - split; [vm_compute; reflexivity | eexists; vm_compute; reflexivity].
  - split; vm_compute; reflexivity.
Defined.

(** A Bitget ticker is sent twice, under two keys; the bridge parses both. *)
Lemma bitget_ticker_twice (v : tree) inst_id st :
  str_at ["arg"; "channel"] v = Some "ticker" -> str_at ["arg"; "instId"] v = Some inst_id ->
  hd_sends (bitget_handle false 0 v st) =
    Some [("bitget:usdt:tickers:" +:+ inst_id, "stored"); ("bitget:usdt:funding:" +:+ inst_id, "stored")].
Proof. intros Hc Hi. unfold bitget_handle. now rewrite Hc, Hi. Qed.

(** The ids of the static table are not those of the symbol map, and OKX's
    spelling of a perpetual is not in the table: with a producer its connector
    pushes nothing. *)
Lemma okx_never_pushes b producer bid ask now :
  plain b -> pushed producer (remove_char "-" (b ++ "-USDT-SWAP")%string) bid ask now = [].
Proof.
  intros Hb. rewrite remove_app, (remove_plain b Hb). change (remove_char "-" "-USDT-SWAP") with "USDTSWAP".
  unfold pushed. destruct bid, ask; try reflexivity.
  enough (symbol_to_id (b ++ "USDTSWAP")%string = None) as -> by reflexivity.
  unfold symbol_to_id, SYMBOL_TO_ID. apply not_elem_of_list_to_map_1. cbn. intros Hin.
  assert (He : forall s, s ∈ ["BTCUSDT"; "ETHUSDT"; "SOLUSDT"; "BNBUSDT"; "XRPUSDT"; "ADAUSDT"; "DOGEUSDT"; "MATICUSDT"; "DOTUSDT"; "AVAXUSDT"] ->
    ends_with "SWAP" s = false) by (intros y Hy; repeat (apply elem_of_cons in Hy as [-> | Hy]; [reflexivity |]); now apply elem_of_nil in Hy).
  specialize (He _ Hin). rewrite ends_with_app in He by (cbn; lia). discriminate.
Qed.

(** A Binance session ends cleanly only with its connection: neither a full channel nor
    one whose receiver is gone ends it. *)
Lemma binance_session_end `{Json V} `{JsonObject V} producer (evs : list binance_turn) :
  sn_end (run_binance_ws_batch (V:=V) producer evs) = Some (Ok tt) ->
  exists e, e ∈ evs /\ (bt_item e = None \/ bt_item e = Some (Ok FClose) \/ (bt_item e = Some (Ok FPing) /\ bt_ponged e = false)).
Proof.
  induction evs as [| e evs IH]; cbn [run_binance_ws_batch]; [discriminate |]. intros He.
  assert (Hlater : sn_end (run_binance_ws_batch (V:=V) producer evs) = Some (Ok tt) ->
    exists e', e' ∈ e :: evs /\ (bt_item e' = None \/ bt_item e' = Some (Ok FClose) \/ (bt_item e' = Some (Ok FPing) /\ bt_ponged e' = false))).
  { intros (e' & Hin & Hc)%IH. exists e'. split; [now apply elem_of_cons; right | exact Hc]. }
  assert (Hnow : bt_item e = None \/ bt_item e = Some (Ok FClose) \/ (bt_item e = Some (Ok FPing) /\ bt_ponged e = false) ->
    exists e', e' ∈ e :: evs /\ (bt_item e' = None \/ bt_item e' = Some (Ok FClose) \/ (bt_item e' = Some (Ok FPing) /\ bt_ponged e' = false))).
  { intros Hc. exists e. split; [now apply elem_of_cons; left | exact Hc]. }
  destruct (bt_item e) as [[[] | err] |]; try (apply Hnow; now auto); try discriminate;
    repeat (case_match; try discriminate; auto).
Qed.
