(* ===== verification/OpenInterest.v ===== *)
(** The open-interest poller ([oi_poller], [extract_oi_value] and [fetch_oi_data]
    of [src/src/main.rs]).

    A round asks every exchange for every symbol and stores what it reads: the
    text through the bridge, a snapshot in a sorted set of Redis from which the
    ones older than a day are removed.  The answers of the exchanges are
    arguments; a Redis command is kept as what it asks for. *)
From Stdlib Require Import ZArith Lia Bool Ascii String.
From stdpp Require Import base option list strings pretty.
From S2P Require Import Prelude Float64 NumberText ExchangeParser SymbolNames Ingest.

#[local] Open Scope string_scope.
#[local] Open Scope list_scope.
#[local] Open Scope Z_scope.

#[local] Arguments String.append !s1 s2 /.
#[local] Infix ".>" := and_then (at level 50, left associativity).

Section extract.
Context {V : Type} `{Json V}.

Definition std_str_at (ks : list string) (v : V) : option f64 := str_at ks v .> std_parse_f64.

(** [None] for both errors: no JSON, no number where the exchange has it. *)
Definition extract_oi_value (oi_data exchange : string) : option f64 :=
  j_from_str oi_data .> (fun json : V =>
    if String.eqb exchange "binance" then std_str_at ["openInterest"] json
    else if String.eqb exchange "okx" then get_path ["data"] json .> nth_of 0 .> std_str_at ["oi"]
    else if String.eqb exchange "bybit" then
      get_path ["result"; "list"] json .> nth_of 0 .> std_str_at ["openInterest"]
    else if String.eqb exchange "kucoin" then std_str_at ["data"; "openInterest"] json
    else if String.eqb exchange "bitget" then get_path ["data"] json .> nth_of 0 .> std_str_at ["oi"]
    else if String.eqb exchange "hyperliquid" then std_str_at ["openInterest"] json
    else if String.eqb exchange "paradex" then std_str_at ["market"; "open_interest"] json
    else None).
End extract.

(** What is asked: a URL, and for Hyperliquid the coin in the body of a POST. *)
Inductive oi_request := OiGet (url : string) | OiPost (url coin : string).

Definition oi_request_of (exchange symbol : string) : option oi_request :=
  let base := trim_end_matches "USDT" symbol in
  if String.eqb exchange "binance" then Some (OiGet ("https://fapi.binance.com/fapi/v1/openInterest?symbol=" +:+ symbol))
  else if String.eqb exchange "okx" then
    Some (OiGet ("https://www.okx.com/api/v5/public/open-interest?instId=" +:+ base +:+ "-USDT-SWAP"))
  else if String.eqb exchange "bybit" then
    Some (OiGet ("https://api.bybit.com/v5/market/open-interest?category=linear&symbol=" +:+ symbol))
  else if String.eqb exchange "kucoin" then
    Some (OiGet ("https://api-futures.kucoin.com/api/v1/contracts/" +:+ (base +:+ "M") +:+ "/open-interest"))
  else if String.eqb exchange "bitget" then
    Some (OiGet ("https://api.bitget.com/api/v2/mix/market/open-interest?productType=usdt-futures&symbol=" +:+ symbol))
  else if String.eqb exchange "hyperliquid" then Some (OiPost "https://api.hyperliquid.xyz/info" base)
  else if String.eqb exchange "paradex" then Some (OiGet ("https://api.prod.paradex.trade/v1/markets/" +:+ symbol))
  else None.

(** The commands of one snapshot. *)
Inductive redis_command :=
| ZAdd (key : string) (score : Z) (member : string)
| ZRemBelow (key : string) (cutoff : Z)
| Expire (key : string) (seconds : Z).

Definition oi_symbols : list string := ["BTCUSDT"; "ETHUSDT"].
Definition oi_exchanges : list string := ["okx"; "bybit"; "kucoin"; "bitget"; "hyperliquid"; "paradex"].

Section poller.
Context {W V : Type} `{Json V}.
(** The request, the channel to the bridge ([false] when its receiver is gone), the
    commands to Redis whose failures are ignored. *)
Context (http : oi_request -> ST W (option string)) (tx_send : message -> ST W bool)
  (redis : redis_command -> ST W unit).

Definition fetch_oi_data (exchange symbol : string) : ST W (option string) :=
  match oi_request_of exchange symbol with Some r => http r | None => ret None end.

Definition oi_snapshot (exchange symbol : string) (now : Z) (oi_value : f64) : ST W unit :=
  let snapshot_key := exchange +:+ ":oi_history:" +:+ symbol in
  (do! redis (ZAdd snapshot_key now (pretty now +:+ "," +:+ display_f64 oi_value)) in
   do! redis (ZRemBelow snapshot_key (wrap64 (now - 86400))) in
   redis (Expire snapshot_key 90000))%st.

(** One exchange and one symbol; [false] ends the poller. *)
Definition oi_poll_one (now : Z) (symbol exchange : string) : ST W bool :=
  (let! oi_data := fetch_oi_data exchange symbol in
   match oi_data with
   | None => ret true
   | Some oi_data =>
       match extract_oi_value (V:=V) oi_data exchange with
       | None => ret true
       | Some oi_value =>
           let! sent := tx_send (exchange +:+ ":oi:" +:+ symbol, oi_data) in
           if (sent : bool) then do! oi_snapshot exchange symbol now oi_value in ret true else ret false
       end
   end)%st.

Fixpoint oi_poll_all (now : Z) (l : list (string * string)) : ST W bool :=
  match l with
  | [] => ret true
  | (symbol, exchange) :: l =>
      (let! go := oi_poll_one now symbol exchange in
       if (go : bool) then oi_poll_all now l else ret false)%st
  end.

(** One tick of the interval. *)
Definition oi_round (now : Z) : ST W bool :=
  oi_poll_all now (s ← oi_symbols; e ← oi_exchanges; [(s, e)]).

(** The loop, for a number of ticks at the given times. *)
Fixpoint oi_poller (ticks : list Z) : ST W bool :=
  match ticks with
  | [] => ret true
  | now :: ticks => (let! go := oi_round now in if (go : bool) then oi_poller ticks else ret false)%st
  end.
End poller.

(** ** What a round leaves in Redis

    A sorted set as a list of members with their scores; the bridge accepts
    everything and every exchange answers [answer]. *)
Record oi_world := { ow_history : list (string * Z); ow_sent : list message }.

Section history.
Context {V : Type} `{Json V} (answer : oi_request -> option string) (key : string).

Definition oi_http (r : oi_request) : ST oi_world (option string) := fun w => (answer r, w).
Definition oi_send (m : message) : ST oi_world bool := fun w =>
  (true, {| ow_history := ow_history w; ow_sent := ow_sent w ++ [m] |}).

(** The set of one key: a member is added or moved, the scores up to a bound are
    removed. *)
Definition oi_redis (c : redis_command) : ST oi_world unit := fun w =>
  let keep h := {| ow_history := h; ow_sent := ow_sent w |} in
  match c with
  | ZAdd k score member =>
      (tt, if String.eqb k key
           then keep (List.filter (fun x => negb (String.eqb (fst x) member)) (ow_history w) ++ [(member, score)]) else w)
  | ZRemBelow k cutoff =>
      (tt, if String.eqb k key then keep (List.filter (fun x => cutoff <? snd x) (ow_history w)) else w)
  | Expire _ _ => (tt, w)
  end.

Abbreviation poll := (oi_poll_one (V:=V) oi_http oi_send oi_redis).

(** Every snapshot kept is less than a day old. *)
Definition recent_snapshots (now : Z) (w : oi_world) : Prop :=
  Forall (fun x => now - 86400 < snd x <= now) (ow_history w).

Definition no_later (now : Z) (w : oi_world) : Prop := Forall (fun x => snd x <= now) (ow_history w).

Lemma filter_forall {A} (P : A -> Prop) f l : Forall P l -> Forall P (List.filter f l).
Proof. rewrite !List.Forall_forall. intros Hl x [Hx _]%filter_In. auto. Qed.

Lemma poll_history now symbol exchange w :
  86400 <= now -> in_u64 now -> no_later now w ->
  let w' := snd (poll now symbol exchange w) in
  no_later now w' /\
  (ow_history w' = ow_history w \/ recent_snapshots now w').
Proof.
  intros Hnow Hu Hw. cbv zeta. unfold oi_poll_one, fetch_oi_data, bind.
  destruct (oi_request_of exchange symbol) as [r |]; [| auto]. unfold oi_http.
  destruct (answer r) as [d |]; [| auto]. destruct (extract_oi_value d exchange) as [v |]; [| auto].
  unfold oi_send, oi_snapshot, bind, oi_redis. cbv zeta.
  rewrite wrap64_small by (unfold in_u64 in *; lia).
  generalize (exchange +:+ ":oi_history:" +:+ symbol). intros k.
  destruct (String.eqb k key); cbn [fst snd ow_history ow_sent ret]; [| auto].
  assert (Hall : Forall (fun x => snd x <= now)
    (List.filter (fun x => negb (String.eqb (fst x) (pretty now +:+ "," +:+ display_f64 v))) (ow_history w) ++
     [(pretty now +:+ "," +:+ display_f64 v, now)])).
  { apply Forall_app. split; [now apply filter_forall | repeat constructor; cbn; lia]. }
  split; [now apply filter_forall |]. right. clear Hw. unfold recent_snapshots. cbn [ow_history].
  rewrite List.Forall_forall in Hall |- *. intros x [Hx Hc]%filter_In. apply Z.ltb_lt in Hc. specialize (Hall x Hx). lia.
Qed.
End history.

(** The open interest of KuCoin and Paradex is asked for under names that are not
    those their prices are stored under. *)
Example oi_names :
  oi_request_of "kucoin" "BTCUSDT" =
    Some (OiGet "https://api-futures.kucoin.com/api/v1/contracts/BTCM/open-interest") /\
  head (get_redis_key_patterns "kucoin" "BTCUSDT") = Some "kucoin:futures:tickerV2:BTCUSDTM" /\
  oi_request_of "paradex" "BTCUSDT" = Some (OiGet "https://api.prod.paradex.trade/v1/markets/BTCUSDT") /\
  head (get_redis_key_patterns "paradex" "BTCUSDT") = Some "paradex:usdt:bbo:BTC-USD-PERP".
Proof. vm_compute. auto. Qed.
