(* ===== verification/Terminal.v ===== *)
(** What the two terminal programs ([src/src/bin/dashboard.rs],
    [src/src/bin/trading-monitor.rs]) use of the terminal: keys that were typed, and
    tables whose rows are cells with their colours.  How they are drawn is the
    business of a library. *)
From Stdlib Require Import ZArith Lia Bool Ascii String.
From stdpp Require Import base option list strings.
From S2P Require Import Prelude Float64 NumberText.

#[local] Open Scope string_scope.
#[local] Open Scope Z_scope.

Inductive KeyCode := KChar (c : ascii) | KEsc | KUp | KDown | KPageUp | KPageDown | KHome | KEnd | KOther.

Inductive Color := Green | Yellow | White | Red | Cyan | Gray.

(** A cell: its text and the colour it asks for. *)
Abbreviation cell := (string * option Color)%type.
Definition raw (s : string) : cell := (s, None).

(** [len().saturating_sub(1)] *)
Definition last_index (len : nat) : Z := Z.max 0 (Z.of_nat len - 1).

(** The lines of a table of the given height, two of which are its frame:
    [skip(offset).take(height.saturating_sub(2))]. *)
Definition window {A} (offset height : Z) (l : list A) : list A :=
  take (Z.to_nat (Z.max 0 (height - 2))) (drop (Z.to_nat offset) l).

Lemma window_sublist {A} offset height (l : list A) : window offset height l `sublist_of` l.
Proof. unfold window. etransitivity; [apply sublist_take | apply sublist_drop]. Qed.

(** [{:+.places}] *)
Definition fixed_plus (places : nat) (x : f64) : string :=
  (if match x with S754_zero s | S754_infinity s | S754_finite s _ _ => negb s | S754_nan => false end then "+" else "") +:+
  fixed places x.
