(* ===== verification/PortfolioStore.v ===== *)
(** What the portfolio manager leaves in Redis ([src/src/strategy/portfolio.rs]): the
    state and the metrics under the keys of its prefix, and the two trade logs.

    Redis is an interface of the commands that are used.  [persist_state] is what
    [e_persist] stands for in [Runner.v], [log_trade_entry] and [log_trade_exit] are
    its other two writes. *)
From Stdlib Require Import ZArith Lia Bool String.
From stdpp Require Import base option list gmap strings pretty.
From S2P Require Import Prelude Float64 NumberText Types Portfolio JsonValue.

#[local] Open Scope string_scope.
#[local] Open Scope Z_scope.

(** ** Redis *)
Class Redis (W : Type) := {
  rd_set : string -> string -> ST W io;
  rd_del : list string -> ST W io;
  rd_lpush : string -> string -> ST W io;
  rd_get : string -> W -> option string
}.

(** A [SET] that is answered has stored the text under its key and nothing else; a
    [DEL] leaves the other keys; a [LPUSH] leaves the texts. *)
Class RedisLaws (W : Type) `{Redis W} := {
  rd_set_get k v w : fst (rd_set k v w) = Ok tt ->
    forall k', rd_get k' (snd (rd_set k v w)) = if decide (k' = k) then Some v else rd_get k' w;
  rd_del_get ks w : fst (rd_del ks w) = Ok tt ->
    forall k', rd_get k' (snd (rd_del ks w)) = if decide (k' ∈ ks) then None else rd_get k' w;
  rd_lpush_get k v w k' : rd_get k' (snd (rd_lpush k v w)) = rd_get k' w
}.

Definition state_key (redis_prefix : string) : string := "strategy:" +:+ redis_prefix +:+ ":portfolio:state".
Definition metrics_key (redis_prefix : string) : string := "strategy:" +:+ redis_prefix +:+ ":portfolio:metrics".

Section store.
Context {W : Type} `{Redis W} `{JsonText}.

(** [now] is the second at which the metrics are made. *)
Definition persist_state (redis_prefix : string) (start_time now : Z) (s : PortfolioState) : ST W io :=
  (let? _ := rd_set (state_key redis_prefix) (to_text (PortfolioState_json s)) in
   rd_set (metrics_key redis_prefix) (to_text (PortfolioMetrics_json (get_portfolio_metrics now start_time s))))%st.

(** The old state and metrics are removed, the fresh state is stored. *)
Definition PortfolioManager_new (starting_capital : f64) (redis_prefix : option string) (start_time now : Z)
  : ST W (result PortfolioState string) :=
  let redis_prefix := default "trade" redis_prefix in
  let state := PortfolioState_new starting_capital in
  (let? _ := rd_del [state_key redis_prefix; metrics_key redis_prefix] in
   let? _ := persist_state redis_prefix start_time now state in
   ret (Ok state))%st.

Definition log_trade_entry (trade : PaperTrade) : ST W io :=
  rd_lpush "strategy:trade_log:entries"
    ("[ENTRY] " +:+ pt_id trade +:+ " | " +:+ pt_long_exchange trade +:+ " -> " +:+ pt_short_exchange trade +:+
     " | Entry Spread: " +:+ fixed 2 (pt_entry_spread_bps trade) +:+ "bps | Size: $" +:+ fixed 2 (pt_position_size_usd trade) +:+
     " | Projected Profit: $" +:+ fixed 2 (pt_projected_profit_usd trade)).

Definition log_trade_exit (trade : PaperTrade) (exit_reason : string) : ST W io :=
  rd_lpush "strategy:trade_log:exits"
    ("[EXIT] " +:+ pt_id trade +:+ " | Reason: " +:+ exit_reason +:+ " | Actual Profit: $" +:+
     fixed 2 (pt_actual_profit_usd trade) +:+ " | Exit Time: " +:+ pretty (default 0 (pt_exit_time trade))).
End store.

(** ** What is stored *)
Section laws.
Context {W : Type} `{RedisLaws W} `{JsonText}.

(** The state and the metrics of a portfolio are in Redis. *)
Definition stored (redis_prefix : string) (start_time now : Z) (s : PortfolioState) (w : W) : Prop :=
  rd_get (state_key redis_prefix) w = Some (to_text (PortfolioState_json s)) /\
  rd_get (metrics_key redis_prefix) w = Some (to_text (PortfolioMetrics_json (get_portfolio_metrics now start_time s))).

Lemma keys_differ p : state_key p <> metrics_key p.
Proof.
  unfold state_key, metrics_key. intros Hk. apply (inj (String.append "strategy:")) in Hk.
  apply (inj (String.append p)) in Hk. discriminate.
Qed.

(** A write that succeeds stores both; every other key is left alone. *)
Lemma persist_state_stored p start now s w :
  fst (persist_state p start now s w) = Ok tt ->
  stored p start now s (snd (persist_state p start now s w)) /\
  forall k, k <> state_key p -> k <> metrics_key p -> rd_get k (snd (persist_state p start now s w)) = rd_get k w.
Proof.
  unfold persist_state, bind_ok, stored.
  pose proof (rd_set_get (state_key p) (to_text (PortfolioState_json s)) w) as H1'.
  destruct (rd_set (state_key p) _ w) as [[[] | e] w1]; cbn [fst snd] in *; [| discriminate].
  specialize (H1' eq_refl).
  pose proof (rd_set_get (metrics_key p) (to_text (PortfolioMetrics_json (get_portfolio_metrics now start s))) w1) as H2'.
  destruct (rd_set (metrics_key p) _ w1) as [r w2]; cbn [fst snd] in *. intros Hr. specialize (H2' Hr).
  split; [split |].
  - rewrite H2', decide_False by apply keys_differ. rewrite H1'. now rewrite decide_True.
  - rewrite H2'. now rewrite decide_True.
  - intros k Hs Hm. rewrite H2', decide_False by exact Hm. rewrite H1'. now rewrite decide_False.
Qed.
End laws.

(** ** Redis in memory *)
Abbreviation memory := (gmap string string).

#[export] Instance memory_redis : Redis memory := {
  rd_set k v w := (Ok tt, <[k := v]> w);
  rd_del ks w := (Ok tt, foldr delete w ks);
  rd_lpush _ _ w := (Ok tt, w);
  rd_get k w := w !! k
}.

#[export] Instance memory_redis_laws : RedisLaws memory.
Proof.
  split.
  - intros k v w _ k'. cbn [rd_set rd_get memory_redis snd].
    destruct (decide (k' = k)) as [-> | Hne]; [apply lookup_insert_eq | now apply lookup_insert_ne].
  - intros ks w _ k'. cbn [rd_del rd_get memory_redis snd]. induction ks as [| k ks IH]; cbn [foldr].
    { rewrite decide_False by (intros Hn; inversion Hn). reflexivity. }
    destruct (decide (k' = k)) as [-> | Hne].
    + rewrite decide_True by (now left). apply lookup_delete_eq.
    + rewrite lookup_delete_ne by congruence. rewrite IH. apply decide_ext. rewrite elem_of_cons. tauto.
  - reflexivity.
Qed.
