(* ===== verification/TradingMonitor.v ===== *)
(** The trading monitor ([src/src/bin/trading-monitor.rs]): it reads what the
    portfolio manager stored in Redis, values the open trades at the tickers that are
    there, and shows both.

    Redis is asked one question after the other; the answer to the [n]-th is
    [redis_get n], and the number of questions asked is the state of a look. *)
From Stdlib Require Import ZArith Lia Bool Ascii String.
From stdpp Require Import base option list gmap strings pretty.
From S2P Require Import Prelude Float64 NumberText Types Portfolio ExchangeParser Terminal JsonValue PortfolioStore.

#[local] Open Scope string_scope.
#[local] Open Scope list_scope.
#[local] Open Scope Z_scope.

#[local] Infix ".>" := and_then (at level 50, left associativity).

(** ** State *)

(** The metrics as the monitor declares them: the counts are [u32]. *)
Record MonitorMetrics := {
  mm_total_trades : Z; mm_win_rate : f64; mm_cumulative_pnl : f64; mm_pnl_percentage : f64;
  mm_available_capital : f64; mm_utilization_pct : f64; mm_leg_out_count : Z; mm_leg_out_loss_pct : f64;
  mm_realistic_apr : f64
}.

(** The state as the monitor declares it: the trades are values. *)
Record MonitorPortfolio := {
  mp_starting_capital : f64; mp_available_capital : f64; mp_total_open_positions : f64;
  mp_active_trades : list json; mp_closed_trades : list json; mp_cumulative_pnl : f64;
  mp_win_count : Z; mp_loss_count : Z; mp_leg_out_count : Z; mp_leg_out_total_loss : f64
}.

Record TradeMetrics := {
  tm_trade_id : string; tm_symbol : string; tm_current_spread_bps : f64; tm_unrealized_pnl : f64;
  tm_current_long_price : f64; tm_current_short_price : f64
}.

Record AppState := {
  ma_metrics : option MonitorMetrics;
  ma_state : option MonitorPortfolio;
  ma_trade_metrics : gmap string TradeMetrics;
  ma_should_quit : bool;
  ma_active_scroll_offset : Z;
  ma_exits_scroll_offset : Z
}.

Definition AppState_new : AppState :=
  {| ma_metrics := None; ma_state := None; ma_trade_metrics := ∅; ma_should_quit := false;
     ma_active_scroll_offset := 0; ma_exits_scroll_offset := 0 |}.

(** The derived deserializers: every field has to be there. *)
Definition read_metrics (v : json) : option MonitorMetrics :=
  total_trades ← read_u32 "total_trades" v; win_rate ← read_f64 "win_rate" v;
  cumulative_pnl ← read_f64 "cumulative_pnl" v; pnl_percentage ← read_f64 "pnl_percentage" v;
  available_capital ← read_f64 "available_capital" v; utilization_pct ← read_f64 "utilization_pct" v;
  leg_out_count ← read_u32 "leg_out_count" v; leg_out_loss_pct ← read_f64 "leg_out_loss_pct" v;
  realistic_apr ← read_f64 "realistic_apr" v;
  Some {| mm_total_trades := total_trades; mm_win_rate := win_rate; mm_cumulative_pnl := cumulative_pnl;
          mm_pnl_percentage := pnl_percentage; mm_available_capital := available_capital;
          mm_utilization_pct := utilization_pct; mm_leg_out_count := leg_out_count;
          mm_leg_out_loss_pct := leg_out_loss_pct; mm_realistic_apr := realistic_apr |}.

Definition read_portfolio (v : json) : option MonitorPortfolio :=
  starting_capital ← read_f64 "starting_capital" v; available_capital ← read_f64 "available_capital" v;
  total_open_positions ← read_f64 "total_open_positions" v; active_trades ← read_values "active_trades" v;
  closed_trades ← read_values "closed_trades" v; cumulative_pnl ← read_f64 "cumulative_pnl" v;
  win_count ← read_u32 "win_count" v; loss_count ← read_u32 "loss_count" v;
  leg_out_count ← read_u32 "leg_out_count" v; leg_out_total_loss ← read_f64 "leg_out_total_loss" v;
  Some {| mp_starting_capital := starting_capital; mp_available_capital := available_capital;
          mp_total_open_positions := total_open_positions; mp_active_trades := active_trades;
          mp_closed_trades := closed_trades; mp_cumulative_pnl := cumulative_pnl; mp_win_count := win_count;
          mp_loss_count := loss_count; mp_leg_out_count := leg_out_count; mp_leg_out_total_loss := leg_out_total_loss |}.

(** ** A look at Redis *)
Section look.
Context `{JsonText} (redis_get : nat -> string -> option string).

Definition ask (key : string) : ST nat (option string) := fun n => (redis_get n key, S n).

(** The first key with a text the price can be read from. *)
Fixpoint first_price (parse : json -> option string) (keys : list string) : ST nat (option f64) :=
  match keys with
  | [] => ret None
  | key :: keys =>
      (let! data := ask key in
       match data .> of_text .> parse .> std_parse_f64 with
       | Some price => ret (Some price)
       | None => first_price parse keys
       end)%st
  end.

Definition str_field (key : string) (v : json) : option string := json_get key v .> json_str.

(** The value of a trade at the prices found, its entry prices otherwise. *)
Definition value_trade (trade_id symbol : string) (entry_spread position_size current_long current_short : f64) : TradeMetrics :=
  let current_spread_bps :=
    if (current_long >? 0.0%f64)%F then (((current_short - current_long) / current_long) * 10000.0%f64)%F else entry_spread in
  let spread_reduction_bps := (entry_spread - current_spread_bps)%F in
  {| tm_trade_id := trade_id; tm_symbol := symbol; tm_current_spread_bps := current_spread_bps;
     tm_unrealized_pnl := ((spread_reduction_bps / 10000.0%f64) * position_size)%F;
     tm_current_long_price := current_long; tm_current_short_price := current_short |}.

Definition trade_prices (symbol long_ex short_ex : string) (entry_long entry_short : f64) : ST nat (f64 * f64) :=
  (let! long := first_price (parse_ask (get_parser long_ex)) (get_redis_key_patterns long_ex symbol) in
   let! short := first_price (parse_bid (get_parser short_ex)) (get_redis_key_patterns short_ex symbol) in
   ret (default entry_long long, default entry_short short))%st.

Definition update_trade (trade : json) (m : gmap string TradeMetrics) : ST nat (gmap string TradeMetrics) :=
  match str_field "id" trade, str_field "symbol" trade, read_f64 "entry_long_price" trade,
        read_f64 "entry_short_price" trade, read_f64 "entry_spread_bps" trade, str_field "long_exchange" trade,
        str_field "short_exchange" trade, read_f64 "position_size_usd" trade with
  | Some trade_id, Some symbol, Some entry_long, Some entry_short, Some entry_spread, Some long_ex, Some short_ex,
    Some position_size =>
      (let! prices := trade_prices symbol long_ex short_ex entry_long entry_short in
       ret (<[trade_id := value_trade trade_id symbol entry_spread position_size (fst prices) (snd prices)]> m))%st
  | _, _, _, _, _, _, _, _ => ret m
  end.

Fixpoint update_trades (trades : list json) (m : gmap string TradeMetrics) : ST nat (gmap string TradeMetrics) :=
  match trades with
  | [] => ret m
  | trade :: trades => (let! m := update_trade trade m in update_trades trades m)%st
  end.

(** [connected]: whether the connection to Redis was made.  A text that is no longer
    readable empties the field; a key that is not there leaves it. *)
Definition update_from_redis (connected : bool) (redis_prefix : string) (a : AppState) : ST nat AppState :=
  if negb connected then ret a else
  (let! metrics_text := ask (metrics_key redis_prefix) in
   let! state_text := ask (state_key redis_prefix) in
   let metrics := match metrics_text with Some t => of_text t .> read_metrics | None => ma_metrics a end in
   let state := match state_text with Some t => of_text t .> read_portfolio | None => ma_state a end in
   let! trade_metrics := update_trades (match state with Some s => mp_active_trades s | None => [] end) (ma_trade_metrics a) in
   ret {| ma_metrics := metrics; ma_state := state; ma_trade_metrics := trade_metrics; ma_should_quit := ma_should_quit a;
          ma_active_scroll_offset := ma_active_scroll_offset a; ma_exits_scroll_offset := ma_exits_scroll_offset a |})%st.
End look.

(** ** The keyboard *)
Definition set_active (n : Z) (a : AppState) : AppState :=
  {| ma_metrics := ma_metrics a; ma_state := ma_state a; ma_trade_metrics := ma_trade_metrics a;
     ma_should_quit := ma_should_quit a; ma_active_scroll_offset := n; ma_exits_scroll_offset := ma_exits_scroll_offset a |}.
Definition set_exits (n : Z) (a : AppState) : AppState :=
  {| ma_metrics := ma_metrics a; ma_state := ma_state a; ma_trade_metrics := ma_trade_metrics a;
     ma_should_quit := ma_should_quit a; ma_active_scroll_offset := ma_active_scroll_offset a; ma_exits_scroll_offset := n |}.
Definition quit (a : AppState) : AppState :=
  {| ma_metrics := ma_metrics a; ma_state := ma_state a; ma_trade_metrics := ma_trade_metrics a; ma_should_quit := true;
     ma_active_scroll_offset := ma_active_scroll_offset a; ma_exits_scroll_offset := ma_exits_scroll_offset a |}.

Definition handle_key (k : KeyCode) (a : AppState) : AppState :=
  let active := ma_active_scroll_offset a in
  let exits := ma_exits_scroll_offset a in
  match k with
  | KEsc => quit a
  | KUp => if 0 <? active then set_active (active - 1) a else a
  | KDown => match ma_state a with
             | Some state => if active <? last_index (length (mp_active_trades state)) then set_active (active + 1) a else a
             | None => a
             end
  | KPageUp => set_active (Z.max 0 (active - 5)) a
  | KPageDown => match ma_state a with
                 | Some state => set_active (Z.min (active + 5) (last_index (length (mp_active_trades state)))) a
                 | None => a
                 end
  | KHome => set_active 0 a
  | KEnd => match ma_state a with
            | Some state => set_active (last_index (length (mp_active_trades state))) a
            | None => a
            end
  | KChar c =>
      if Ascii.eqb c "q" then quit a
      else if Ascii.eqb c "j" then (if 0 <? exits then set_exits (exits - 1) a else a)
      else if Ascii.eqb c "k" then
        match ma_state a with
        | Some state => if exits <? last_index (length (mp_closed_trades state)) then set_exits (exits + 1) a else a
        | None => a
        end
      else a
  | KOther => a
  end.

(** [--demo] chooses the keys of the demo runner. *)
Definition redis_prefix_of (args : list string) : string :=
  if existsb (String.eqb "--demo") args then "demo" else "trade".

(** One turn of the loop without the drawing: a key within 16 ms, and the look at Redis
    when 200 ms have passed; [true] when the loop goes on. *)
Definition monitor_turn `{JsonText} (redis_prefix : string) (key : option KeyCode)
  (redis : option (bool * (nat -> string -> option string))) (a : AppState) : bool * AppState :=
  let a := match key with Some k => handle_key k a | None => a end in
  let a := match redis with
           | Some (connected, redis_get) => fst (update_from_redis redis_get connected redis_prefix a 0%nat)
           | None => a
           end in
  (negb (ma_should_quit a), a).

(** ** The screen *)
Definition money (x : f64) : string := if (x <? 0.0%f64)%F then "-$" +:+ fixed 2 (fabs x) else "$" +:+ fixed 2 x.
Definition money_cell (x : f64) : cell := (money x, Some (if (x >=? 0.0%f64)%F then Green else Red)).

Definition summary_lines (a : AppState) : list string :=
  match ma_state a with
  | Some s =>
      let utilization := ((mp_total_open_positions s / mp_starting_capital s) * 100.0%f64)%F in
      ["Starting Capital: $" +:+ fixed 2 (mp_starting_capital s) +:+ " | Available: $" +:+ fixed 2 (mp_available_capital s) +:+
       " | In Positions: $" +:+ fixed 2 (mp_total_open_positions s) +:+ " | Utilization: " +:+ fixed 1 utilization +:+ "%"]
  | None => []
  end ++
  match ma_metrics a with
  | Some m =>
      ["Trades: " +:+ pretty (mm_total_trades m) +:+ " | Win Rate: " +:+ fixed 1 (mm_win_rate m) +:+ "% | Cumulative P&L: $" +:+
       fixed 2 (mm_cumulative_pnl m) +:+ " (" +:+ fixed_plus 2 (mm_pnl_percentage m) +:+ "%)";
       "Realistic APR: " +:+ fixed 1 (mm_realistic_apr m) +:+ "% | Leg-Out Events: " +:+ pretty (mm_leg_out_count m) +:+
       " | Leg-Out Loss: " +:+ fixed 1 (mm_leg_out_loss_pct m) +:+ "%"]
  | None => ["Waiting for data..."]
  end.

(** [get(key).and_then(|v| v.as_str()).unwrap_or("N/A")] and the like. *)
Definition text_or (key : string) (v : json) : string := default "N/A" (str_field key v).
Definition number_or (key : string) (v : json) : f64 := default 0.0%f64 (read_f64 key v).

Definition active_row (a : AppState) (trade : json) : list cell :=
  let entry_spread := number_or "entry_spread_bps" trade in
  let '(current_spread, unrealized_pnl) :=
    match ma_trade_metrics a !! text_or "id" trade with
    | Some m => (tm_current_spread_bps m, tm_unrealized_pnl m)
    | None => (entry_spread, 0.0%f64)
    end in
  [raw (text_or "symbol" trade); raw (fixed 2 entry_spread +:+ "bps"); raw (fixed 2 current_spread +:+ "bps");
   money_cell unrealized_pnl; raw ("$" +:+ fixed 2 (number_or "projected_profit_usd" trade));
   raw ("$" +:+ fixed 2 (number_or "position_size_usd" trade)); raw (text_or "long_exchange" trade); raw (text_or "short_exchange" trade)].

Definition exit_row (trade : json) : list cell :=
  [raw (text_or "symbol" trade); money_cell (number_or "actual_profit_usd" trade); raw (text_or "exit_reason" trade)].

(** [None]: there is no state yet. *)
Definition active_rows (table_height : Z) (a : AppState) : option (list (list cell)) :=
  (fun s => active_row a <$> window (ma_active_scroll_offset a) table_height (mp_active_trades s)) <$> ma_state a.
Definition exit_rows (table_height : Z) (a : AppState) : option (list (list cell)) :=
  (fun s => exit_row <$> window (ma_exits_scroll_offset a) table_height (reverse (mp_closed_trades s))) <$> ma_state a.

(** ** From the portfolio manager to the monitor *)

(** What survives the serializers: finite numbers, and counts that fit. *)
Definition metrics_readable (m : PortfolioMetrics) : bool :=
  forallb is_finite [pm_win_rate m; pm_cumulative_pnl m; pm_pnl_percentage m; pm_available_capital m; pm_utilization_pct m;
                     pm_leg_out_loss_pct m; pm_realistic_apr m] &&
  ((0 <=? pm_total_trades m) && (pm_total_trades m <=? U32_MAX)) && ((0 <=? pm_leg_out_count m) && (pm_leg_out_count m <=? U32_MAX)).

Definition portfolio_readable (s : PortfolioState) : bool :=
  forallb is_finite [ps_starting_capital s; ps_available_capital s; ps_total_open_positions s; ps_cumulative_pnl s; ps_leg_out_total_loss s] &&
  ((0 <=? ps_win_count s) && (ps_win_count s <=? U32_MAX)) && ((0 <=? ps_loss_count s) && (ps_loss_count s <=? U32_MAX)) &&
  ((0 <=? ps_leg_out_count s) && (ps_leg_out_count s <=? U32_MAX)).

(** The metrics and the portfolio the monitor shows, with their numbers read again. *)
Definition seen_metrics (f : f64 -> f64) (m : PortfolioMetrics) : MonitorMetrics :=
  {| mm_total_trades := pm_total_trades m; mm_win_rate := f (pm_win_rate m); mm_cumulative_pnl := f (pm_cumulative_pnl m);
     mm_pnl_percentage := f (pm_pnl_percentage m); mm_available_capital := f (pm_available_capital m);
     mm_utilization_pct := f (pm_utilization_pct m); mm_leg_out_count := pm_leg_out_count m;
     mm_leg_out_loss_pct := f (pm_leg_out_loss_pct m); mm_realistic_apr := f (pm_realistic_apr m) |}.

Definition seen_trade (f : f64 -> f64) (t : PaperTrade) : json := map_floats f (PaperTrade_json t).

Definition seen_portfolio (f : f64 -> f64) (s : PortfolioState) : MonitorPortfolio :=
  {| mp_starting_capital := f (ps_starting_capital s); mp_available_capital := f (ps_available_capital s);
     mp_total_open_positions := f (ps_total_open_positions s); mp_active_trades := map (seen_trade f) (ps_active_trades s);
     mp_closed_trades := map (seen_trade f) (ps_closed_trades s); mp_cumulative_pnl := f (ps_cumulative_pnl s);
     mp_win_count := ps_win_count s; mp_loss_count := ps_loss_count s; mp_leg_out_count := ps_leg_out_count s;
     mp_leg_out_total_loss := f (ps_leg_out_total_loss s) |}.

(** One field after the other: a field that cannot be read is the end. *)
Ltac no_field := repeat (rewrite andb_false_r || rewrite andb_false_l); reflexivity.
Ltac read_field :=
  lazymatch goal with
  | |- ((if ?b then _ else _) ≫= _) = _ => destruct b; cbn [andb mbind option_bind]; [| no_field]
  | |- (Some _ ≫= _) = _ => cbn [mbind option_bind]
  end.

Lemma read_metrics_written f m :
  read_metrics (map_floats f (PortfolioMetrics_json m)) = if metrics_readable m then Some (seen_metrics f m) else None.
Proof.
  unfold read_metrics, metrics_readable. reread_values. unfold PortfolioMetrics_json, read_u32, and_then.
  cbn [json_get field String.eqb Ascii.eqb Bool.eqb forallb]. rewrite !written_float. repeat read_field. reflexivity.
Qed.

Lemma read_portfolio_written f s :
  read_portfolio (map_floats f (PortfolioState_json s)) = if portfolio_readable s then Some (seen_portfolio f s) else None.
Proof.
  unfold read_portfolio, portfolio_readable. reread_values. unfold PortfolioState_json, read_u32, read_values, and_then.
  cbn [json_get field String.eqb Ascii.eqb Bool.eqb forallb json_array]. rewrite !written_float.
  cbn [fmap option_fmap option_map]. rewrite !map_map. repeat read_field. reflexivity.
Qed.

(** C36. What the portfolio manager stores is what the monitor shows: after a
    successful write, a look under the same prefix has the manager's metrics and
    its portfolio, with every trade, as the floats are read back; a number that is
    not finite, or a count beyond [u32], makes the monitor wait for data. *)
Theorem monitor_reads_portfolio {W} `{RedisLaws W} `{JsonTextLaws} prefix start now s (w : W) redis_get a
  (Hok : fst (persist_state prefix start now s w) = Ok tt)
  (Hget : forall n k, k ∈ [state_key prefix; metrics_key prefix] ->
     redis_get n k = rd_get k (snd (persist_state prefix start now s w))) :
  let a' := fst (update_from_redis redis_get true prefix a 0%nat) in
  let m := get_portfolio_metrics now start s in
  ma_state a' = (if portfolio_readable s then Some (seen_portfolio reread s) else None) /\
  ma_metrics a' = (if metrics_readable m then Some (seen_metrics reread m) else None).
Proof.
  intros a' m. destruct (persist_state_stored prefix start now s w Hok) as [[Hs Hm] _].
  subst a'. unfold update_from_redis, ask, bind. cbn [negb].
  rewrite !Hget by (repeat constructor). rewrite Hs, Hm. unfold and_then.
  rewrite !of_to_text, read_metrics_written, read_portfolio_written.
  destruct (update_trades _ _ _ _) as [tm n]. cbn [fst ret ma_state ma_metrics]. auto.
Qed.

(** ** The value of the open trades *)
Section valuing.
Context `{JsonTextLaws} (redis_get : nat -> string -> option string).

(** The price in the text under a key at the [n]-th question. *)
Definition price_at (parse : json -> option string) (n : nat) (key : string) : option f64 :=
  redis_get n key .> of_text .> parse .> std_parse_f64.

(** [price] is the price under the first key that has one, [fallback] without one. *)
Definition priced (parse : json -> option string) (keys : list string) (n : nat) (fallback price : f64) : Prop :=
  (exists i key, keys !! i = Some key /\ price_at parse (n + i)%nat key = Some price /\
     forall j key', (j < i)%nat -> keys !! j = Some key' -> price_at parse (n + j)%nat key' = None) \/
  (price = fallback /\ forall j key', keys !! j = Some key' -> price_at parse (n + j)%nat key' = None).

Lemma first_price_spec parse keys n fallback :
  priced parse keys n fallback (default fallback (fst (first_price redis_get parse keys n))).
Proof.
  revert n. induction keys as [| key keys IH]; intros n; cbn [first_price].
  { right. split; [reflexivity |]. intros j key' Hj. discriminate. }
  unfold ask, bind. destruct (price_at parse n key) as [p |] eqn:Ep; unfold price_at in Ep; rewrite Ep.
  - left. exists 0%nat, key. rewrite Nat.add_0_r. split; [reflexivity |]. split; [exact Ep |]. intros j key' Hj. lia.
  - fold (price_at parse n key) in Ep. destruct (IH (S n)) as [(i & k & Hk & Hp & Hbefore) | [Hp Hnone]].
    + left. exists (S i), k. rewrite <- Nat.add_succ_comm. split; [exact Hk |]. split; [exact Hp |].
      intros [| j] key' Hj Hl; [injection Hl as <-; now rewrite Nat.add_0_r |]. rewrite <- Nat.add_succ_comm. apply Hbefore; [lia | exact Hl].
    + right. split; [exact Hp |]. intros [| j] key' Hl; [injection Hl as <-; now rewrite Nat.add_0_r |].
      rewrite <- Nat.add_succ_comm. now apply Hnone.
Qed.

(** What a trade of the portfolio is valued at. *)
Definition valued (t : PaperTrade) (m : TradeMetrics) : Prop :=
  exists n n' long short,
    priced (parse_ask (get_parser (pt_long_exchange t))) (get_redis_key_patterns (pt_long_exchange t) (pt_symbol t))
      n (reread (pt_entry_long_price t)) long /\
    priced (parse_bid (get_parser (pt_short_exchange t))) (get_redis_key_patterns (pt_short_exchange t) (pt_symbol t))
      n' (reread (pt_entry_short_price t)) short /\
    m = value_trade (pt_id t) (pt_symbol t) (reread (pt_entry_spread_bps t)) (reread (pt_position_size_usd t)) long short.

Definition trade_readable (t : PaperTrade) : bool :=
  forallb is_finite [pt_entry_long_price t; pt_entry_short_price t; pt_entry_spread_bps t; pt_position_size_usd t].

Lemma update_trade_spec t m n :
  let m' := fst (update_trade redis_get (seen_trade reread t) m n) in
  if trade_readable t then exists v, valued t v /\ m' = <[pt_id t := v]> m else m' = m.
Proof.
  cbv zeta. unfold update_trade, trade_readable, seen_trade, str_field. reread_values. unfold PaperTrade_json, and_then.
  cbn [json_get field String.eqb Ascii.eqb Bool.eqb forallb json_str fmap option_fmap option_map map_floats].
  rewrite !written_float.
  repeat match goal with |- context [if is_finite ?x then _ else _] => destruct (is_finite x); cbn [andb]; [| reflexivity] end.
  unfold trade_prices, bind.
  pose proof (first_price_spec (parse_ask (get_parser (pt_long_exchange t)))
    (get_redis_key_patterns (pt_long_exchange t) (pt_symbol t)) n (reread (pt_entry_long_price t))) as Hl.
  destruct (first_price redis_get _ _ n) as [long n1]. cbn [fst] in Hl.
  pose proof (first_price_spec (parse_bid (get_parser (pt_short_exchange t)))
    (get_redis_key_patterns (pt_short_exchange t) (pt_symbol t)) n1 (reread (pt_entry_short_price t))) as Hs.
  destruct (first_price redis_get _ _ n1) as [short n2]. cbn [fst] in Hs.
  cbn [ret fst snd]. eexists. split; [| reflexivity]. exists n, n1, (default (reread (pt_entry_long_price t)) long),
    (default (reread (pt_entry_short_price t)) short). auto.
Qed.

Lemma update_trades_spec trades m n t :
  NoDup (pt_id <$> trades) -> t ∈ trades -> trade_readable t = true ->
  exists v, valued t v /\ fst (update_trades redis_get (map (seen_trade reread) trades) m n) !! pt_id t = Some v.
Proof.
  assert (Hkeep : forall trades m n, pt_id t ∉ pt_id <$> trades ->
    fst (update_trades redis_get (map (seen_trade reread) trades) m n) !! pt_id t = m !! pt_id t).
  { clear. induction trades as [| u trades IH]; intros m n Hni; [reflexivity |]. cbn [map update_trades].
    rewrite fmap_cons, elem_of_cons in Hni. unfold bind. pose proof (update_trade_spec u m n) as Hu. cbv zeta in Hu.
    destruct (update_trade redis_get (seen_trade reread u) m n) as [m1 n1]. cbn [fst] in Hu. rewrite IH by tauto.
    destruct (trade_readable u); [destruct Hu as (v & _ & ->) | now subst m1]. apply lookup_insert_ne. intros Heq. apply Hni. now left. }
  intros Hnd Hin Hr. revert m n. induction trades as [| u trades IH]; intros m n; [inversion Hin |].
  rewrite fmap_cons in Hnd. apply NoDup_cons in Hnd as [Hni Hnd]. cbn [map update_trades]. unfold bind.
  pose proof (update_trade_spec u m n) as Hu. cbv zeta in Hu.
  destruct (update_trade redis_get (seen_trade reread u) m n) as [m1 n1]. cbn [fst] in Hu.
  apply elem_of_cons in Hin as [<- | Hin]; [| now apply IH].
  rewrite Hr in Hu. destruct Hu as (v & Hv & ->). exists v. split; [exact Hv |]. rewrite Hkeep by exact Hni. apply lookup_insert_eq.
Qed.
End valuing.

(** C38. A row for every open trade: of a stored portfolio whose trades have different
    ids, the row of a trade with finite numbers shows the spread between the price it
    would be sold at now on its short exchange and the one it would be bought at on its
    long exchange, and what the spread has narrowed since the entry, times the size.
    The prices are those of the trade's own exchanges and symbol, the first readable one
    of either, or the entry price where there is none. *)
Theorem open_trades_valued {W} `{RedisLaws W} `{JsonTextLaws} prefix start now s (w : W) redis_get a t
  (Hok : fst (persist_state prefix start now s w) = Ok tt)
  (Hget : forall n k, k ∈ [state_key prefix; metrics_key prefix] ->
     redis_get n k = rd_get k (snd (persist_state prefix start now s w)))
  (Hs : portfolio_readable s = true) (Hids : NoDup (pt_id <$> ps_active_trades s))
  (Ht : t ∈ ps_active_trades s) (Hr : trade_readable t = true) :
  let a' := fst (update_from_redis redis_get true prefix a 0%nat) in
  exists n n' long_ask short_bid,
    priced redis_get (parse_ask (get_parser (pt_long_exchange t))) (get_redis_key_patterns (pt_long_exchange t) (pt_symbol t))
      n (reread (pt_entry_long_price t)) long_ask /\
    priced redis_get (parse_bid (get_parser (pt_short_exchange t))) (get_redis_key_patterns (pt_short_exchange t) (pt_symbol t))
      n' (reread (pt_entry_short_price t)) short_bid /\
    let entry_spread := reread (pt_entry_spread_bps t) in
    let spread := if (long_ask >? 0.0%f64)%F then ((short_bid - long_ask) / long_ask * 10000.0%f64)%F else entry_spread in
    let pnl := ((entry_spread - spread) / 10000.0%f64 * reread (pt_position_size_usd t))%F in
    active_row a' (seen_trade reread t) !! 2%nat = Some (raw (fixed 2 spread +:+ "bps")) /\
    active_row a' (seen_trade reread t) !! 3%nat =
      Some (if (pnl <? 0.0%f64)%F then "-$" +:+ fixed 2 (fabs pnl) else "$" +:+ fixed 2 pnl,
            Some (if (pnl >=? 0.0%f64)%F then Green else Red)).
Proof.
  intros a'. destruct (persist_state_stored prefix start now s w Hok) as [[Hst Hme] _].
  assert (Hv : exists m, valued redis_get t m /\ ma_trade_metrics a' !! pt_id t = Some m).
  { subst a'. unfold update_from_redis, ask, bind. cbn [negb].
    rewrite !Hget by (repeat constructor). rewrite Hst, Hme. unfold and_then. rewrite !of_to_text, read_portfolio_written, Hs.
    destruct (update_trades_spec redis_get (ps_active_trades s) (ma_trade_metrics a) 2 t Hids Ht Hr) as (m & Hv & Hm).
    cbn [seen_portfolio mp_active_trades].
    destruct (update_trades _ _ _ _) as [tm n]. cbn [fst ret ma_trade_metrics] in *. eauto. }
  destruct Hv as (m & (n & n' & long & short & Hl & Hsh & ->) & Hm). exists n, n', long, short.
  split; [exact Hl |]. split; [exact Hsh |]. cbv zeta. unfold active_row, text_or, str_field, seen_trade. reread_values.
  cbn [PaperTrade_json json_get field String.eqb Ascii.eqb Bool.eqb fmap option_fmap option_map and_then json_str default from_option id].
  rewrite json_str_map. cbn [json_str default from_option id]. rewrite Hm. auto.
Qed.

(** ** A concrete portfolio, stored in memory next to one ticker *)
#[local] Existing Instance coded_json.
#[local] Existing Instance coded_json_laws.

Definition demo_memory : memory :=
  <["bybit:linear:tickers:BTCUSDT" := to_text (JObject [("data", JObject [("bid1Price", JString "100.4"); ("ask1Price", JString "100.5")])])]> ∅.
Definition demo_stored : memory := snd (persist_state "trade" 0 86400 sample_state demo_memory).
Lemma demo_persisted : fst (persist_state "trade" 0 86400 sample_state demo_memory) = Ok tt.
Proof. vm_compute. reflexivity. Qed.
Definition demo_answers (n : nat) (key : string) : option string := rd_get key demo_stored.
Definition demo_look : AppState := fst (update_from_redis demo_answers true "trade" AppState_new 0%nat).

Lemma monitor_reads_portfolio_witness :
  portfolio_readable sample_state = true /\
  ma_state demo_look = Some (seen_portfolio (fun x => x) sample_state) /\
  ma_metrics demo_look = Some (seen_metrics (fun x => x) (get_portfolio_metrics 86400 0 sample_state)).
Proof.
  destruct (monitor_reads_portfolio "trade" 0 86400 sample_state demo_memory demo_answers AppState_new
    demo_persisted (fun n k _ => eq_refl)) as [Hs Hm].
  split; [vm_compute; reflexivity |]. split; [exact Hs | exact Hm].
Defined.

Lemma open_trades_valued_witness :
  (fst (persist_state "trade" 0 86400 sample_state demo_memory) = Ok tt /\ portfolio_readable sample_state = true /\
   trade_readable (sample_trade "a" 300.0%f64) = true) /\
  exists n' short_bid,
    priced demo_answers (parse_bid (get_parser "bybit")) (get_redis_key_patterns "bybit" "BTCUSDT") n' 101.0%f64 short_bid.
Proof.
  split; [split; [exact demo_persisted | split; vm_compute; reflexivity] |].
  destruct (open_trades_valued "trade" 0 86400 sample_state demo_memory demo_answers AppState_new (sample_trade "a" 300.0%f64)
    demo_persisted (fun n k _ => eq_refl)) as (n & n' & long & short & _ & Hs & _);
    [vm_compute; reflexivity | apply (bool_decide_unpack _); vm_compute; exact I | left | vm_compute; reflexivity |].
  exists n', short. exact Hs.
Defined.

(** The trades at 100 on OKX, for which there is no ticker, and at Bybit's 100.4. *)
Example demo_screen :
  summary_lines demo_look =
    ["Starting Capital: $1000.00 | Available: $500.00 | In Positions: $500.00 | Utilization: 50.0%";
     "Trades: 0 | Win Rate: 0.0% | Cumulative P&L: $0.00 (+0.00%)";
     "Realistic APR: 0.0% | Leg-Out Events: 0 | Leg-Out Loss: 0.0%"] /\
  (map (map fst) <$> active_rows 10 demo_look) =
    Some [["BTCUSDT"; "100.00bps"; "40.00bps"; "$1.80"; "$5.00"; "$300.00"; "okx"; "bybit"];
          ["BTCUSDT"; "100.00bps"; "40.00bps"; "$1.20"; "$5.00"; "$200.00"; "okx"; "bybit"]].
Proof. vm_compute. auto. Qed.

(** A portfolio without capital has metrics that are no numbers: what is stored cannot
    be read. *)
Example no_capital_no_metrics :
  metrics_readable (get_portfolio_metrics 86400 0 (PortfolioState_new 0.0%f64)) = false.
Proof. vm_compute. reflexivity. Qed.
