(* ===== verification/Dashboard.v ===== *)
(** The dashboard ([src/src/bin/dashboard.rs]): it reads the tickers the
    connectors left in Redis, compares every two exchanges of a symbol and shows
    what is worth an entry.

    Redis is asked for the keys and then for one text after the other; the answer
    to the [n]-th question is [redis_get n].  The order in which Rust's [HashMap]
    gives its entries is not fixed: [hash_order] is any permutation. *)
From Stdlib Require Import ZArith Lia Bool Ascii String.
From stdpp Require Import base option list gmap strings sorting pretty.
From S2P Require Import Prelude Float64 NumberText Types ArrayQueue Pipeline OpportunityQueue Branchless ExchangeParser SymbolNames Ingest Terminal.

#[local] Open Scope string_scope.
#[local] Open Scope list_scope.
#[local] Open Scope Z_scope.

#[local] Infix ".>" := and_then (at level 50, left associativity).

(** ** State *)
Record RemovedOpportunity := { ro_ticker : string; ro_confidence_score : Z; ro_reason : string }.

Record AppState (Q : Type) := {
  da_opportunities : gmap string ArbitrageOpportunity;
  da_opportunity_consumer : OpportunityQueue Q;
  da_removed_opportunities : list RemovedOpportunity;
  da_should_quit : bool;
  da_scroll_offset : Z
}.
Arguments da_opportunities {Q} _.
Arguments da_opportunity_consumer {Q} _.
Arguments da_removed_opportunities {Q} _.
Arguments da_should_quit {Q} _.
Arguments da_scroll_offset {Q} _.

Definition AppState_new {Q} (consumer : OpportunityQueue Q) : AppState Q :=
  {| da_opportunities := ∅; da_opportunity_consumer := consumer; da_removed_opportunities := [];
     da_should_quit := false; da_scroll_offset := 0 |}.

(** The entries of a [BTreeMap], in the order of the keys. *)
Definition key_le {A} (x y : string * A) : Prop := String.leb (fst x) (fst y) = true.
#[export] Instance key_le_dec {A} (x y : string * A) : Decision (key_le x y) := decide (_ = true).
Definition entries {A} (m : gmap string A) : list (string * A) := merge_sort key_le (map_to_list m).

(** ** Reading the tickers *)

(** What an exchange asks and bids for a symbol, and its funding rate. *)
Record quote := { qt_exchange : string; qt_bid : f64; qt_ask : f64; qt_funding : f64 }.

Section reading.
Context {V : Type} `{JV : Json V}.

Definition or_else {A} (o : option A) (other : option A) : option A :=
  match o with Some a => Some a | None => other end.

Definition funding_key (exchange symbol_raw : string) : string :=
  if String.eqb exchange "bybit" then "bybit:linear:funding:" +:+ symbol_raw
  else if String.eqb exchange "okx" then "okx:usdt:funding:" +:+ symbol_raw
  else if String.eqb exchange "bitget" then "bitget:usdt:funding:" +:+ symbol_raw
  else if String.eqb exchange "gateio" then "gateio:usdt:funding:" +:+ symbol_raw
  else if String.eqb exchange "kucoin" then "kucoin:usdt:funding:" +:+ symbol_raw
  else exchange +:+ ":usdt:funding:" +:+ symbol_raw.

(** The rate in a stored text: a field of a JSON object, a string or a number, or the
    text itself. *)
Definition funding_of (rate_str : option string) : f64 :=
  match rate_str with
  | None => 0.0%f64
  | Some rate_str =>
      match j_from_str (V:=V) rate_str with
      | Some json =>
          let field := or_else (or_else (or_else (j_get "fundingRate" json) (j_get "funding_rate" json))
                                  (get_path ["data"; "fundingRate"] json))
                         (get_path ["data"; "funding_rate"] json) in
          default 0.0%f64 (field .> (fun v => or_else (j_as_str v .> std_parse_f64) (j_as_f64 v)))
      | None => default 0.0%f64 (std_parse_f64 rate_str)
      end
  end.

(** The ticker under a key: the symbol it is of, and the quote. *)
Definition read_quote (get_ticker get_funding : string -> option string) (key : string)
  : option (string * quote) :=
  let parts := split_char ":" key in
  if (length parts <? 4)%nat then None else
  let exchange := default "" (parts !! 0%nat) in
  let symbol_raw := default "" (parts !! (length parts - 1)%nat) in
  let symbol := normalize_symbol symbol_raw in
  get_ticker key .> (fun value =>
  j_from_str value .> (fun json : V =>
  let parser := get_parser exchange in
  parse_bid parser json .> (fun bid_str =>
  parse_ask parser json .> (fun ask_str =>
  parse_price_simd bid_str .> (fun bid =>
  parse_price_simd ask_str .> (fun ask =>
    if (bid <=? 0.0%f64)%F || (ask <=? 0.0%f64)%F || (bid >=? ask)%F then None
    else Some (symbol, {| qt_exchange := exchange; qt_bid := bid; qt_ask := ask;
                          qt_funding := funding_of (get_funding (funding_key exchange symbol_raw)) |}))))))).

(** Two questions for every key. *)
Definition read_quotes (redis_get : nat -> string -> option string) (keys : list string)
  : list (string * quote) :=
  omap id (imap (fun i => read_quote (redis_get (2 * i)%nat) (redis_get (2 * i + 1)%nat)) keys).
End reading.

(** [symbol_data]: the quotes of a symbol in the order they were read. *)
Definition group_by_symbol (quotes : list (string * quote)) : gmap string (list quote) :=
  fold_left (fun m '(symbol, q) => <[symbol := default [] (m !! symbol) ++ [q]]> m) quotes ∅.

(** ** Comparing exchanges *)

Definition confidence (spread funding_delta : f64) : Z :=
  f_to_u8 (fmin (spread / 50.0%f64) 1.0%f64 * 50.0%f64 + fmin (funding_delta / 0.01%f64) 1.0%f64 * 30.0%f64 + 20.0%f64)%F.

Definition opportunity_key (symbol : string) (long short : quote) : string :=
  symbol +:+ ":" +:+ qt_exchange long +:+ ":" +:+ qt_exchange short +:+ ":" +:+
  display_f64 (qt_bid long) +:+ ":" +:+ display_f64 (qt_ask long) +:+ ":" +:+
  display_f64 (qt_bid short) +:+ ":" +:+ display_f64 (qt_ask short).

(** Buying at [long]'s ask and selling at [short]'s bid, when that is worth showing.
    The code has this text twice, once for either direction. *)
Definition candidate (now : Z) (symbol : string) (long short : quote) : option (string * ArbitrageOpportunity) :=
  let spread := Scanner.calculate_spread_bps (qt_ask long) (qt_bid short) in
  let funding_delta := fabs (qt_funding short - qt_funding long)%F in
  let confidence := confidence spread funding_delta in
  if (spread >? 10.0%f64)%F && (70 <=? confidence) then
    Some (opportunity_key symbol long short,
      {| ao_symbol := symbol; ao_long_exchange := qt_exchange long; ao_short_exchange := qt_exchange short;
         ao_long_price := qt_ask long; ao_short_price := qt_bid short; ao_spread_bps := spread;
         ao_funding_delta_8h := funding_delta; ao_confidence_score := confidence;
         ao_projected_profit_usd := ((spread / 10000.0%f64) * 1000.0%f64)%F;
         ao_projected_profit_after_slippage := (spread - 20.0%f64)%F;
         ao_metrics :=
           {| cm_funding_delta := funding_delta; cm_funding_delta_projected := funding_delta;
              cm_obi_ratio := 0.0%f64; cm_oi_current := 0.0%f64; cm_oi_24h_avg := 0.0%f64;
              cm_vwap_deviation := 0.0%f64; cm_atr := 0.0%f64; cm_atr_trend := false;
              cm_liquidation_cluster_distance := 0.0%f64;
              cm_hard_constraints :=
                {| order_book_depth_sufficient := true; exchange_latency_ok := true;
                   funding_delta_substantial := (funding_delta >=? 0.0001%f64)%F |} |};
         ao_order_book_depth_long := 15000.0%f64; ao_order_book_depth_short := 15000.0%f64;
         ao_timestamp := Some now |})
  else None.

(** [for i in 0..len { for j in i + 1..len { .. } }] *)
Fixpoint pairs {A} (l : list A) : list (A * A) :=
  match l with
  | [] => []
  | x :: l => ((fun y => (x, y)) <$> l) ++ pairs l
  end.

(** Both directions of every pair of a symbol; a symbol of one exchange has no pair. *)
Definition candidates (now : Z) (group : string * list quote) : list (string * ArbitrageOpportunity) :=
  let '(symbol, exchanges) := group in
  '(q1, q2) ← pairs exchanges;
  option_list (candidate now symbol q1 q2) ++ option_list (candidate now symbol q2 q1).

Definition insert_entries {A} (kvs : list (string * A)) (m : gmap string A) : gmap string A :=
  fold_left (fun m kv => <[fst kv := snd kv]> m) kvs m.

(** ** The list of what is gone: the ten newest *)
Definition push_removed (removed : list RemovedOpportunity) (r : RemovedOpportunity) : list RemovedOpportunity :=
  (if (10 <=? length removed)%nat then tail removed else removed) ++ [r].

Section app.
Context {Q V : Type} `{ArrayQueue Q ArbitrageOpportunity} `{JV : Json V}.
Abbreviation app := (AppState Q).

Definition set_shown (opportunities : gmap string ArbitrageOpportunity) (removed : list RemovedOpportunity) (a : app) : app :=
  {| da_opportunities := opportunities; da_opportunity_consumer := da_opportunity_consumer a;
     da_removed_opportunities := removed; da_should_quit := da_should_quit a; da_scroll_offset := da_scroll_offset a |}.

Definition no_longer (ticker : string) (o : ArbitrageOpportunity) : RemovedOpportunity :=
  {| ro_ticker := ticker; ro_confidence_score := ao_confidence_score o; ro_reason := "No longer detected" |}.

(** [keys] is [None] when Redis does not answer. *)
Definition update_from_redis (hash_order : list (string * list quote) -> list (string * list quote))
  (keys : option (list string)) (redis_get : nat -> string -> option string) (now : Z) (a : app) : app :=
  match keys with
  | None => a
  | Some keys =>
      let symbol_data := group_by_symbol (read_quotes (V:=V) redis_get keys) in
      let new_opportunities := insert_entries (hash_order (map_to_list symbol_data) ≫= candidates now) ∅ in
      let gone := List.filter (fun e => bool_decide (new_opportunities !! fst e = None)) (entries (da_opportunities a)) in
      set_shown new_opportunities
        (fold_left push_removed ((fun e => no_longer (ao_symbol (snd e)) (snd e)) <$> gone) (da_removed_opportunities a)) a
  end.

(** [now - ts] is unsigned and wraps.  Nothing calls this since the dashboard polls
    Redis. *)
Definition update_from_queue (now : Z) (a : app) : app :=
  let '(batch, consumer) := oq_pop_batch 100 (da_opportunity_consumer a) in
  let gone := List.filter (fun e => negb (existsb (fun o => String.eqb (ao_symbol o) (fst e)) batch)) (entries (da_opportunities a)) in
  let removed := fold_left push_removed ((fun e => no_longer (fst e) (snd e)) <$> gone) (da_removed_opportunities a) in
  let '(opportunities, removed) :=
    fold_left (fun '(m, removed) opp =>
      match ao_timestamp opp with
      | Some ts =>
          let age := wrap64 (now - ts) in
          if 5 <? age
          then (m, push_removed removed {| ro_ticker := ao_symbol opp; ro_confidence_score := ao_confidence_score opp;
                                           ro_reason := "Stale (" +:+ pretty age +:+ "s old)" |})
          else (<[ao_symbol opp := opp]> m, removed)
      | None => (<[ao_symbol opp := opp]> m, removed)
      end) batch (∅, removed) in
  {| da_opportunities := opportunities; da_opportunity_consumer := consumer; da_removed_opportunities := removed;
     da_should_quit := da_should_quit a; da_scroll_offset := da_scroll_offset a |}.

(** ** The keyboard *)
Definition set_scroll (n : Z) (a : app) : app :=
  {| da_opportunities := da_opportunities a; da_opportunity_consumer := da_opportunity_consumer a;
     da_removed_opportunities := da_removed_opportunities a; da_should_quit := da_should_quit a; da_scroll_offset := n |}.

Definition quit (a : app) : app :=
  {| da_opportunities := da_opportunities a; da_opportunity_consumer := da_opportunity_consumer a;
     da_removed_opportunities := da_removed_opportunities a; da_should_quit := true; da_scroll_offset := da_scroll_offset a |}.

Definition last_row (a : app) : Z := last_index (size (da_opportunities a)).
End app.

Section loop.
Context {Q V : Type} `{ArrayQueue Q ArbitrageOpportunity} `{JV : Json V}.
Abbreviation app := (AppState Q).

Definition handle_key (k : KeyCode) (a : app) : app :=
  match k with
  | KChar c => if Ascii.eqb c "q" then quit a else a
  | KEsc => quit a
  | KUp => if 0 <? da_scroll_offset a then set_scroll (da_scroll_offset a - 1) a else a
  | KDown => if da_scroll_offset a <? last_row a then set_scroll (da_scroll_offset a + 1) a else a
  | KPageUp => set_scroll (Z.max 0 (da_scroll_offset a - 10)) a
  | KPageDown => set_scroll (Z.min (da_scroll_offset a + 10) (last_row a)) a
  | KHome => set_scroll 0 a
  | KEnd => set_scroll (last_row a) a
  | KOther => a
  end.

(** What one turn of the loop meets: a key, or none within 16 ms; the answers of Redis
    when 100 ms have passed since the last update. *)
Record turn := {
  tn_key : option KeyCode;
  tn_redis : option (option (list string) * (nat -> string -> option string) * Z)
}.

(** One turn without the drawing; [true] when the loop goes on. *)
Definition dashboard_turn (hash_order : list (string * list quote) -> list (string * list quote)) (t : turn) (a : app) : bool * app :=
  let a := match tn_key t with Some k => handle_key k a | None => a end in
  let a := match tn_redis t with
           | Some (keys, redis_get, now) => update_from_redis (V:=V) hash_order keys redis_get now a
           | None => a
           end in
  (negb (da_should_quit a), a).

(** The loop, and the states that are drawn. *)
Fixpoint dashboard_loop (hash_order : list (string * list quote) -> list (string * list quote)) (ts : list turn) (a : app) : list app :=
  match ts with
  | [] => []
  | t :: ts => let '(go, a) := dashboard_turn hash_order t a in
               a :: if (go : bool) then dashboard_loop hash_order ts a else []
  end.
End loop.

(** ** The tables *)

(** [sort_by(|a, b| b.spread_bps.partial_cmp(&a.spread_bps).unwrap_or(Equal))] *)
Definition spread_ge (a b : ArbitrageOpportunity) : Prop := (ao_spread_bps a <? ao_spread_bps b)%F = false.
#[export] Instance spread_ge_dec a b : Decision (spread_ge a b) := decide (_ = false).

Definition sorted_opps (m : gmap string ArbitrageOpportunity) : list ArbitrageOpportunity :=
  merge_sort spread_ge (snd <$> entries m).

Definition format_price (price : f64) : string :=
  "$" +:+ fixed (if (price >=? 100.0%f64)%F then 2 else if (price >=? 10.0%f64)%F then 3
                 else if (price >=? 1.0%f64)%F then 4 else if (price >=? 0.01%f64)%F then 6 else 9)%nat price.

(** The four prices are read back from the key of the first opportunity of the same
    symbol and exchanges. *)
Definition quoted_prices (m : gmap string ArbitrageOpportunity) (opp : ArbitrageOpportunity) : f64 * f64 * f64 * f64 :=
  let same (e : string * ArbitrageOpportunity) :=
    String.eqb (ao_symbol (snd e)) (ao_symbol opp) && String.eqb (ao_long_exchange (snd e)) (ao_long_exchange opp) &&
    String.eqb (ao_short_exchange (snd e)) (ao_short_exchange opp) in
  let key := match List.find same (entries m) with Some (k, _) => k | None => "" end in
  let key_parts := split_char ":" key in
  let part n fallback := default fallback ((key_parts !! n) .> std_parse_f64) in
  if (7 <=? length key_parts)%nat then
    (part 3%nat (ao_long_price opp * 0.9995%f64)%F, part 4%nat (ao_long_price opp),
     part 5%nat (ao_short_price opp), part 6%nat (ao_short_price opp * 1.0005%f64)%F)
  else ((ao_long_price opp * 0.9995%f64)%F, ao_long_price opp, ao_short_price opp, (ao_short_price opp * 1.0005%f64)%F).

Definition opportunity_row (now : Z) (m : gmap string ArbitrageOpportunity) (opp : ArbitrageOpportunity) : list cell :=
  let spread_color := if (ao_spread_bps opp >? 20.0%f64)%F then Green
                      else if (ao_spread_bps opp >? 10.0%f64)%F then Yellow else White in
  let age_secs := match ao_timestamp opp with Some ts => Z.max 0 (now - ts) | None => 0 end in
  let age_color := if age_secs <? 5 then Green else if age_secs <? 15 then Yellow else Red in
  let age_str := if age_secs <? 60 then pretty age_secs +:+ "s" else pretty (age_secs / 60) +:+ "m" in
  let '(long_bid, long_ask, short_bid, short_ask) := quoted_prices m opp in
  let score := ao_confidence_score opp in
  [raw (ao_symbol opp);
   (fixed 2 (ao_spread_bps opp) +:+ "bps", Some spread_color);
   (pretty score, Some (if 70 <? score then Green else if 50 <? score then Yellow else White));
   raw (fixed 6 (ao_funding_delta_8h opp * 100.0%f64)%F +:+ "%");
   (age_str, Some age_color);
   raw (ao_long_exchange opp); raw (format_price long_bid); raw (format_price long_ask);
   raw (ao_short_exchange opp); raw (format_price short_bid); raw (format_price short_ask);
   raw ("$" +:+ fixed 2 (ao_projected_profit_usd opp))].

Section screen.
Context {Q : Type}.
Abbreviation app := (AppState Q).

Definition visible_opps (table_height : Z) (a : app) : list ArbitrageOpportunity :=
  window (da_scroll_offset a) table_height (sorted_opps (da_opportunities a)).

Definition opportunity_rows (table_height now : Z) (a : app) : list (list cell) :=
  opportunity_row now (da_opportunities a) <$> visible_opps table_height a.

Definition table_title (a : app) : string :=
  let n := pretty (Z.of_nat (size (da_opportunities a))) in
  "Opportunities (" +:+ n +:+ " total) - Scroll: " +:+ pretty (da_scroll_offset a + 1) +:+ "/" +:+ n.

Definition removed_rows (a : app) : list (list cell) :=
  (fun r => [raw (ro_ticker r); raw (pretty (ro_confidence_score r)); (ro_reason r, Some Yellow)]) <$> da_removed_opportunities a.
End screen.

(** ** Which tickers count *)

Lemma pairs_spec {A} (l : list A) x y :
  (x, y) ∈ pairs l <-> exists i j, (i < j)%nat /\ l !! i = Some x /\ l !! j = Some y.
Proof.
  induction l as [| z l IH]; cbn [pairs].
  { rewrite elem_of_nil. split; [easy | intros (i & j & _ & Hi & _); discriminate]. }
  rewrite elem_of_app, list_elem_of_fmap, IH. split.
  - intros [(y' & [= -> ->] & [j Hj]%list_elem_of_lookup) | (i & j & Hij & Hi & Hj)].
    + exists 0%nat, (S j). repeat split; auto. lia.
    + exists (S i), (S j). repeat split; auto. lia.
  - intros ([| i] & [| j] & Hij & Hi & Hj); try lia.
    + injection Hi as ->. left. exists y. split; [reflexivity |]. apply list_elem_of_lookup. eauto.
    + right. exists i, j. repeat split; auto. lia.
Qed.

Lemma elem_of_option_list {A} (o : option A) x : x ∈ option_list o <-> o = Some x.
Proof. destruct o; cbn; rewrite ?list_elem_of_singleton, ?elem_of_nil; intuition congruence. Qed.

(** The candidates of a group are those of two different places in it. *)
Lemma candidates_spec now symbol qs e :
  e ∈ candidates now (symbol, qs) <->
  exists i j l s, i <> j /\ qs !! i = Some l /\ qs !! j = Some s /\ candidate now symbol l s = Some e.
Proof.
  unfold candidates. rewrite list_elem_of_bind. split.
  - intros ([q1 q2] & Hc & (i & j & Hij & Hi & Hj)%pairs_spec).
    apply elem_of_app in Hc as [Hc | Hc]; apply elem_of_option_list in Hc;
      [exists i, j, q1, q2 | exists j, i, q2, q1]; repeat split; auto; lia.
  - intros (i & j & l & s & Hne & Hi & Hj & Hc).
    destruct (decide (i < j)%nat) as [Hlt | Hge].
    + exists (l, s). split; [apply elem_of_app; left; now apply elem_of_option_list |]. apply pairs_spec. eauto 6.
    + exists (s, l). split; [apply elem_of_app; right; now apply elem_of_option_list |]. apply pairs_spec.
      exists j, i. repeat split; auto. lia.
Qed.

(** The quotes of a symbol, in the order they were read. *)
Definition quotes_of (symbol : string) (quotes : list (string * quote)) : list quote :=
  omap (fun e => if decide (fst e = symbol) then Some (snd e) else None) quotes.

Lemma group_by_symbol_lookup quotes symbol :
  group_by_symbol quotes !! symbol =
    match quotes_of symbol quotes with [] => None | qs => Some qs end.
Proof.
  unfold group_by_symbol, quotes_of. induction quotes as [| [y q] quotes IH] using rev_ind; [apply lookup_empty |].
  rewrite fold_left_app, omap_app. cbn. destruct (decide (y = symbol)) as [-> | Hne].
  - rewrite lookup_insert_eq, IH. now destruct (omap _ quotes).
  - rewrite lookup_insert_ne, IH, app_nil_r by exact Hne. reflexivity.
Qed.

Lemma insert_entries_lookup {A} (kvs : list (string * A)) m k v :
  insert_entries kvs m !! k = Some v -> (k, v) ∈ kvs \/ m !! k = Some v.
Proof.
  unfold insert_entries. revert m. induction kvs as [| [k' v'] kvs IH]; intros m; cbn; [auto |].
  intros [Hin | Hm]%IH; [left; now apply elem_of_cons; right |].
  apply lookup_insert_Some in Hm as [[-> ->] | [_ Hm]]; [left; now apply elem_of_cons; left | now right].
Qed.

Lemma insert_entries_covers {A} (kvs : list (string * A)) m k :
  (exists v, (k, v) ∈ kvs) \/ is_Some (m !! k) -> is_Some (insert_entries kvs m !! k).
Proof.
  unfold insert_entries. revert m. induction kvs as [| [k' v'] kvs IH]; intros m; cbn.
  { intros [[v Hv] | Hm]; [inversion Hv | exact Hm]. }
  intros Hor. apply IH. destruct (decide (k = k')) as [-> | Hne].
  - right. rewrite lookup_insert_eq. eauto.
  - destruct Hor as [[v [[= -> _] | Hv]%elem_of_cons] | Hm]; [now destruct Hne | left; eauto |].
    right. now rewrite lookup_insert_ne by congruence.
Qed.

Lemma pairs_omap {A B} (f : A -> option B) l x y :
  (x, y) ∈ pairs (omap f l) <-> exists a b, (a, b) ∈ pairs l /\ f a = Some x /\ f b = Some y.
Proof.
  induction l as [| z l IH]; cbn [omap list_omap pairs].
  { split; [intros Hn; inversion Hn | intros (a & b & Hn & _); inversion Hn]. }
  assert (Hl : (exists a b, (a, b) ∈ ((fun b => (z, b)) <$> l) ++ pairs l /\ f a = Some x /\ f b = Some y) <->
    (f z = Some x /\ y ∈ omap f l) \/ (x, y) ∈ pairs (omap f l)).
  { rewrite IH, list_elem_of_omap. split.
    - intros (a & b & [(b' & [= -> ->] & Hb)%list_elem_of_fmap | Hp]%elem_of_app & Ha & Hfb); [left | right]; eauto 6.
    - intros [(Hz & b & Hb & Hfb) | (a & b & Hp & Ha & Hfb)]; [exists z, b | exists a, b];
        (split; [apply elem_of_app |]); auto. left. apply list_elem_of_fmap. eauto. }
  rewrite Hl. destruct (f z) as [w |]; cbn [pairs].
  - rewrite elem_of_app, list_elem_of_fmap. split.
    + intros [(y' & [= -> ->] & Hy) | Hp]; auto.
    + intros [[[= ->] Hy] | Hp]; eauto.
  - split; [auto |]. intros [[Hn _] | Hp]; [discriminate | exact Hp].
Qed.

(** Two places of a list, in either order. *)
Lemma pairs_places {A} (l : list A) x y :
  (x, y) ∈ pairs l \/ (y, x) ∈ pairs l <-> exists i j, i <> j /\ l !! i = Some x /\ l !! j = Some y.
Proof.
  rewrite !pairs_spec. split.
  - intros [(i & j & Hij & Hi & Hj) | (i & j & Hij & Hi & Hj)]; [exists i, j | exists j, i]; repeat split; auto; lia.
  - intros (i & j & Hne & Hi & Hj). destruct (decide (i < j)%nat); [left; eauto 6 |].
    right. exists j, i. repeat split; auto. lia.
Qed.

Lemma quotes_of_places symbol quotes l s :
  (exists i j, i <> j /\ quotes_of symbol quotes !! i = Some l /\ quotes_of symbol quotes !! j = Some s) <->
  (exists i j, i <> j /\ quotes !! i = Some (symbol, l) /\ quotes !! j = Some (symbol, s)).
Proof.
  rewrite <- !pairs_places. unfold quotes_of. rewrite !pairs_omap.
  assert (Hf : forall (a : string * quote) q, (if decide (fst a = symbol) then Some (snd a) else None) = Some q <-> a = (symbol, q)).
  { intros [y q'] q. cbn. destruct (decide (y = symbol)) as [-> | Hne]; split; congruence. }
  split; (intros [(a & b & Hp & Ha%Hf & Hb%Hf) | (a & b & Hp & Ha%Hf & Hb%Hf)] || intros [Hp | Hp]);
    subst; eauto; [left | right]; eexists _, _; (split; [exact Hp |]); split; now apply Hf.
Qed.

(** ** What is shown *)
Section shown.
Context {Q V : Type} `{ArrayQueue Q ArbitrageOpportunity} `{JV : Json V}.
Abbreviation app := (AppState Q).
Context (hash_order : list (string * list quote) -> list (string * list quote))
  (Hperm : forall l, hash_order l ≡ₚ l).

(** The candidates of all symbols. *)
Lemma detected quotes now e :
  e ∈ (hash_order (map_to_list (group_by_symbol quotes)) ≫= candidates now) <->
  exists i j symbol l s, i <> j /\ quotes !! i = Some (symbol, l) /\ quotes !! j = Some (symbol, s) /\
    candidate now symbol l s = Some e.
Proof.
  rewrite list_elem_of_bind. split.
  - intros ([symbol qs] & (i & j & l & s & Hne & Hi & Hj & Hc)%candidates_spec & Hin).
    rewrite Hperm in Hin. apply elem_of_map_to_list in Hin. rewrite group_by_symbol_lookup in Hin.
    assert (Hqs : quotes_of symbol quotes = qs) by (destruct (quotes_of symbol quotes); congruence). subst qs.
    assert (Hpl : exists i j, i <> j /\ quotes_of symbol quotes !! i = Some l /\ quotes_of symbol quotes !! j = Some s) by eauto.
    apply quotes_of_places in Hpl as (i' & j' & Hne' & Hi' & Hj'). eauto 10.
  - intros (i & j & symbol & l & s & Hne & Hi & Hj & Hc).
    assert (Hpl : exists i j, i <> j /\ quotes !! i = Some (symbol, l) /\ quotes !! j = Some (symbol, s)) by eauto.
    apply quotes_of_places in Hpl as (i' & j' & Hne' & Hi' & Hj').
    exists (symbol, quotes_of symbol quotes). split; [apply candidates_spec; eauto 10 |].
    rewrite Hperm. apply elem_of_map_to_list. rewrite group_by_symbol_lookup.
    destruct (quotes_of symbol quotes); [discriminate | reflexivity].
Qed.

(** Everything shown comes from two tickers of a symbol. *)
Lemma shown_sound keys redis_get now (a : app) k o :
  da_opportunities (update_from_redis (V:=V) hash_order (Some keys) redis_get now a) !! k = Some o ->
  exists i j symbol l s, i <> j /\ read_quotes (V:=V) redis_get keys !! i = Some (symbol, l) /\
    read_quotes (V:=V) redis_get keys !! j = Some (symbol, s) /\ candidate now symbol l s = Some (k, o).
Proof.
  cbn [update_from_redis set_shown da_opportunities].
  intros [Hin | Hn]%insert_entries_lookup; [now apply detected in Hin |]. rewrite lookup_empty in Hn. discriminate.
Qed.

(** C37. What the dashboard shows after a look at Redis: exactly the entries worth
    showing among the tickers it could read.  Everything shown buys on one ticker
    and sells on another of the same symbol, and whenever two tickers of a symbol
    are far enough apart their entry is shown, in whatever order the symbols come
    out of the hash map. *)
Theorem dashboard_shows keys redis_get now (a : app) :
  let quotes := read_quotes (V:=V) redis_get keys in
  let shown := da_opportunities (update_from_redis (V:=V) hash_order (Some keys) redis_get now a) in
  (forall k o, shown !! k = Some o ->
     exists i j symbol l s, i <> j /\ quotes !! i = Some (symbol, l) /\ quotes !! j = Some (symbol, s) /\
       candidate now symbol l s = Some (k, o)) /\
  (forall i j symbol l s k o, i <> j -> quotes !! i = Some (symbol, l) -> quotes !! j = Some (symbol, s) ->
     candidate now symbol l s = Some (k, o) -> is_Some (shown !! k)).
Proof.
  intros quotes shown. split; [intros k o; apply shown_sound |]. subst shown.
  cbn [update_from_redis set_shown da_opportunities]. fold quotes.
  intros i j symbol l s k o Hne Hi Hj Hc. apply insert_entries_covers. left. exists o. apply detected. eauto 10.
Qed.

(** A shown entry has a spread above 10 bps and a confidence of at least 70. *)
Lemma candidate_worth now symbol l s k o :
  candidate now symbol l s = Some (k, o) ->
  (10.0%f64 <? ao_spread_bps o)%F = true /\ 70 <= ao_confidence_score o /\
  ao_spread_bps o = Scanner.calculate_spread_bps (ao_long_price o) (ao_short_price o) /\
  ao_long_price o = qt_ask l /\ ao_short_price o = qt_bid s /\ k = opportunity_key symbol l s.
Proof.
  unfold candidate. cbv zeta. destruct (_ && _) eqn:E; [| discriminate]. intros [= <- <-]. cbn.
  apply andb_prop in E as [E1 E2]. apply Z.leb_le in E2. auto 10.
Qed.

(** ** What is gone *)
Lemma push_removed_fifo l r : push_removed l r = fifo_append 10 l r.
Proof.
  unfold push_removed, fifo_append.
  destruct (Nat.leb_spec 10 (length l)), (Nat.ltb_spec (length l) 10); try lia; reflexivity.
Qed.

(** The ten newest of a sequence. *)
Definition newest_ten {A} (l : list A) : list A := drop (length l - 10) l.

Lemma pushed_newest rs l : (length l <= 10)%nat -> fold_left push_removed rs l = newest_ten (l ++ rs).
Proof.
  intros Hl. unfold newest_ten. rewrite <- fifo_appends_lastn by lia. clear Hl. revert l.
  induction rs as [| r rs IH]; intros l; cbn [fold_left]; [reflexivity |]. now rewrite IH, push_removed_fifo.
Qed.

Lemma newest_ten_length {A} (l : list A) : (length (newest_ten l) <= 10)%nat.
Proof. unfold newest_ten. rewrite length_drop. lia. Qed.

Lemma newest_ten_app {A} (h l : list A) : newest_ten (newest_ten h ++ l) = newest_ten (h ++ l).
Proof.
  unfold newest_ten. rewrite !length_app, length_drop. destruct (Nat.le_gt_cases (length h) 10) as [Hh | Hh].
  - replace (length h - 10)%nat with 0%nat by lia. rewrite drop_0. do 2 f_equal. lia.
  - rewrite <- (drop_app_le h l) by lia. rewrite drop_drop. f_equal. lia.
Qed.

(** The entries that were shown and are no longer, in the order of their keys. *)
Definition gone (old new : gmap string ArbitrageOpportunity) : list RemovedOpportunity :=
  (fun e => no_longer (ao_symbol (snd e)) (snd e)) <$>
    List.filter (fun e => bool_decide (new !! fst e = None)) (entries old).

Lemma entries_spec {A} (m : gmap string A) k v : (k, v) ∈ entries m <-> m !! k = Some v.
Proof. unfold entries. rewrite merge_sort_Permutation. apply elem_of_map_to_list. Qed.

(** The list of removed entries: at any time the ten newest of everything that
    has ever stopped being shown, each look at Redis adding what it no longer
    found. *)
Theorem removed_newest_ten keys redis_get now (a : app) (history : list RemovedOpportunity) :
  da_removed_opportunities a = newest_ten history ->
  let a' := update_from_redis (V:=V) hash_order (Some keys) redis_get now a in
  let left := gone (da_opportunities a) (da_opportunities a') in
  da_removed_opportunities a' = newest_ten (history ++ left) /\
  (forall k o, da_opportunities a !! k = Some o -> da_opportunities a' !! k = None -> no_longer (ao_symbol o) o ∈ left).
Proof.
  intros Hr a' left. split.
  - subst left a'. cbn [update_from_redis set_shown da_removed_opportunities da_opportunities]. rewrite Hr.
    fold (gone (da_opportunities a) (insert_entries (hash_order (map_to_list (group_by_symbol (read_quotes (V:=V) redis_get keys))) ≫= candidates now) ∅)).
    rewrite pushed_newest by apply newest_ten_length.
    apply newest_ten_app.
  - intros k o Ho Hn. subst left. unfold gone. apply list_elem_of_fmap. exists (k, o). split; [reflexivity |].
    apply list_elem_of_In, filter_In. split; [| now apply bool_decide_eq_true]. apply list_elem_of_In, entries_spec. exact Ho.
Qed.
End shown.

(** ** The screens *)

(** Without a NaN the order of the spreads is transitive. *)
Lemma spread_ge_total : Total spread_ge.
Proof.
  intros a b. unfold spread_ge. destruct (fltb (ao_spread_bps a) (ao_spread_bps b)) eqn:E; [right | now left].
  destruct (fltb (ao_spread_bps b) (ao_spread_bps a)) eqn:E'; [| reflexivity].
  pose proof (fltb_trans _ _ _ E E') as Hf. now rewrite fltb_irrefl in Hf.
Qed.

Lemma spread_ge_fleb a b :
  is_nan (ao_spread_bps a) = false -> is_nan (ao_spread_bps b) = false ->
  spread_ge a b <-> fleb (ao_spread_bps b) (ao_spread_bps a) = true.
Proof. intros Ha Hb. unfold spread_ge. rewrite fleb_not_fltb by assumption. now destruct (fltb _ _). Qed.

Lemma sorted_strongly l :
  Forall (fun o => is_nan (ao_spread_bps o) = false) l -> Sorted spread_ge l -> StronglySorted spread_ge l.
Proof.
  intros Hn Hs. induction Hs as [| a l Hs IH Hd]; [constructor |]. apply Forall_cons in Hn as [Ha Hn].
  specialize (IH Hn). constructor; [exact IH |]. destruct Hd as [| b l Hab]; [constructor |].
  apply Forall_cons in Hn as [Hb Hn]. apply StronglySorted_inv in IH as [_ Hbl]. constructor; [exact Hab |].
  rewrite Forall_forall in Hbl, Hn |- *. intros c Hc. specialize (Hbl c Hc). specialize (Hn c Hc). cbn in Hn.
  rewrite spread_ge_fleb in Hab, Hbl |- * by assumption. eapply fleb_trans; eauto.
Qed.

(** What holds of every state of the dashboard. *)
Record dashboard_inv {Q} (a : AppState Q) : Prop := {
  di_shown : map_Forall (fun _ o => (10.0%f64 <? ao_spread_bps o)%F = true /\ 70 <= ao_confidence_score o) (da_opportunities a);
  di_removed : (length (da_removed_opportunities a) <= 10)%nat;
  di_scroll : 0 <= da_scroll_offset a
}.

Section screens.
Context {Q V : Type} `{ArrayQueue Q ArbitrageOpportunity} `{JV : Json V}.
Abbreviation app := (AppState Q).
Context (hash_order : list (string * list quote) -> list (string * list quote))
  (Hperm : forall l, hash_order l ≡ₚ l).

Lemma update_inv keys redis_get now (a : app) :
  dashboard_inv a -> dashboard_inv (update_from_redis (V:=V) hash_order keys redis_get now a).
Proof.
  intros [Hs Hr Hc]. destruct keys as [keys |]; [| now split]. split; [| | exact Hc].
  - intros k o Ho. destruct (shown_sound (V:=V) hash_order Hperm keys redis_get now a k o Ho) as (i & j & y & l & s & _ & _ & _ & Hcand). apply candidate_worth in Hcand. tauto.
  - cbn [update_from_redis set_shown da_removed_opportunities]. rewrite pushed_newest by exact Hr. apply newest_ten_length.
Qed.

Lemma handle_key_inv k (a : app) : dashboard_inv a -> dashboard_inv (handle_key k a).
Proof.
  intros [Hs Hr Hc]. unfold handle_key, last_row, last_index.
  destruct k; repeat match goal with |- context [if ?b then _ else _] => destruct b eqn:? end; split; cbn; auto; lia.
Qed.

Lemma turn_keeps_inv t (a : app) : dashboard_inv a -> dashboard_inv (snd (dashboard_turn (V:=V) hash_order t a)).
Proof.
  intros Ha. unfold dashboard_turn. cbn [snd].
  assert (Hk : dashboard_inv (match tn_key t with Some k => handle_key k a | None => a end))
    by (destruct (tn_key t); auto using handle_key_inv).
  destruct (tn_redis t) as [[[keys redis_get] now] |]; [now apply update_inv | exact Hk].
Qed.

(** C39. Every screen the dashboard draws, whatever is typed and whatever Redis
    answers: the table is the shown entries by falling spread, from the scroll
    offset on, each with a spread above 10 bps and a confidence of at least 70,
    and at most ten removed entries are below it. *)
Theorem screens_ok ts consumer :
  Forall (fun a =>
    Sorted.StronglySorted spread_ge (sorted_opps (da_opportunities a)) /\
    sorted_opps (da_opportunities a) ≡ₚ snd <$> map_to_list (da_opportunities a) /\
    Forall (fun o => (10.0%f64 <? ao_spread_bps o)%F = true /\ 70 <= ao_confidence_score o) (sorted_opps (da_opportunities a)) /\
    (forall height, visible_opps height a `sublist_of` sorted_opps (da_opportunities a)) /\
    (length (removed_rows a) <= 10)%nat)
    (dashboard_loop (V:=V) hash_order ts (AppState_new consumer : app)).
Proof.
  assert (Hinit : dashboard_inv (AppState_new consumer : app)).
  { split; cbn; [apply map_Forall_empty | lia | lia]. }
  revert Hinit. generalize (AppState_new consumer : app). induction ts as [| t ts IH]; intros a Ha; cbn [dashboard_loop]; [constructor |].
  pose proof (turn_keeps_inv t a Ha) as Ha'. destruct (dashboard_turn (V:=V) hash_order t a) as [go a']. cbn [snd] in Ha'.
  constructor; [| destruct go; [now apply IH | constructor]]. destruct Ha' as [Hs Hr _].
  assert (Hp : sorted_opps (da_opportunities a') ≡ₚ snd <$> map_to_list (da_opportunities a')).
  { unfold sorted_opps. rewrite merge_sort_Permutation. unfold entries. now rewrite merge_sort_Permutation. }
  assert (Hall : Forall (fun o => (10.0%f64 <? ao_spread_bps o)%F = true /\ 70 <= ao_confidence_score o) (sorted_opps (da_opportunities a'))).
  { rewrite Hp. apply Forall_fmap, Forall_forall. intros [k o] Hko. apply elem_of_map_to_list in Hko. exact (Hs k o Hko). }
  split; [| split; [exact Hp | split; [exact Hall |]]].
  - apply sorted_strongly; [| unfold sorted_opps; pose proof spread_ge_total; apply Sorted_merge_sort; exact _].
    eapply Forall_impl; [exact Hall |]. intros o [Ho _]. now apply fltb_nan_r in Ho.
  - split; [intros height; apply window_sublist |].
    unfold removed_rows. now rewrite length_fmap.
Qed.
End screens.

(** ** Exchanges the dashboard does not see

    [KEYS *:tickers:*] *)
Definition ticker_pattern (key : string) : bool := has_substring ":tickers:" key.

Lemma prefix_name t s : no_colon s -> String.prefix (t +:+ ":") s = false.
Proof.
  revert s. induction t as [| c t IH]; intros [| d s] Hs; auto; destruct Hs as [Hd Hs].
  - change ((if ascii_dec ":" d then String.prefix "" s else false) = false).
    destruct (ascii_dec ":" d); [congruence | reflexivity].
  - change ((if ascii_dec c d then String.prefix (t +:+ ":") s else false) = false).
    destruct (ascii_dec c d); [now apply IH | reflexivity].
Qed.

Lemma prefix_no_colon t p s :
  no_colon s -> String.prefix (t +:+ ":") (p +:+ s) = String.prefix (t +:+ ":") p.
Proof.
  intros Hs. revert p. induction t as [| c t IH]; intros [| d p].
  - transitivity false; [exact (prefix_name "" s Hs) | reflexivity].
  - change ((if ascii_dec ":" d then String.prefix "" (p +:+ s) else false) = (if ascii_dec ":" d then String.prefix "" p else false)).
    destruct (ascii_dec ":" d); [| reflexivity]. now destruct (p +:+ s), p.
  - transitivity false; [exact (prefix_name (String c t) s Hs) | reflexivity].
  - change ((if ascii_dec c d then String.prefix (t +:+ ":") (p +:+ s) else false) = (if ascii_dec c d then String.prefix (t +:+ ":") p else false)).
    destruct (ascii_dec c d); [apply IH | reflexivity].
Qed.

(** A pattern that ends at a colon is found in the part before a name. *)
Lemma pattern_before_name p s : no_colon s -> ticker_pattern (p +:+ s) = ticker_pattern p.
Proof.
  intros Hs. unfold ticker_pattern. change ":tickers:" with (":tickers" +:+ ":").
  induction p as [| c p IH].
  - induction s as [| c s IHs]; [reflexivity |]. change (has_substring (":tickers" +:+ ":") (EmptyString +:+ String c s))
      with (String.prefix (":tickers" +:+ ":") (EmptyString +:+ String c s) || has_substring (":tickers" +:+ ":") s)%bool.
    rewrite prefix_no_colon by exact Hs. destruct Hs as [_ Hs]. exact (IHs Hs).
  - change (String c p +:+ s) with (String c (p +:+ s)).
    change (has_substring (":tickers" +:+ ":") (String c (p +:+ s)))
      with (String.prefix (":tickers" +:+ ":") (String c p +:+ s) || has_substring (":tickers" +:+ ":") (p +:+ s))%bool.
    now rewrite prefix_no_colon, IH by exact Hs.
Qed.

Lemma substring_no_colon n m s : no_colon s -> no_colon (String.substring n m s).
Proof.
  revert n m. induction s as [| c s IH]; intros [| n] [| m] Hs; cbn; auto; destruct Hs as [Hc Hs]; auto.
Qed.

Lemma trim_no_colon suffix s : no_colon s -> no_colon (trim_end_matches suffix s).
Proof.
  unfold trim_end_matches. generalize (String.length s) as n. intros n. revert s.
  induction n as [| n IH]; intros s Hs; cbn; [exact Hs |]. destruct (ends_with suffix s); [| exact Hs].
  apply IH. now apply substring_no_colon.
Qed.

Lemma app_no_colon a b : no_colon a -> no_colon b -> no_colon (a +:+ b).
Proof. intros Ha Hb. induction a as [| c a IH]; [exact Hb |]. destruct Ha as [Hc Ha]. split; [exact Hc | exact (IH Ha)]. Qed.

(** No key of these two exchanges matches. *)
Lemma hidden_keys e y k :
  e ∈ ["kucoin"; "hyperliquid"] -> no_colon y -> k ∈ get_redis_key_patterns e y -> ticker_pattern k = false.
Proof.
  intros He Hy Hk. pose proof (trim_no_colon "USDT" y Hy) as Ht.
  apply list_elem_of_In in He as [<- | [<- | []]]; apply list_elem_of_In in Hk as [<- | [<- | []]].
  - change ("kucoin" ++ ":futures:tickerV2:" ++ y ++ "M")%string with ("kucoin:futures:tickerV2:" +:+ (y +:+ "M")).
    rewrite pattern_before_name; [reflexivity | apply app_no_colon; [exact Hy | cbn; split; [discriminate | exact I]]].
  - change ("kucoin" ++ ":futures:tickerV2:" ++ y)%string with ("kucoin:futures:tickerV2:" +:+ y).
    now rewrite pattern_before_name.
  - change ("hyperliquid" ++ ":usdc:ctx:" ++ trim_end_matches "USDT" y)%string with ("hyperliquid:usdc:ctx:" +:+ trim_end_matches "USDT" y).
    now rewrite pattern_before_name.
  - change ("hyperliquid" ++ ":usdc:bbo:" ++ trim_end_matches "USDT" y)%string with ("hyperliquid:usdc:bbo:" +:+ trim_end_matches "USDT" y).
    now rewrite pattern_before_name.
Qed.

Section hidden.
Context {Q V : Type} `{ArrayQueue Q ArbitrageOpportunity} `{JV : Json V}.
Abbreviation app := (AppState Q).

Lemma read_quote_exchange g h key y q :
  read_quote (V:=V) g h key = Some (y, q) -> head (split_char ":" key) = Some (qt_exchange q).
Proof.
  unfold read_quote. destruct (split_char ":" key) as [| e parts]; [discriminate |]. cbv zeta. destruct (_ <? 4)%nat; [discriminate |].
  unfold and_then. repeat match goal with |- match ?o with Some _ => _ | None => None end = _ -> _ => destruct o; [| discriminate] end.
  destruct (_ || _); [discriminate |]. intros [= _ <-]. reflexivity.
Qed.

Lemma read_quotes_exchange redis_get keys y q :
  (y, q) ∈ read_quotes (V:=V) redis_get keys -> exists key, key ∈ keys /\ head (split_char ":" key) = Some (qt_exchange q).
Proof.
  unfold read_quotes. rewrite list_elem_of_omap. intros (o & Ho & Hq). cbn in Hq. subst o.
  apply list_elem_of_lookup in Ho as [i Hi]. rewrite list_lookup_imap in Hi.
  destruct (keys !! i) as [key |] eqn:Hk; [| discriminate]. injection Hi as Hi. exists key.
  split; [apply list_elem_of_lookup; eauto | exact (read_quote_exchange _ _ _ _ _ Hi)].
Qed.

(** KuCoin and Hyperliquid never appear: as long as Redis answers with keys that
    match the pattern, and what is stored for these two exchanges is stored under
    the keys the program looks for, nothing shown buys or sells on either. *)
Theorem hidden_exchanges hash_order (Hperm : forall l, hash_order l ≡ₚ l) keys redis_get now (a : app)
  (Hmatch : Forall (fun k => ticker_pattern k = true) keys)
  (Hwritten : forall k e, k ∈ keys -> head (split_char ":" k) = Some e -> e ∈ ["kucoin"; "hyperliquid"] ->
     exists symbol, no_colon symbol /\ k ∈ get_redis_key_patterns e symbol) :
  map_Forall (fun _ o => (ao_long_exchange o ∉ ["kucoin"; "hyperliquid"]) /\ (ao_short_exchange o ∉ ["kucoin"; "hyperliquid"]))
    (da_opportunities (update_from_redis (V:=V) hash_order (Some keys) redis_get now a)).
Proof.
  assert (Hq : forall i y q, read_quotes (V:=V) redis_get keys !! i = Some (y, q) -> qt_exchange q ∉ ["kucoin"; "hyperliquid"]).
  { intros i y q Hi Hin. destruct (read_quotes_exchange redis_get keys y q) as (key & Hk & He); [apply list_elem_of_lookup; eauto |].
    destruct (Hwritten key _ Hk He Hin) as (symbol & Hs & Hp). rewrite Forall_forall in Hmatch.
    specialize (Hmatch key Hk). cbn in Hmatch. now rewrite (hidden_keys _ _ _ Hin Hs Hp) in Hmatch. }
  intros k o Ho. destruct (shown_sound (V:=V) hash_order Hperm keys redis_get now a k o Ho) as (i & j & y & l & s & _ & Hi & Hj & Hc).
  assert (ao_long_exchange o = qt_exchange l /\ ao_short_exchange o = qt_exchange s) as [-> ->].
  { revert Hc. unfold candidate. cbv zeta. destruct (_ && _); [| discriminate]. now intros [= _ <-]. }
  eauto.
Qed.
End hidden.

(** ** Concrete looks at Redis

    A text with a bid, an ask and a funding rate, for the fields of Bybit and Bitget. *)
#[local] Instance text_json : Json string := {
  j_get k v := if String.eqb k "data" then Some v
               else if String.eqb k "bid1Price" || String.eqb k "bidPr" then split_char "," v !! 0%nat
               else if String.eqb k "ask1Price" || String.eqb k "askPr" then split_char "," v !! 1%nat
               else if String.eqb k "fundingRate" then split_char "," v !! 2%nat else None;
  j_as_str v := Some v;
  j_as_array v := Some [v];
  j_is_f64 _ := false;
  j_as_f64 _ := None;
  j_from_str v := Some v
}.

Abbreviation list_app := (AppState (list_queue ArbitrageOpportunity)).
Definition demo_app : list_app := AppState_new (oq_with_capacity 16).
Definition demo_keys : list string :=
  ["bybit:linear:tickers:BTCUSDT"; "bitget:usdt:tickers:BTCUSDT"; "bitget:usdt:tickers:LDOUSDT"].

(** Bybit bids 101 and Bitget asks [ask]. *)
Definition demo_redis (ask : string) (n : nat) (key : string) : option string :=
  if String.eqb key "bybit:linear:tickers:BTCUSDT" then Some "101,101.1,0.0001"
  else if String.prefix "bitget:usdt:tickers" key then Some ("99," +:+ ask)
  else if String.eqb key "bitget:usdt:funding:BTCUSDT" then Some "x,y,0.0003" else None.

Definition look (ask : string) (a : list_app) : list_app :=
  update_from_redis (V:=string) reverse (Some demo_keys) (demo_redis ask) 1700000000 a.

Definition shown_keys (a : list_app) : list string := fst <$> entries (da_opportunities a).

Lemma dashboard_shows_witness :
  shown_keys (look "100" demo_app) = ["BTCUSDT:bitget:bybit:99:100:101:101.1"] /\
  exists i j symbol l s o, i <> j /\ read_quotes (V:=string) (demo_redis "100") demo_keys !! i = Some (symbol, l) /\
    read_quotes (V:=string) (demo_redis "100") demo_keys !! j = Some (symbol, s) /\
    candidate 1700000000 symbol l s = Some ("BTCUSDT:bitget:bybit:99:100:101:101.1", o).
Proof.
  split; [vm_compute; reflexivity |].
  destruct (dashboard_shows (V:=string) reverse (fun l => reverse_Permutation l) demo_keys (demo_redis "100") 1700000000 demo_app) as [Hs _].
  destruct (da_opportunities (look "100" demo_app) !! "BTCUSDT:bitget:bybit:99:100:101:101.1") as [o |] eqn:E;
    [| vm_compute in E; discriminate].
  destruct (Hs _ _ E) as (i & j & y & l & s & Hne & Hi & Hj & Hc). exists i, j, y, l, s, o. auto.
Defined.

(** An entry whose ask has moved is shown under another key, and counted among those
    that are no longer detected. *)
Lemma removed_newest_ten_witness :
  let a := look "100" demo_app in
  let a' := look "99.9" a in
  shown_keys a' = ["BTCUSDT:bitget:bybit:99:99.9:101:101.1"] /\
  da_removed_opportunities a' = newest_ten ([] ++ gone (da_opportunities a) (da_opportunities a')) /\
  map (fun r => (ro_ticker r, ro_reason r)) (da_removed_opportunities a') = [("BTCUSDT", "No longer detected")].
Proof.
  intros a a'. split; [vm_compute; reflexivity |]. split; [| vm_compute; reflexivity].
  apply (removed_newest_ten (V:=string) reverse demo_keys (demo_redis "99.9") 1700000000 a []). vm_compute. reflexivity.
Defined.

Definition demo_turns : list turn :=
  [{| tn_key := None; tn_redis := Some (Some demo_keys, demo_redis "100", 1700000000) |};
   {| tn_key := Some KEnd; tn_redis := None |};
   {| tn_key := Some KEsc; tn_redis := Some (None, demo_redis "100", 1700000001) |};
   {| tn_key := None; tn_redis := None |}].

Lemma screens_ok_witness :
  let screens := dashboard_loop (V:=string) reverse demo_turns demo_app in
  map (fun a => length (visible_opps 10 a)) screens = [1; 1; 1]%nat /\
  Forall (fun a => (length (removed_rows a) <= 10)%nat) screens.
Proof.
  intros screens. split; [vm_compute; reflexivity |].
  eapply Forall_impl; [exact (screens_ok (V:=string) reverse (fun l => reverse_Permutation l) demo_turns (oq_with_capacity 16)) |].
  intros a (_ & _ & _ & _ & Hr). exact Hr.
Defined.

Lemma hidden_exchanges_witness :
  map_Forall (fun _ o => (ao_long_exchange o ∉ ["kucoin"; "hyperliquid"]) /\ (ao_short_exchange o ∉ ["kucoin"; "hyperliquid"]))
    (da_opportunities (look "100" demo_app)) /\ da_opportunities (look "100" demo_app) <> ∅.
Proof.
  split.
  - refine (hidden_exchanges (V:=string) reverse (fun l => reverse_Permutation l) demo_keys (demo_redis "100") 1700000000 demo_app _ _).
    + repeat constructor.
    + intros k e Hk He Hin. exfalso.
      assert (Hne : Forall (fun k => head (split_char ":" k) <> Some "kucoin" /\ head (split_char ":" k) <> Some "hyperliquid") demo_keys).
      { repeat constructor; vm_compute; discriminate. }
      rewrite Forall_forall in Hne. destruct (Hne k Hk) as [H1 H2]. apply list_elem_of_In in Hin as [<- | [<- | []]]; auto.
  - intros He. apply (f_equal (fun m => m !! "BTCUSDT:bitget:bybit:99:100:101:101.1")) in He. vm_compute in He. discriminate.
Defined.

(** The row of an entry: its prices are read back from its key. *)
Example demo_rows :
  map (map fst) (opportunity_rows 10 1700000003 (look "100" demo_app)) =
    [["BTCUSDT"; "100.00bps"; "70"; "0.030000%"; "3s"; "bitget"; "$99.000"; "$100.00"; "bybit"; "$101.00"; "$101.10"; "$10.00"]].
Proof. vm_compute. reflexivity. Qed.
