(* ===== verification/Runner.v ===== *)
(** The strategy runner ([src/src/strategy/runner.rs]), first part: its state,
    the access to the map of trades, the prices it reads, and what it does with
    one opportunity ([execute_opportunity]).

    [active_trades] is a [dashmap::DashMap]: the map is sharded, every operation
    locks the shard of its key for its own duration, and a reference that
    [get] returns keeps its shard locked for reading until it is dropped; the
    documentation says that an operation that writes may deadlock while such a
    reference is held.  [Sharding] is the part that is the library's choice: the
    shard of a key and the order of iteration.  [sr_guards] are the keys of the
    references held across an await point; a write to one of their shards
    blocks.

    Redis and the millisecond clock are [RunnerEnv]; the text of a float in a
    message is the parameter [fmt2].  The lines printed on the console are left
    out; [verdict] is what [execute_opportunity] reports in them. *)
From Stdlib Require Import ZArith Lia Bool.
From stdpp Require Import base option list gmap strings pretty.
From S2P Require Import Prelude Float64 NumberText Coop Types ArrayQueue Pipeline OpportunityQueue SymbolMap MarketData Branchless Portfolio FillProbability ExchangeFees Backend AtomicExecution Entry EntryReal.

#[local] Open Scope string_scope.
#[local] Open Scope Z_scope.

(** ** What the runner takes from outside *)
Class RunnerEnv (E : Type) := {
  e_log_entry : PaperTrade -> ST E io;            (* [log_trade_entry] *)
  e_log_exit : PaperTrade -> string -> ST E io;   (* [log_trade_exit] *)
  e_persist : PortfolioState -> ST E io;          (* [persist_state] *)
  e_redis_get : string -> ST E (option string);   (* [GET key] *)
  e_unix_millis : ST E Z
}.

Class Sharding := {
  shard_of : string -> Z;
  iter_order : gmap string PaperTrade -> list (string * PaperTrade)
}.

(** Iteration visits every entry once. *)
Class ShardingLaws `{Sharding} := {
  iter_order_perm m : iter_order m ≡ₚ map_to_list m
}.

Inductive runner_error :=
| NoTradeForPair
| NoAsk (pair exchange : string) (symbol_id : Z)
| NoBid (pair exchange : string) (symbol_id : Z)
| InvalidPrices (pair : string) (ask bid : f64)
| PortfolioError (e : portfolio_error).

(** ** State *)
Record StrategyRunner (B T F E : Type) := {
  sr_world : World B;
  sr_portfolio : PortfolioState;
  sr_env : E;
  sr_trades : gmap string PaperTrade;
  sr_guards : list string;
  sr_trackers : gmap string NegativeFundingTracker;
  sr_estimator : FillProbabilityEstimator;
  sr_market : MarketDataStore;
  sr_symbols : SymbolMap T F
}.
Arguments sr_world {B T F E} _.
Arguments sr_portfolio {B T F E} _.
Arguments sr_env {B T F E} _.
Arguments sr_trades {B T F E} _.
Arguments sr_guards {B T F E} _.
Arguments sr_trackers {B T F E} _.
Arguments sr_estimator {B T F E} _.
Arguments sr_market {B T F E} _.
Arguments sr_symbols {B T F E} _.

Section updates.
Context {B T F E : Type}.
Abbreviation state := (StrategyRunner B T F E).

Definition upd_runner (w : World B) (p : PortfolioState) (e : E) (m : gmap string PaperTrade)
  (g : list string) (tr : gmap string NegativeFundingTracker) (md : MarketDataStore)
  (sm : SymbolMap T F) (s : state) : state :=
  {| sr_world := w; sr_portfolio := p; sr_env := e; sr_trades := m; sr_guards := g;
     sr_trackers := tr; sr_estimator := sr_estimator s; sr_market := md; sr_symbols := sm |}.

Definition set_world (w : World B) (s : state) : state :=
  upd_runner w (sr_portfolio s) (sr_env s) (sr_trades s) (sr_guards s) (sr_trackers s)
    (sr_market s) (sr_symbols s) s.
Definition set_portfolio (p : PortfolioState) (s : state) : state :=
  upd_runner (sr_world s) p (sr_env s) (sr_trades s) (sr_guards s) (sr_trackers s)
    (sr_market s) (sr_symbols s) s.
Definition set_env (e : E) (s : state) : state :=
  upd_runner (sr_world s) (sr_portfolio s) e (sr_trades s) (sr_guards s) (sr_trackers s)
    (sr_market s) (sr_symbols s) s.
Definition set_trades (m : gmap string PaperTrade) (s : state) : state :=
  upd_runner (sr_world s) (sr_portfolio s) (sr_env s) m (sr_guards s) (sr_trackers s)
    (sr_market s) (sr_symbols s) s.
Definition set_guards (g : list string) (s : state) : state :=
  upd_runner (sr_world s) (sr_portfolio s) (sr_env s) (sr_trades s) g (sr_trackers s)
    (sr_market s) (sr_symbols s) s.
Definition set_trackers (tr : gmap string NegativeFundingTracker) (s : state) : state :=
  upd_runner (sr_world s) (sr_portfolio s) (sr_env s) (sr_trades s) (sr_guards s) tr
    (sr_market s) (sr_symbols s) s.
Definition set_market (md : MarketDataStore) (s : state) : state :=
  upd_runner (sr_world s) (sr_portfolio s) (sr_env s) (sr_trades s) (sr_guards s) (sr_trackers s)
    md (sr_symbols s) s.
Definition set_symbols (sm : SymbolMap T F) (s : state) : state :=
  upd_runner (sr_world s) (sr_portfolio s) (sr_env s) (sr_trades s) (sr_guards s) (sr_trackers s)
    (sr_market s) sm s.

(** A computation of the world, and one of the environment, in the runner. *)
Definition in_world {A} (m : ST (World B) A) : ST state A := fun s =>
  let '(a, w) := m (sr_world s) in (a, set_world w s).
Definition in_env {A} (m : ST E A) : ST state A := fun s =>
  let '(a, e) := m (sr_env s) in (a, set_env e s).
End updates.

Definition StrategyRunner_new {B T F E} (w : World B) (env : E) (starting_capital : f64)
  (symbol_map : SymbolMap T F) : StrategyRunner B T F E :=
  {| sr_world := w; sr_portfolio := PortfolioState_new starting_capital; sr_env := env;
     sr_trades := ∅; sr_guards := []; sr_trackers := ∅;
     sr_estimator := FillProbabilityEstimator_new; sr_market := MarketDataStore_new;
     sr_symbols := symbol_map |}.

(** ** The map of trades *)
Section trades.
Context {B T F E : Type} `{Sharding}.
Abbreviation state := (StrategyRunner B T F E).

(** The shard of [key] is not held by a reference. *)
Definition writable (key : string) (s : state) : bool :=
  forallb (fun g => negb (shard_of g =? shard_of key)) (sr_guards s).

(** [active_trades.iter()]: read locks only, given up with each entry. *)
Definition iter_trades : task state (list (string * PaperTrade)) :=
  sync (fun s => (iter_order (sr_trades s), s)).
Definition trade_keys : task state (list string) :=
  sync (fun s => ((iter_order (sr_trades s)).*1, s)).

(** [active_trades.get(key)] whose reference is dropped at once. *)
Definition get_trade (key : string) : task state (option PaperTrade) :=
  sync (fun s => (sr_trades s !! key, s)).

Definition insert_trade (key : string) (t : PaperTrade) : task state unit :=
  locking (writable key) (fun s => (tt, set_trades (<[key := t]> (sr_trades s)) s)).
Definition remove_trade (key : string) : task state unit :=
  locking (writable key) (fun s => (tt, set_trades (delete key (sr_trades s)) s)).

(** [if let Some(mut trade) = active_trades.get_mut(key) { .. }] *)
Definition modify_trade (key : string) (f : PaperTrade -> PaperTrade) : task state unit :=
  locking (writable key) (fun s => (tt, set_trades (alter f key (sr_trades s)) s)).

(** [active_trades.get(key)] whose reference is kept, and its end. *)
Definition hold_trade (key : string) : task state (option PaperTrade) :=
  sync (fun s => match sr_trades s !! key with
                 | Some t => (Some t, set_guards (key :: sr_guards s) s)
                 | None => (None, s)
                 end).
Definition release_trade (key : string) : task state unit :=
  sync (fun s => (tt, set_guards (List.filter (fun g => negb (String.eqb g key)) (sr_guards s)) s)).
End trades.

(** ** Prices and fees *)
Section prices.
Context {B T F E : Type} `{DashMap T key Z} `{DashMap F Z key} `{Sharding}.
Abbreviation state := (StrategyRunner B T F E).

Definition get_prices_from_store (pair long_exchange short_exchange : string)
  : ST state (result (f64 * f64) runner_error) := fun s =>
  let '(long_symbol_id, sm) := get_or_insert long_exchange pair (sr_symbols s) in
  let '(short_symbol_id, sm) := get_or_insert short_exchange pair sm in
  (match get_ask long_symbol_id (sr_market s) with
   | None => Err (NoAsk pair long_exchange long_symbol_id)
   | Some long_ask =>
       match get_bid short_symbol_id (sr_market s) with
       | None => Err (NoBid pair short_exchange short_symbol_id)
       | Some short_bid =>
           if (long_ask <=? 0.0%f64)%F || (short_bid <=? 0.0%f64)%F
           then Err (InvalidPrices pair long_ask short_bid)
           else Ok (long_ask, short_bid)
       end
   end, set_symbols sm s).

Definition get_current_prices_for_opportunity := get_prices_from_store.

(** The exchanges are those of the first trade of the pair the iteration meets. *)
Definition get_current_prices (pair : string) : ST state (result (f64 * f64) runner_error) := fun s =>
  match List.find (fun kt : string * PaperTrade => String.eqb (pt_symbol (snd kt)) pair)
          (iter_order (sr_trades s)) with
  | Some (_, trade) =>
      get_prices_from_store pair (pt_long_exchange trade) (pt_short_exchange trade) s
  | None => (Err NoTradeForPair, s)
  end.
End prices.

Definition get_exchange_taker_fee (exchange : string) : f64 :=
  let e := lower exchange in
  if String.eqb e "binance" then 4.0%f64
  else if String.eqb e "okx" then 5.0%f64
  else if String.eqb e "bybit" then 5.5%f64
  else if String.eqb e "bitget" then 6.0%f64
  else if String.eqb e "kucoin" then 6.0%f64
  else if String.eqb e "hyperliquid" then 4.5%f64
  else if String.eqb e "paradex" then 5.0%f64
  else if String.eqb e "gateio" then 6.0%f64
  else 6.0%f64.

Definition total_fee_bps (long_exchange short_exchange : string) : f64 :=
  (get_exchange_taker_fee long_exchange + get_exchange_taker_fee short_exchange)%F.

(** ** The portfolio calls with their Redis writes *)
Section portfolio.
Context {B T F E : Type} `{Backend B} `{RunnerEnv E}.
Abbreviation state := (StrategyRunner B T F E).

(** [log(..).await?; persist_state().await?]: the second write is made only
    after the first succeeded. *)
Definition redis_writes (log : ST E io) : ST state (result unit portfolio_error) := fun s =>
  let '(logged, e) := log (sr_env s) in
  match logged with
  | Err m => (after_io (Err m) (Ok tt), set_env e s)
  | Ok _ => let '(persisted, e) := e_persist (sr_portfolio s) e in
            (after_io (Ok tt) persisted, set_env e s)
  end.

(** [portfolio_manager.write().await.open_trade(trade)]: the locked part, then
    the writes. *)
Definition open_trade_io (trade : PaperTrade) : task state (result unit portfolio_error) :=
  (let* r := await (fun s => let '(r, p) := open_trade trade (Ok tt) (Ok tt) (sr_portfolio s) in
                             (r, set_portfolio p s)) in
   match r with
   | Err e => Done (Err e)
   | Ok _ => await (redis_writes (e_log_entry trade))
   end)%task.

(** [close_trade]: no write is made for a trade the portfolio does not have. *)
Definition close_trade_io (trade_id : string) (actual_profit : f64) (exit_reason : string)
  : task state (result unit portfolio_error) :=
  (let* now := sync (in_world unix_secs) in
   let* closed := await (fun s =>
     let known := bool_decide (is_Some (position trade_id (ps_active_trades (sr_portfolio s)))) in
     let '(_, p) := close_trade trade_id actual_profit exit_reason now (Ok tt) (Ok tt) (sr_portfolio s) in
     (if known then last (ps_closed_trades p) else None, set_portfolio p s)) in
   match closed with
   | Some trade => await (redis_writes (e_log_exit trade exit_reason))
   | None => Done (Ok tt)
   end)%task.
End portfolio.

(** ** One opportunity *)

(** What the console lines of [execute_opportunity] report. *)
Inductive trade_error :=
| SimulatedFailed (e : entry_error)
| RealFailed (e : entry_real_error).

Inductive verdict :=
| SkippedDuplicate
| SkippedNoPrices (e : runner_error)
| SkippedNegativeSpread (spread : f64)
| SkippedUnprofitable (net : f64)
| SkippedNoCapital
| SkippedInvalidSize (size : f64)
| SkippedExecutionFailed (e : trade_error)
| Executed (trade : PaperTrade) (opened : result unit portfolio_error).

Definition default_order : SimulatedOrder :=
  {| so_id := ""; so_exchange := ""; so_symbol := ""; so_side := Long; so_order_type := Limit;
     so_price := 0.0%f64; so_size := 0.0%f64; so_queue_position := None; so_created_at := 0;
     so_filled_at := None; so_fill_price := None; so_status := Pending |}.

Definition placeholder_trade (id : string) (o : ArbitrageOpportunity) : PaperTrade :=
  {| pt_id := id; pt_symbol := ao_symbol o; pt_long_exchange := ao_long_exchange o;
     pt_short_exchange := ao_short_exchange o; pt_entry_time := 0; pt_entry_long_price := 0.0%f64;
     pt_entry_short_price := 0.0%f64; pt_entry_spread_bps := 0.0%f64;
     pt_position_size_usd := 0.0%f64; pt_funding_delta_entry := 0.0%f64;
     pt_projected_profit_usd := 0.0%f64; pt_actual_profit_usd := 0.0%f64; pt_status := TActive;
     pt_exit_reason := Some "PLACEHOLDER"; pt_exit_spread_bps := None; pt_exit_time := None;
     pt_long_order := default_order; pt_short_order := default_order; pt_long_exit_order := None;
     pt_short_exit_order := None; pt_stop_loss_triggered := false;
     pt_stop_loss_long_price := 0.0%f64; pt_stop_loss_short_price := 0.0%f64;
     pt_leg_out_event := None |}.

Definition set_projected_profit (v : f64) (t : PaperTrade) : PaperTrade :=
  {| pt_id := pt_id t; pt_symbol := pt_symbol t; pt_long_exchange := pt_long_exchange t;
     pt_short_exchange := pt_short_exchange t; pt_entry_time := pt_entry_time t;
     pt_entry_long_price := pt_entry_long_price t; pt_entry_short_price := pt_entry_short_price t;
     pt_entry_spread_bps := pt_entry_spread_bps t; pt_position_size_usd := pt_position_size_usd t;
     pt_funding_delta_entry := pt_funding_delta_entry t; pt_projected_profit_usd := v;
     pt_actual_profit_usd := pt_actual_profit_usd t; pt_status := pt_status t;
     pt_exit_reason := pt_exit_reason t; pt_exit_spread_bps := pt_exit_spread_bps t;
     pt_exit_time := pt_exit_time t; pt_long_order := pt_long_order t;
     pt_short_order := pt_short_order t; pt_long_exit_order := pt_long_exit_order t;
     pt_short_exit_order := pt_short_exit_order t; pt_stop_loss_triggered := pt_stop_loss_triggered t;
     pt_stop_loss_long_price := pt_stop_loss_long_price t;
     pt_stop_loss_short_price := pt_stop_loss_short_price t; pt_leg_out_event := pt_leg_out_event t |}.

Definition is_live (t : PaperTrade) : bool :=
  bool_decide (pt_status t = TActive) || bool_decide (pt_status t = TExiting).

Section opportunity.
Context {B T F E : Type} `{Backend B} `{DashMap T key Z} `{DashMap F Z key} `{Sharding} `{RunnerEnv E}.
Abbreviation state := (StrategyRunner B T F E).

Definition is_real_trading : ST state bool := fun s =>
  let name := b_backend_name (w_backend (sr_world s)) in
  (String.eqb name "Demo" || String.eqb name "Live", s).

(** The ids of the simulated entry, drawn before it runs. *)
Definition simulated_entry (o : ArbitrageOpportunity) (available_capital position_size : f64)
  : ST (World B) (result PaperTrade entry_error) :=
  (let! now := unix_secs in
   let! id0 := new_uuid in let! id1 := new_uuid in let! id2 := new_uuid in
   let uuid (n : nat) := match n with 0%nat => id0 | 1%nat => id1 | _ => id2 end in
   ret (execute_atomic_entry uuid now o available_capital position_size))%st.

(** The entry; a real one that runs out of fuel never comes back. *)
Definition execute_entry (fuel : nat) (o : ArbitrageOpportunity) (available_capital position_size : f64)
  : task state (result PaperTrade trade_error) :=
  (let* real := sync is_real_trading in
   if (real : bool) then
     let* r := await (in_world (execute_atomic_entry_real fuel o available_capital position_size)) in
     match r with
     | Some r => Done (map_err RealFailed r)
     | None => Sync (fun _ => None)
     end
   else
     let* r := sync (in_world (simulated_entry o available_capital position_size)) in
     Done (map_err SimulatedFailed r))%task.

Definition projected_profit (current_spread_bps total_fee_bps position_size : f64) : f64 :=
  (((current_spread_bps * 0.9%f64 - total_fee_bps) / 10000.0%f64) * position_size)%F.

(** The checks after the placeholder is in place: the size of the trade, or why
    there is none. *)
Definition check_opportunity (o : ArbitrageOpportunity)
  : task state (result (f64 * f64 * f64 * f64) verdict) :=
  (let* prices := sync (get_current_prices_for_opportunity (ao_symbol o) (ao_long_exchange o)
                          (ao_short_exchange o)) in
   match prices with
   | Err e => Done (Err (SkippedNoPrices e))
   | Ok (current_long_price, current_short_price) =>
       let current_spread_bps := Scanner.calculate_spread_bps current_long_price current_short_price in
       if (current_spread_bps <=? 0.0%f64)%F then Done (Err (SkippedNegativeSpread current_spread_bps)) else
       let fee := total_fee_bps (ao_long_exchange o) (ao_short_exchange o) in
       let net_profit_bps := (current_spread_bps - fee)%F in
       if (net_profit_bps <=? 0.0%f64)%F then Done (Err (SkippedUnprofitable net_profit_bps)) else
       let* available_capital := await (fun s => (ps_available_capital (sr_portfolio s), s)) in
       if (available_capital <=? 0.0%f64)%F then Done (Err SkippedNoCapital) else
       let* starting_capital := await (fun s => (ps_starting_capital (sr_portfolio s), s)) in
       let position_size := calculate_position_size current_spread_bps available_capital fee 10.0%f64
                              starting_capital in
       if (position_size <=? 0.0%f64)%F || (position_size >? available_capital)%F
       then Done (Err (SkippedInvalidSize position_size))
       else Done (Ok (current_spread_bps, fee, available_capital, position_size))
   end)%task.

Definition execute_opportunity (fuel : nat) (o : ArbitrageOpportunity) : task state verdict :=
  (let* trades := iter_trades in
   if existsb (fun kt : string * PaperTrade =>
        String.eqb (pt_symbol (snd kt)) (ao_symbol o) && is_live (snd kt)) trades
   then Done SkippedDuplicate
   else
   let* uuid := sync (in_world new_uuid) in
   let placeholder_trade_id := "placeholder_" +:+ uuid in
   do* insert_trade placeholder_trade_id (placeholder_trade placeholder_trade_id o) in
   let* checked := check_opportunity o in
   match checked with
   | Err skip => do* remove_trade placeholder_trade_id in Done skip
   | Ok (current_spread_bps, fee, available_capital, position_size) =>
       let* trade_result := execute_entry fuel o available_capital position_size in
       match trade_result with
       | Ok trade =>
           let trade := set_projected_profit (projected_profit current_spread_bps fee position_size) trade in
           do* remove_trade placeholder_trade_id in
           do* insert_trade (pt_id trade) trade in
           let* opened := open_trade_io trade in
           Done (Executed trade opened)
       | Err e => do* remove_trade placeholder_trade_id in Done (SkippedExecutionFailed e)
       end
   end)%task.
End opportunity.
