(* ===== verification/RunnerMonitor.v ===== *)
(** The strategy runner, second part: [monitor_active_positions] of
    [src/src/strategy/runner.rs].

    A trade of a real backend is watched through its two exit orders: both
    filled, neither filled for too long, only one filled, and the stop-loss.  A
    paper trade is watched through its spread.  Steps the source writes once
    for each leg are written once, with the leg as the argument [s]; the two
    hedges of a half-finished exit differ and are both here. *)
From Stdlib Require Import ZArith Lia Bool.
From stdpp Require Import base option list gmap strings pretty.
From S2P Require Import Prelude Float64 Coop Types ArrayQueue Pipeline OpportunityQueue SymbolMap MarketData Branchless Portfolio Positions FillProbability ExchangeFees Backend AtomicExecution Entry EntryReal Runner.

#[local] Open Scope string_scope.
#[local] Open Scope Z_scope.

(** ** Assignments to a trade *)
Definition with_exit (status : TradeStatus) (reason : option string) (spread : option f64)
  (stop_loss : bool) (leg_out : option LegOutEvent) (t : PaperTrade) : PaperTrade :=
  {| pt_id := pt_id t; pt_symbol := pt_symbol t; pt_long_exchange := pt_long_exchange t;
     pt_short_exchange := pt_short_exchange t; pt_entry_time := pt_entry_time t;
     pt_entry_long_price := pt_entry_long_price t; pt_entry_short_price := pt_entry_short_price t;
     pt_entry_spread_bps := pt_entry_spread_bps t; pt_position_size_usd := pt_position_size_usd t;
     pt_funding_delta_entry := pt_funding_delta_entry t;
     pt_projected_profit_usd := pt_projected_profit_usd t; pt_actual_profit_usd := pt_actual_profit_usd t;
     pt_status := status; pt_exit_reason := reason; pt_exit_spread_bps := spread;
     pt_exit_time := pt_exit_time t; pt_long_order := pt_long_order t;
     pt_short_order := pt_short_order t; pt_long_exit_order := pt_long_exit_order t;
     pt_short_exit_order := pt_short_exit_order t; pt_stop_loss_triggered := stop_loss;
     pt_stop_loss_long_price := pt_stop_loss_long_price t;
     pt_stop_loss_short_price := pt_stop_loss_short_price t; pt_leg_out_event := leg_out |}.

(** [status = Exiting; exit_reason = Some(reason); exit_spread_bps = Some(spread)]. *)
Definition exiting (reason : string) (spread : f64) (t : PaperTrade) : PaperTrade :=
  with_exit TExiting (Some reason) (Some spread) (pt_stop_loss_triggered t) (pt_leg_out_event t) t.

(** [status = Exiting] alone. *)
Definition mark_exiting (t : PaperTrade) : PaperTrade :=
  with_exit TExiting (pt_exit_reason t) (pt_exit_spread_bps t) (pt_stop_loss_triggered t)
    (pt_leg_out_event t) t.

Definition set_reason (reason : string) (t : PaperTrade) : PaperTrade :=
  with_exit (pt_status t) (Some reason) (pt_exit_spread_bps t) (pt_stop_loss_triggered t)
    (pt_leg_out_event t) t.

Definition stop_loss_exit (reason : string) (spread : f64) (t : PaperTrade) : PaperTrade :=
  with_exit TExiting (Some reason) (Some spread) true (pt_leg_out_event t) t.

Definition set_leg_out (e : LegOutEvent) (t : PaperTrade) : PaperTrade :=
  with_exit (pt_status t) (pt_exit_reason t) (pt_exit_spread_bps t) (pt_stop_loss_triggered t)
    (Some e) t.

(** The exit order and the exchange of a leg. *)
Definition exit_order_of (s : OrderSide) (t : PaperTrade) : option SimulatedOrder :=
  match s with Long => pt_long_exit_order t | Short => pt_short_exit_order t end.
Definition trade_exchange (s : OrderSide) (t : PaperTrade) : string :=
  match s with Long => pt_long_exchange t | Short => pt_short_exchange t end.
Definition has_exit_orders (t : PaperTrade) : bool :=
  bool_decide (is_Some (pt_long_exit_order t)) && bool_decide (is_Some (pt_short_exit_order t)).

(** The locals of one turn of the loop: the trade as it was read first, its key
    and the prices. *)
Record monitored := {
  mo_key : string;
  mo_trade : PaperTrade;
  mo_long_price : f64;
  mo_short_price : f64
}.
Definition mo_price (s : OrderSide) (m : monitored) : f64 :=
  match s with Long => mo_long_price m | Short => mo_short_price m end.
Definition mo_exchange (s : OrderSide) (m : monitored) : string := trade_exchange s (mo_trade m).
Definition mo_symbol (m : monitored) : string := pt_symbol (mo_trade m).
Definition mo_spread (m : monitored) : f64 :=
  Scanner.calculate_spread_bps (mo_long_price m) (mo_short_price m).

Definition EXIT_TIMEOUT_SECONDS : Z := 3.

(** [now.saturating_sub(created_at)] *)
Definition age (now created_at : Z) : Z := Z.max 0 (now - created_at).
Definition exit_age (now : Z) (o : option SimulatedOrder) : Z :=
  match o with Some o => age now (so_created_at o) | None => 0 end.

Definition timeout_reason : string := "Exit timeout (3s) - forced close".

Section monitor.
Context {B T F E : Type} `{Backend B} `{DashMap T key Z} `{DashMap F Z key} `{Sharding} `{RunnerEnv E}.
Context (fmt2 : f64 -> string).   (* the text of [{:.2}] *)
Abbreviation state := (StrategyRunner B T F E).
Abbreviation step := (task state unit).

(** A backend call of the runner. *)
Definition call_backend {A} (m : ST (World B) A) : task state A := await (in_world m).

(** An order that closes part of leg [s]: it trades the other way on the leg's
    exchange. *)
Definition closing_order (s : OrderSide) (m : monitored) (prefix : string) (ty : OrderType)
  (price size : f64) : task state SimulatedOrder :=
  (let* uuid := sync (in_world new_uuid) in
   let* secs := sync (in_world unix_secs) in
   Done {| so_id := prefix +:+ uuid; so_exchange := mo_exchange s m; so_symbol := mo_symbol m;
           so_side := opposite s; so_order_type := ty; so_price := price; so_size := size;
           so_queue_position := None; so_created_at := secs; so_filled_at := None;
           so_fill_price := None; so_status := Pending |})%task.

(** [get_order_status(..)] of an exit order: is it filled?  Any other answer, an
    error included, counts as not filled. *)
Definition exit_filled (s : OrderSide) (m : monitored) (id : option string) : task state bool :=
  match id with
  | Some id =>
      (let* r := call_backend (get_order_status (mo_exchange s m) id) in
       Done match r with Ok Filled => true | _ => false end)%task
  | None => Done false
  end.

(** Cancels an exit order and asks how much of it had filled; a failed query
    counts as nothing. *)
Definition cancel_and_check (s : OrderSide) (m : monitored) (id : option string) : task state f64 :=
  match id with
  | Some id =>
      (do* call_backend (cancel_order (mo_exchange s m) id) in
       let* r := call_backend (get_order_status_detailed (mo_exchange s m) id (mo_symbol m)) in
       Done match r with Ok i => osi_filled_quantity i | Err _ => 0.0%f64 end)%task
  | None => Done 0.0%f64
  end.

Definition best_price (s : OrderSide) (m : monitored) : ST (World B) (result f64 string) :=
  match s with
  | Long => get_best_bid (mo_exchange s m) (mo_symbol m)
  | Short => get_best_ask (mo_exchange s m) (mo_symbol m)
  end.

(** A limit order at the best price for [remaining], two seconds, and what had
    filled is added to [filled]; the order is cancelled. *)
Definition try_limit (s : OrderSide) (m : monitored) (prefix : string) (remaining filled : f64)
  : task state f64 :=
  (let* best := call_backend (best_price s m) in
   match best with
   | Err _ => Done filled
   | Ok price =>
       let* order := closing_order s m prefix Limit price remaining in
       let* placed := call_backend (place_order order) in
       match placed with
       | Err _ => Done filled
       | Ok placed_order =>
           do* call_backend (sleep_ms 2000) in
           let* r := call_backend (get_order_status_detailed (mo_exchange s m) (so_id placed_order) (mo_symbol m)) in
           let filled := match r with Ok i => (filled + osi_filled_quantity i)%F | Err _ => filled end in
           do* call_backend (cancel_order (mo_exchange s m) (so_id placed_order)) in
           Done filled
       end
   end)%task.

(** A market order for [remaining] at the current price. *)
Definition market_close (s : OrderSide) (m : monitored) (prefix : string) (remaining : f64)
  : task state (result SimulatedOrder string) :=
  (let* order := closing_order s m prefix Market (mo_price s m) remaining in
   call_backend (place_market_order order))%task.

(** ** Both exit orders filled *)
Definition both_exits_filled (m : monitored) : step :=
  modify_trade (mo_key m) (exiting "Exit orders filled (90% capture)" (mo_spread m)).

(** ** Neither filled for too long *)

(** What is left of a leg after its exit order was cancelled, limited and then
    sent to the market. *)
Definition timeout_limit (s : OrderSide) (m : monitored) (prefix : string) (quantity filled : f64)
  : task state f64 :=
  let remaining := (quantity - filled)%F in
  if (remaining >? 0.001%f64)%F then try_limit s m prefix remaining filled else Done filled.

Definition timeout_market (s : OrderSide) (m : monitored) (prefix : string) (quantity filled : f64)
  : step :=
  let remaining := (quantity - filled)%F in
  if (remaining >? 0.001%f64)%F then (do* market_close s m prefix remaining in Done tt)%task
  else Done tt.

Definition force_close (m : monitored) (long_exit_id short_exit_id : option string) : step :=
  (let* trade := get_trade (mo_key m) in
   match trade with
   | None => Done tt
   | Some trade =>
       let long_quantity := so_size (pt_long_order trade) in
       let short_quantity := so_size (pt_short_order trade) in
       let* long_filled := cancel_and_check Long m long_exit_id in
       let* short_filled := cancel_and_check Short m short_exit_id in
       let* long_filled := timeout_limit Long m "timeout_exit_long_" long_quantity long_filled in
       let* short_filled := timeout_limit Short m "timeout_exit_short_" short_quantity short_filled in
       do* timeout_market Long m "timeout_market_long_" long_quantity long_filled in
       do* timeout_market Short m "timeout_market_short_" short_quantity short_filled in
       modify_trade (mo_key m) (exiting timeout_reason (mo_spread m))
   end)%task.

(** ** The long exit filled, the short one did not *)

(** The third, second or first ask; [0.0] when the book is empty. *)
Definition aggressive_ask (book : OrderBookDepth) : f64 :=
  match obd_asks book with
  | _ :: _ :: l3 :: _ => pl_price l3
  | _ :: l2 :: _ => pl_price l2
  | l1 :: _ => pl_price l1
  | [] => 0.0%f64
  end.

(** The limit order into the book: the quantity filled so far, and whether the
    hedge is complete. *)
Definition smart_limit (m : monitored) (remaining total_filled : f64) : task state (f64 * bool) :=
  (let* depth := call_backend (get_order_book_depth (mo_exchange Short m) (mo_symbol m) 5) in
   match depth with
   | Err _ => Done (total_filled, false)
   | Ok order_book =>
       let price := aggressive_ask order_book in
       if (price >? 0.0%f64)%F then
         let* order := closing_order Short m "aggressive_exit_" Limit price remaining in
         let* placed := call_backend (place_order order) in
         match placed with
         | Err _ => Done (total_filled, false)
         | Ok placed_order =>
             do* call_backend (sleep_ms 200) in
             let* r := call_backend (get_order_status_detailed (mo_exchange Short m) (so_id placed_order) (mo_symbol m)) in
             match r with
             | Ok i =>
                 let total_filled := (total_filled + osi_filled_quantity i)%F in
                 if (osi_filled_quantity i >=? remaining)%F then
                   do* modify_trade (mo_key m) (exiting "Partial exit hedged with smart limit" (mo_spread m)) in
                   Done (total_filled, true)
                 else
                   do* call_backend (cancel_order (mo_exchange Short m) (so_id placed_order)) in
                   Done (total_filled, false)
             | Err _ =>
                 do* call_backend (cancel_order (mo_exchange Short m) (so_id placed_order)) in
                 Done (total_filled, false)
             end
         end
       else Done (total_filled, false)
   end)%task.

Definition hedge_short_exit (m : monitored) (short_exit_id : option string) : step :=
  (do* modify_trade (mo_key m) mark_exiting in
   let* trade := get_trade (mo_key m) in
   match trade with
   | None => Done tt
   | Some trade =>
       let short_quantity := so_size (pt_short_order trade) in
       let* filled := cancel_and_check Short m short_exit_id in
       let total_filled := match short_exit_id with
                           | Some _ => (0.0%f64 + filled)%F | None => filled end in
       if (total_filled >=? short_quantity)%F then
         modify_trade (mo_key m) (exiting "Partial exit hedged (cancelled order filled)" (mo_spread m))
       else
       let remaining_after_cancel := (short_quantity - total_filled)%F in
       let* '(total_filled, complete) := smart_limit m remaining_after_cancel total_filled in
       if complete then Done tt
       else if (total_filled >=? short_quantity)%F then
         modify_trade (mo_key m) (exiting "Partial exit hedged (limit partial fill)" (mo_spread m))
       else
       let* r := market_close Short m "market_hedge_" (short_quantity - total_filled)%F in
       match r with
       | Ok _ => modify_trade (mo_key m) (exiting "Partial exit hedged with market order" (mo_spread m))
       | Err _ => Done tt
       end
   end)%task.

(** ** The short exit filled, the long one did not *)

(** The market order for the whole leg. *)
Definition instant_hedge (m : monitored) (long_quantity : f64) : step :=
  (let* r := market_close Long m "instant_hedge_" long_quantity in
   match r with
   | Ok _ => modify_trade (mo_key m) (exiting "Partial exit hedged with instant market" (mo_spread m))
   | Err _ => Done tt
   end)%task.

(** [None]: the index [book_side[0]] of an empty side panics; a level that is
    recommended exists ([should_try_limit] answers no limit on an empty book). *)
Definition limit_price (book_side : list PriceLevel) (level : nat) : option f64 :=
  match book_side !! level with
  | Some l => Some (pl_price l)
  | None => pl_price <$> head book_side
  end.

(** The limit order the estimator recommends; [true] when the hedge is over. *)
Definition recommended_limit (m : monitored) (decision : LimitOrderDecision) (price long_quantity : f64)
  : task state bool :=
  (let* order := closing_order Long m "smart_exit_" Limit price long_quantity in
   let* placed := call_backend (place_order order) in
   match placed with
   | Err _ => Done false
   | Ok placed_order =>
       do* call_backend (sleep_ms (ld_wait_time_ms decision)) in
       let* r := call_backend (get_order_status_detailed (mo_exchange Long m) (so_id placed_order) (mo_symbol m)) in
       let unfilled :=
         (do* call_backend (cancel_order (mo_exchange Long m) (so_id placed_order)) in Done false)%task in
       match r with
       | Ok i =>
           if is_fully_filled i then
             do* modify_trade (mo_key m) (exiting "Partial exit hedged with smart limit" (mo_spread m)) in
             Done true
           else if (osi_filled_quantity i >? 0.0%f64)%F then
             do* call_backend (cancel_order (mo_exchange Long m) (so_id placed_order)) in
             do* market_close Long m "market_remaining_" (long_quantity - osi_filled_quantity i)%F in
             do* modify_trade (mo_key m) (exiting "Partial exit hedged (limit partial + market)" (mo_spread m)) in
             Done true
           else unfilled
       | Err _ => unfilled
       end
   end)%task.

Definition hedge_long_exit (m : monitored) (long_exit_id : option string) : step :=
  (do* modify_trade (mo_key m) mark_exiting in
   let* trade := get_trade (mo_key m) in
   match trade with
   | None => Done tt
   | Some trade =>
       let long_quantity := so_size (pt_long_order trade) in
       let position_size_usd := (long_quantity * mo_long_price m)%F in
       do* match long_exit_id with
           | Some id => (do* call_backend (cancel_order (mo_exchange Long m) id) in Done tt)%task
           | None => Done tt
           end in
       let* depth := call_backend (get_order_book_depth (mo_exchange Long m) (mo_symbol m) 5) in
       match depth with
       | Ok order_book =>
           let* estimator := sync (fun s => (sr_estimator s, s)) in
           let decision := should_try_limit estimator order_book Short position_size_usd in
           if ld_use_limit decision then
             match limit_price (obd_bids order_book) (ld_price_level decision) with
             | None => Sync (fun _ => None)   (* the index panics: not reached *)
             | Some price =>
                 let* over := recommended_limit m decision price long_quantity in
                 if (over : bool) then Done tt else instant_hedge m long_quantity
             end
           else instant_hedge m long_quantity
       | Err _ =>
           do* market_close Long m "instant_hedge_" long_quantity in
           modify_trade (mo_key m) (exiting "Partial exit hedged with market (no order book)" (mo_spread m))
       end
   end)%task.

(** ** The stop-loss *)
Definition stop_loss_hit (m : monitored) : bool :=
  (mo_long_price m <=? pt_stop_loss_long_price (mo_trade m))%F ||
  (mo_short_price m >=? pt_stop_loss_short_price (mo_trade m))%F.

Definition stop_loss_reason (m : monitored) : string :=
  "Stop-loss triggered (30% widening) | Long: $" +:+ fmt2 (mo_long_price m) +:+
  " | Short: $" +:+ fmt2 (mo_short_price m).

Definition stop_loss_limit (s : OrderSide) (m : monitored) (prefix : string) (quantity filled : f64)
  : task state f64 :=
  if (filled <? quantity)%F then try_limit s m prefix (quantity - filled)%F filled else Done filled.

Definition stop_loss_market (s : OrderSide) (m : monitored) (prefix : string) (remaining : f64)
  : task state (result SimulatedOrder string) :=
  if (remaining >? 0.001%f64)%F then market_close s m prefix remaining else Done (Ok default_order).

Definition stop_loss (m : monitored) (long_exit_id short_exit_id : option string) : step :=
  (let* trade := get_trade (mo_key m) in
   match trade with
   | None => Done tt
   | Some trade =>
       let long_quantity := so_size (pt_long_order trade) in
       let short_quantity := so_size (pt_short_order trade) in
       let* long_filled := cancel_and_check Long m long_exit_id in
       let* short_filled := cancel_and_check Short m short_exit_id in
       do* modify_trade (mo_key m) (stop_loss_exit (stop_loss_reason m) (mo_spread m)) in
       if (long_filled >=? long_quantity)%F && (short_filled >=? short_quantity)%F then Done tt else
       let* long_filled := stop_loss_limit Long m "stop_loss_limit_long_" long_quantity long_filled in
       let* short_filled := stop_loss_limit Short m "stop_loss_limit_short_" short_quantity short_filled in
       if (long_filled >=? long_quantity)%F && (short_filled >=? short_quantity)%F then Done tt else
       do* stop_loss_market Long m "stop_loss_market_long_" (long_quantity - long_filled)%F in
       do* stop_loss_market Short m "stop_loss_market_short_" (short_quantity - short_filled)%F in
       Done tt
   end)%task.

(** ** A trade with exit orders on a real backend *)
Definition monitor_real (m : monitored) : step :=
  (let* trade := get_trade (mo_key m) in
   match trade with
   | None => Done tt
   | Some trade =>
       let long_exit_id := so_id <$> pt_long_exit_order trade in
       let short_exit_id := so_id <$> pt_short_exit_order trade in
       let* long_exit_filled := exit_filled Long m long_exit_id in
       let* short_exit_filled := exit_filled Short m short_exit_id in
       match (long_exit_filled : bool), (short_exit_filled : bool) with
       | true, true => both_exits_filled m
       | true, false => hedge_short_exit m short_exit_id
       | false, true => hedge_long_exit m long_exit_id
       | false, false =>
           let* now := sync (in_world unix_secs) in
           let* trade := get_trade (mo_key m) in
           match trade with
           | None => Done tt
           | Some trade =>
               if (EXIT_TIMEOUT_SECONDS <? exit_age now (pt_long_exit_order trade)) &&
                  (EXIT_TIMEOUT_SECONDS <? exit_age now (pt_short_exit_order trade))
               then force_close m long_exit_id short_exit_id
               else if negb (pt_stop_loss_triggered (mo_trade m)) && stop_loss_hit m
               then stop_loss m long_exit_id short_exit_id
               else Done tt
           end
       end
   end)%task.

(** ** A paper trade *)

Definition profit_reason (entry current captured : f64) : string :=
  "Profit hit | Entry: " +:+ fmt2 entry +:+ "bps | Exit: " +:+ fmt2 current +:+
  "bps | Captured: " +:+ fmt2 captured +:+ "bps".
Definition loss_reason (entry current : f64) : string :=
  "Stop loss | Entry: " +:+ fmt2 entry +:+ "bps | Exit: " +:+ fmt2 current +:+ "bps".

(** An exit condition that only applies while no reason has been given. *)
Definition exit_if (condition : bool) (reason : string) (spread : f64) (t : PaperTrade) : PaperTrade :=
  if condition && bool_decide (pt_exit_reason t = None) then exiting reason spread t else t.

Definition paper_exits (m : monitored) (entry_funding_delta : f64) (t : PaperTrade) : PaperTrade :=
  let entry_spread_bps := pt_entry_spread_bps (mo_trade m) in
  let projected := pt_projected_profit_usd (mo_trade m) in
  let current_spread_bps := mo_spread m in
  let spread_reduction_bps := (entry_spread_bps - current_spread_bps)%F in
  let current_pnl := ((spread_reduction_bps / 10000.0%f64) * pt_position_size_usd (mo_trade m))%F in
  let current_funding_delta := entry_funding_delta in
  let spread_closed_pct := ((spread_reduction_bps / entry_spread_bps) * 100.0%f64)%F in
  let t :=
    if (spread_closed_pct >=? 90.0%f64)%F && (entry_spread_bps >? 0.0%f64)%F &&
       (current_spread_bps >? 0.0%f64)%F
    then exiting (profit_reason entry_spread_bps current_spread_bps spread_reduction_bps)
           current_spread_bps t
    else t in
  let loss := loss_reason entry_spread_bps current_spread_bps in
  let t := exit_if ((current_pnl <=? projected * (-0.2)%f64)%F && (projected >? 0.0%f64)%F)
             loss current_spread_bps t in
  let max_loss := fmax (projected * 0.5%f64)%F 5.0%f64 in
  let t := exit_if (current_pnl <=? fneg max_loss)%F loss current_spread_bps t in
  let t := exit_if (current_spread_bps >? entry_spread_bps * 1.3%f64)%F loss current_spread_bps t in
  let t := exit_if ((fabs entry_funding_delta >? 0.0001%f64)%F &&
                    (fabs current_funding_delta <? fabs entry_funding_delta * 0.2%f64)%F)
             "funding_convergence" current_spread_bps t in
  exit_if (fabs current_funding_delta <? 0.00005%f64)%F "funding_convergence" current_spread_bps t.

Definition is_filled (o : SimulatedOrder) : bool := bool_decide (so_status o = Filled).

(** The leg-out check; the subtraction of [u64]s wraps. *)
Definition paper_leg_out (m : monitored) (now_millis : Z) (t : PaperTrade) : PaperTrade :=
  let time_since_entry := wrap64 (now_millis - wrap64 (pt_entry_time t * 1000)) in
  let long_filled := is_filled (pt_long_order t) in
  if detect_leg_out long_filled (is_filled (pt_short_order t)) time_since_entry &&
     bool_decide (pt_leg_out_event t = None)
  then set_leg_out
    {| lo_filled_leg := if long_filled then "long" else "short";
       lo_filled_at := default 0 (so_filled_at (pt_long_order t));
       lo_unfilled_leg := if negb long_filled then "long" else "short";
       lo_hedge_executed := true;
       lo_hedge_price := fmax (mo_long_price m) (mo_short_price m) |} t
  else t.

Definition monitor_paper (m : monitored) : task state (result unit runner_error) :=
  (let* prices := sync (get_current_prices (mo_symbol m)) in
   match prices with
   | Err e => Done (Err e)
   | Ok (current_long_price, current_short_price) =>
       let m := {| mo_key := mo_key m; mo_trade := mo_trade m; mo_long_price := current_long_price;
                   mo_short_price := current_short_price |} in
       let* trade := get_trade (mo_key m) in
       let entry_funding_delta := match trade with
                                  | Some t => pt_funding_delta_entry t | None => 0.0%f64 end in
       let* now_millis := sync (in_env e_unix_millis) in
       do* modify_trade (mo_key m)
             (fun t => paper_leg_out m now_millis (paper_exits m entry_funding_delta t)) in
       Done (Ok tt)
   end)%task.

(** ** The loop over the trades *)
Definition monitor_trade (is_real : bool) (trade_id : string) : task state (result unit runner_error) :=
  (let* trade := get_trade trade_id in
   match trade with
   | None => Done (Ok tt)
   | Some trade =>
       let* prices := sync (get_current_prices (pt_symbol trade)) in
       match prices with
       | Err _ => Done (Ok tt)
       | Ok (current_long_price, current_short_price) =>
           let m := {| mo_key := trade_id; mo_trade := trade; mo_long_price := current_long_price;
                       mo_short_price := current_short_price |} in
           if is_real && has_exit_orders trade
           then do* monitor_real m in Done (Ok tt)
           else monitor_paper m
       end
   end)%task.

Definition monitor_active_positions : task state (result unit runner_error) :=
  (let* trade_ids := trade_keys in
   let* is_real := sync is_real_trading in
   tforeach trade_ids (monitor_trade is_real))%task.
End monitor.
