(* ===== verification/RunnerLoop.v ===== *)
(** The strategy runner, third part: [check_exits], [get_funding_rates],
    [execute_atomic_trade] and the loop [run_scanning_loop] of
    [src/src/strategy/runner.rs].

    [check_exits] keeps the reference [active_trades.get(..)] returned to the
    end of the block that closes the trade, across the awaits in it and across
    the [active_trades.remove(..)] at its end; [hold_trade] and [release_trade]
    are the beginning and the end of that reference. *)
From Stdlib Require Import ZArith Lia Bool.
From stdpp Require Import base option list gmap strings pretty.
From S2P Require Import Prelude Float64 Coop Types ArrayQueue Pipeline OpportunityQueue SymbolMap MarketData Branchless Portfolio FillProbability ExchangeFees Backend AtomicExecution Entry EntryReal ExchangeParser Runner RunnerMonitor.

#[local] Open Scope string_scope.
#[local] Open Scope Z_scope.

(** ** Funding rates *)
Definition funding_exchanges : list string :=
  ["binance"; "bybit"; "okx"; "kucoin"; "bitget"; "gateio"; "hyperliquid"; "paradex"].

Section funding.
Context {B T F E V : Type} `{RunnerEnv E} `{Json V}.
Abbreviation state := (StrategyRunner B T F E).

(** The first key whose value is a message with a funding rate. *)
Fixpoint first_rate (exchange : string) (keys : list string) : task state (option f64) :=
  match keys with
  | [] => Done None
  | k :: keys =>
      (let* data := await (in_env (e_redis_get k)) in
       let rate := match data with
                   | Some data => match j_from_str data with
                                  | Some json => parse_funding_rate (get_parser exchange) (json : V)
                                  | None => None
                                  end
                   | None => None
                   end in
       match rate with
       | Some rate => Done (Some rate)
       | None => first_rate exchange keys
       end)%task
  end.

Fixpoint collect_rates (exchanges : list string) (pair : string) : task state (list f64) :=
  match exchanges with
  | [] => Done []
  | e :: es =>
      (let* rate := first_rate e (get_redis_key_patterns e pair) in
       let* rates := collect_rates es pair in
       Done (match rate with Some rate => rate :: rates | None => rates end))%task
  end.

(** The first two rates found. *)
Definition get_funding_rates (pair : string) : task state (option (f64 * f64)) :=
  (let* rates := collect_rates funding_exchanges pair in
   Done match rates with a :: b :: _ => Some (a, b) | _ => None end)%task.
End funding.

(** ** Closing trades *)

(** The profit that is booked; a spread that was not captured counts as zero. *)
Definition actual_profit (t : PaperTrade) : f64 :=
  let exit_spread_bps := default 0.0%f64 (pt_exit_spread_bps t) in
  let spread_reduction_bps := (pt_entry_spread_bps t - exit_spread_bps)%F in
  (((spread_reduction_bps - total_fee_bps (pt_long_exchange t) (pt_short_exchange t)) / 10000.0%f64)
     * pt_position_size_usd t)%F.

Definition exit_reason_of (t : PaperTrade) : string := default "manual_exit" (pt_exit_reason t).

Section exits.
Context {B T F E V : Type} `{Backend B} `{DashMap T key Z} `{DashMap F Z key} `{Sharding} `{RunnerEnv E}.
Context `{JV : Json V}.
Context (fmt2 : f64 -> string).
Abbreviation state := (StrategyRunner B T F E).

Definition tracker_should_exit (symbol : string) : ST state bool := fun s =>
  (match sr_trackers s !! symbol with Some t => should_exit t | None => false end, s).

(** The negative-funding exit; [true] is the [continue] of its first match. *)
Definition funding_exit (trade_id symbol : string) : task state bool :=
  (let* exit := sync (tracker_should_exit symbol) in
   if (exit : bool) then
     let* rates := get_funding_rates (V:=V) symbol in
     match rates with
     | None => Done true
     | Some (funding_long, funding_short) =>
         let funding_delta := (funding_long - funding_short)%F in
         do* sync (fun s => (tt, set_trackers
               (alter (fun t => snd (update_funding funding_delta t)) symbol (sr_trackers s)) s)) in
         do* modify_trade trade_id (fun t => mark_exiting (set_reason "negative_funding_exit" t)) in
         Done false
     end
   else Done false)%task.

(** The exit orders that are not known to be cancelled are cancelled; the
    answers are only printed. *)
Definition cleanup_exit (s : OrderSide) (trade : PaperTrade) : task state unit :=
  match exit_order_of s trade with
  | Some o =>
      if bool_decide (so_status o = Cancelled) then Done tt
      else (do* call_backend (cancel_order (trade_exchange s trade) (so_id o)) in Done tt)%task
  | None => Done tt
  end.

Definition reset_tracker (symbol : string) : task state unit :=
  sync (fun s => (tt, set_trackers (alter tracker_reset symbol (sr_trackers s)) s)).

(** The block under [if let Some(trade) = active_trades.get(&trade_id)]. *)
Definition close_exiting (trade_id symbol : string) : task state (result unit runner_error) :=
  (let* trade := hold_trade trade_id in
   match trade with
   | None => Done (Ok tt)
   | Some trade =>
       if bool_decide (pt_status trade = TExiting) then
         do* cleanup_exit Long trade in
         do* cleanup_exit Short trade in
         let* closed := close_trade_io trade_id (actual_profit trade) (exit_reason_of trade) in
         match closed with
         | Err e => do* release_trade trade_id in Done (Err (PortfolioError e))
         | Ok _ =>
             do* reset_tracker symbol in
             do* remove_trade trade_id in
             do* release_trade trade_id in
             Done (Ok tt)
         end
       else do* release_trade trade_id in Done (Ok tt)
   end)%task.

Definition check_exit (trade_id : string) : task state (result unit runner_error) :=
  (let* trade := get_trade trade_id in
   match trade with
   | None => Done (Ok tt)
   | Some t =>
       let symbol := pt_symbol t in
       let* skip := funding_exit trade_id symbol in
       if (skip : bool) then Done (Ok tt) else close_exiting trade_id symbol
   end)%task.

Definition check_exits : task state (result unit runner_error) :=
  (let* trade_ids := trade_keys in tforeach trade_ids check_exit)%task.

(** [execute_atomic_trade]: marked dead code, and nothing calls it.  It is the
    only function that creates a funding tracker.  The ids and the clock
    readings are arguments. *)
Definition execute_atomic_trade (trade_id id1 id2 id3 id4 : string) (now t1 t2 t3 t4 : Z)
  (o : ArbitrageOpportunity) : task state unit :=
  let size := (f_of_Z (Z.b2z (order_book_depth_sufficient (cm_hard_constraints (ao_metrics o))))
                 * 1000.0%f64)%F in
  let '(r, _) := execute_dual_leg id1 id2 id3 id4 now t1 t2 t3 t4 (ao_symbol o) (ao_long_exchange o)
                   (ao_short_exchange o) (ao_long_price o) (ao_short_price o) size in
  if ar_both_filled r then
    (do* sync (fun s => (tt, set_trackers
           (<[ao_symbol o := NegativeFundingTracker_new (ao_symbol o)]> (sr_trackers s)) s)) in
     insert_trade trade_id
       {| pt_id := trade_id; pt_symbol := ao_symbol o; pt_long_exchange := ao_long_exchange o;
          pt_short_exchange := ao_short_exchange o; pt_entry_time := now;
          pt_entry_long_price := ao_long_price o; pt_entry_short_price := ao_short_price o;
          pt_entry_spread_bps := ao_spread_bps o; pt_position_size_usd := ao_projected_profit_usd o;
          pt_funding_delta_entry := ao_funding_delta_8h o;
          pt_projected_profit_usd := ao_projected_profit_usd o; pt_actual_profit_usd := 0.0%f64;
          pt_status := TActive; pt_exit_reason := None; pt_exit_spread_bps := None;
          pt_exit_time := None; pt_long_order := ar_long_order r; pt_short_order := ar_short_order r;
          pt_long_exit_order := None; pt_short_exit_order := None; pt_stop_loss_triggered := false;
          pt_stop_loss_long_price := 0.0%f64; pt_stop_loss_short_price := 0.0%f64;
          pt_leg_out_event := None |})%task
  else Done tt.
End exits.

(** ** The scanning loop *)
Section loop.
Context {B T F E V MQ OQ : Type} `{Backend B} `{DashMap T key Z} `{DashMap F Z key} `{Sharding}
  `{RunnerEnv E} `{JV : Json V} `{ArrayQueue MQ MarketUpdate} `{ArrayQueue OQ ArbitrageOpportunity}.
Context (fmt2 : f64 -> string) (fuel : nat).
Abbreviation state := (StrategyRunner B T F E).

(** The runner with its ends of the two queues. *)
Record loop_state := {
  lp_runner : state;
  lp_market_consumer : option (CountedQueue MQ);
  lp_opportunity_consumer : OpportunityQueue OQ
}.

(** [for _ in 0..n]: pop and store, until the queue is empty. *)
Fixpoint drain_updates (n : nat) (q : CountedQueue MQ) (md : MarketDataStore)
  : CountedQueue MQ * MarketDataStore :=
  match n with
  | O => (q, md)
  | S n =>
      match MarketConsumer_pop q with
      | (Some update, q) => drain_updates n q (update_from_market_update update md)
      | (None, q) => (q, md)
      end
  end.

Definition process_updates (l : loop_state) : loop_state :=
  match lp_market_consumer l with
  | Some q =>
      let '(q, md) := drain_updates 100 q (sr_market (lp_runner l)) in
      {| lp_runner := set_market md (lp_runner l); lp_market_consumer := Some q;
         lp_opportunity_consumer := lp_opportunity_consumer l |}
  | None => l
  end.

(** The synchronous part of a turn: the updates, then at most one opportunity. *)
Definition turn_head (l : loop_state) : option loop_state :=
  let l := process_updates l in
  let '(opp, oq) := oq_pop (lp_opportunity_consumer l) in
  let with_runner s := {| lp_runner := s; lp_market_consumer := lp_market_consumer l;
                          lp_opportunity_consumer := oq |} in
  match opp with
  | Some o =>
      match run (execute_opportunity fuel o) (lp_runner l) with
      | Some (_, s) => Some (with_runner s)
      | None => None
      end
  | None => Some (with_runner (lp_runner l))
  end.

(** The loop at the top of its body, and while it awaits [tokio::join!]. *)
Abbreviation joining := (joined state (result unit runner_error) (result unit runner_error)).

Inductive phase :=
| AtTop (l : loop_state)
| InJoin (mc : option (CountedQueue MQ)) (oc : OpportunityQueue OQ) (j : joining).

Definition runner_of (p : phase) : state :=
  match p with AtTop l => lp_runner l | InJoin _ _ j => jn_state j end.

Definition start_join (l : loop_state) : phase :=
  InJoin (lp_market_consumer l) (lp_opportunity_consumer l)
    (join_tasks (monitor_active_positions fmt2) (check_exits (V:=V)) (lp_runner l)).

(** The other threads fill the queues and hand out symbol ids.  The errors of
    the two tasks are only printed. *)
Inductive loop_step : phase -> phase -> Prop :=
| loop_others l mc oc sm :
    loop_step (AtTop l)
      (AtTop {| lp_runner := set_symbols sm (lp_runner l); lp_market_consumer := mc;
                lp_opportunity_consumer := oc |})
| loop_head l l' : turn_head l = Some l' -> loop_step (AtTop l) (start_join l')
| loop_join mc oc j j' : join_step j j' -> loop_step (InJoin mc oc j) (InJoin mc oc j')
| loop_join_others mc oc s l r b mc' oc' sm :
    loop_step (InJoin mc oc {| jn_state := s; jn_left := l; jn_right := r; jn_turn := b |})
      (InJoin mc' oc' {| jn_state := set_symbols sm s; jn_left := l; jn_right := r; jn_turn := b |})
| loop_end mc oc s a c b :
    loop_step (InJoin mc oc {| jn_state := s; jn_left := Done a; jn_right := Done c; jn_turn := b |})
      (AtTop {| lp_runner := s; lp_market_consumer := mc; lp_opportunity_consumer := oc |}).
End loop.
Arguments loop_state B T F E MQ OQ : clear implicits.
Arguments phase B T F E MQ OQ : clear implicits.
