(* ===== verification/ScriptedRunner.v ===== *)
(** Concrete surroundings for the strategy runner, for the runs and witnesses of
    its theorems: Redis as a script of answers, one shard per key length, JSON as
    a tree.  None of it is part of the program. *)
From Stdlib Require Import ZArith Lia Bool.
From stdpp Require Import base option list gmap strings pretty.
From S2P Require Import Prelude Float64 Coop Types ArrayQueue Pipeline OpportunityQueue SymbolMap MarketData Portfolio FillProbability Backend ScriptedBackend AtomicExecution Entry ExchangeParser Runner RunnerMonitor RunnerLoop.

#[local] Open Scope string_scope.
#[local] Open Scope Z_scope.

(** Every write takes the next answer; an empty script accepts them all. *)
Definition next_write (l : list io) : io * list io :=
  match l with [] => (Ok tt, []) | a :: l => (a, l) end.

#[export] Instance scripted_env : RunnerEnv (list io) := {
  e_log_entry _ := next_write;
  e_log_exit _ _ := next_write;
  e_persist _ := next_write;
  e_redis_get _ := fun l => (None, l);
  e_unix_millis := fun l => (0, l)
}.

#[export] Instance length_sharding : Sharding := {
  shard_of k := Z.of_nat (String.length k);
  iter_order := map_to_list
}.

#[export] Instance length_sharding_laws : ShardingLaws.
Proof. split. intros m. reflexivity. Defined.

#[local] Unset Elimination Schemes.
Inductive json :=
| JNull
| JNumber (v : f64)
| JString (s : string)
| JArray (l : list json)
| JObject (fields : list (string * json)).
#[local] Set Elimination Schemes.

#[export] Instance json_tree : Json json := {
  j_get k v := match v with
               | JObject fields => snd <$> List.find (fun f => String.eqb (fst f) k) fields
               | _ => None
               end;
  j_as_str v := match v with JString s => Some s | _ => None end;
  j_as_array v := match v with JArray l => Some l | _ => None end;
  j_is_f64 v := match v with JNumber _ => true | _ => false end;
  j_as_f64 v := match v with JNumber x => Some x | _ => None end;
  j_from_str _ := None
}.

Abbreviation sym_ids := (gmap key Z).
Abbreviation sym_keys := (gmap Z key).
Abbreviation demo_runner := (StrategyRunner Script sym_ids sym_keys (list io)).
Abbreviation market_queue := (list_queue MarketUpdate).
Abbreviation opportunity_queue := (list_queue ArbitrageOpportunity).
Abbreviation demo_loop := (loop_state Script sym_ids sym_keys (list io) market_queue opportunity_queue).
Abbreviation demo_phase := (phase Script sym_ids sym_keys (list io) market_queue opportunity_queue).

(** A spread of 100 basis points on one symbol. *)
Definition demo_opportunity : ArbitrageOpportunity := depth_opportunity 1000.0%f64 1000.0%f64.

Definition demo_symbols : SymbolMap sym_ids sym_keys :=
  snd (get_or_insert "hyperliquid" "BTCUSDT" (snd (get_or_insert "binance" "BTCUSDT" sm_empty))).

Definition demo_updates : CountedQueue market_queue :=
  fold_left (fun q u => push u q)
    [MarketUpdate_new 1 99.9%f64 100.0%f64 1; MarketUpdate_new 2 101.0%f64 101.1%f64 1]
    (with_capacity 16).

Definition demo_start (script : Script) (writes : list io) : demo_loop :=
  {| lp_runner := StrategyRunner_new (script_world script) writes 10000.0%f64 demo_symbols;
     lp_market_consumer := Some demo_updates;
     lp_opportunity_consumer := oq_push demo_opportunity (oq_with_capacity 16) |}.

(** The loop after its first synchronous part. *)
Definition demo_fuel : nat := 40.
Definition demo_text (x : f64) : string := "x".
Definition after_head (script : Script) (writes : list io) : demo_phase :=
  match turn_head demo_fuel (demo_start script writes) with
  | Some l => start_join (V:=json) demo_text l
  | None => AtTop (demo_start script writes)
  end.

Lemma after_head_reachable script writes :
  bool_decide (is_Some (turn_head demo_fuel (demo_start script writes))) = true ->
  star (loop_step (V:=json) demo_text demo_fuel) (AtTop (demo_start script writes)) (after_head script writes).
Proof.
  intros Hs. unfold after_head. destruct (turn_head _ _) as [l |] eqn:E; [| discriminate].
  eapply star_step; [constructor |]. now constructor.
Qed.

Example demo_entry_runs :
  bool_decide (is_Some (turn_head demo_fuel (demo_start empty_script []))) = true /\
  (pt_id <$> (map_to_list (sr_trades (runner_of (after_head empty_script [])))).*2) = ["order-3"].
Proof. split; vm_compute; reflexivity. Qed.
