(* ===== verification/RunnerSpec.v ===== *)
(** Theorems about the strategy runner ([Runner.v], [RunnerMonitor.v],
    [RunnerLoop.v]).

    The first part is about the map of trades in every reachable state of the
    loop, with [monitor_active_positions] and [check_exits] interleaved at
    their awaits: each task relies on what the other one guarantees ([calm] for
    the monitor, [exits_step] for the exits). *)
From Stdlib Require Import ZArith Lia Bool.
From stdpp Require Import base option list gmap strings pretty.
From S2P Require Import Prelude Float64 Coop Types ArrayQueue Pipeline OpportunityQueue SymbolMap MarketData Branchless Portfolio Positions FillProbability ExchangeFees Backend AtomicExecution Entry EntryReal ExchangeParser Runner RunnerMonitor RunnerLoop ScriptedBackend ScriptedRunner.

#[local] Open Scope string_scope.
#[local] Open Scope Z_scope.

(** ** Trades before and after a step *)

(** The monitor and the exits only touch how a trade ends. *)
Definition kept (t t' : PaperTrade) : Prop :=
  exists status reason spread stop_loss leg_out,
    t' = with_exit status reason spread stop_loss leg_out t /\
    (status = pt_status t \/ status = TExiting).

#[export] Instance kept_preorder : PreOrder kept.
Proof.
  split.
  - intros t. exists (pt_status t), (pt_exit_reason t), (pt_exit_spread_bps t),
      (pt_stop_loss_triggered t), (pt_leg_out_event t). split; [now destruct t | auto].
  - intros t1 t2 t3 (s & r & p & b & l & -> & Hs) (s' & r' & p' & b' & l' & -> & Hs').
    exists s', r', p', b', l'. split; [reflexivity |]. cbn in Hs'. intuition congruence.
Qed.

Lemma kept_live t t' : kept t t' -> is_live t = true -> is_live t' = true.
Proof.
  intros (s & r & p & b & l & -> & [-> | ->]) Hl; [exact Hl |]. reflexivity.
Qed.

Lemma kept_same t t' : kept t t' -> pt_id t' = pt_id t /\ pt_symbol t' = pt_symbol t.
Proof. intros (s & r & p & b & l & -> & _). auto. Qed.

(** The same keys, each trade kept. *)
Definition trades_kept (m m' : gmap string PaperTrade) : Prop :=
  forall i, option_Forall2 kept (m !! i) (m' !! i).

#[export] Instance trades_kept_preorder : PreOrder trades_kept.
Proof.
  split.
  - intros m i. destruct (m !! i); constructor. reflexivity.
  - intros m1 m2 m3 H1 H2 i. specialize (H1 i). specialize (H2 i).
    destruct H1 as [t1 t2 H1 |]; inversion H2; subst; constructor. etransitivity; eauto.
Qed.

Lemma trades_kept_some m m' i t' :
  trades_kept m m' -> m' !! i = Some t' -> exists t, m !! i = Some t /\ kept t t'.
Proof. intros H Ht. specialize (H i). rewrite Ht in H. inversion H; subst. eauto. Qed.

Lemma trades_kept_dom m m' i : trades_kept m m' -> is_Some (m !! i) -> is_Some (m' !! i).
Proof. intros H Hi. specialize (H i). destruct H; eauto. Qed.

Lemma trades_kept_alter f i m : (forall t, kept t (f t)) -> trades_kept m (alter f i m).
Proof.
  intros Hf j. destruct (decide (i = j)) as [<- | Hne].
  - rewrite lookup_alter_eq. destruct (m !! i); constructor. apply Hf.
  - rewrite lookup_alter_ne by exact Hne. destruct (m !! j); constructor. reflexivity.
Qed.

Lemma kept_exit t status reason spread b lo :
  status = pt_status t \/ status = TExiting -> kept t (with_exit status reason spread b lo t).
Proof. intros Hs. repeat eexists. exact Hs. Qed.

Lemma kept_exiting r p t : kept t (exiting r p t).
Proof. apply kept_exit. auto. Qed.
Lemma kept_mark t : kept t (mark_exiting t).
Proof. apply kept_exit. auto. Qed.
Lemma kept_reason r t : kept t (set_reason r t).
Proof. apply kept_exit. auto. Qed.
Lemma kept_stop_loss r p t : kept t (stop_loss_exit r p t).
Proof. apply kept_exit. auto. Qed.
Lemma kept_leg_out e t : kept t (set_leg_out e t).
Proof. apply kept_exit. auto. Qed.
#[export] Hint Resolve kept_exiting kept_mark kept_reason kept_stop_loss kept_leg_out : arb.

Lemma kept_exit_if c r p t : kept t (exit_if c r p t).
Proof. unfold exit_if. destruct (_ && _); [apply kept_exiting | reflexivity]. Qed.

Lemma kept_paper fmt2 m now d t : kept t (paper_leg_out m now (paper_exits fmt2 m d t)).
Proof.
  transitivity (paper_exits fmt2 m d t).
  - unfold paper_exits. cbv zeta.
    repeat (etransitivity; [| apply kept_exit_if]).
    destruct (_ && _); [apply kept_exiting | reflexivity].
  - unfold paper_leg_out. cbv zeta. destruct (_ && _); [apply kept_leg_out | reflexivity].
Qed.
#[export] Hint Resolve kept_paper : arb.

(** ** The guarantees *)
Section guarantees.
Context {B T F E : Type}.
Abbreviation state := (StrategyRunner B T F E).

(** A step of the monitor: the references, the portfolio and the funding
    trackers are as before, the trades are kept. *)
Record calm (s s' : state) : Prop := {
  calm_guards : sr_guards s' = sr_guards s;
  calm_trackers : sr_trackers s' = sr_trackers s;
  calm_portfolio : sr_portfolio s' = sr_portfolio s;
  calm_trades : trades_kept (sr_trades s) (sr_trades s')
}.

(** A step of the exits. *)
Record exits_step (s s' : state) : Prop := {
  exits_trackers : dom (sr_trackers s') = dom (sr_trackers s);
  exits_trades : trades_kept (sr_trades s) (sr_trades s')
}.

(** A step of the exits while it holds a reference. *)
Record holding (s s' : state) : Prop := {
  holding_guards : sr_guards s' = sr_guards s;
  holding_step : exits_step s s'
}.

(** What the other threads do. *)
Definition others (s s' : state) : Prop := exists sm, s' = set_symbols sm s.

#[export] Instance calm_preorder : PreOrder calm.
Proof.
  split.
  - intros s. now split.
  - intros s1 s2 s3 [] []. split; try congruence. etransitivity; eauto.
Qed.
#[export] Instance exits_preorder : PreOrder exits_step.
Proof.
  split.
  - intros s. now split.
  - intros s1 s2 s3 [] []. split; try congruence. etransitivity; eauto.
Qed.
#[export] Instance holding_preorder : PreOrder holding.
Proof.
  split.
  - intros s. now split.
  - intros s1 s2 s3 [] []. split; try congruence. etransitivity; eauto.
Qed.
#[export] Instance others_preorder : PreOrder others.
Proof.
  split.
  - intros s. exists (sr_symbols s). now destruct s.
  - intros s1 s2 s3 [sm ->] [sm' ->]. now exists sm'.
Qed.

Lemma others_calm s s' : others s s' -> calm s s'.
Proof. intros [sm ->]. split; reflexivity. Qed.
Lemma others_exits s s' : others s s' -> exits_step s s'.
Proof. intros [sm ->]. split; reflexivity. Qed.

Lemma calm_holding s s' : calm s s' -> holding s s'.
Proof. intros []. split; [assumption | split; [congruence | assumption]]. Qed.

Lemma respects_world {A} (m : ST (World B) A) : respects calm (in_world m).
Proof. intros s. unfold in_world. destruct (m (sr_world s)). split; reflexivity. Qed.
Lemma respects_env {A} (m : ST E A) : respects calm (in_env m).
Proof. intros s. unfold in_env. destruct (m (sr_env s)). split; reflexivity. Qed.
Lemma respects_read {A} (f : state -> A) : respects calm (fun s => (f s, s)).
Proof. intros s. reflexivity. Qed.
End guarantees.

Section calm_tasks.
Context {B T F E V : Type} `{Backend B} `{DashMap T key Z} `{DashMap F Z key} `{Sharding} `{RunnerEnv E}.
Context `{JV : Json V}.
Context (fmt2 : f64 -> string).
Abbreviation state := (StrategyRunner B T F E).
Abbreviation csafe := (safe (calm (B:=B) (T:=T) (F:=F) (E:=E))).

Lemma respects_prices pair le se : respects calm (get_prices_from_store pair le se : ST state _).
Proof.
  intros s. unfold get_prices_from_store. destruct (get_or_insert le pair (sr_symbols s)) as [lid sm].
  destruct (get_or_insert se pair sm) as [sid sm']. split; reflexivity.
Qed.

Lemma respects_current_prices pair : respects calm (get_current_prices pair : ST state _).
Proof.
  intros s. unfold get_current_prices. destruct (List.find _ _) as [[k t] |]; [apply respects_prices | reflexivity].
Qed.

Lemma safe_call {A} (m : ST (World B) A) : csafe (call_backend m).
Proof. apply safe_await_st, respects_world. Qed.

Lemma safe_modify k f : (forall t, kept t (f t)) -> csafe (modify_trade k f).
Proof.
  intros Hf. apply safe_locking. intros s. cbn. split; try reflexivity. now apply trades_kept_alter.
Qed.

Lemma safe_get k : csafe (get_trade k).
Proof. apply safe_sync_st, respects_read. Qed.

Lemma safe_sync_world {A} (m : ST (World B) A) : csafe (sync (in_world m)).
Proof. apply safe_sync_st, respects_world. Qed.
Lemma safe_sync_env {A} (m : ST E A) : csafe (sync (in_env m)).
Proof. apply safe_sync_st, respects_env. Qed.
Lemma safe_await_env {A} (m : ST E A) : csafe (await (in_env m)).
Proof. apply safe_await_st, respects_env. Qed.
Lemma safe_read {A} (f : state -> A) : csafe (sync (fun s => (f s, s))).
Proof. apply safe_sync_st, respects_read. Qed.
Lemma safe_prices pair : csafe (sync (get_current_prices pair)).
Proof. apply safe_sync_st, respects_current_prices. Qed.
End calm_tasks.

#[export] Hint Resolve safe_call safe_modify safe_get safe_sync_world safe_sync_env safe_await_env
  safe_read safe_prices : arb.

(** Proves [safe calm t] by decomposing [t]. *)
Ltac solve_safe :=
  repeat first
  [ apply safe_done
  | lazymatch goal with
    | |- safe _ (tbind _ _) => apply safe_bind; [| intros ?]
    | |- safe _ (modify_trade _ _) => apply safe_modify; intros; solve [auto with arb]
    | |- safe _ (Sync (fun _ => None)) => apply safe_sync; intros; discriminate
    | |- safe _ (match ?x with _ => _ end) => destruct x
    | |- safe _ (if ?x then _ else _) => destruct x
    | |- safe _ (let '(_, _) := ?x in _) => destruct x
    end
  | solve [eauto with arb] ].

Section monitor_safe.
Context {B T F E V : Type} `{Backend B} `{DashMap T key Z} `{DashMap F Z key} `{Sharding} `{RunnerEnv E}.
Context `{JV : Json V}.
Context (fmt2 : f64 -> string).
Abbreviation state := (StrategyRunner B T F E).
Abbreviation csafe := (safe (calm (B:=B) (T:=T) (F:=F) (E:=E))).

Lemma safe_closing s m p ty x y : csafe (closing_order s m p ty x y).
Proof. unfold closing_order. solve_safe. Qed.
Hint Resolve safe_closing : arb.

Lemma safe_exit_filled s m id : csafe (exit_filled s m id).
Proof. unfold exit_filled. solve_safe. Qed.
Lemma safe_cancel_check s m id : csafe (cancel_and_check s m id).
Proof. unfold cancel_and_check. solve_safe. Qed.
Lemma safe_try_limit s m p x y : csafe (try_limit s m p x y).
Proof. unfold try_limit. solve_safe. Qed.
Lemma safe_market_close s m p x : csafe (market_close s m p x).
Proof. unfold market_close. solve_safe. Qed.
Hint Resolve safe_exit_filled safe_cancel_check safe_try_limit safe_market_close : arb.

Lemma safe_force_close m a b : csafe (force_close m a b).
Proof. unfold force_close, timeout_limit, timeout_market. solve_safe. Qed.
Lemma safe_hedge_short m a : csafe (hedge_short_exit m a).
Proof. unfold hedge_short_exit, smart_limit. solve_safe. Qed.
Lemma safe_hedge_long m a : csafe (hedge_long_exit m a).
Proof. unfold hedge_long_exit, recommended_limit, instant_hedge. cbv zeta. solve_safe. Qed.
Lemma safe_stop_loss m a b : csafe (stop_loss fmt2 m a b).
Proof. unfold stop_loss, stop_loss_limit, stop_loss_market. solve_safe. Qed.
Hint Resolve safe_force_close safe_hedge_short safe_hedge_long safe_stop_loss : arb.

Lemma safe_monitor_real m : csafe (monitor_real fmt2 m).
Proof. unfold monitor_real, both_exits_filled. solve_safe. Qed.
Lemma safe_monitor_paper m : csafe (monitor_paper fmt2 m).
Proof. unfold monitor_paper. solve_safe. Qed.
Hint Resolve safe_monitor_real safe_monitor_paper : arb.

Lemma safe_monitor : csafe (monitor_active_positions fmt2).
Proof.
  unfold monitor_active_positions. apply safe_bind; [unfold trade_keys; solve_safe |]. intros ids.
  apply safe_bind; [unfold is_real_trading; solve_safe |]. intros real.
  apply safe_foreach. intros id. unfold monitor_trade. solve_safe.
Qed.
End monitor_safe.

(** ** The exits *)
Section exits_safe.
Context {B T F E V : Type} `{Backend B} `{DashMap T key Z} `{DashMap F Z key} `{Sharding} `{RunnerEnv E}.
Context `{JV : Json V}.
Abbreviation state := (StrategyRunner B T F E).
Abbreviation hsafe := (safe (holding (B:=B) (T:=T) (F:=F) (E:=E))).
Abbreviation rgx := (rg (others (B:=B) (T:=T) (F:=F) (E:=E)) calm exits_step).

Lemma calm_safe_holding {A} (t : task state A) : safe calm t -> hsafe t.
Proof.
  intros Hs. induction Hs as [a | step Hg _ IH | t _ IH]; constructor; [| assumption | assumption].
  intros w w' t Hw. apply calm_holding. exact (Hg _ _ _ Hw).
Qed.

(** A fact about the references held is kept by all of it. *)
Lemma rg_holding {A} (t : task state A) (gs : list string) s :
  hsafe t -> sr_guards s = gs -> rgx t (fun _ s' => sr_guards s' = gs) s.
Proof.
  intros Ht Hs. apply (rg_keep others calm exits_step holding (fun s => sr_guards s = gs)); auto.
  - intros a b Ha [Hg Hx]. split; [exact Hx | congruence].
  - intros a b Ha [sm ->]. exact Ha.
  - intros a b Ha []. congruence.
Qed.

Lemma safe_redis_writes log : hsafe (await (redis_writes log : ST state _)).
Proof.
  apply safe_await_st. intros s. unfold redis_writes. destruct (log (sr_env s)) as [[u | e] env].
  - destruct (e_persist (sr_portfolio s) env). split; [reflexivity | split; reflexivity].
  - split; [reflexivity | split; reflexivity].
Qed.

Lemma safe_close_io id profit reason : hsafe (close_trade_io id profit reason).
Proof.
  unfold close_trade_io. apply safe_bind; [apply calm_safe_holding, safe_sync_world |]. intros now.
  apply safe_bind.
  - apply safe_await_st. intros s. destruct (close_trade _ _ _ _ _ _ _) as [r p].
    split; [reflexivity | split; reflexivity].
  - intros [t |]; [apply safe_redis_writes | constructor].
Qed.

Lemma safe_cleanup s t : hsafe (cleanup_exit s t).
Proof. apply calm_safe_holding. unfold cleanup_exit. solve_safe. Qed.

Lemma dom_alter_trackers f y (m : gmap string NegativeFundingTracker) : dom (alter f y m) = dom m.
Proof. apply set_eq. intros i. rewrite !elem_of_dom. destruct (decide (y = i)) as [<- | Hne];
  [rewrite lookup_alter_eq, fmap_is_Some | rewrite lookup_alter_ne by exact Hne]; reflexivity. Qed.

Lemma safe_alter_tracker f y :
  hsafe (sync (fun s => (tt, set_trackers (alter f y (sr_trackers s)) s))).
Proof.
  apply safe_sync_st. intros s. cbn. split; [reflexivity |]. split; [| reflexivity].
  cbn. apply dom_alter_trackers.
Qed.

Lemma safe_rates y : hsafe (get_funding_rates (V:=V) y).
Proof.
  apply calm_safe_holding. unfold get_funding_rates. apply safe_bind; [| intros; constructor].
  generalize funding_exchanges as l. induction l as [| e l IH]; cbn [collect_rates]; [constructor |].
  apply safe_bind; [| intros; apply safe_bind; [exact IH | intros; constructor]].
  induction (get_redis_key_patterns e y) as [| k ks IHk]; cbn [first_rate]; [constructor |].
  apply safe_bind; [apply safe_await_env |]. intros d. cbv zeta.
  match goal with |- safe _ (match ?x with _ => _ end) => destruct x end; [constructor | exact IHk].
Qed.

Lemma safe_funding_exit id y : hsafe (funding_exit (V:=V) id y).
Proof.
  unfold funding_exit. apply safe_bind; [apply calm_safe_holding, safe_sync_st; intros s; reflexivity |].
  intros [|]; [| constructor]. apply safe_bind; [apply safe_rates |]. intros [[a b] |]; [| constructor].
  cbv zeta. apply safe_bind; [apply safe_alter_tracker |]. intros _.
  apply safe_bind; [| intros; constructor].
  apply calm_safe_holding, safe_modify. intros t.
  transitivity (set_reason "negative_funding_exit" t); auto with arb.
Qed.

(** A write to the shard of a held reference blocks. *)
Lemma held_not_writable k (s : state) : k ∈ sr_guards s -> writable k s = false.
Proof.
  intros Hk. unfold writable. apply not_true_is_false. rewrite forallb_forall. intros Hall.
  specialize (Hall k (proj1 (list_elem_of_In _ _) Hk)). now rewrite Z.eqb_refl in Hall.
Qed.

Lemma release_only k : List.filter (fun g => negb (String.eqb g k)) [k] = [].
Proof. cbn. now rewrite String.eqb_refl. Qed.

Lemma rg_release k s :
  sr_guards s = [k] -> rgx (release_trade k) (fun _ s' => sr_guards s' = []) s.
Proof.
  intros Hs. apply rg_sync. intros s1 [sm ->]. cbn. rewrite Hs. cbn [set_symbols upd_runner sr_guards].
  split; [split; reflexivity |]. apply release_only.
Qed.

(** The trade is closed in the portfolio, and then the removal from the map
    waits for the reference this very block holds: it is never made. *)
Lemma rg_close_exiting id y s :
  sr_guards s = [] -> rgx (close_exiting id y) (fun _ s' => sr_guards s' = []) s.
Proof.
  intros Hs. unfold close_exiting. apply rg_bind, rg_sync. intros s1 [sm ->].
  unfold wp. cbn [set_symbols upd_runner sr_trades]. destruct (sr_trades s !! id) as [t |] eqn:Et; [| split; [split; reflexivity | exact Hs]].
  split; [split; reflexivity |].
  match goal with |- rg _ _ _ _ _ ?w => assert (Hg : sr_guards w = [id]) by (cbn; now rewrite Hs);
    revert Hg; generalize w as s1; intros s1 Hg end.
  destruct (bool_decide (pt_status t = TExiting)).
  - apply rg_bind. eapply rg_mono; [| apply (rg_holding _ [id]); [apply safe_cleanup | exact Hg]].
    intros ? s2 Hg2. apply rg_bind. eapply rg_mono; [| apply (rg_holding _ [id]); [apply safe_cleanup | exact Hg2]].
    intros ? s3 Hg3. apply rg_bind. eapply rg_mono; [| apply (rg_holding _ [id]); [apply safe_close_io | exact Hg3]].
    intros [u | e] s4 Hg4; apply rg_bind.
    + eapply rg_mono; [| apply (rg_holding _ [id]); [apply safe_alter_tracker | exact Hg4]].
      intros ? s5 Hg5. apply rg_bind, rg_locking. intros s6 [sm' ->] Hw. exfalso.
      rewrite held_not_writable in Hw; [discriminate |]. cbn. rewrite Hg5. apply elem_of_cons. auto.
    + eapply rg_mono; [| apply rg_release, Hg4]. auto.
  - apply rg_bind. eapply rg_mono; [| apply rg_release, Hg]. auto.
Qed.

Lemma rg_check_exit id s :
  sr_guards s = [] -> rgx (check_exit (V:=V) id) (fun _ s' => sr_guards s' = []) s.
Proof.
  intros Hs. unfold check_exit. apply rg_bind, rg_sync. intros s1 [sm ->].
  unfold wp. cbn [set_symbols upd_runner sr_trades]. split; [split; reflexivity |]. destruct (sr_trades s !! id) as [t |]; [| exact Hs].
  apply rg_bind. eapply rg_mono; [| apply (rg_holding _ []); [apply safe_funding_exit | exact Hs]].
  intros [|] s2 Hg; cbn beta in Hg; [exact Hg | now apply rg_close_exiting].
Qed.

Lemma rg_check_exits s :
  sr_guards s = [] -> rgx (check_exits (V:=V)) (fun _ s' => sr_guards s' = []) s.
Proof.
  intros Hs. unfold check_exits. apply rg_bind, rg_sync. intros s1 [sm ->]. split; [split; reflexivity |].
  apply (rg_foreach others calm exits_step _ _ (fun s => sr_guards s = [])); [| exact Hs].
  intros id s' Hs'. now apply rg_check_exit.
Qed.
End exits_safe.

(** ** What an entry answers *)
Section entries.
Context {B : Type} `{Backend B}.

Lemma wp_true {A} (m : ST (World B) A) w : wp m (fun _ _ => True) w.
Proof. unfold wp. now destruct (m w). Qed.

Definition entered (o : ArbitrageOpportunity) (size : f64) (t : PaperTrade) : Prop :=
  pt_symbol t = ao_symbol o /\ pt_long_exchange t = ao_long_exchange o /\
  pt_short_exchange t = ao_short_exchange o /\ pt_status t = TActive /\ pt_position_size_usd t = size /\
  exists b : B, pt_id t = fst (b_new_uuid b).

Lemma simulated_entered uuid now o available size t :
  (exists b : B, uuid 2%nat = fst (b_new_uuid b)) ->
  execute_atomic_entry uuid now o available size = Ok t -> entered o size t.
Proof.
  intros Hid. unfold execute_atomic_entry. destruct (_ <=? _)%F; [discriminate |]. destruct (_ >? _)%F; [discriminate |].
  cbv zeta. repeat match goal with
  | |- (let '(_, _) := ?x in _) = _ -> _ => destruct x as [? ?]
  | |- (if ?b then _ else _) = _ -> _ => destruct b; [discriminate |]
  end. intros [= <-]. repeat split; auto.
Qed.

Lemma uuid_eq (b b' : B) x : b_new_uuid b = (x, b') -> x = fst (b_new_uuid b).
Proof. now intros ->. Qed.

Lemma complete_entered o now size st (w : World B) :
  wp (complete_entry o now size st) (fun t _ => entered o size t) w.
Proof.
  unfold complete_entry, place_exit. repeat (wp_step; cbv zeta). repeat split.
  eexists. eapply uuid_eq. eassumption.
Qed.

Lemma real_entered fuel o available size (w : World B) :
  wp (execute_atomic_entry_real fuel o available size)
    (fun r _ => match r with Some (Ok t) => entered o size t | _ => True end) w.
Proof.
  unfold execute_atomic_entry_real, entry_with_config. apply wp_bind.
  eapply wp_mono; [apply wp_true |]. intros [[[q now] cache] | e] w1 _; [| exact I].
  apply wp_bind. eapply wp_mono; [apply wp_true |]. intros [st | e] w2 _; [| exact I].
  apply wp_bind. eapply wp_mono; [apply wp_true |]. intros start w3 _.
  apply wp_bind. eapply wp_mono; [apply wp_true |]. intros [[st' | e] |] w4 _; [| exact I | exact I].
  apply wp_bind. unfold post_loop. do 3 (apply wp_bind_ok; eapply wp_mono; [apply wp_true |];
    intros [? | e] ? _; [| exact I]).
  destruct (_ || _); [exact I |]. apply wp_bind. eapply wp_mono; [apply complete_entered |]. auto.
Qed.
End entries.

(** ** One opportunity *)
Section opportunity_spec.
Context {B T F E : Type} `{Backend B} `{DashMap T key Z} `{DashMap F Z key} `{!Sharding}
  `{!ShardingLaws} `{RunnerEnv E}.
Abbreviation state := (StrategyRunner B T F E).

(** An answer of the checks: a trade whose spread, net profit and size passed
    every test, on the prices of the store. *)
Definition passed_checks (o : ArbitrageOpportunity) (s : state) (spread fee available size : f64) : Prop :=
  fee = total_fee_bps (ao_long_exchange o) (ao_short_exchange o) /\
  available = ps_available_capital (sr_portfolio s) /\
  size = calculate_position_size spread available fee 10.0%f64 (ps_starting_capital (sr_portfolio s)) /\
  (exists ask bid, spread = Scanner.calculate_spread_bps ask bid /\
     (ask <=? 0.0%f64)%F = false /\ (bid <=? 0.0%f64)%F = false) /\
  (spread <=? 0.0%f64)%F = false /\ (spread - fee <=? 0.0%f64)%F = false /\
  (available <=? 0.0%f64)%F = false /\ (size <=? 0.0%f64)%F = false /\ (size >? available)%F = false.

Definition is_check_skip (v : verdict) : bool :=
  match v with
  | SkippedNoPrices _ | SkippedNegativeSpread _ | SkippedUnprofitable _ | SkippedNoCapital
  | SkippedInvalidSize _ => true
  | _ => false
  end.

Ltac tpp_if E := lazymatch goal with |- tpp (if ?b then _ else _) _ _ => destruct b eqn:E end.

Lemma checked_opportunity_spec o (s : state) :
  tpp (check_opportunity o) (fun r s' =>
    (exists sm, s' = set_symbols sm s) /\
    match r with
    | Ok (spread, fee, available, size) => passed_checks o s spread fee available size
    | Err v => is_check_skip v = true
    end) s.
Proof.
  unfold check_opportunity, get_current_prices_for_opportunity. apply tpp_bind, tpp_sync.
  unfold wp, get_prices_from_store.
  destruct (get_or_insert _ _ (sr_symbols s)) as [lid sm1]. destruct (get_or_insert _ _ sm1) as [sid sm].
  assert (Hsm : exists sm', set_symbols sm s = set_symbols sm' s) by eauto.
  destruct (get_ask lid (sr_market s)) as [ask |]; [| apply tpp_done; auto].
  destruct (get_bid sid (sr_market s)) as [bid |]; [| apply tpp_done; auto].
  destruct ((ask <=? _)%F || _) eqn:Hp; [apply tpp_done; auto |]. bool_simpl. cbv zeta.
  tpp_if Hs; [apply tpp_done; auto |]. tpp_if Hn; [apply tpp_done; auto |].
  apply tpp_bind, tpp_await. unfold wp. cbn [set_symbols upd_runner sr_portfolio].
  tpp_if Hc; [apply tpp_done; auto |].
  apply tpp_bind, tpp_await. unfold wp. cbn [set_symbols upd_runner sr_portfolio].
  tpp_if Hz; [apply tpp_done; auto |]. bool_simpl.
  apply tpp_done. split; [exact Hsm |]. unfold passed_checks. eauto 20.
Qed.

(** What an entry does to the runner: only the world moves. *)
Definition only_world (s s' : state) : Prop := exists w, s' = set_world w s.

Lemma in_world_spec {A} (m : ST (World B) A) (Q : A -> state -> Prop) (s : state) :
  wp m (fun a w => Q a (set_world w s)) (sr_world s) -> wp (in_world m) Q s.
Proof. unfold wp, in_world. now destruct (m (sr_world s)). Qed.

Lemma execute_entry_spec fuel o available size (s : state) :
  tpp (execute_entry fuel o available size) (fun r s' =>
    only_world s s' /\ match r with Ok t => entered o size t | Err _ => True end) s.
Proof.
  unfold execute_entry. apply tpp_bind, tpp_sync. unfold wp, is_real_trading. cbv zeta.
  destruct (String.eqb _ _ || String.eqb _ _); apply tpp_bind.
  - apply tpp_await, in_world_spec. eapply wp_mono; [apply real_entered |].
    intros [[t | e] |] w Hr; [| |exact I]; apply tpp_done; split; auto; now exists w.
  - apply tpp_sync, in_world_spec. unfold simulated_entry. repeat wp_step.
    apply tpp_done. split; [eexists; reflexivity |].
    destruct (execute_atomic_entry _ _ _ _ _) eqn:Er; [| exact I]. eapply simulated_entered; [| exact Er]. eexists. eapply uuid_eq. eassumption.
Qed.

Lemma open_trade_io_spec t (s : state) :
  tpp (open_trade_io t) (fun r s' =>
    sr_portfolio s' = snd (open_trade t (Ok tt) (Ok tt) (sr_portfolio s)) /\
    sr_trades s' = sr_trades s /\ sr_guards s' = sr_guards s /\ sr_trackers s' = sr_trackers s /\
    (forall p, r = Err p -> (exists m, p = IoError m) \/ fst (open_trade t (Ok tt) (Ok tt) (sr_portfolio s)) = Err p)) s.
Proof.
  unfold open_trade_io. apply tpp_bind, tpp_await. unfold wp.
  destruct (open_trade t (Ok tt) (Ok tt) (sr_portfolio s)) as [[u | p] p'] eqn:Eo.
  - apply tpp_await. unfold wp, redis_writes. destruct (e_log_entry _ _) as [[u' | e] env]; cbn.
    + destruct (e_persist _ _) as [[u2 | e2] env2]; cbn; repeat split; try discriminate.
      intros p [= <-]. eauto.
    + repeat split. intros p [= <-]. eauto.
  - apply tpp_done. cbn. repeat split. intros q [= <-]. auto.
Qed.

Lemma existsb_trades (p : string * PaperTrade -> bool) (m : gmap string PaperTrade) :
  existsb p (iter_order m) = true <-> exists i t, m !! i = Some t /\ p (i, t) = true.
Proof.
  rewrite existsb_exists. split.
  - intros ([i t] & Hin & Hp). apply list_elem_of_In in Hin. rewrite iter_order_perm in Hin.
    apply elem_of_map_to_list in Hin. eauto.
  - intros (i & t & Hi & Hp). exists (i, t). split; [| exact Hp].
    apply list_elem_of_In. rewrite iter_order_perm. now apply elem_of_map_to_list.
Qed.

(** The map and the portfolio after a verdict.  [ph] is the placeholder's key. *)
Definition live_trade (y : string) (m : gmap string PaperTrade) : Prop :=
  exists i t, m !! i = Some t /\ pt_symbol t = y /\ is_live t = true.

Definition verdict_post (o : ArbitrageOpportunity) (ph : string) (s : state) (v : verdict) (s' : state) : Prop :=
  sr_guards s' = sr_guards s /\ sr_trackers s' = sr_trackers s /\
  match v with
  | SkippedDuplicate => s' = s /\ live_trade (ao_symbol o) (sr_trades s)
  | Executed trade opened =>
      ~ live_trade (ao_symbol o) (sr_trades s) /\
      sr_trades s' = <[pt_id trade := trade]> (delete ph (sr_trades s)) /\
      pt_symbol trade = ao_symbol o /\ pt_status trade = TActive /\
      (exists b : B, pt_id trade = fst (b_new_uuid b)) /\
      (exists spread fee available, passed_checks o s spread fee available (pt_position_size_usd trade)) /\
      sr_portfolio s' = snd (open_trade trade (Ok tt) (Ok tt) (sr_portfolio s)) /\
      (forall p, opened = Err p -> (exists m, p = IoError m) \/
         fst (open_trade trade (Ok tt) (Ok tt) (sr_portfolio s)) = Err p)
  | SkippedExecutionFailed _ =>
      sr_trades s' = delete ph (sr_trades s) /\ sr_portfolio s' = sr_portfolio s
  | _ => sr_trades s' = delete ph (sr_trades s) /\ sr_portfolio s' = sr_portfolio s /\
         w_calls (sr_world s') = w_calls (sr_world s)
  end.

Definition placeholder_of (s : state) : string :=
  "placeholder_" +:+ fst (b_new_uuid (w_backend (sr_world s))).

Lemma execute_opportunity_post fuel o (s : state) :
  tpp (execute_opportunity fuel o) (verdict_post o (placeholder_of s) s) s.
Proof.
  unfold execute_opportunity. apply tpp_bind, tpp_sync. unfold wp.
  destruct (existsb _ _) eqn:Hdup.
  { apply tpp_done. do 3 (split; [reflexivity |]).
    apply existsb_trades in Hdup. destruct Hdup as (i & t & Hi & Hp). cbn in Hp. bool_simpl.
    exists i, t. rewrite <- String.eqb_eq. auto. }
  assert (Hno : ~ live_trade (ao_symbol o) (sr_trades s)).
  { intros (i & t & Hi & Hy & Hl). apply not_true_iff_false in Hdup. apply Hdup, existsb_trades.
    exists i, t. split; [exact Hi |]. cbn. rewrite Hl, andb_true_r. now apply String.eqb_eq. }
  clear Hdup. apply tpp_bind, tpp_sync, in_world_spec. unfold new_uuid. apply wp_rt. intros uuid b Eu.
  assert (Hph : placeholder_of s = "placeholder_" +:+ uuid) by (unfold placeholder_of; now rewrite Eu).
  rewrite Hph. clear Hph Eu. set (ph := "placeholder_" +:+ uuid).
  apply tpp_bind, tpp_locking. intros _. unfold wp. apply tpp_bind.
  eapply tpp_mono; [apply checked_opportunity_spec |]. intros [[[[spread fee] available] size] | v] s1 [[sm ->] Hr].
  2: { apply tpp_bind, tpp_locking. intros _. unfold wp. apply tpp_done. do 2 (split; [reflexivity |]).
       destruct v; try discriminate; cbn; rewrite delete_insert_eq; auto. }
  apply tpp_bind. eapply tpp_mono; [apply execute_entry_spec |]. intros [t | e] s2 [[w ->] Ht].
  2: { apply tpp_bind, tpp_locking. intros _. unfold wp. apply tpp_done. do 2 (split; [reflexivity |]).
       split; [cbn; now rewrite delete_insert_eq | reflexivity]. }
  cbv zeta. apply tpp_bind, tpp_locking. intros _. unfold wp.
  apply tpp_bind, tpp_locking. intros _. unfold wp. apply tpp_bind.
  eapply tpp_mono; [apply open_trade_io_spec |]. intros opened s3 (Hpf & Htr & Hg & Htk & Herr).
  apply tpp_done. destruct Ht as (Hy & _ & _ & Hst & Hsz & Hid). cbn in Hpf, Htr, Hg, Htk, Herr.
  rewrite delete_insert_eq in Htr. split; [exact Hg |]. split; [exact Htk |]. cbn. rewrite Hsz.
  split; [exact Hno |]. split; [exact Htr |]. split; [exact Hy |]. split; [exact Hst |].
  split; [exact Hid |]. split; [eexists _, _, _; exact Hr |]. auto.
Qed.
End opportunity_spec.

(** ** Every reachable state of the loop *)

(** The map: each trade under its id, live, and alone with its symbol. *)
Record trades_wf (m : gmap string PaperTrade) : Prop := {
  wf_keyed : forall i t, m !! i = Some t -> pt_id t = i;
  wf_live : forall i t, m !! i = Some t -> is_live t = true;
  wf_unique : forall i j t u, m !! i = Some t -> m !! j = Some u -> pt_symbol t = pt_symbol u -> i = j
}.

Lemma trades_wf_empty : trades_wf ∅.
Proof. split; intros *; rewrite lookup_empty; discriminate. Qed.

Lemma trades_wf_kept m m' : trades_kept m m' -> trades_wf m -> trades_wf m'.
Proof.
  intros Hk [Hid Hl Hu]. split.
  - intros i t Hi. destruct (trades_kept_some _ _ _ _ Hk Hi) as (t0 & H0 & Ht).
    rewrite (proj1 (kept_same _ _ Ht)). eauto.
  - intros i t Hi. destruct (trades_kept_some _ _ _ _ Hk Hi) as (t0 & H0 & Ht).
    eapply kept_live; eauto.
  - intros i j t u Hi Hj. destruct (trades_kept_some _ _ _ _ Hk Hi) as (t0 & H0 & Ht).
    destruct (trades_kept_some _ _ _ _ Hk Hj) as (u0 & H1 & Hu0).
    rewrite (proj2 (kept_same _ _ Ht)), (proj2 (kept_same _ _ Hu0)). eauto.
Qed.

Lemma trades_wf_delete i m : trades_wf m -> trades_wf (delete i m).
Proof.
  intros [Hid Hl Hu]. split; intros *; rewrite ?lookup_delete_Some; intuition eauto.
Qed.

Lemma trades_wf_insert t m :
  is_live t = true -> ~ live_trade (pt_symbol t) m -> trades_wf m -> trades_wf (<[pt_id t := t]> m).
Proof.
  intros Ht Hno [Hid Hl Hu]. split; intros *; rewrite ?lookup_insert_Some.
  - intros [[<- <-] | [_ Hi]]; eauto.
  - intros [[<- <-] | [_ Hi]]; eauto.
  - intros [[<- <-] | [_ Hi]] [[<- <-] | [_ Hj]] Hy; try reflexivity; try eauto.
    + exfalso. apply Hno. exists j, u. eauto.
    + exfalso. apply Hno. exists i, t0. eauto.
Qed.

Lemma live_trade_delete y i m : live_trade y (delete i m) -> live_trade y m.
Proof. intros (j & t & Hj & Ht). apply lookup_delete_Some in Hj. exists j, t. intuition. Qed.

Section reachable.
Context {B T F E V MQ OQ : Type} `{Backend B} `{DashMap T key Z} `{DashMap F Z key} `{!Sharding}
  `{!ShardingLaws} `{RunnerEnv E} `{JV : Json V} `{ArrayQueue MQ MarketUpdate}
  `{ArrayQueue OQ ArbitrageOpportunity}.
Context (fmt2 : f64 -> string) (fuel : nat).
Abbreviation state := (StrategyRunner B T F E).
Abbreviation phase := (phase B T F E MQ OQ).
Abbreviation lstep := (loop_step (V:=V) fmt2 fuel).

Definition after_monitor (r : result unit runner_error) (s : state) : Prop := True.
Definition after_exits (r : result unit runner_error) (s : state) : Prop := sr_guards s = [].
Abbreviation jsafe := (joined_safe others calm exits_step after_monitor after_exits).

(** Between turns no reference is held and there is no funding tracker. *)
Definition phase_ok (p : phase) : Prop :=
  trades_wf (sr_trades (runner_of p)) /\ sr_trackers (runner_of p) = ∅ /\
  match p with AtTop l => sr_guards (lp_runner l) = [] | InJoin _ _ j => jsafe j end.

Lemma monitor_ready (s : state) :
  rg others exits_step calm (monitor_active_positions fmt2) after_monitor s.
Proof.
  eapply rg_mono; [| apply (rg_keep others exits_step calm calm (fun _ => True)); auto using safe_monitor].
  easy.
Qed.

Lemma start_ok l : sr_guards (lp_runner l) = [] -> trades_wf (sr_trades (lp_runner l)) ->
  sr_trackers (lp_runner l) = ∅ -> phase_ok (start_join (V:=V) fmt2 l).
Proof.
  intros Hg Hwf Htr. split; [exact Hwf |]. split; [exact Htr |].
  apply joined_safe_start; [apply monitor_ready |].
  intros s' Hs. apply rg_check_exits. destruct Hs. congruence.
Qed.

(** The synchronous part: the trades are as before, or one opportunity was
    looked at. *)
Lemma process_runner (l : loop_state B T F E MQ OQ) :
  exists md, lp_runner (process_updates l) = set_market md (lp_runner l).
Proof.
  unfold process_updates. destruct (lp_market_consumer l) as [q |].
  - destruct (drain_updates 100 q _) as [q' md]. now exists md.
  - exists (sr_market (lp_runner l)). now destruct (lp_runner l).
Qed.

Lemma head_post l l' :
  turn_head fuel l = Some l' ->
  exists md, let s := set_market md (lp_runner l) in
    lp_runner l' = s \/ exists o v, verdict_post o (placeholder_of s) s v (lp_runner l').
Proof.
  unfold turn_head. destruct (process_runner l) as [md Hmd]. intros Hh. exists md. cbv zeta. revert Hh.
  destruct (oq_pop _) as [[o |] oq].
  - pose proof (execute_opportunity_post fuel o (lp_runner (process_updates l))) as Hp.
    destruct (run _ _) as [[v s] |] eqn:Er; [| discriminate]. intros [= <-].
    right. exists o, v. rewrite <- Hmd. exact (tpp_run _ _ _ _ _ Hp Er).
  - intros [= <-]. left. exact Hmd.
Qed.

(** What one opportunity leaves in the map. *)
Lemma verdict_trades o ph (s s' : state) v :
  verdict_post o ph s v s' -> trades_wf (sr_trades s) ->
  trades_wf (sr_trades s') /\ sr_guards s' = sr_guards s /\ sr_trackers s' = sr_trackers s.
Proof.
  intros (Hg & Ht & Hv) Hwf. split; [| auto].
  destruct v; try (destruct Hv as [-> _]; auto using trades_wf_delete).
  destruct Hv as (Hno & -> & Hy & Hst & _). apply trades_wf_insert.
  - unfold is_live. rewrite Hst. reflexivity.
  - rewrite Hy. intros Hl. exact (Hno (live_trade_delete _ _ _ Hl)).
  - now apply trades_wf_delete.
Qed.

Lemma phase_ok_head l l' : phase_ok (AtTop l) -> turn_head fuel l = Some l' -> phase_ok (start_join (V:=V) fmt2 l').
Proof.
  intros (Hwf & Htr & Hg) Hh. destruct (head_post _ _ Hh) as [md Hs]. cbv zeta in Hs.
  destruct Hs as [Heq | (o & v & Hv)].
  - apply start_ok; rewrite Heq; assumption.
  - destruct (verdict_trades _ _ _ _ _ Hv Hwf) as (Hwf' & Hg' & Ht'). apply start_ok; [| assumption |].
    + rewrite Hg'. exact Hg.
    + rewrite Ht'. exact Htr.
Qed.

Lemma empty_trackers (s s' : state) : exits_step s s' -> sr_trackers s = ∅ -> sr_trackers s' = ∅.
Proof.
  intros [Hd _] Hs. rewrite Hs, dom_empty_L in Hd. now apply dom_empty_inv_L.
Qed.

Lemma calm_exits (s s' : state) : calm s s' -> exits_step s s'.
Proof. intros []. split; [congruence | assumption]. Qed.

Lemma after_exits_stable r (s s' : state) : after_exits r s -> calm s s' -> after_exits r s'.
Proof. unfold after_exits. intros Hs []. congruence. Qed.

(** Every step of the loop keeps the invariant, and a step that is not a turn's
    head keeps the trades. *)
Lemma join_keeps (j j' : joined state _ _) :
  jsafe j -> join_step j j' -> jsafe j' /\ exits_step (jn_state j) (jn_state j').
Proof.
  intros Hj Hs. destruct (joined_safe_step others calm exits_step after_monitor after_exits
    (fun _ _ _ _ _ => I) after_exits_stable j j' Hj Hs) as [Hj' [Hg | Hg]]; auto using calm_exits.
Qed.

Lemma phase_ok_step (p p' : phase) : phase_ok p -> lstep p p' -> phase_ok p'.
Proof.
  intros Hp Hs. destruct Hs as [l mc oc sm | l l' Hh | mc oc j j' Hj | mc oc s l r b mc' oc' sm | mc oc s a c b].
  - exact Hp.
  - exact (phase_ok_head l l' Hp Hh).
  - destruct Hp as (Hwf & Htr & Hsafe). destruct (join_keeps _ _ Hsafe Hj) as [Hsafe' Hk].
    split; [exact (trades_wf_kept _ _ (exits_trades _ _ Hk) Hwf) |].
    split; [exact (empty_trackers _ _ Hk Htr) | exact Hsafe'].
  - destruct Hp as (Hwf & Htr & Hsafe). split; [exact Hwf |]. split; [exact Htr |].
    refine (joined_safe_env others calm exits_step others_calm others_exits after_monitor after_exits
      (fun _ _ _ _ _ => I) after_exits_stable _ _ _ _ _ _ Hsafe). now exists sm.
  - destruct Hp as (Hwf & Htr & Hsafe). split; [exact Hwf |]. split; [exact Htr |].
    exact (proj2 (joined_safe_end _ _ _ _ _ _ _ _ _ Hsafe)).
Qed.

Lemma phase_ok_start w env capital sm mc oc :
  phase_ok (AtTop {| lp_runner := StrategyRunner_new w env capital sm; lp_market_consumer := mc;
                     lp_opportunity_consumer := oc |}).
Proof. split; [apply trades_wf_empty | auto]. Qed.

Lemma phase_ok_reachable (p p' : phase) : phase_ok p -> star lstep p p' -> phase_ok p'.
Proof. intros Hp. apply star_invariant; [exact Hp | apply phase_ok_step]. Qed.

(** C5. Whatever the exchanges, the queues and the other threads do, and however
    the monitor and the exits are interleaved at their awaits: every trade of
    the runner is live, is kept under its own id, and is the only one with its
    symbol. *)
Theorem one_trade_per_symbol w env capital sm mc oc (p : phase) :
  star lstep (AtTop {| lp_runner := StrategyRunner_new w env capital sm; lp_market_consumer := mc;
                       lp_opportunity_consumer := oc |}) p ->
  (forall i t, sr_trades (runner_of p) !! i = Some t -> pt_id t = i /\ is_live t = true) /\
  (forall i j t u, sr_trades (runner_of p) !! i = Some t -> sr_trades (runner_of p) !! j = Some u ->
     pt_symbol t = pt_symbol u -> i = j).
Proof.
  intros Hr. destruct (phase_ok_reachable _ _ (phase_ok_start w env capital sm mc oc) Hr) as ([Hid Hl Hu] & _).
  split; [intros i t Hi; eauto | exact Hu].
Qed.
End reachable.

(** ** No trade ever leaves the map *)
Section never_removed.
Context {B T F E V MQ OQ : Type} `{Backend B} `{DashMap T key Z} `{DashMap F Z key} `{!Sharding}
  `{!ShardingLaws} `{RunnerEnv E} `{JV : Json V} `{ArrayQueue MQ MarketUpdate}
  `{ArrayQueue OQ ArbitrageOpportunity}.
Context (fmt2 : f64 -> string) (fuel : nat).
Abbreviation phase := (phase B T F E MQ OQ).
Abbreviation lstep := (loop_step (V:=V) fmt2 fuel).

(** A version 4 UUID is written in hexadecimal digits and dashes. *)
Context (uuid_plain : forall b : B, String.prefix "placeholder_" (fst (b_new_uuid b)) = false).

Definition plain_keys (m : gmap string PaperTrade) : Prop :=
  forall i, is_Some (m !! i) -> String.prefix "placeholder_" i = false.

Lemma placeholder_prefix (s : StrategyRunner B T F E) : String.prefix "placeholder_" (placeholder_of s) = true.
Proof. unfold placeholder_of. generalize (fst (b_new_uuid (w_backend (sr_world s)))). intros u. destruct u; reflexivity. Qed.

Lemma plain_kept m m' : trades_kept m m' -> plain_keys m -> plain_keys m'.
Proof. intros Hk Hp i [t Hi]. destruct (trades_kept_some _ _ _ _ Hk Hi) as (t0 & Ht0 & _). eauto. Qed.

(** The placeholder is not one of the trades, so removing it removes none. *)
Lemma verdict_plain o (s s' : StrategyRunner B T F E) v :
  verdict_post o (placeholder_of s) s v s' -> plain_keys (sr_trades s) ->
  plain_keys (sr_trades s') /\ forall i, is_Some (sr_trades s !! i) -> is_Some (sr_trades s' !! i).
Proof.
  intros (_ & _ & Hv) Hp.
  assert (Hd : delete (placeholder_of s) (sr_trades s) = sr_trades s).
  { apply delete_id, eq_None_not_Some. intros Hi. specialize (Hp _ Hi).
    rewrite placeholder_prefix in Hp. discriminate. }
  destruct v; try (destruct Hv as [-> _]; rewrite ?Hd; auto).
  destruct Hv as (_ & -> & _ & _ & (b & Hid) & _). rewrite ?Hd.
  split; [intros i Hi | intros i Hi]; rewrite lookup_insert_is_Some in *.
  - destruct Hi as [<- | [_ Hi]]; [rewrite Hid; apply uuid_plain | exact (Hp i Hi)].
  - destruct (decide (pt_id trade = i)); auto.
Qed.

Lemma never_removed_step (p p' : phase) :
  phase_ok p -> plain_keys (sr_trades (runner_of p)) -> lstep p p' ->
  plain_keys (sr_trades (runner_of p')) /\
  forall i, is_Some (sr_trades (runner_of p) !! i) -> is_Some (sr_trades (runner_of p') !! i).
Proof.
  intros Hok Hp Hs. destruct Hs as [l mc oc sm | l l' Hh | mc oc j j' Hj | mc oc s l r b mc' oc' sm | mc oc s a c b];
    cbn [runner_of start_join jn_state join_tasks set_symbols upd_runner sr_trades lp_runner] in *; auto.
  - destruct (head_post _ _ _ Hh) as [md Hv]. cbv zeta in Hv. destruct Hv as [-> | (o & v & Hv)]; [auto |].
    exact (verdict_plain _ _ _ _ Hv Hp).
  - destruct Hok as (_ & _ & Hsafe). destruct (join_keeps _ _ Hsafe Hj) as [_ [_ Hk]].
    split; [exact (plain_kept _ _ Hk Hp) | intros i; apply trades_kept_dom, Hk].
Qed.

(** [active_trades] only grows: a trade that is in the map at some point is in
    the map at every later point of every run of the loop, closed or not; the
    removal at the end of [check_exits] is never made. *)
Theorem trades_never_removed w env capital sm mc oc (p p' : phase) i :
  star lstep (AtTop {| lp_runner := StrategyRunner_new w env capital sm; lp_market_consumer := mc;
                       lp_opportunity_consumer := oc |}) p ->
  star lstep p p' -> is_Some (sr_trades (runner_of p) !! i) -> is_Some (sr_trades (runner_of p') !! i).
Proof.
  intros Hr0 Hr.
  assert (Hinv : phase_ok p /\ plain_keys (sr_trades (runner_of p))).
  { revert Hr0. apply (star_invariant lstep (fun p => phase_ok p /\ plain_keys (sr_trades (runner_of p)))).
    - split; [apply phase_ok_start |]. intros j. cbn. rewrite lookup_empty. intros [? ?]. discriminate.
    - intros a b [Hok Hp] Hs. split; [exact (phase_ok_step _ _ _ _ Hok Hs) |].
      exact (proj1 (never_removed_step _ _ Hok Hp Hs)). }
  intros Hi. enough (Hall : (phase_ok p' /\ plain_keys (sr_trades (runner_of p'))) /\
    is_Some (sr_trades (runner_of p') !! i)) by apply Hall.
  revert Hr. apply (star_invariant lstep (fun p => (phase_ok p /\ plain_keys (sr_trades (runner_of p))) /\
    is_Some (sr_trades (runner_of p) !! i))); [auto |].
  intros a b [[Hok Hp] Ha] Hs. destruct (never_removed_step _ _ Hok Hp Hs) as [Hp' Hk].
  split; [split; [exact (phase_ok_step _ _ _ _ Hok Hs) | exact Hp'] | auto].
Qed.
End never_removed.

(** The state after the first turn of the demonstration. *)
Lemma demo_has_trade : exists t, sr_trades (runner_of (after_head empty_script [])) !! "order-3" = Some t.
Proof.
  assert (Hi : bool_decide (is_Some (sr_trades (runner_of (after_head empty_script [])) !! "order-3")) = true)
    by (vm_compute; reflexivity).
  now apply bool_decide_eq_true in Hi.
Qed.

Lemma one_trade_per_symbol_witness :
  exists t, sr_trades (runner_of (after_head empty_script [])) !! "order-3" = Some t /\
    pt_id t = "order-3" /\ is_live t = true.
Proof.
  assert (Hr : star (loop_step (V:=json) demo_text demo_fuel) (AtTop (demo_start empty_script []))
    (after_head empty_script [])) by (apply after_head_reachable; vm_compute; reflexivity).
  destruct demo_has_trade as [t Ht]. exists t. split; [exact Ht |].
  exact (proj1 (one_trade_per_symbol _ _ _ _ _ _ _ _ _ Hr) "order-3" t Ht).
Defined.

Lemma script_uuid_plain (s : Script) : String.prefix "placeholder_" (fst (b_new_uuid s)) = false.
Proof. reflexivity. Qed.

Lemma trades_never_removed_witness :
  is_Some (sr_trades (runner_of (after_head empty_script [])) !! "order-3").
Proof.
  assert (Hr : star (loop_step (V:=json) demo_text demo_fuel) (AtTop (demo_start empty_script []))
    (after_head empty_script [])) by (apply after_head_reachable; vm_compute; reflexivity).
  apply (trades_never_removed _ _ script_uuid_plain _ _ _ _ _ _ _ _ "order-3" Hr (star_refl _ _)).
  exact demo_has_trade.
Defined.
