(* ===== verification/RunnerOpportunity.v ===== *)
(** The contract of [execute_opportunity] ([src/src/strategy/runner.rs]): what
    each verdict means for the trades, the portfolio and the exchanges, and that
    the function returns. *)
From Stdlib Require Import ZArith Lia Bool.
From stdpp Require Import base option list gmap strings pretty.
From S2P Require Import Prelude Float64 EntryRealSpec Coop Types ArrayQueue Pipeline OpportunityQueue SymbolMap MarketData Branchless Portfolio FillProbability Backend ScriptedBackend AtomicExecution Entry EntryReal ExchangeParser Runner RunnerMonitor RunnerLoop ScriptedRunner RunnerSpec.

#[local] Open Scope string_scope.
#[local] Open Scope list_scope.
#[local] Open Scope Z_scope.

Section contract.
Context {B T F E : Type} `{Backend B} `{DashMap T key Z} `{DashMap F Z key} `{!Sharding}
  `{!ShardingLaws} `{RunnerEnv E}.
Abbreviation state := (StrategyRunner B T F E).

(** A position no larger than the available capital is opened: the books take
    the capital out and list the trade, whatever Redis answers afterwards. *)
Lemma open_within_capital t p :
  (pt_position_size_usd t >? ps_available_capital p)%F = false ->
  let p' := snd (open_trade t (Ok tt) (Ok tt) p) in
  fst (open_trade t (Ok tt) (Ok tt) p) = Ok tt /\
  ps_active_trades p' = ps_active_trades p ++ [t] /\
  ps_available_capital p' = (ps_available_capital p - pt_position_size_usd t)%F /\
  ps_total_open_positions p' = (ps_total_open_positions p + pt_position_size_usd t)%F /\
  ps_cumulative_pnl p' = ps_cumulative_pnl p.
Proof. intros Hs. unfold open_trade. rewrite Hs. cbn. auto. Qed.

(** What holds of a trade that was executed. *)
Definition opened_trade (o : ArbitrageOpportunity) (s : state) (t : PaperTrade)
  (opened : result unit portfolio_error) (s' : state) : Prop :=
  ~ live_trade (ao_symbol o) (sr_trades s) /\
  sr_trades s' = <[pt_id t := t]> (sr_trades s) /\
  pt_symbol t = ao_symbol o /\ pt_status t = TActive /\
  (exists spread fee available, passed_checks o s spread fee available (pt_position_size_usd t)) /\
  ps_active_trades (sr_portfolio s') = ps_active_trades (sr_portfolio s) ++ [t] /\
  ps_available_capital (sr_portfolio s') =
    (ps_available_capital (sr_portfolio s) - pt_position_size_usd t)%F /\
  (forall p, opened = Err p -> exists m, p = IoError m).

(** C8. What each verdict of [execute_opportunity] means, whatever the exchanges
    answer.  A duplicate changes nothing; a failed check changes neither the
    trades nor the portfolio and makes no call; a failed entry leaves no trade
    behind.  An executed trade had no live trade of its symbol, passed the
    checks of spread, net profit and size, is in the map and in the portfolio,
    and its size has left the available capital; opening it can only fail in
    Redis.  The placeholder is gone on every path. *)
Theorem execute_opportunity_spec fuel o (s s' : state) v :
  sr_trades s !! placeholder_of s = None ->
  run (execute_opportunity fuel o) s = Some (v, s') ->
  match v with
  | SkippedDuplicate => s' = s /\ live_trade (ao_symbol o) (sr_trades s)
  | Executed t opened => opened_trade o s t opened s'
  | SkippedExecutionFailed _ => sr_trades s' = sr_trades s /\ sr_portfolio s' = sr_portfolio s
  | _ => sr_trades s' = sr_trades s /\ sr_portfolio s' = sr_portfolio s /\
         w_calls (sr_world s') = w_calls (sr_world s)
  end.
Proof.
  intros Hph Hr. pose proof (tpp_run _ _ _ _ _ (execute_opportunity_post fuel o s) Hr) as Hp.
  unfold verdict_post in Hp. rewrite (delete_id _ _ Hph) in Hp. destruct Hp as (_ & _ & Hp).
  destruct v; try exact Hp.
  destruct Hp as (Hno & Htr & Hy & Hst & _ & (spread & fee & available & Hc) & Hpf & Herr).
  assert (Hsize : (pt_position_size_usd trade >? ps_available_capital (sr_portfolio s))%F = false).
  { destruct Hc as (_ & -> & _ & _ & _ & _ & _ & _ & Hs). exact Hs. }
  destruct (open_within_capital trade (sr_portfolio s) Hsize) as (Hok & Hact & Hcap & _).
  unfold opened_trade. rewrite Hpf. repeat (split; [eauto 10 |]).
  intros p Hop. destruct (Herr p Hop) as [Hio | Hp]; [exact Hio | congruence].
Qed.
End contract.

Section returns.
Context {B T F E : Type} `{BackendClock B} `{DashMap T key Z} `{DashMap F Z key} `{!Sharding} `{RunnerEnv E}.
Abbreviation state := (StrategyRunner B T F E).
Abbreviation free s := (sr_guards s = []).

Lemma twp_world {A} (m : ST (World B) A) (Q : A -> state -> Prop) (s : state) :
  (forall a w, m (sr_world s) = (a, w) -> Q a (set_world w s)) -> twp (sync (in_world m)) Q s.
Proof. intros HQ. apply twp_sync. unfold wp, in_world. destruct (m (sr_world s)) as [a w] eqn:Em. eauto. Qed.

Lemma free_writable k (s : state) : free s -> writable k s = true.
Proof. intros Hs. unfold writable. now rewrite Hs. Qed.

Lemma twp_insert k t (Q : unit -> state -> Prop) (s : state) :
  free s -> (forall m, Q tt (set_trades m s)) -> twp (insert_trade k t) Q s.
Proof. intros Hs HQ. apply twp_locking; [now apply free_writable |]. apply HQ. Qed.
Lemma twp_remove k (Q : unit -> state -> Prop) (s : state) :
  free s -> (forall m, Q tt (set_trades m s)) -> twp (remove_trade k) Q s.
Proof. intros Hs HQ. apply twp_locking; [now apply free_writable |]. apply HQ. Qed.

Ltac twp_if := lazymatch goal with |- twp (if ?b then _ else _) _ _ => destruct b end.

Lemma check_returns o (s : state) :
  free s -> twp (check_opportunity o) (fun _ s' => free s') s.
Proof.
  intros Hs. unfold check_opportunity, get_current_prices_for_opportunity. apply twp_bind, twp_sync.
  unfold wp, get_prices_from_store.
  destruct (get_or_insert _ _ (sr_symbols s)) as [lid sm1]. destruct (get_or_insert _ _ sm1) as [sid sm].
  destruct (get_ask lid (sr_market s)) as [ask |]; [| exact Hs].
  destruct (get_bid sid (sr_market s)) as [bid |]; [| exact Hs].
  destruct (_ || _); [exact Hs |]. cbv zeta. do 2 (twp_if; [exact Hs |]).
  apply twp_bind, twp_await. unfold wp. twp_if; [exact Hs |].
  apply twp_bind, twp_await. unfold wp. twp_if; exact Hs.
Qed.

Lemma entry_task_returns o available size (s : state) :
  free s -> twp (execute_entry 31 o available size) (fun _ s' => free s') s.
Proof.
  intros Hs. unfold execute_entry. apply twp_bind, twp_sync. unfold wp, is_real_trading. cbv zeta.
  destruct (String.eqb _ _ || String.eqb _ _).
  - apply twp_bind, twp_await, in_world_spec. eapply wp_mono; [apply entry_returns |].
    intros [r |] w Hr; [exact Hs | congruence].
  - apply twp_bind, twp_world. intros a w _. exact Hs.
Qed.

Lemma open_returns t (s : state) : free s -> twp (open_trade_io t) (fun _ s' => free s') s.
Proof.
  intros Hs. unfold open_trade_io. apply twp_bind, twp_await. unfold wp.
  destruct (open_trade _ _ _ _) as [[u | e] p]; [| exact Hs].
  apply twp_await. unfold wp, redis_writes. destruct (e_log_entry _ _) as [[u' | e] env]; [| exact Hs].
  destruct (e_persist _ _). exact Hs.
Qed.

(** C9. [execute_opportunity] always returns when no reference is held: 31 turns of
    polling are enough for the entry, and no lock is waited for. *)
Theorem opportunity_returns o (s : state) :
  sr_guards s = [] -> exists v s', run (execute_opportunity 31 o) s = Some (v, s') /\ sr_guards s' = [].
Proof.
  intros Hs. apply (twp_run _ (fun _ s' => free s')). unfold execute_opportunity.
  apply twp_bind, twp_sync. unfold wp. destruct (existsb _ _); [exact Hs |].
  apply twp_bind, twp_world. intros uuid w _. apply twp_bind, twp_insert; [exact Hs |]. intros m.
  apply twp_bind. eapply twp_mono; [apply check_returns; exact Hs |].
  intros [[[[spread fee] available] size] | v] s1 Hs1.
  2: { apply twp_bind, twp_remove; [exact Hs1 |]. intros m1. exact Hs1. }
  apply twp_bind. eapply twp_mono; [apply entry_task_returns; exact Hs1 |]. intros [t | e] s2 Hs2.
  2: { apply twp_bind, twp_remove; [exact Hs2 |]. intros m1. exact Hs2. }
  cbv zeta. apply twp_bind, twp_remove; [exact Hs2 |]. intros m1.
  apply twp_bind, twp_insert; [exact Hs2 |]. intros m2.
  apply twp_bind. eapply twp_mono; [apply open_returns; exact Hs2 |]. intros r s3 Hs3. exact Hs3.
Qed.
End returns.

(** A run that executes the opportunity. *)
Definition demo_ready : demo_runner :=
  lp_runner (process_updates (demo_start empty_script [])).
Definition demo_after : demo_runner :=
  match run (execute_opportunity 31 demo_opportunity) demo_ready with
  | Some (_, s) => s
  | None => demo_ready
  end.

Lemma demo_executed :
  match run (execute_opportunity 31 demo_opportunity) demo_ready with
  | Some (Executed _ _, _) => true | _ => false end = true.
Proof. vm_compute. reflexivity. Qed.

Lemma execute_opportunity_spec_witness :
  exists t opened s', run (execute_opportunity 31 demo_opportunity) demo_ready = Some (Executed t opened, s') /\
    opened_trade demo_opportunity demo_ready t opened s'.
Proof.
  assert (Hph : sr_trades demo_ready !! placeholder_of demo_ready = None) by (vm_compute; reflexivity).
  pose proof (fun s' v => execute_opportunity_spec 31 demo_opportunity demo_ready s' v Hph) as Hs.
  revert Hs. pose proof demo_executed as Hv. revert Hv.
  destruct (run (execute_opportunity 31 demo_opportunity) demo_ready) as [[v s'] |]; [| discriminate].
  intros Hv Hs. destruct v; try discriminate. exists trade, opened, s'. split; [reflexivity |].
  exact (Hs s' (Executed trade opened) eq_refl).
Defined.

Lemma opportunity_returns_witness :
  exists v s', run (execute_opportunity 31 demo_opportunity) demo_ready = Some (v, s') /\ sr_guards s' = [].
Proof. exact (opportunity_returns demo_opportunity demo_ready eq_refl). Defined.
