(* ===== verification/RunnerExits.v ===== *)
(** What [check_exits] does with a trade whose exit has been decided
    ([src/src/strategy/runner.rs]).

    The block that closes it cancels the exit orders, books the profit in the
    portfolio and writes to Redis; its last statement, the removal from
    [active_trades], needs a lock the block itself holds. *)
From Stdlib Require Import ZArith Lia Bool.
From stdpp Require Import base option list gmap strings pretty.
From S2P Require Import Prelude Float64 Coop Types ArrayQueue Pipeline OpportunityQueue SymbolMap MarketData Branchless Portfolio FillProbability Backend ScriptedBackend AtomicExecution Entry EntryReal ExchangeParser Runner RunnerMonitor RunnerLoop ScriptedRunner RunnerSpec.

#[local] Open Scope string_scope.
#[local] Open Scope Z_scope.

Section exits.
Context {B T F E V : Type} `{Backend B} `{DashMap T key Z} `{DashMap F Z key} `{!Sharding} `{RunnerEnv E}.
Context `{JV : Json V}.
Abbreviation state := (StrategyRunner B T F E).

Definition is_cancel_call (c : call) : Prop := match c with CCancel _ _ _ => True | _ => False end.

(** The world has moved by cancellations only; the rest of the runner is as it was. *)
Definition cancelled (s s' : state) : Prop :=
  exists w, s' = set_world w s /\ tame is_cancel_call (sr_world s) w.

Lemma cancelled_refl s : cancelled s s.
Proof. exists (sr_world s). split; [now destruct s | reflexivity]. Qed.

Lemma cancelled_trans s1 s2 s3 : cancelled s1 s2 -> cancelled s2 s3 -> cancelled s1 s3.
Proof.
  intros (w & -> & Hw) (w' & -> & Hw'). exists w'. split; [reflexivity |].
  cbn in Hw'. etransitivity; eauto.
Qed.

Lemma cleanup_spec l t (s : state) (Q : unit -> state -> Prop) :
  (forall s', cancelled s s' -> Q tt s') -> twp (cleanup_exit l t) Q s.
Proof.
  intros HQ. unfold cleanup_exit. destruct (exit_order_of l t) as [o |]; [| apply twp_done, HQ, cancelled_refl].
  destruct (bool_decide _); [apply twp_done, HQ, cancelled_refl |].
  apply twp_bind, twp_await, in_world_spec. unfold cancel_order. apply wp_call. intros a b Eb.
  apply twp_done, HQ. eexists. split; [reflexivity |]. split; [reflexivity |]. split; [reflexivity |].
  exists [CCancel (trade_exchange l t) (so_id o) a]. split; [reflexivity | repeat constructor].
Qed.

(** The portfolio after [close_trade]. *)
Definition booked (id : string) (t : PaperTrade) (now : Z) (p : PortfolioState) : PortfolioState :=
  snd (close_trade id (actual_profit t) (exit_reason_of t) now (Ok tt) (Ok tt) p).

(** Before the answer of Redis: the exit orders are cancelled, the profit is
    booked, the reference is held, and the trade is still in the map. *)
Definition closing (id : string) (t : PaperTrade) (s s' : state) : Prop :=
  sr_trades s' = sr_trades s /\ sr_guards s' = [id] /\ sr_trackers s' = sr_trackers s /\
  tame is_cancel_call (sr_world s) (sr_world s') /\
  exists now, sr_portfolio s' = booked id t now (sr_portfolio s).

(** Redis, in state [v], answers the log line or, after it, the write of the
    portfolio [p] with the error [m]. *)
Definition refuses (log : ST E io) (p : PortfolioState) (v v' : E) (m : string) : Prop :=
  log v = (Err m, v') \/ exists v1, log v = (Ok tt, v1) /\ e_persist p v1 = (Err m, v').

(** The write of the trade [id], just booked as the last closed one, refused. *)
Definition exit_refused (id : string) (t : PaperTrade) (v : E) (s' : state) (m : string) : Prop :=
  exists x, last (ps_closed_trades (sr_portfolio s')) = Some x /\
    refuses (e_log_exit x (exit_reason_of t)) (sr_portfolio s') v (sr_env s') m.

Lemma redis_spec log (s : state) (Q : result unit portfolio_error -> state -> Prop) :
  (forall e env, (forall p, e = Err p -> exists m, p = IoError m /\ refuses log (sr_portfolio s) (sr_env s) env m) ->
     ((forall e, fst (log e) = Ok tt) -> (forall p e, fst (e_persist p e) = Ok tt) -> e = Ok tt) ->
     Q e (set_env env s)) ->
  twp (await (redis_writes log)) Q s.
Proof.
  intros HQ. apply twp_await. unfold wp, redis_writes. destruct (log (sr_env s)) as [[[] | m] e1] eqn:El.
  - destruct (e_persist (sr_portfolio s) e1) as [[u' | m] e2] eqn:Ep; apply HQ; cbn; try discriminate; auto.
    + intros p [= <-]. exists m. unfold refuses. eauto 6.
    + intros _ Hp. specialize (Hp (sr_portfolio s) e1). rewrite Ep in Hp. discriminate.
  - apply HQ; cbn.
    + intros p [= <-]. exists m. unfold refuses. auto.
    + intros Hl _. specialize (Hl (sr_env s)). rewrite El in Hl. discriminate.
Qed.

Lemma close_io_spec id t (s s0 : state) (Q : result unit portfolio_error -> state -> Prop) :
  sr_trades s = sr_trades s0 -> sr_guards s = [id] -> sr_trackers s = sr_trackers s0 ->
  sr_portfolio s = sr_portfolio s0 -> sr_env s = sr_env s0 -> tame is_cancel_call (sr_world s0) (sr_world s) ->
  (forall e s', closing id t s0 s' ->
     (forall p, e = Err p -> exists m, p = IoError m /\ exit_refused id t (sr_env s0) s' m) ->
     ((forall x r e, fst (e_log_exit x r e) = Ok tt) -> (forall p e, fst (e_persist p e) = Ok tt) -> e = Ok tt) ->
     Q e s') ->
  twp (close_trade_io id (actual_profit t) (exit_reason_of t)) Q s.
Proof.
  intros Htr Hg Htk Hp Hv Hw HQ. unfold close_trade_io.
  apply twp_bind, twp_sync, in_world_spec. unfold unix_secs. apply wp_rt. intros now b Eb.
  assert (Hw' : tame is_cancel_call (sr_world s0) (after_rt (sr_world s) b)).
  { etransitivity; [exact Hw |]. split; [reflexivity |]. split; [reflexivity |]. exists []. cbn. now rewrite app_nil_r. }
  apply twp_bind, twp_await. unfold wp. cbn [set_world upd_runner sr_portfolio]. rewrite Hp.
  destruct (close_trade _ _ _ now _ _ (sr_portfolio s0)) as [r p] eqn:Ec.
  assert (Hbook : p = booked id t now (sr_portfolio s0)) by (unfold booked; now rewrite Ec).
  destruct (if bool_decide _ then _ else _) as [x |] eqn:Ex.
  - assert (Hx : last (ps_closed_trades p) = Some x) by (revert Ex; case_match; congruence).
    apply redis_spec. intros e env He Hok. apply HQ; auto.
    2:{ intros q Hq. destruct (He q Hq) as (m & -> & Hm). exists m. split; [reflexivity |].
        exists x. cbn in Hm |- *. rewrite <- Hv. auto. }
    split; [exact Htr |]. split; [exact Hg |]. split; [exact Htk |]. split; [exact Hw' | now exists now].
  - apply twp_done. apply HQ; [| discriminate | auto].
    split; [exact Htr |]. split; [exact Hg |]. split; [exact Htk |]. split; [exact Hw' | now exists now].
Qed.

(** What follows the answer of Redis. *)
Definition finish (id y : string) (closed : result unit portfolio_error) : task state (result unit runner_error) :=
  match closed with
  | Err e => (do* release_trade id in Done (Err (PortfolioError e)))%task
  | Ok _ => (do* reset_tracker y in do* remove_trade id in do* release_trade id in Done (Ok tt))%task
  end.

(** The block runs up to the answer of Redis, and goes on from there. *)
Lemma close_exiting_prefix id y t (s : state) :
  sr_guards s = [] -> sr_trades s !! id = Some t -> pt_status t = TExiting ->
  exists e s1, closing id t s s1 /\
    (forall p, e = Err p -> exists m, p = IoError m /\ exit_refused id t (sr_env s) s1 m) /\
    ((forall x r v, fst (e_log_exit x r v) = Ok tt) -> (forall p v, fst (e_persist p v) = Ok tt) -> e = Ok tt) /\
    run (close_exiting id y) s = run (finish id y e) s1 /\
    last_state (close_exiting id y) s = last_state (finish id y e) s1.
Proof.
  intros Hg Ht Hst.
  assert (Hpre : twp (do* cleanup_exit Long t in do* cleanup_exit Short t in
      close_trade_io id (actual_profit t) (exit_reason_of t))%task
    (fun e s1 => closing id t s s1 /\
      (forall p, e = Err p -> exists m, p = IoError m /\ exit_refused id t (sr_env s) s1 m) /\
      ((forall x r v, fst (e_log_exit x r v) = Ok tt) -> (forall p v, fst (e_persist p v) = Ok tt) -> e = Ok tt))
    (set_guards [id] s)).
  { apply twp_bind, cleanup_spec. intros s1 (w1 & -> & Hw1).
    apply twp_bind, cleanup_spec. intros s2 (w2 & -> & Hw2). cbn in Hw1, Hw2.
    apply (close_io_spec id t _ s); auto. cbn. etransitivity; eauto. }
  apply twp_run in Hpre. destruct Hpre as (e & s1 & Hr & Hc & He & Hok). exists e, s1.
  split; [exact Hc |]. split; [exact He |]. split; [exact Hok |].
  assert (Hh : run (hold_trade id) s = Some (Some t, set_guards [id] s)).
  { unfold hold_trade. rewrite run_sync, Ht, Hg. reflexivity. }
  unfold close_exiting. rewrite run_bind, last_bind, Hh, bool_decide_true by exact Hst.
  rewrite !run_bind in Hr. rewrite !run_bind, !last_bind.
  destruct (run (cleanup_exit Long t) _) as [[u2 s2] |]; [| discriminate].
  rewrite !run_bind in Hr. rewrite !run_bind, !last_bind.
  destruct (run (cleanup_exit Short t) _) as [[u3 s3] |]; [| discriminate].
  rewrite !run_bind, !last_bind, Hr. split; reflexivity.
Qed.

(** Nothing is removed: an answered [Ok] is followed by a lock that the block
    itself holds. *)
Lemma finish_ok_blocks id y (s : state) (Q : state -> Prop) :
  sr_guards s = [id] -> Q (set_trackers (alter tracker_reset y (sr_trackers s)) s) ->
  blocks (finish id y (Ok tt)) Q s.
Proof.
  intros Hg HQ. apply blocks_later, twp_sync. unfold wp. apply blocks_here, blocks_locking; [| exact HQ].
  apply held_not_writable. cbn. rewrite Hg. apply elem_of_cons. auto.
Qed.

(** Closed in the books, its reference held, and still in the map. *)
Definition closed_but_kept (id : string) (t : PaperTrade) (s s' : state) : Prop :=
  sr_trades s' = sr_trades s /\ sr_guards s' = [id] /\
  (exists now, sr_portfolio s' = booked id t now (sr_portfolio s)) /\
  tame is_cancel_call (sr_world s) (sr_world s').

(** A trade whose exit is decided, when Redis takes the writes: its exit orders
    are cancelled and its profit is booked in the portfolio, and then
    [check_exits] waits for ever for the lock of the reference it holds itself.
    The trade stays in [active_trades]; no order is sent. *)
Theorem exit_books_then_blocks id y t (s : state) :
  sr_guards s = [] -> sr_trades s !! id = Some t -> pt_status t = TExiting ->
  (forall x r e, fst (e_log_exit x r e) = Ok tt) -> (forall p e, fst (e_persist p e) = Ok tt) ->
  blocks (close_exiting id y) (closed_but_kept id t s) s.
Proof.
  intros Hg Ht Hst Hlog Hper.
  destruct (close_exiting_prefix id y t s Hg Ht Hst) as (e & s1 & (Htr & Hgs & Htk & Hw & Hb) & _ & Hok & Hrun & Hlast).
  rewrite (Hok Hlog Hper) in Hrun, Hlast. unfold blocks. rewrite Hrun, Hlast.
  apply (finish_ok_blocks id y s1 (closed_but_kept id t s) Hgs). split; auto.
Qed.

(** A failed write: the error is returned, the trade stays, the profit is booked. *)
Lemma finish_err id y p (s : state) :
  run (finish id y (Err p)) s =
    Some (Err (PortfolioError p), set_guards (List.filter (fun g => negb (String.eqb g id)) (sr_guards s)) s).
Proof. reflexivity. Qed.

Lemma close_other id y t (s : state) :
  sr_guards s = [] -> sr_trades s !! id = Some t -> pt_status t <> TExiting ->
  run (close_exiting id y) s = Some (Ok tt, s).
Proof.
  intros Hg Ht Hst. unfold close_exiting. rewrite run_bind. unfold hold_trade. rewrite run_sync, Ht, Hg.
  rewrite bool_decide_false by exact Hst. cbn. rewrite String.eqb_refl. cbn. destruct s; cbn in *. now subst.
Qed.

Lemma close_exiting_answers id y t (s : state) r s' :
  sr_guards s = [] -> sr_trades s !! id = Some t -> pt_status t = TExiting ->
  run (close_exiting id y) s = Some (r, s') ->
  exists m now, r = Err (PortfolioError (IoError m)) /\ sr_trades s' = sr_trades s /\
    sr_guards s' = [] /\ sr_portfolio s' = booked id t now (sr_portfolio s) /\
    tame is_cancel_call (sr_world s) (sr_world s') /\ exit_refused id t (sr_env s) s' m.
Proof.
  intros Hg Ht Hst Hr.
  destruct (close_exiting_prefix id y t s Hg Ht Hst) as (e & s1 & (Htr & Hgs & Htk & Hw & now & Hb) & He & _ & Hrun & _).
  rewrite Hrun in Hr. destruct e as [[] | p].
  - destruct (finish_ok_blocks id y s1 (fun _ => True) Hgs I) as [Hn _]. congruence.
  - rewrite finish_err in Hr. injection Hr as <- <-. destruct (He p eq_refl) as (m & -> & Hm).
    exists m, now. rewrite Hgs. cbn. rewrite String.eqb_refl. auto 10.
Qed.

(** Without a funding tracker [check_exit] is the closing block. *)
Lemma check_exit_block id t (s : state) :
  sr_trackers s = ∅ -> sr_trades s !! id = Some t ->
  run (check_exit (V:=V) id) s = run (close_exiting id (pt_symbol t)) s.
Proof.
  intros Htk Ht. unfold check_exit. rewrite run_bind. unfold get_trade. rewrite run_sync, Ht.
  unfold funding_exit. rewrite !run_bind. unfold tracker_should_exit. now rewrite run_sync, Htk, lookup_empty.
Qed.

Lemma check_exits_list ids (s : state) r s' :
  sr_guards s = [] -> sr_trackers s = ∅ ->
  run (tforeach ids (check_exit (V:=V))) s = Some (r, s') ->
  match r with
  | Ok _ => s' = s /\ forall i t, i ∈ ids -> sr_trades s !! i = Some t -> pt_status t <> TExiting
  | Err e => exists i t m now, sr_trades s !! i = Some t /\ pt_status t = TExiting /\
      e = PortfolioError (IoError m) /\ sr_trades s' = sr_trades s /\ sr_guards s' = [] /\
      sr_portfolio s' = booked i t now (sr_portfolio s) /\
      tame is_cancel_call (sr_world s) (sr_world s') /\ exit_refused i t (sr_env s) s' m
  end.
Proof.
  intros Hg Htk. revert r s'. induction ids as [| id ids IH]; intros r s' Hr; cbn [tforeach] in Hr.
  { injection Hr as <- <-. split; [reflexivity |]. intros i t Hi. now apply not_elem_of_nil in Hi. }
  rewrite run_bind in Hr. destruct (sr_trades s !! id) as [t |] eqn:Ht.
  - rewrite (check_exit_block id t s Htk Ht) in Hr. destruct (decide (pt_status t = TExiting)) as [Hst | Hst].
    + destruct (run (close_exiting id (pt_symbol t)) s) as [[r1 s1] |] eqn:Ec; [| discriminate].
      destruct (close_exiting_answers id _ t s r1 s1 Hg Ht Hst Ec) as (m & now & -> & Htr & Hgs & Hp & Hw & Hm).
      injection Hr as <- <-. exists id, t, m, now. auto 12.
    + rewrite (close_other id _ t s Hg Ht Hst) in Hr. specialize (IH r s' Hr). destruct r as [u | e]; [| exact IH].
      destruct IH as [-> Hall]. split; [reflexivity |]. intros i t' Hi Hi'.
      apply elem_of_cons in Hi. destruct Hi as [-> | Hi]; [congruence | eauto].
  - unfold check_exit in Hr. rewrite run_bind in Hr. unfold get_trade in Hr. rewrite run_sync, Ht in Hr.
    specialize (IH r s' Hr). destruct r as [u | e]; [| exact IH]. destruct IH as [-> Hall].
    split; [reflexivity |]. intros i t' Hi Hi'. apply elem_of_cons in Hi. destruct Hi as [-> | Hi]; [congruence | eauto].
Qed.
End exits.

Section check_exits.
Context {B T F E V : Type} `{Backend B} `{DashMap T key Z} `{DashMap F Z key} `{!Sharding} `{!ShardingLaws}
  `{RunnerEnv E}.
Context `{JV : Json V}.
Abbreviation state := (StrategyRunner B T F E).

(** C6. No exit ever completes, when [check_exits] starts with no reference into
    the trades held and no funding tracker in the map.  When it returns [Ok], no
    trade was exiting and nothing at all has changed.  When it returns an error,
    one exiting trade was booked as closed, the error is the very answer with
    which Redis refused the log line of that exit or the write of the portfolio
    after it, nothing but cancellations was sent to the exchanges, and the trade is
    still in the map.  In the remaining case, an exiting trade and no error of
    Redis, it does not return. *)
Theorem exits_never_complete (s s' : state) r :
  sr_guards s = [] -> sr_trackers s = ∅ -> run (check_exits (V:=V)) s = Some (r, s') ->
  match r with
  | Ok _ => s' = s /\ forall i t, sr_trades s !! i = Some t -> pt_status t <> TExiting
  | Err e => exists i t m now, sr_trades s !! i = Some t /\ pt_status t = TExiting /\
      e = PortfolioError (IoError m) /\ sr_trades s' = sr_trades s /\ sr_guards s' = [] /\
      sr_portfolio s' = booked i t now (sr_portfolio s) /\ tame is_cancel_call (sr_world s) (sr_world s') /\
      exists x, last (ps_closed_trades (sr_portfolio s')) = Some x /\
        refuses (e_log_exit x (exit_reason_of t)) (sr_portfolio s') (sr_env s) (sr_env s') m
  end.
Proof.
  intros Hg Htk Hr. unfold check_exits in Hr. rewrite run_bind in Hr. unfold trade_keys in Hr.
  rewrite run_sync in Hr. pose proof (check_exits_list _ s r s' Hg Htk Hr) as Hl. destruct r as [u | e].
  - destruct Hl as [Hs Hall]. split; [exact Hs |]. intros i t Hi. apply (Hall i t); [| exact Hi].
    apply list_elem_of_fmap. exists (i, t). split; [reflexivity |].
    rewrite iter_order_perm. now apply elem_of_map_to_list.
  - destruct Hl as (i & t & m & now & Hi & Hst & He & Htr & Hgs & Hp & Hw & Hm). exists i, t, m, now. auto 12.
Qed.
End check_exits.

(** The trade of the demonstration, once its exit is decided. *)
Definition demo_exiting : demo_runner :=
  let s := runner_of (after_head empty_script []) in
  set_trades (exiting "Exit orders filled (90% capture)" 10.0%f64 <$> sr_trades s) s.

Lemma demo_exiting_trade : exists t, sr_trades demo_exiting !! "order-3" = Some t /\ pt_status t = TExiting.
Proof.
  assert (Hi : match sr_trades demo_exiting !! "order-3" with
               | Some t => bool_decide (pt_status t = TExiting) | None => false end = true)
    by (vm_compute; reflexivity).
  destruct (sr_trades demo_exiting !! "order-3") as [t |]; [| discriminate].
  apply bool_decide_eq_true in Hi. eauto.
Qed.

(** Redis answers every write. *)
Definition obliging_env : RunnerEnv unit := {|
  e_log_entry _ := fun e => (Ok tt, e); e_log_exit _ _ := fun e => (Ok tt, e);
  e_persist _ := fun e => (Ok tt, e); e_redis_get _ := fun e => (None, e);
  e_unix_millis := fun e => (0, e) |}.

Definition obliging_runner : StrategyRunner Script sym_ids sym_keys unit :=
  {| sr_world := sr_world demo_exiting; sr_portfolio := sr_portfolio demo_exiting; sr_env := tt;
     sr_trades := sr_trades demo_exiting; sr_guards := []; sr_trackers := ∅;
     sr_estimator := sr_estimator demo_exiting; sr_market := sr_market demo_exiting;
     sr_symbols := sr_symbols demo_exiting |}.

Lemma exit_books_then_blocks_witness :
  exists t, blocks (close_exiting (H3:=obliging_env) "order-3" "BTCUSDT")
              (closed_but_kept "order-3" t obliging_runner) obliging_runner.
Proof.
  destruct demo_exiting_trade as (t & Ht & Hst). exists t.
  exact (exit_books_then_blocks (H3:=obliging_env) "order-3" "BTCUSDT" t obliging_runner eq_refl Ht Hst
           (fun _ _ _ => eq_refl) (fun _ _ => eq_refl)).
Defined.

(** Redis refuses the log line of the exit. *)
Lemma exits_never_complete_witness :
  let s := set_env [Err "refused"] demo_exiting in
  exists r s', run (check_exits (V:=json)) s = Some (Err r, s') /\
    exists i t m now, sr_trades s !! i = Some t /\ pt_status t = TExiting /\
      r = PortfolioError (IoError m) /\ sr_trades s' = sr_trades s /\ sr_guards s' = [] /\
      sr_portfolio s' = booked i t now (sr_portfolio s) /\ tame is_cancel_call (sr_world s) (sr_world s') /\
      exists x, last (ps_closed_trades (sr_portfolio s')) = Some x /\
        refuses (e_log_exit x (exit_reason_of t)) (sr_portfolio s') (sr_env s) (sr_env s') m.
Proof.
  intros s. pose proof (fun s' r => exits_never_complete (V:=json) s s' r eq_refl eq_refl) as Hs.
  assert (Hr : match run (check_exits (V:=json)) s with Some (Err _, _) => true | _ => false end = true)
    by (vm_compute; reflexivity).
  revert Hr Hs. destruct (run (check_exits (V:=json)) s) as [[[u | r] s'] |]; try discriminate.
  intros _ Hs. exists r, s'. split; [reflexivity |]. exact (Hs s' (Err r) eq_refl).
Defined.
