(* ===== verification/RunnerHedge.v ===== *)
(** What the monitor sends to the exchanges
    ([monitor_active_positions] of [src/src/strategy/runner.rs]): which orders,
    how many, and for which quantities. *)
From Stdlib Require Import ZArith Lia Bool.
From stdpp Require Import base option list gmap strings pretty.
From S2P Require Import Prelude Float64 Coop Types ArrayQueue Pipeline OpportunityQueue SymbolMap MarketData Branchless Portfolio Positions FillProbability Backend ScriptedBackend AtomicExecution Entry EntryReal ExchangeParser Runner RunnerMonitor RunnerLoop ScriptedRunner RunnerSpec RunnerExits.

#[local] Open Scope string_scope.
#[local] Open Scope list_scope.
#[local] Open Scope Z_scope.

(** ** The orders and the fills reported *)

(** The quantities of the two legs reported filled. *)
Record fills := { fl_long : f64; fl_short : f64 }.
Definition no_fills : fills := {| fl_long := 0.0%f64; fl_short := 0.0%f64 |}.
Definition fill (h : OrderSide) (fl : fills) : f64 :=
  match h with Long => fl_long fl | Short => fl_short fl end.
Definition set_fill (h : OrderSide) (x : f64) (fl : fills) : fills :=
  match h with
  | Long => {| fl_long := x; fl_short := fl_short fl |}
  | Short => {| fl_long := fl_long fl; fl_short := x |}
  end.

(** How a report of [x] moves the total [f]: it is added, the first one may be
    taken as it is, and one that is not positive may be passed over. *)
Definition counted (x f f' : f64) : Prop :=
  f' = (f + x)%F \/ (f = 0.0%f64 /\ f' = x) \/ ((x >? 0.0%f64)%F = false /\ f' = f).

Definition order_of (c : call) : option SimulatedOrder :=
  match c with CPlace o _ | CMarket o _ => Some o | _ => None end.

(** Neither an order nor a report of a fill. *)
Definition quiet_call (c : call) : bool :=
  match c with CPlace _ _ | CMarket _ _ | CDetailed _ _ _ (Ok _) => false | _ => true end.

(** [closing q fl cs]: every order of [cs] trades against a leg on its exchange
    for exactly what the reports before it leave open of the leg's size [q];
    [fl] are the totals reported at the end. *)
Inductive closing_calls (m : monitored) (q : OrderSide -> f64) : fills -> list call -> Prop :=
| cc_start : closing_calls m q no_fills []
| cc_order h o c fl cs :
    closing_calls m q fl cs -> order_of c = Some o ->
    so_exchange o = mo_exchange h m -> so_side o = opposite h -> so_symbol o = mo_symbol m ->
    so_size o = (q h - fill h fl)%F -> closing_calls m q fl (cs ++ [c])
| cc_report h id sym i x fl cs :
    closing_calls m q fl cs -> counted (osi_filled_quantity i) (fill h fl) x ->
    closing_calls m q (set_fill h x fl) (cs ++ [CDetailed (mo_exchange h m) id sym (Ok i)])
| cc_quiet c fl cs :
    closing_calls m q fl cs -> quiet_call c = true -> closing_calls m q fl (cs ++ [c]).

Lemma set_fill_same h fl : set_fill h (fill h fl) fl = fl.
Proof. now destruct h, fl. Qed.
Lemma fill_set h x fl : fill h (set_fill h x fl) = x.
Proof. now destruct h. Qed.
Lemma fill_set_other h h' x fl : h <> h' -> fill h (set_fill h' x fl) = fill h fl.
Proof. now destruct h, h'. Qed.
Definition leg_size (h : OrderSide) (t : PaperTrade) : f64 :=
  match h with Long => so_size (pt_long_order t) | Short => so_size (pt_short_order t) end.

Section closing.
Context {B T F E V : Type} `{Backend B} `{DashMap T key Z} `{DashMap F Z key} `{!Sharding} `{RunnerEnv E}.
Context `{JV : Json V}.
Context (fmt2 : f64 -> string) (m : monitored).
Abbreviation state := (StrategyRunner B T F E).

(** The size of a leg of the trade being watched. *)
Definition traded (s : state) (h : OrderSide) : f64 :=
  match sr_trades s !! mo_key m with Some t => leg_size h t | None => 0.0%f64 end.

(** What the monitor has done since [s0], with at most [nl] limit and [nm] market
    orders sent. *)
Definition progress (s0 : state) (nl nm : nat) (fl : fills) (s : state) : Prop :=
  (exists cs, w_calls (sr_world s) = w_calls (sr_world s0) ++ cs /\
     closing_calls m (traded s0) fl cs /\
     (length (List.filter is_limit_call cs) <= nl)%nat /\
     (length (List.filter is_market_call cs) <= nm)%nat) /\
  forall h, traded s h = traded s0 h.

Context (s0 : state).
Abbreviation progressing := (fun s => exists fl, progress s0 2 2 fl s).

Lemma progress_start : progress s0 0 0 no_fills s0.
Proof. split; [| auto]. exists []. rewrite app_nil_r. repeat split; cbn; [constructor | lia | lia]. Qed.

Lemma progress_mono nl nm nl' nm' fl s :
  (nl <= nl')%nat -> (nm <= nm')%nat -> progress s0 nl nm fl s -> progress s0 nl' nm' fl s.
Proof. intros ? ? [(cs & ? & ? & ? & ?) ?]. split; [| assumption]. exists cs. repeat split; auto; lia. Qed.

Lemma progress_end nl nm fl s : progress s0 nl nm fl s -> (nl <= 2)%nat -> (nm <= 2)%nat -> progressing s.
Proof. intros Hp ? ?. exists fl. revert Hp. now apply progress_mono. Qed.

(** A step that appends the calls [c] and keeps the trades. *)
Lemma progress_app nl nm nl' nm' fl fl' c s s' :
  progress s0 nl nm fl s -> sr_trades s' = sr_trades s -> w_calls (sr_world s') = w_calls (sr_world s) ++ [c] ->
  (forall cs, closing_calls m (traded s0) fl cs -> closing_calls m (traded s0) fl' (cs ++ [c])) ->
  (nl + length (List.filter is_limit_call [c]) <= nl')%nat ->
  (nm + length (List.filter is_market_call [c]) <= nm')%nat ->
  progress s0 nl' nm' fl' s'.
Proof.
  intros [(cs & Hc & Hcl & Hl & Hm) Ht] Htr Hw Hf Hnl Hnm. split; [| unfold traded in *; now rewrite Htr].
  exists (cs ++ [c]). rewrite Hw, Hc, app_assoc, !List.filter_app, !length_app.
  repeat split; auto; lia.
Qed.

Lemma progress_same nl nm fl s s' :
  sr_trades s' = sr_trades s -> w_calls (sr_world s') = w_calls (sr_world s) ->
  progress s0 nl nm fl s -> progress s0 nl nm fl s'.
Proof. intros Ht Hw [Hc Hq]. split; [now rewrite Hw | unfold traded in *; now rewrite Ht]. Qed.

(** *** One step *)

Lemma upto_call {A} (mk : A -> call) (bm : ST B A) I (Q : A -> state -> Prop) s :
  (forall a b, Q a (set_world (after_call (sr_world s) b mk a) s)) -> upto (call_backend (lift_call mk bm)) I Q s.
Proof.
  intros HQ. apply upto_await. unfold wp, in_world, lift_call.
  destruct (bm (w_backend (sr_world s))) as [a b]. apply HQ.
Qed.

Lemma upto_quiet {A} (mk : A -> call) (bm : ST B A) I (Q : A -> state -> Prop) nl nm fl s :
  progress s0 nl nm fl s -> (forall a, quiet_call (mk a) = true) ->
  (forall a s', progress s0 nl nm fl s' -> Q a s') -> upto (call_backend (lift_call mk bm)) I Q s.
Proof.
  intros Hp Hq HQ. apply upto_call. intros a b. apply HQ.
  assert (Hn : is_limit_call (mk a) = false /\ is_market_call (mk a) = false)
    by (specialize (Hq a); destruct (mk a); easy).
  eapply (progress_app _ _ _ _ _ _ (mk a)); [exact Hp | reflexivity | reflexivity | | |].
  - intros cs Hc. now apply cc_quiet.
  - cbn. rewrite (proj1 Hn). cbn. lia.
  - cbn. rewrite (proj2 Hn). cbn. lia.
Qed.

Lemma upto_sleep ms I (Q : unit -> state -> Prop) nl nm fl s :
  progress s0 nl nm fl s -> (forall a s', progress s0 nl nm fl s' -> Q a s') -> upto (call_backend (sleep_ms ms)) I Q s.
Proof.
  intros Hp HQ. apply upto_await. unfold wp, in_world, sleep_ms, lift_rt.
  destruct (b_sleep_ms ms (w_backend (sr_world s))) as [a b]. apply HQ. revert Hp. now apply progress_same.
Qed.

Lemma upto_now I (Q : Z -> state -> Prop) nl nm fl s :
  progress s0 nl nm fl s -> (forall a s', progress s0 nl nm fl s' -> Q a s') -> upto (sync (in_world unix_secs)) I Q s.
Proof.
  intros Hp HQ. apply upto_sync. unfold wp, in_world, unix_secs, lift_rt.
  destruct (b_unix_secs (w_backend (sr_world s))) as [a b]. apply HQ. revert Hp. now apply progress_same.
Qed.

(** A closing order, built and then sent. *)
Definition order_closes (h : OrderSide) (size : f64) (o : SimulatedOrder) : Prop :=
  so_exchange o = mo_exchange h m /\ so_side o = opposite h /\ so_symbol o = mo_symbol m /\ so_size o = size.

Lemma upto_closing_order h p ty x size I (Q : SimulatedOrder -> state -> Prop) nl nm fl s :
  progress s0 nl nm fl s -> (forall o s', progress s0 nl nm fl s' -> order_closes h size o -> Q o s') ->
  upto (closing_order h m p ty x size) I Q s.
Proof.
  intros Hp HQ. unfold closing_order, upto. cbn. unfold in_world, new_uuid, unix_secs, lift_rt.
  destruct (b_new_uuid (w_backend (sr_world s))) as [u b1]. cbn.
  destruct (b_unix_secs b1) as [v b2]. cbn. apply HQ; [| repeat split].
  revert Hp. now apply progress_same.
Qed.

Lemma upto_place h o I (Q : result SimulatedOrder string -> state -> Prop) nl nm fl s :
  progress s0 nl nm fl s -> order_closes h (traded s0 h - fill h fl)%F o ->
  (forall r s', progress s0 (S nl) nm fl s' -> Q r s') -> upto (call_backend (place_order o)) I Q s.
Proof.
  intros Hp (He & Hs & Hy & Hz) HQ. apply upto_call. intros r b. apply HQ.
  eapply (progress_app _ _ _ _ _ _ (CPlace o r)); [exact Hp | reflexivity | reflexivity | | cbn; lia | cbn; lia].
  intros cs Hc. eapply cc_order; eauto.
Qed.

Lemma upto_market h o I (Q : result SimulatedOrder string -> state -> Prop) nl nm fl s :
  progress s0 nl nm fl s -> order_closes h (traded s0 h - fill h fl)%F o ->
  (forall r s', progress s0 nl (S nm) fl s' -> Q r s') -> upto (call_backend (place_market_order o)) I Q s.
Proof.
  intros Hp (He & Hs & Hy & Hz) HQ. apply upto_call. intros r b. apply HQ.
  eapply (progress_app _ _ _ _ _ _ (CMarket o r)); [exact Hp | reflexivity | reflexivity | | cbn; lia | cbn; lia].
  intros cs Hc. eapply cc_order; eauto.
Qed.

(** A query; the caller chooses how the report moves the total. *)
Lemma upto_detailed h id (count : f64 -> f64) I (Q : result OrderStatusInfo string -> state -> Prop) nl nm fl s :
  progress s0 nl nm fl s -> (forall x, counted x (fill h fl) (count x)) ->
  (forall i s', progress s0 nl nm (set_fill h (count (osi_filled_quantity i)) fl) s' -> Q (Ok i) s') ->
  (forall e s', progress s0 nl nm fl s' -> Q (Err e) s') ->
  upto (call_backend (get_order_status_detailed (mo_exchange h m) id (mo_symbol m))) I Q s.
Proof.
  intros Hp Hcount Hok Herr. apply upto_call. intros [i | e] b.
  - apply Hok. eapply (progress_app _ _ _ _ _ _ (CDetailed _ _ _ (Ok i))); [exact Hp | reflexivity | reflexivity | | cbn; lia | cbn; lia].
    intros cs Hc. now apply cc_report.
  - apply Herr. eapply (progress_app _ _ _ _ _ _ (CDetailed _ _ _ (Err e))); [exact Hp | reflexivity | reflexivity | | cbn; lia | cbn; lia].
    intros cs Hc. now apply cc_quiet.
Qed.

Lemma upto_get I (Q : option PaperTrade -> state -> Prop) nl nm fl s :
  progress s0 nl nm fl s ->
  (forall o, (forall t, o = Some t -> forall h, leg_size h t = traded s0 h) -> Q o s) ->
  upto (get_trade (mo_key m)) I Q s.
Proof.
  intros Hp HQ. apply upto_sync. apply HQ. intros t Ht h. rewrite <- (proj2 Hp h). unfold traded. now rewrite Ht.
Qed.

Lemma upto_modify f (Q : unit -> state -> Prop) nl nm fl s :
  (nl <= 2)%nat -> (nm <= 2)%nat -> progress s0 nl nm fl s -> (forall h t, leg_size h (f t) = leg_size h t) ->
  (forall s', progress s0 nl nm fl s' -> Q tt s') -> upto (modify_trade (mo_key m) f) progressing Q s.
Proof.
  intros Hl Hm Hp Hf HQ. apply upto_locking; [exists fl; revert Hp; now apply progress_mono |]. apply HQ.
  destruct Hp as [(cs & Hc) Ht]. split; [exists cs; exact Hc |]. intros h. rewrite <- Ht. unfold traded. cbn.
  rewrite lookup_alter, decide_True by reflexivity. destruct (sr_trades s !! mo_key m); cbn; [apply Hf | reflexivity].
Qed.

(** *** The steps of a closing *)
Abbreviation prog := (progress s0).

Lemma counted_add x f : counted x f (f + x)%F.
Proof. now left. Qed.

Lemma exit_filled_spec h id I (Q : bool -> state -> Prop) nl nm fl s :
  prog nl nm fl s -> (forall b s', prog nl nm fl s' -> Q b s') -> upto (exit_filled h m id) I Q s.
Proof.
  intros Hp HQ. unfold exit_filled. destruct id as [id |]; [| apply upto_done; now apply HQ].
  apply upto_bind. eapply upto_quiet; [exact Hp | reflexivity |]. intros r s' Hp'. apply upto_done. now apply HQ.
Qed.

(** The first query of a leg: its answer is the total. *)
Lemma cancel_and_check_spec h id I (Q : f64 -> state -> Prop) nl nm fl s :
  prog nl nm fl s -> fill h fl = 0.0%f64 ->
  (forall x s', prog nl nm (set_fill h x fl) s' -> Q x s') -> upto (cancel_and_check h m id) I Q s.
Proof.
  intros Hp Hf HQ. unfold cancel_and_check.
  assert (Hz : set_fill h 0.0%f64 fl = fl) by (rewrite <- Hf; apply set_fill_same).
  destruct id as [id |]; [| apply upto_done, HQ; now rewrite Hz].
  apply upto_bind. eapply upto_quiet; [exact Hp | reflexivity |]. intros r1 s1 Hp1. apply upto_bind.
  eapply (upto_detailed h id (fun x => x)); [exact Hp1 | intros x; right; left; auto | |]; intros.
  - apply upto_done. now apply HQ.
  - apply upto_done, HQ. now rewrite Hz.
Qed.

Lemma try_limit_spec h p I (Q : f64 -> state -> Prop) remaining nl nm fl s :
  prog nl nm fl s -> remaining = (traded s0 h - fill h fl)%F ->
  (forall x s', prog (S nl) nm (set_fill h x fl) s' -> Q x s') ->
  upto (try_limit h m p remaining (fill h fl)) I Q s.
Proof.
  intros Hp Hr HQ. unfold try_limit, best_price. apply upto_bind.
  assert (Hkeep : forall s', prog nl nm fl s' -> Q (fill h fl) s').
  { intros s' Hs'. apply HQ. rewrite set_fill_same. revert Hs'. apply progress_mono; lia. }
  assert (Hbest : forall (c : result f64 string -> state -> Prop), (forall a s', prog nl nm fl s' -> c a s') ->
    upto (call_backend match h with
          | Long => get_best_bid (mo_exchange h m) (mo_symbol m)
          | Short => get_best_ask (mo_exchange h m) (mo_symbol m) end) I c s).
  { intros c Hc. destruct h; (eapply upto_quiet; [exact Hp | reflexivity | exact Hc]). }
  apply Hbest. intros [price | e] s1 Hp1; [| apply upto_done; now apply Hkeep]. apply upto_bind.
  eapply upto_closing_order; [exact Hp1 |]. intros o s2 Hp2 Ho. apply upto_bind.
  eapply upto_place; [exact Hp2 | rewrite <- Hr; exact Ho |]. intros [o' | e] s3 Hp3.
  2: { apply upto_done, HQ. now rewrite set_fill_same. }
  apply upto_bind. eapply upto_sleep; [exact Hp3 |]. intros u s4 Hp4. apply upto_bind.
  eapply (upto_detailed h (so_id o') (fun x => fill h fl + x)%F); [exact Hp4 | intros; apply counted_add | |].
  - intros i s5 Hp5. apply upto_bind. eapply upto_quiet; [exact Hp5 | reflexivity |]. intros r s6 Hp6.
    apply upto_done. now apply HQ.
  - intros e s5 Hp5. apply upto_bind. eapply upto_quiet; [exact Hp5 | reflexivity |]. intros r s6 Hp6.
    apply upto_done, HQ. now rewrite set_fill_same.
Qed.

Lemma market_close_spec h p remaining I (Q : result SimulatedOrder string -> state -> Prop) nl nm fl s :
  prog nl nm fl s -> remaining = (traded s0 h - fill h fl)%F ->
  (forall r s', prog nl (S nm) fl s' -> Q r s') -> upto (market_close h m p remaining) I Q s.
Proof.
  intros Hp Hr HQ. unfold market_close. apply upto_bind. eapply upto_closing_order; [exact Hp |].
  intros o s1 Hp1 Ho. eapply upto_market; [exact Hp1 | rewrite <- Hr; exact Ho | exact HQ].
Qed.

(** Both closings of two legs: [try] the limit, then the market. *)
Lemma timeout_limit_spec h p quantity I (Q : f64 -> state -> Prop) nl nm fl s :
  prog nl nm fl s -> quantity = traded s0 h ->
  (forall x s', prog (S nl) nm (set_fill h x fl) s' -> Q x s') ->
  upto (timeout_limit h m p quantity (fill h fl)) I Q s.
Proof.
  intros Hp -> HQ. unfold timeout_limit. cbv zeta. destruct (_ >? _)%F.
  - now eapply try_limit_spec; [exact Hp | |].
  - apply upto_done, HQ. rewrite set_fill_same. revert Hp. apply progress_mono; lia.
Qed.

Lemma stop_loss_limit_spec h p quantity I (Q : f64 -> state -> Prop) nl nm fl s :
  prog nl nm fl s -> quantity = traded s0 h ->
  (forall x s', prog (S nl) nm (set_fill h x fl) s' -> Q x s') ->
  upto (stop_loss_limit h m p quantity (fill h fl)) I Q s.
Proof.
  intros Hp -> HQ. unfold stop_loss_limit. destruct (_ <? _)%F.
  - now eapply try_limit_spec; [exact Hp | |].
  - apply upto_done, HQ. rewrite set_fill_same. revert Hp. apply progress_mono; lia.
Qed.

Lemma timeout_market_spec h p quantity I (Q : unit -> state -> Prop) nl nm fl s :
  prog nl nm fl s -> quantity = traded s0 h -> (forall s', prog nl (S nm) fl s' -> Q tt s') ->
  upto (timeout_market h m p quantity (fill h fl)) I Q s.
Proof.
  intros Hp -> HQ. unfold timeout_market. cbv zeta. destruct (_ >? _)%F.
  - apply upto_bind. eapply market_close_spec; [exact Hp | reflexivity |]. intros r s' Hp'.
    apply upto_done. now apply HQ.
  - apply upto_done, HQ. revert Hp. apply progress_mono; lia.
Qed.

Lemma stop_loss_market_spec h p remaining I (Q : result SimulatedOrder string -> state -> Prop) nl nm fl s :
  prog nl nm fl s -> remaining = (traded s0 h - fill h fl)%F ->
  (forall r s', prog nl (S nm) fl s' -> Q r s') -> upto (stop_loss_market h m p remaining) I Q s.
Proof.
  intros Hp Hr HQ. unfold stop_loss_market. destruct (_ >? _)%F.
  - eapply market_close_spec; eassumption.
  - apply upto_done, HQ. revert Hp. apply progress_mono; lia.
Qed.

Lemma exiting_size r x h t : leg_size h (exiting r x t) = leg_size h t.
Proof. now destruct h. Qed.
Lemma mark_exiting_size h t : leg_size h (mark_exiting t) = leg_size h t.
Proof. now destruct h. Qed.
Lemma stop_loss_exit_size r x h t : leg_size h (stop_loss_exit r x t) = leg_size h t.
Proof. now destruct h. Qed.

(** *** The four ways to close *)
Abbreviation closed := (fun (_ : unit) s => progressing s).

Lemma force_close_spec i1 i2 s : prog 0 0 no_fills s -> upto (force_close m i1 i2) progressing closed s.
Proof.
  intros Hp. unfold force_close. apply upto_bind. eapply upto_get; [exact Hp |]. intros [t |] Ht.
  2: { apply upto_done. eapply progress_end; [exact Hp | lia | lia]. }
  specialize (Ht t eq_refl). pose proof (Ht Long) as Hl. pose proof (Ht Short) as Hs. cbn in Hl, Hs.
  apply upto_bind. eapply cancel_and_check_spec; [exact Hp | reflexivity |]. intros x1 s1 Hp1.
  apply upto_bind. eapply cancel_and_check_spec; [exact Hp1 | reflexivity |]. intros y1 s2 Hp2.
  apply upto_bind. refine (timeout_limit_spec Long _ _ _ _ _ _ _ _ Hp2 Hl _). intros x2 s3 Hp3.
  apply upto_bind. refine (timeout_limit_spec Short _ _ _ _ _ _ _ _ Hp3 Hs _). intros y2 s4 Hp4.
  apply upto_bind. refine (timeout_market_spec Long _ _ _ _ _ _ _ _ Hp4 Hl _). intros s5 Hp5.
  apply upto_bind. refine (timeout_market_spec Short _ _ _ _ _ _ _ _ Hp5 Hs _). intros s6 Hp6.
  eapply upto_modify; [| | exact Hp6 | intros; apply exiting_size |]; [lia | lia |]. intros s7 Hp7. eauto.
Qed.

Lemma stop_loss_spec i1 i2 s : prog 0 0 no_fills s -> upto (stop_loss fmt2 m i1 i2) progressing closed s.
Proof.
  intros Hp. unfold stop_loss. apply upto_bind. eapply upto_get; [exact Hp |]. intros [t |] Ht.
  2: { apply upto_done. eapply progress_end; [exact Hp | lia | lia]. }
  specialize (Ht t eq_refl). pose proof (Ht Long) as Hl. pose proof (Ht Short) as Hs. cbn in Hl, Hs.
  apply upto_bind. eapply cancel_and_check_spec; [exact Hp | reflexivity |]. intros x1 s1 Hp1.
  apply upto_bind. eapply cancel_and_check_spec; [exact Hp1 | reflexivity |]. intros y1 s2 Hp2.
  apply upto_bind. eapply upto_modify; [| | exact Hp2 | intros; apply stop_loss_exit_size |]; [lia | lia |].
  intros s3 Hp3. destruct (_ && _).
  { apply upto_done. eapply progress_end; [exact Hp3 | lia | lia]. }
  apply upto_bind. refine (stop_loss_limit_spec Long _ _ _ _ _ _ _ _ Hp3 Hl _). intros x2 s4 Hp4.
  apply upto_bind. refine (stop_loss_limit_spec Short _ _ _ _ _ _ _ _ Hp4 Hs _). intros y2 s5 Hp5.
  destruct (_ && _).
  { apply upto_done. eapply progress_end; [exact Hp5 | lia | lia]. }
  apply upto_bind. eapply stop_loss_market_spec; [exact Hp5 | now rewrite Hl |]. intros r1 s6 Hp6.
  apply upto_bind. eapply stop_loss_market_spec; [exact Hp6 | now rewrite Hs |]. intros r2 s7 Hp7.
  apply upto_done. eauto.
Qed.

(** The limit order into the book. *)
Lemma smart_limit_spec total (Q : f64 * bool -> state -> Prop) nm fl s :
  (nm <= 2)%nat -> prog 0 nm fl s -> fill Short fl = total ->
  (forall x b s', prog 1 nm (set_fill Short x fl) s' -> Q (x, b) s') ->
  upto (smart_limit m (traded s0 Short - total)%F total) progressing Q s.
Proof.
  intros Hm Hp <- HQ. unfold smart_limit. apply upto_bind. eapply upto_quiet; [exact Hp | reflexivity |].
  assert (Hkeep : forall s', prog 0 nm fl s' -> Q (fill Short fl, false) s').
  { intros s' Hs'. apply HQ. rewrite set_fill_same. revert Hs'. apply progress_mono; lia. }
  intros [book | e] s1 Hp1; [| apply upto_done; now apply Hkeep]. cbv zeta.
  destruct (_ >? _)%F; [| apply upto_done; now apply Hkeep].
  apply upto_bind. eapply upto_closing_order; [exact Hp1 |]. intros o s2 Hp2 Ho. apply upto_bind.
  eapply (upto_place Short); [exact Hp2 | exact Ho |]. intros [o' | e] s3 Hp3.
  2: { apply upto_done, HQ. now rewrite set_fill_same. }
  apply upto_bind. eapply upto_sleep; [exact Hp3 |]. intros u s4 Hp4. apply upto_bind.
  eapply (upto_detailed Short (so_id o') (fun x => fill Short fl + x)%F); [exact Hp4 | intros; apply counted_add | |].
  - intros i s5 Hp5. destruct (_ >=? _)%F; apply upto_bind.
    + eapply upto_modify; [| | exact Hp5 | intros; apply exiting_size |]; [lia | exact Hm |].
      intros s6 Hp6. apply upto_done. now apply HQ.
    + eapply upto_quiet; [exact Hp5 | reflexivity |]. intros r s6 Hp6. apply upto_done. now apply HQ.
  - intros e s5 Hp5. apply upto_bind. eapply upto_quiet; [exact Hp5 | reflexivity |]. intros r s6 Hp6.
    apply upto_done, HQ. now rewrite set_fill_same.
Qed.

(** The last steps of a hedge: the market order, and the books if it was
    accepted. *)
Lemma market_hedge_spec h p remaining f (Q : unit -> state -> Prop) nl nm fl s :
  (nl <= 2)%nat -> (nm <= 1)%nat -> prog nl nm fl s -> remaining = (traded s0 h - fill h fl)%F ->
  (forall h t, leg_size h (f t) = leg_size h t) ->
  (forall s', prog nl (S nm) fl s' -> Q tt s') ->
  upto (tbind (market_close h m p remaining)
          (fun r => match r with Ok _ => modify_trade (mo_key m) f | Err _ => Done tt end)) progressing Q s.
Proof.
  intros Hl Hm Hp Hr Hf HQ. apply upto_bind. eapply market_close_spec; [exact Hp | exact Hr |].
  intros [r | e] s1 Hp1; [| apply upto_done; now apply HQ].
  eapply upto_modify; [| | exact Hp1 | exact Hf |]; [lia | lia | exact HQ].
Qed.

Lemma zero_add_counted x : counted x 0.0%f64 (0.0%f64 + x)%F.
Proof. now left. Qed.

Lemma hedge_short_spec id s : prog 0 0 no_fills s -> upto (hedge_short_exit m id) progressing closed s.
Proof.
  intros Hp. unfold hedge_short_exit. apply upto_bind.
  eapply upto_modify; [| | exact Hp | intros; apply mark_exiting_size |]; [lia | lia |]. intros s1 Hp1.
  apply upto_bind. eapply upto_get; [exact Hp1 |]. intros [t |] Ht.
  2: { apply upto_done. eapply progress_end; [exact Hp1 | lia | lia]. }
  specialize (Ht t eq_refl Short). cbn in Ht. cbv zeta. apply upto_bind.
  assert (Hcancel : forall (Q : f64 -> state -> Prop), (forall x s', prog 0 0 (set_fill Short match id with
      Some _ => (0.0%f64 + x)%F | None => x end no_fills) s' -> Q x s') -> upto (cancel_and_check Short m id) progressing Q s1).
  { intros Q HQ. unfold cancel_and_check. destruct id as [id |]; [| now apply upto_done, HQ].
    apply upto_bind. eapply upto_quiet; [exact Hp1 | reflexivity |]. intros r1 s2 Hp2. apply upto_bind.
    eapply (upto_detailed Short id (fun x => 0.0%f64 + x)%F); [exact Hp2 | intros x; now left | |]; intros.
    - apply upto_done. now apply HQ.
    - now apply upto_done, HQ. }
  apply Hcancel. intros x s2 Hp2. set (total := match id with Some _ => _ | None => _ end) in *.
  rewrite Ht. destruct (_ >=? _)%F.
  { eapply upto_modify; [| | exact Hp2 | intros; apply exiting_size |]; [lia | lia |].
    intros s3 Hp3. eapply progress_end; [exact Hp3 | lia | lia]. }
  apply upto_bind. eapply smart_limit_spec; [| exact Hp2 | reflexivity |]; [lia |].
  intros y b s3 Hp3. cbn [set_fill fl_long fl_short] in *. destruct b.
  { apply upto_done. eapply progress_end; [exact Hp3 | lia | lia]. }
  destruct (_ >=? _)%F.
  { eapply upto_modify; [| | exact Hp3 | intros; apply exiting_size |]; [lia | lia |].
    intros s4 Hp4. eapply progress_end; [exact Hp4 | lia | lia]. }
  eapply market_hedge_spec; [| | exact Hp3 | reflexivity | intros; apply exiting_size |]; [lia | lia |].
  intros s4 Hp4. eapply progress_end; [exact Hp4 | lia | lia].
Qed.

(** The long hedge starts from the whole leg: it has asked about no order. *)
Lemma recommended_limit_spec d x (Q : bool -> state -> Prop) s :
  prog 0 0 no_fills s ->
  (forall fl s', prog 1 1 fl s' -> Q true s') -> (forall s', prog 1 0 no_fills s' -> Q false s') ->
  upto (recommended_limit m d x (traded s0 Long)) progressing Q s.
Proof.
  intros Hp Hover Hnot. unfold recommended_limit. apply upto_bind. eapply upto_closing_order; [exact Hp |].
  intros o s1 Hp1 Ho. apply upto_bind.
  eapply (upto_place Long); [exact Hp1 | cbn; rewrite fsub_zero; exact Ho |].
  intros [o' | e] s2 Hp2; [| apply upto_done; now apply Hnot].
  apply upto_bind. eapply upto_sleep; [exact Hp2 |]. intros u s3 Hp3. apply upto_bind. cbv zeta.
  assert (Hunfilled : forall s', prog 1 0 no_fills s' ->
    upto (tbind (call_backend (cancel_order (mo_exchange Long m) (so_id o'))) (fun _ => Done false)) progressing Q s').
  { intros s' Hp'. apply upto_bind. eapply upto_quiet; [exact Hp' | reflexivity |]. intros r s'' Hp''.
    apply upto_done. now apply Hnot. }
  eapply (upto_detailed Long (so_id o') (fun x => if (x >? 0.0%f64)%F then x else 0.0%f64));
    [exact Hp3 | | | intros; now apply Hunfilled].
  - intros y. cbn. destruct (y >? _)%F eqn:Ey; [right; left; auto | right; right; auto].
  - intros i s4 Hp4. destruct (is_fully_filled i).
    + apply upto_bind. eapply upto_modify; [| | exact Hp4 | intros; apply exiting_size |]; [lia | lia |].
      intros s5 Hp5. apply upto_done. eapply Hover, (progress_mono 1 0); [lia | lia | exact Hp5].
    + cbv beta in Hp4. destruct (osi_filled_quantity i >? 0.0%f64)%F eqn:Ey.
      * apply upto_bind. eapply upto_quiet; [exact Hp4 | reflexivity |]. intros r5 s5 Hp5. apply upto_bind.
        eapply market_close_spec; [exact Hp5 | reflexivity |]. intros r6 s6 Hp6. apply upto_bind.
        eapply upto_modify; [| | exact Hp6 | intros; apply exiting_size |]; [lia | lia |].
        intros s7 Hp7. apply upto_done. eapply Hover. exact Hp7.
      * apply Hunfilled. exact Hp4.
Qed.

Lemma instant_hedge_spec nl s : (nl <= 2)%nat -> prog nl 0 no_fills s ->
  upto (instant_hedge m (traded s0 Long)) progressing closed s.
Proof.
  intros Hl Hp. unfold instant_hedge. eapply market_hedge_spec; [| | exact Hp | cbn; now rewrite fsub_zero | intros; apply exiting_size |]; [lia | lia |].
  intros s' Hp'. eapply progress_end; [exact Hp' | lia | lia].
Qed.

Lemma hedge_long_spec id s : prog 0 0 no_fills s -> upto (hedge_long_exit m id) progressing closed s.
Proof.
  intros Hp. unfold hedge_long_exit. apply upto_bind.
  eapply upto_modify; [| | exact Hp | intros; apply mark_exiting_size |]; [lia | lia |]. intros s1 Hp1.
  apply upto_bind. eapply upto_get; [exact Hp1 |]. intros [t |] Ht.
  2: { apply upto_done. eapply progress_end; [exact Hp1 | lia | lia]. }
  specialize (Ht t eq_refl Long). cbn in Ht. cbv zeta. rewrite Ht. apply upto_bind.
  assert (Hcancel : forall (Q : unit -> state -> Prop), (forall s', prog 0 0 no_fills s' -> Q tt s') ->
    upto match id with Some id => tbind (call_backend (cancel_order (mo_exchange Long m) id)) (fun _ => Done tt)
         | None => Done tt end progressing Q s1).
  { intros Q HQ. destruct id as [id |]; [| apply upto_done; now apply HQ]. apply upto_bind.
    eapply upto_quiet; [exact Hp1 | reflexivity |]. intros r s2 Hp2. apply upto_done. now apply HQ. }
  apply Hcancel. intros s2 Hp2. apply upto_bind. eapply upto_quiet; [exact Hp2 | reflexivity |].
  intros [book | e] s3 Hp3.
  - apply upto_bind. apply upto_sync. red. destruct (ld_use_limit _).
    + destruct (limit_price _ _) as [price |]; [| exact (progress_end _ _ _ _ Hp3 ltac:(lia) ltac:(lia))].
      apply upto_bind. apply recommended_limit_spec; [exact Hp3 | |].
      * intros fl s4 Hp4. apply upto_done. eapply progress_end; [exact Hp4 | lia | lia].
      * intros s4 Hp4. now apply (instant_hedge_spec 1); [lia |].
    + now apply (instant_hedge_spec 0); [lia |].
  - apply upto_bind. eapply market_close_spec; [exact Hp3 | cbn; now rewrite fsub_zero |]. intros r s4 Hp4.
    eapply upto_modify; [| | exact Hp4 | intros; apply exiting_size |]; [lia | lia |].
    intros s5 Hp5. eapply progress_end; [exact Hp5 | lia | lia].
Qed.

Lemma monitor_real_spec s : prog 0 0 no_fills s -> upto (monitor_real fmt2 m) progressing closed s.
Proof.
  intros Hp. unfold monitor_real. apply upto_bind. eapply upto_get; [exact Hp |]. intros [t |] Ht.
  2: { apply upto_done. eapply progress_end; [exact Hp | lia | lia]. }
  cbv zeta. apply upto_bind. eapply exit_filled_spec; [exact Hp |]. intros b1 s1 Hp1.
  apply upto_bind. eapply exit_filled_spec; [exact Hp1 |]. intros b2 s2 Hp2. destruct b1, b2.
  - unfold both_exits_filled. eapply upto_modify; [| | exact Hp2 | intros; apply exiting_size |]; [lia | lia |].
    intros s3 Hp3. eapply progress_end; [exact Hp3 | lia | lia].
  - now apply hedge_short_spec.
  - now apply hedge_long_spec.
  - apply upto_bind. eapply upto_now; [exact Hp2 |]. intros now s3 Hp3. apply upto_bind.
    eapply upto_get; [exact Hp3 |]. intros [t' |] Ht'.
    2: { apply upto_done. eapply progress_end; [exact Hp3 | lia | lia]. }
    destruct (_ && _); [now apply force_close_spec |]. destruct (_ && _); [now apply stop_loss_spec |].
    apply upto_done. eapply progress_end; [exact Hp3 | lia | lia].
Qed.
End closing.

(** ** The theorem *)
Section theorem.
Context {B T F E V : Type} `{Backend B} `{DashMap T key Z} `{DashMap F Z key} `{!Sharding} `{RunnerEnv E}.
Context (fmt2 : f64 -> string).
Abbreviation state := (StrategyRunner B T F E).

(** C7. One look at a trade with exit orders sends at most two limit and two
    market orders, and each of them trades against one of its legs, on the leg's
    exchange, for exactly what the fills reported until then leave open of it. *)
Theorem monitor_orders_close (m : monitored) (s : state) :
  exists cs fl, w_calls (sr_world (last_state (monitor_real fmt2 m) s)) = w_calls (sr_world s) ++ cs /\
    closing_calls m (traded m s) fl cs /\
    (length (List.filter is_limit_call cs) <= 2)%nat /\
    (length (List.filter is_market_call cs) <= 2)%nat.
Proof.
  destruct (upto_last _ _ _ _ (monitor_real_spec fmt2 m s s (progress_start m s)) (fun _ _ H => H))
    as (fl & (cs & ?) & ?).
  exists cs, fl. assumption.
Qed.
End theorem.
