(* ===== verification/RunnerGaps.v ===== *)
(** What the monitoring of a real trade leaves uncovered
    ([src/src/strategy/runner.rs]): a trade without both exit orders, the fill
    of a cancelled long exit order, a hedge that is refused, and a hedge cut
    short by the other task of the join. *)
From Stdlib Require Import ZArith Lia Bool.
From stdpp Require Import base option list gmap strings pretty.
From S2P Require Import Prelude Float64 Coop Types ArrayQueue Pipeline OpportunityQueue SymbolMap MarketData Branchless Portfolio Positions FillProbability Backend ScriptedBackend AtomicExecution Entry EntryReal ExchangeParser Runner RunnerMonitor RunnerLoop ScriptedRunner RunnerSpec RunnerExits RunnerHedge.

#[local] Open Scope string_scope.
#[local] Open Scope list_scope.
#[local] Open Scope Z_scope.

(** ** A trade without both exit orders *)
Section missing.
Context {B T F E V : Type} `{Backend B} `{DashMap T key Z} `{DashMap F Z key} `{!Sharding} `{RunnerEnv E}.
Context `{JV : Json V}.
Context (fmt2 : f64 -> string).
Abbreviation state := (StrategyRunner B T F E).

Definition silent (s s' : state) : Prop := sr_world s' = sr_world s.

#[local] Instance silent_preorder : PreOrder silent.
Proof. split; [intros x; reflexivity | intros x y z; unfold silent; congruence]. Qed.

Lemma silent_prices y : respects silent (get_current_prices y : ST state _).
Proof.
  intros s. unfold get_current_prices, get_prices_from_store, silent.
  destruct (List.find _ _) as [[k t] |]; [| reflexivity].
  destruct (get_or_insert _ _ _) as [a sm]. destruct (get_or_insert _ _ sm) as [b sm']. reflexivity.
Qed.

Lemma silent_paper m : safe silent (monitor_paper fmt2 m : task state _).
Proof.
  unfold monitor_paper. apply safe_bind; [apply safe_sync_st, silent_prices |].
  intros [[x y] | e]; [| constructor].
  apply safe_bind; [apply safe_sync_st; intros s; reflexivity |]. intros t.
  apply safe_bind; [apply safe_sync_st |].
  { intros s. unfold in_env. destruct (e_unix_millis (sr_env s)). reflexivity. }
  intros now. apply safe_bind; [apply safe_locking; intros s; reflexivity |]. constructor.
Qed.

(** A trade of a real backend that lacks one of its exit orders is watched as
    a paper trade: whatever the prices do, no call at all reaches an exchange,
    neither an order nor a query. *)
Theorem unprotected_trade_sends_nothing (s : state) (id : string) (t : PaperTrade) (real : bool) :
  sr_trades s !! id = Some t -> has_exit_orders t = false ->
  sr_world (last_state (monitor_trade fmt2 real id) s) = sr_world s.
Proof.
  intros Ht Hx. unfold monitor_trade. rewrite last_bind. unfold get_trade. rewrite run_sync, Ht.
  apply (safe_last silent). apply safe_bind; [apply safe_sync_st, silent_prices |].
  intros [[x y] | e]; [| constructor]. cbv zeta. rewrite Hx, andb_false_r. apply silent_paper.
Qed.
End missing.

(** ** Runs *)

(** An order of a leg, and a trade of one coin a leg with both exit orders. *)
Definition leg (id exchange : string) (side : OrderSide) (size : f64) : SimulatedOrder :=
  {| so_id := id; so_exchange := exchange; so_symbol := "BTCUSDT"; so_side := side; so_order_type := Limit;
     so_price := 100.0%f64; so_size := size; so_queue_position := None; so_created_at := 0;
     so_filled_at := None; so_fill_price := None; so_status := Filled |}.

Definition watched : PaperTrade :=
  {| pt_id := "t"; pt_symbol := "BTCUSDT"; pt_long_exchange := "binance";
     pt_short_exchange := "hyperliquid"; pt_entry_time := 0; pt_entry_long_price := 100.0%f64;
     pt_entry_short_price := 101.0%f64; pt_entry_spread_bps := 100.0%f64;
     pt_position_size_usd := 100.0%f64; pt_funding_delta_entry := 0.0001%f64;
     pt_projected_profit_usd := 1.0%f64; pt_actual_profit_usd := 0.0%f64; pt_status := TActive;
     pt_exit_reason := None; pt_exit_spread_bps := None; pt_exit_time := None;
     pt_long_order := leg "l" "binance" Long 1.0%f64; pt_short_order := leg "s" "hyperliquid" Short 1.0%f64;
     pt_long_exit_order := Some (leg "lx" "binance" Short 1.0%f64);
     pt_short_exit_order := Some (leg "sx" "hyperliquid" Long 1.0%f64);
     pt_stop_loss_triggered := false; pt_stop_loss_long_price := 0.0%f64;
     pt_stop_loss_short_price := 1000.0%f64; pt_leg_out_event := None |}.

Definition watching (script : Script) (t : PaperTrade) : demo_runner :=
  let s := lp_runner (process_updates (demo_start (as_demo script) [])) in
  let '(_, p) := open_trade t (Ok tt) (Ok tt) (sr_portfolio s) in
  set_trades {[ "t" := t ]} (set_portfolio p s).

(** The scripts: the answers about the long and the short exit order, whether
    they may be cancelled, what the cancelled order had filled, and how a market
    order is answered. *)
Definition half_exit (long short : OrderStatus) (cancelled_fill : f64) (market : list (result unit string)) : Script :=
  {| sc_leverage := []; sc_place := []; sc_market := market; sc_cancel := []; sc_status := [Ok long; Ok short];
     sc_detailed := [Ok (status_info Cancelled cancelled_fill 1.0%f64)]; sc_balance := []; sc_depth := [];
     sc_bid := []; sc_ask := []; sc_now := 0; sc_ids := 0; sc_name := "Demo" |}.

Definition order_sizes (w : World Script) : list f64 :=
  omap (fun c => so_size <$> order_of c) (w_calls w).

Definition look (s : demo_runner) : demo_runner := last_state (monitor_active_positions demo_text) s.

(** The long exit order had filled four tenths when it was cancelled; the hedge
    sells the whole leg.  The short one is asked, and only the rest is bought. *)
Lemma long_hedge_ignores_exit_fill :
  order_sizes (sr_world (look (watching (half_exit Pending Filled 0.4%f64 [Ok tt]) watched))) = [1.0%f64] /\
  order_sizes (sr_world (look (watching (half_exit Filled Pending 0.4%f64 [Ok tt]) watched))) = [0.6%f64].
Proof. split; vm_compute; reflexivity. Qed.

(** A trade whose short exit order was refused at entry. *)
Definition without_short_exit (t : PaperTrade) : PaperTrade :=
  {| pt_id := pt_id t; pt_symbol := pt_symbol t; pt_long_exchange := pt_long_exchange t;
     pt_short_exchange := pt_short_exchange t; pt_entry_time := pt_entry_time t;
     pt_entry_long_price := pt_entry_long_price t; pt_entry_short_price := pt_entry_short_price t;
     pt_entry_spread_bps := pt_entry_spread_bps t; pt_position_size_usd := pt_position_size_usd t;
     pt_funding_delta_entry := pt_funding_delta_entry t;
     pt_projected_profit_usd := pt_projected_profit_usd t; pt_actual_profit_usd := pt_actual_profit_usd t;
     pt_status := pt_status t; pt_exit_reason := pt_exit_reason t;
     pt_exit_spread_bps := pt_exit_spread_bps t; pt_exit_time := pt_exit_time t;
     pt_long_order := pt_long_order t; pt_short_order := pt_short_order t;
     pt_long_exit_order := pt_long_exit_order t; pt_short_exit_order := None;
     pt_stop_loss_triggered := pt_stop_loss_triggered t;
     pt_stop_loss_long_price := pt_stop_loss_long_price t;
     pt_stop_loss_short_price := pt_stop_loss_short_price t; pt_leg_out_event := pt_leg_out_event t |}.

Lemma unprotected_trade_sends_nothing_witness :
  let s := watching (half_exit Filled Pending 0.0%f64 []) (without_short_exit watched) in
  sr_world (last_state (monitor_trade demo_text true "t") s) = sr_world s.
Proof.
  intros s. refine (unprotected_trade_sends_nothing demo_text s "t" (without_short_exit watched) true _ eq_refl).
  vm_compute. reflexivity.
Defined.

(** The long leg is closed, the market hedge of the short leg is refused; the
    next [check_exits] books the whole entry spread less the fees as profit. *)
Lemma refused_hedge_booked_as_profit :
  let s := look (watching (half_exit Filled Pending 0.0%f64 [Err "rejected"]) watched) in
  let s' := last_state (check_exits (V:=json)) s in
  order_sizes (sr_world s') = [1.0%f64] /\
  (pt_status <$> sr_trades s !! "t") = Some TExiting /\
  (ps_cumulative_pnl (sr_portfolio s') >? 0.9%f64)%F = true /\
  (pt_status <$> ps_closed_trades (sr_portfolio s')) = [TClosed].
Proof. vm_compute. auto. Qed.

(** The two tasks of the join: while the monitor awaits the cancellation of the
    short exit order, [check_exits] sees the trade exiting, closes it in the
    books and never comes back; the short leg, still open, is never bought back. *)
Definition join_of (s : demo_runner) :=
  join_tasks (monitor_active_positions demo_text) (check_exits (V:=json)) s.

Lemma hedge_cut_short :
  let s := watching (half_exit Filled Pending 0.0%f64 [Ok tt]) watched in
  exists j, star join_step (join_of s) j /\ stuck j /\
    order_sizes (sr_world (jn_state j)) = [] /\
    (ps_cumulative_pnl (sr_portfolio (jn_state j)) >? 0.9%f64)%F = true.
Proof.
  intros s. exists (drive (true :: true :: false :: repeat true 20) 200 (join_of s)).
  split; [apply drive_star |]. split; [apply is_stuck_stuck |]; [| split]; vm_compute; reflexivity.
Qed.
