(* ===== verification/RunnerReturns.v ===== *)
(** The monitor comes back: run by itself, with no reference to [active_trades] held,
    one turn of [monitor_active_positions] ([src/src/strategy/runner.rs]) neither
    waits for a lock nor indexes past the end of an order book. *)
From Stdlib Require Import ZArith Lia Bool.
From stdpp Require Import base option list gmap strings pretty.
From S2P Require Import Prelude Float64 Coop Types ArrayQueue Pipeline OpportunityQueue SymbolMap MarketData Branchless Portfolio Positions FillProbability Backend ScriptedBackend AtomicExecution Entry EntryReal ExchangeParser Runner RunnerMonitor RunnerLoop ScriptedRunner RunnerSpec RunnerHedge RunnerGaps.

#[local] Open Scope string_scope.
#[local] Open Scope Z_scope.

(** The index [book_side[0]]: a level is only recommended on a side that has it. *)
Lemma recommended_level_exists book size :
  ld_use_limit (should_try_limit FillProbabilityEstimator_new book Short size) = true ->
  limit_price (obd_bids book) (ld_price_level (should_try_limit FillProbabilityEstimator_new book Short size)) <> None.
Proof.
  intros Hu. destruct (should_try_limit_best FillProbabilityEstimator_new book Short size) as [Hd _].
  destruct (Hd Hu) as (_ & _ & Hp). revert Hp. unfold limit_price.
  destruct (obd_bids book) as [| l ls] eqn:Eb; [| intros _; destruct ((l :: ls) !! _); discriminate].
  unfold calculate_fill_probability, book_side_of. rewrite Eb. cbn. discriminate.
Qed.

Section returns.
Context {B T F E V : Type} `{Backend B} `{DashMap T key Z} `{DashMap F Z key} `{!Sharding} `{RunnerEnv E}.
Context (fmt2 : f64 -> string).
Abbreviation state := (StrategyRunner B T F E).

(** No reference is held, and the estimator is the one [new] creates. *)
Definition ready (s : state) : Prop :=
  sr_guards s = [] /\ sr_estimator s = FillProbabilityEstimator_new.

(** From a ready state the task ends, in a ready state. *)
Definition ends {A} (t : task state A) : Prop := forall s, ready s -> twp t (fun _ => ready) s.

Lemma ends_done {A} (a : A) : ends (Done a).
Proof. intros s Hs. exact Hs. Qed.

Lemma ends_bind {A C} (t : task state A) (k : A -> task state C) :
  ends t -> (forall a, ends (k a)) -> ends (tbind t k).
Proof. intros Ht Hk s Hs. apply twp_bind. eapply twp_mono; [apply Ht, Hs |]. intros a. apply Hk. Qed.

Lemma ends_sync {A} (m : ST state A) :
  (forall s, sr_guards (snd (m s)) = sr_guards s /\ sr_estimator (snd (m s)) = sr_estimator s) -> ends (sync m).
Proof.
  intros Hm s [Hg He]. apply twp_sync. unfold wp. specialize (Hm s). destruct (m s) as [a s']. cbn in Hm.
  destruct Hm as [Hg' He']. split; congruence.
Qed.

Lemma ends_in_world {A} (c : ST (World B) A) : ends (sync (in_world c)).
Proof. apply ends_sync. intros s. unfold in_world. now destruct (c (sr_world s)). Qed.

Lemma ends_call {A} (c : ST (World B) A) : ends (call_backend c).
Proof.
  intros s Hs. apply twp_await. unfold wp, in_world. destruct (c (sr_world s)) as [a w]. exact Hs.
Qed.

Lemma ends_get k : ends (get_trade k).
Proof. now apply ends_sync. Qed.

Lemma ends_modify k f : ends (modify_trade k f).
Proof.
  intros s [Hg He]. apply twp_locking; [unfold writable; now rewrite Hg |]. now split.
Qed.

Lemma ends_prices y : ends (sync (get_current_prices y)).
Proof.
  apply ends_sync. intros s. unfold get_current_prices, get_prices_from_store.
  destruct (List.find _ _) as [[k t] |]; [| auto].
  destruct (get_or_insert _ _ _) as [a sm]. destruct (get_or_insert _ _ sm) as [b sm']. auto.
Qed.

Lemma ends_closing h m p ty x y : ends (closing_order h m p ty x y).
Proof.
  unfold closing_order. apply ends_bind; [apply ends_in_world | intros u].
  apply ends_bind; [apply ends_in_world | intros v; apply ends_done].
Qed.

(** One synchronous answer that the rest depends on. *)
Lemma ends_estimator {A} (k : FillProbabilityEstimator -> task state A) :
  ends (k FillProbabilityEstimator_new) -> ends (tbind (sync (fun s => (sr_estimator s, s))) k).
Proof. intros Hk s Hs. apply twp_bind, twp_sync. unfold wp. rewrite (proj2 Hs). now apply Hk. Qed.
End returns.

#[export] Hint Resolve ends_done ends_in_world ends_call ends_get ends_modify ends_prices ends_closing : arb.

(** Proves [ends t] by decomposing [t]. *)
Ltac solve_ends :=
  repeat first
  [ solve [auto with arb]
  | lazymatch goal with
    | |- ends (tbind _ _) => apply ends_bind; [| intros ?]
    | |- ends (match ?x with _ => _ end) => destruct x
    | |- ends (if ?x then _ else _) => destruct x
    | |- ends (let '(_, _) := ?x in _) => destruct x
    end ].

Section monitor_returns.
Context {B T F E V : Type} `{Backend B} `{DashMap T key Z} `{DashMap F Z key} `{!Sharding} `{RunnerEnv E}.
Context (fmt2 : f64 -> string) (m : monitored).
Abbreviation state := (StrategyRunner B T F E).
Abbreviation returns := (ends (B:=B) (T:=T) (F:=F) (E:=E)).

Lemma exit_filled_ends h id : returns (exit_filled h m id).
Proof. unfold exit_filled. solve_ends. Qed.
Lemma cancel_and_check_ends h id : returns (cancel_and_check h m id).
Proof. unfold cancel_and_check. solve_ends. Qed.
Lemma try_limit_ends h p x y : returns (try_limit h m p x y).
Proof. unfold try_limit. cbv zeta. solve_ends. Qed.
Lemma market_close_ends h p x : returns (market_close h m p x).
Proof. unfold market_close. solve_ends. Qed.
Hint Resolve exit_filled_ends cancel_and_check_ends try_limit_ends market_close_ends : arb.

Lemma force_close_ends a b : returns (force_close m a b).
Proof. unfold force_close, timeout_limit, timeout_market. cbv zeta. solve_ends. Qed.
Lemma hedge_short_ends a : returns (hedge_short_exit m a).
Proof. unfold hedge_short_exit, smart_limit. cbv zeta. solve_ends. Qed.
Lemma stop_loss_ends a b : returns (stop_loss fmt2 m a b).
Proof. unfold stop_loss, stop_loss_limit, stop_loss_market. cbv zeta. solve_ends. Qed.

Lemma instant_hedge_ends x : returns (instant_hedge m x).
Proof. unfold instant_hedge. solve_ends. Qed.
Lemma recommended_limit_ends d x y : returns (recommended_limit m d x y).
Proof. unfold recommended_limit. cbv zeta. solve_ends. Qed.
Hint Resolve instant_hedge_ends recommended_limit_ends : arb.

Lemma hedge_long_ends a : returns (hedge_long_exit m a).
Proof.
  unfold hedge_long_exit. apply ends_bind; [auto with arb | intros _].
  apply ends_bind; [auto with arb | intros [t |]]; [| auto with arb]. cbv zeta.
  apply ends_bind; [solve_ends | intros _]. apply ends_bind; [auto with arb | intros [book | e]]; [| solve_ends].
  apply ends_estimator. pose proof (recommended_level_exists book (so_size (pt_long_order t) * mo_long_price m)%F) as Hl.
  destruct (ld_use_limit _); [| auto with arb]. specialize (Hl eq_refl).
  destruct (limit_price _ _); [solve_ends | congruence].
Qed.
Hint Resolve force_close_ends hedge_short_ends stop_loss_ends hedge_long_ends : arb.

Lemma monitor_real_ends : returns (monitor_real fmt2 m).
Proof. unfold monitor_real, both_exits_filled. cbv zeta. solve_ends. Qed.

Lemma monitor_paper_ends : returns (monitor_paper fmt2 m).
Proof.
  unfold monitor_paper. apply ends_bind; [auto with arb | intros [[x y] | e]]; [| auto with arb]. cbv zeta.
  apply ends_bind; [auto with arb | intros t]. apply ends_bind; [| intros now; solve_ends].
  apply ends_sync. intros s. unfold in_env. now destruct (e_unix_millis (sr_env s)).
Qed.
End monitor_returns.

#[export] Hint Resolve monitor_real_ends monitor_paper_ends : arb.

Section theorem.
Context {B T F E : Type} `{Backend B} `{DashMap T key Z} `{DashMap F Z key} `{!Sharding} `{RunnerEnv E}.
Context (fmt2 : f64 -> string).
Abbreviation state := (StrategyRunner B T F E).

(** C10. One turn of the monitor, run by itself from a state in which nobody holds a
    reference into [active_trades], with the estimator [new] creates, returns
    whatever the exchanges answer, and holds no reference afterwards: the locks it
    takes are never its own, and the level of an order book it indexes always
    exists.  With a reference held elsewhere, as [check_exits] holds one while it
    waits for an exchange, it waits for it. *)
Theorem monitor_returns (s : state) :
  sr_guards s = [] -> sr_estimator s = FillProbabilityEstimator_new ->
  exists r s', run (monitor_active_positions fmt2) s = Some (r, s') /\ sr_guards s' = [].
Proof.
  intros Hg He. assert (Hm : ends (monitor_active_positions fmt2 : task state _)).
  { unfold monitor_active_positions. apply ends_bind; [now apply ends_sync | intros ids].
    apply ends_bind; [now apply ends_sync | intros real].
    induction ids as [| id ids IH]; cbn [tforeach]; [auto with arb |].
    apply ends_bind; [| intros [u | e]; auto with arb]. unfold monitor_trade. cbv zeta. solve_ends. }
  destruct (twp_run _ _ _ (Hm s (conj Hg He))) as (r & s' & Hr & Hg' & _). eauto.
Qed.
End theorem.

Lemma monitor_returns_witness :
  let s := watching (half_exit Filled Pending 0.4%f64 [Ok tt]) watched in
  exists r s', run (monitor_active_positions demo_text) s = Some (r, s') /\ sr_guards s' = [].
Proof.
  intros s. refine (monitor_returns demo_text s _ _); vm_compute; reflexivity.
Defined.
