(* ===== verification/RunnerDraft.v ===== *)
(** The draft of the runner's [execute_opportunity]
    ([src/src/strategy/execute_opportunity_impl.rs], in no module of the program): its
    decisions, against those the program makes.

    What comes after them, the entry under a timeout of fifteen seconds, is left out: the
    timeout drops the entry at whatever it awaits. *)
From Stdlib Require Import ZArith Lia Bool.
From stdpp Require Import base option list gmap strings.
From S2P Require Import Prelude Float64 Coop Types SymbolMap MarketData Portfolio Backend Entry EntryReal ExchangeFees Branchless Runner.

#[local] Open Scope string_scope.
#[local] Open Scope Z_scope.

(** Why the draft skips an opportunity. *)
Inductive draft_skip :=
| DraftNoPrices
| DraftInsufficientDepth
| DraftHighLatency
| DraftFundingDelta
| DraftNegativeSpread
| DraftUnprofitable
| DraftNoCapital
| DraftBalanceCheckFailed (e : string)
| DraftExchangeBalance
| DraftInvalidSize
| DraftInsufficientCapital
| DraftLowConfidence
| DraftNotTradeable (exchange : string).

Section draft.
Context {B T F E : Type} `{Backend B} `{DashMap T key Z} `{DashMap F Z key} `{Sharding} `{RunnerEnv E}.
Abbreviation state := (StrategyRunner B T F E).

(** [flag as u32 as f64 * 2.0] is the depth asked for. *)
Definition draft_depth_sufficient (o : ArbitrageOpportunity) : bool :=
  let asked := (f_of_Z (Z.b2z (order_book_depth_sufficient (cm_hard_constraints (ao_metrics o)))) * 2.0%f64)%F in
  (ao_order_book_depth_long o >=? asked)%F && (ao_order_book_depth_short o >=? asked)%F.

(** The balances of the exchanges a real entry uses: of Bybit alone on the demo backend. *)
Definition draft_balance_check (o : ArbitrageOpportunity) : task state (result unit draft_skip) :=
  (let* real := sync is_real_trading in
   if negb real then Done (Ok tt) else
   let* demo := sync (fun s => (String.eqb (b_backend_name (w_backend (sr_world s))) "Demo", s)) in
   if (demo : bool) then
     let* balance := await (in_world (get_available_balance "bybit")) in
     match balance with
     | Err e => Done (Err (DraftBalanceCheckFailed e))
     | Ok primary_balance =>
         if (primary_balance <? 10.0%f64)%F then Done (Err DraftExchangeBalance) else Done (Ok tt)
     end
   else
     let* long_balance := await (in_world (get_available_balance (ao_long_exchange o))) in
     match long_balance with
     | Err e => Done (Err (DraftBalanceCheckFailed e))
     | Ok long_balance =>
         let* short_balance := await (in_world (get_available_balance (ao_short_exchange o))) in
         match short_balance with
         | Err e => Done (Err (DraftBalanceCheckFailed e))
         | Ok short_balance =>
             if (fmin long_balance short_balance <? 10.0%f64)%F then Done (Err DraftExchangeBalance) else Done (Ok tt)
         end
     end)%task.

(** Both exchanges are asked before either answer is looked at; an error counts as no. *)
Definition draft_tradeable_check (o : ArbitrageOpportunity) : task state (result unit draft_skip) :=
  (let* real := sync is_real_trading in
   if negb real then Done (Ok tt) else
   let* long_tradeable := await (in_world (is_symbol_tradeable (ao_long_exchange o) (ao_symbol o))) in
   let* short_tradeable := await (in_world (is_symbol_tradeable (ao_short_exchange o) (ao_symbol o))) in
   if negb (unwrap_or long_tradeable false) then Done (Err (DraftNotTradeable (ao_long_exchange o)))
   else if negb (unwrap_or short_tradeable false) then Done (Err (DraftNotTradeable (ao_short_exchange o)))
   else Done (Ok tt))%task.

(** The decisions 2 to 16, after the symbol is reserved: the numbers the trade is entered
    with, or why it is skipped. *)
Definition draft_decide (o : ArbitrageOpportunity) : task state (result (f64 * f64 * f64 * f64) draft_skip) :=
  (let* prices := sync (get_current_prices_for_opportunity (ao_symbol o) (ao_long_exchange o) (ao_short_exchange o)) in
   match prices with
   | Err _ => Done (Err DraftNoPrices)
   | Ok (current_long_price, current_short_price) =>
       let constraints := cm_hard_constraints (ao_metrics o) in
       if negb (draft_depth_sufficient o) then Done (Err DraftInsufficientDepth) else
       if negb (exchange_latency_ok constraints) then Done (Err DraftHighLatency) else
       if negb (funding_delta_substantial constraints) then Done (Err DraftFundingDelta) else
       let current_spread_bps := Scanner.calculate_spread_bps current_long_price current_short_price in
       if (current_spread_bps <=? 0.0%f64)%F then Done (Err DraftNegativeSpread) else
       let fee := total_fee_bps (ao_long_exchange o) (ao_short_exchange o) in
       let net_profit_bps := (current_spread_bps - fee)%F in
       if (net_profit_bps <=? 0.0%f64)%F then Done (Err DraftUnprofitable) else
       let* available_capital := await (fun s => (ps_available_capital (sr_portfolio s), s)) in
       if (available_capital <=? 0.0%f64)%F then Done (Err DraftNoCapital) else
       let* balances := draft_balance_check o in
       match balances with
       | Err skip => Done (Err skip)
       | Ok _ =>
           let* starting_capital := await (fun s => (ps_starting_capital (sr_portfolio s), s)) in
           let position_size := calculate_position_size current_spread_bps available_capital fee 10.0%f64 starting_capital in
           if (position_size <=? 0.0%f64)%F then Done (Err DraftInvalidSize) else
           if (position_size >? available_capital)%F then Done (Err DraftInsufficientCapital) else
           let confidence_score := if passes_all constraints then ao_confidence_score o else 0 in
           if confidence_score <? 70 then Done (Err DraftLowConfidence) else
           let* tradeable := draft_tradeable_check o in
           match tradeable with
           | Err skip => Done (Err skip)
           | Ok _ => Done (Ok (current_spread_bps, fee, available_capital, position_size))
           end
       end
   end)%task.

(** ** What the program dropped *)

(** The draft's opinion of the opportunity itself. *)
Definition draft_accepts (o : ArbitrageOpportunity) : bool :=
  draft_depth_sufficient o && passes_all (cm_hard_constraints (ao_metrics o)) && (70 <=? ao_confidence_score o).

(** An exchange refuses the trade. *)
Definition by_exchange (skip : draft_skip) : bool :=
  match skip with DraftBalanceCheckFailed _ | DraftExchangeBalance | DraftNotTradeable _ => true | _ => false end.

(** The exchanges are only asked: the books stay as they are, and a refusal is one of theirs. *)
Definition asks (t : task state (result unit draft_skip)) : Prop :=
  forall s, twp t (fun r s' => sr_portfolio s' = sr_portfolio s /\
                    match r with Ok _ => True | Err skip => by_exchange skip = true end) s.

Lemma in_world_books {A} (m : ST (World B) A) s : sr_portfolio (snd (in_world m s : A * state)) = sr_portfolio s.
Proof. unfold in_world. now destruct (m (sr_world s)). Qed.

Lemma asks_done r : match r with Ok _ => True | Err skip => by_exchange skip = true end -> asks (Done r).
Proof. intros Hr s. apply twp_done. auto. Qed.

Lemma asks_read {A} (f : state -> A) k : (forall a, asks (k a)) -> asks (tbind (sync (fun s => (f s, s))) k).
Proof. intros Hk s. apply twp_bind, twp_sync. apply Hk. Qed.

Lemma asks_await {A} (m : ST (World B) A) k : (forall a, asks (k a)) -> asks (tbind (await (in_world m)) k).
Proof.
  intros Hk s. apply twp_bind, twp_await. unfold wp. pose proof (in_world_books m s) as Hb.
  destruct (in_world m s) as [a s']. cbn [snd] in Hb. eapply twp_mono; [apply Hk |]. cbn. intros r s'' [H' Hr]. split; [congruence | exact Hr].
Qed.

Lemma asks_real k : (forall b : bool, asks (k b)) -> asks (tbind (sync is_real_trading) k).
Proof. exact (asks_read _ k). Qed.

Lemma balance_asks o : asks (draft_balance_check o).
Proof.
  unfold draft_balance_check. apply asks_real. intros []; [| now apply asks_done].
  apply asks_read. intros []; apply asks_await; intros [b1 | e1]; try (now apply asks_done).
  - destruct (b1 <? 10.0%f64)%F; now apply asks_done.
  - apply asks_await. intros [b2 | e2]; [| now apply asks_done]. destruct (_ <? 10.0%f64)%F; now apply asks_done.
Qed.

Lemma tradeable_asks o : asks (draft_tradeable_check o).
Proof.
  unfold draft_tradeable_check. apply asks_real. intros []; [| now apply asks_done].
  apply asks_await. intros l. apply asks_await. intros r.
  destruct (unwrap_or l false), (unwrap_or r false); now apply asks_done.
Qed.

(** The program's check as a function of what it reads. *)
Definition check_result (o : ArbitrageOpportunity) (prices : result (f64 * f64) runner_error)
  (available_capital starting_capital : f64) : result (f64 * f64 * f64 * f64) verdict :=
  match prices with
  | Err e => Err (SkippedNoPrices e)
  | Ok (current_long_price, current_short_price) =>
      let current_spread_bps := Scanner.calculate_spread_bps current_long_price current_short_price in
      if (current_spread_bps <=? 0.0%f64)%F then Err (SkippedNegativeSpread current_spread_bps) else
      let fee := total_fee_bps (ao_long_exchange o) (ao_short_exchange o) in
      let net_profit_bps := (current_spread_bps - fee)%F in
      if (net_profit_bps <=? 0.0%f64)%F then Err (SkippedUnprofitable net_profit_bps) else
      if (available_capital <=? 0.0%f64)%F then Err SkippedNoCapital else
      let position_size := calculate_position_size current_spread_bps available_capital fee 10.0%f64 starting_capital in
      if (position_size <=? 0.0%f64)%F || (position_size >? available_capital)%F then Err (SkippedInvalidSize position_size)
      else Ok (current_spread_bps, fee, available_capital, position_size)
  end.

Definition prices_of (o : ArbitrageOpportunity) (s : state) : result (f64 * f64) runner_error * state :=
  get_current_prices_for_opportunity (ao_symbol o) (ao_long_exchange o) (ao_short_exchange o) s.

Lemma prices_books o s : sr_portfolio (snd (prices_of o s)) = sr_portfolio s.
Proof.
  unfold prices_of, get_current_prices_for_opportunity, get_prices_from_store.
  destruct (get_or_insert _ _ _) as [i1 sm1]. now destruct (get_or_insert _ _ sm1) as [i2 sm2].
Qed.

Lemma check_runs o s :
  exists s', run (check_opportunity o) s =
    Some (check_result o (fst (prices_of o s)) (ps_available_capital (sr_portfolio s)) (ps_starting_capital (sr_portfolio s)), s').
Proof.
  unfold check_opportunity. rewrite run_bind, run_sync. fold (prices_of o s). rewrite <- (prices_books o s).
  destruct (prices_of o s) as [[[lp sp] | e] s1]; cbn [fst snd check_result]; [| eauto].
  destruct (_ <=? 0.0%f64)%F; [cbn; eauto |]. destruct (_ <=? 0.0%f64)%F; [cbn; eauto |].
  rewrite run_bind, run_await. destruct (_ <=? 0.0%f64)%F; [cbn; eauto |].
  rewrite run_bind, run_await. destruct (_ || _); cbn; eauto.
Qed.

(** The draft enters a trade exactly when the program would, for the same numbers, if
    besides the opportunity's own constraints hold, its confidence is 70 and no exchange
    refuses. *)
Theorem draft_decides o s :
  exists r s', run (draft_decide o) s = Some (r, s') /\
    exists c s'', run (check_opportunity o) s = Some (c, s'') /\
    match r with
    | Ok sizes => draft_accepts o = true /\ c = Ok sizes
    | Err skip => by_exchange skip = true \/ draft_accepts o = false \/ is_ok c = false
    end.
Proof.
  destruct (check_runs o s) as (s'' & Hc).
  enough (Hd : twp (draft_decide o) (fun r _ =>
    match r with
    | Ok sizes => draft_accepts o = true /\
        check_result o (fst (prices_of o s)) (ps_available_capital (sr_portfolio s)) (ps_starting_capital (sr_portfolio s)) = Ok sizes
    | Err skip => by_exchange skip = true \/ draft_accepts o = false \/
        is_ok (check_result o (fst (prices_of o s)) (ps_available_capital (sr_portfolio s)) (ps_starting_capital (sr_portfolio s))) = false
    end) s).
  { unfold twp in Hd. destruct (run (draft_decide o) s) as [[r s'] |]; [| easy]. eauto 10. }
  clear Hc. unfold draft_decide. apply twp_bind, twp_sync. unfold wp. fold (prices_of o s). rewrite <- (prices_books o s).
  destruct (prices_of o s) as [[[lp sp] | e] s1]; cbn [fst snd check_result]; [| apply twp_done; auto].
  unfold draft_accepts, passes_all. set (h := cm_hard_constraints (ao_metrics o)).
  destruct (draft_depth_sufficient o); [cbn [negb andb] | apply twp_done; auto].
  destruct (exchange_latency_ok h); [cbn [negb] | apply twp_done; right; left; now rewrite andb_false_r].
  destruct (funding_delta_substantial h); [cbn [negb] | apply twp_done; right; left; now rewrite !andb_false_r].
  rewrite !andb_true_r.
  destruct (_ <=? 0.0%f64)%F; [apply twp_done; auto |]. destruct (_ <=? 0.0%f64)%F; [apply twp_done; auto |].
  apply twp_bind, twp_await. unfold wp. destruct (_ <=? 0.0%f64)%F; [apply twp_done; auto |].
  apply twp_bind. eapply twp_mono; [apply balance_asks |]. intros [_ | skip] s2 [Hb Hr]; [| apply twp_done; auto].
  apply twp_bind, twp_await. unfold wp. rewrite Hb.
  destruct (_ <=? 0.0%f64)%F; [apply twp_done; auto |]. destruct (_ >? _)%F; [apply twp_done; auto |]. cbn [orb].
  destruct (order_book_depth_sufficient h); [| apply twp_done; auto].
  destruct (Z.ltb_spec (ao_confidence_score o) 70); destruct (Z.leb_spec 70 (ao_confidence_score o)); try lia; [apply twp_done; auto |].
  apply twp_bind. eapply twp_mono; [apply tradeable_asks |]. intros [_ | skip] s3 [_ Hr2]; apply twp_done; auto.
Qed.
End draft.
