(* ===== verification/Startup.v ===== *)
(** How [src/src/main.rs] puts the strategy runner together, and what the runner
    it starts can do.

    [main] gives the market pipeline's consumer to the detector, creates the
    runner with the paper-trading backend, hands it the opportunity consumer and
    spawns [run_scanning_loop].  [set_market_consumer] is not called, so the
    runner's own end of the market pipeline stays [None]. *)
From Stdlib Require Import ZArith Lia Bool.
From stdpp Require Import base option list gmap strings pretty.
From S2P Require Import Prelude Float64 Coop Types ArrayQueue Pipeline OpportunityQueue SymbolMap MarketData Branchless Portfolio Positions FillProbability ExchangeFees Backend AtomicExecution Entry EntryReal ExchangeParser Runner RunnerMonitor RunnerLoop ScriptedBackend ScriptedRunner RunnerSpec.

#[local] Open Scope string_scope.
#[local] Open Scope list_scope.
#[local] Open Scope Z_scope.

(** ** The wiring *)
Definition initial_balances : gmap string f64 :=
  list_to_map ((fun e => (e, 20000.0%f64)) <$>
    ["binance"; "bybit"; "bitget"; "kucoin"; "okx"; "hyperliquid"; "paradex"]).

Definition main_world : World PaperTradingBackend :=
  {| w_backend := PaperTradingBackend_new initial_balances; w_hedge_locks := ∅; w_halted := false;
     w_calls := [] |}.

Definition main_capital : f64 := 20000.0%f64.

Section start.
Context {B T F E V MQ OQ : Type} `{Backend B} `{DashMap T key Z} `{DashMap F Z key} `{!Sharding}
  `{!ShardingLaws} `{RunnerEnv E} `{JV : Json V} `{ArrayQueue MQ MarketUpdate}
  `{ArrayQueue OQ ArbitrageOpportunity}.
Context (fmt2 : f64 -> string) (fuel : nat).
Abbreviation state := (StrategyRunner B T F E).
Abbreviation phase := (phase B T F E MQ OQ).

(** The loop as [main] spawns it: no market consumer, the opportunity consumer
    of the queue the detector fills. *)
Definition main_start (w : World B) (env : E) (symbol_map : SymbolMap T F)
  (opportunity_consumer_strategy : OpportunityQueue OQ) : phase :=
  AtTop {| lp_runner := StrategyRunner_new w env main_capital symbol_map;
           lp_market_consumer := None;
           lp_opportunity_consumer := opportunity_consumer_strategy |}.

Definition no_consumer (p : phase) : Prop :=
  match p with AtTop l => lp_market_consumer l = None | InJoin mc _ _ => mc = None end.

(** A step of the program: nobody sets a market consumer later. *)
Definition main_step (p p' : phase) : Prop := loop_step (V:=V) fmt2 fuel p p' /\ no_consumer p'.

(** ** The idle runner *)

(** As created, up to the symbol map and the backend's own state. *)
Record idle (w : World B) (s : state) : Prop := {
  idle_trades : sr_trades s = ∅;
  idle_guards : sr_guards s = [];
  idle_trackers : sr_trackers s = ∅;
  idle_market : sr_market s = MarketDataStore_new;
  idle_portfolio : sr_portfolio s = PortfolioState_new main_capital;
  idle_calls : w_calls (sr_world s) = w_calls w
}.

Lemma idle_symbols w sm s : idle w s -> idle w (set_symbols sm s).
Proof. intros []. now split. Qed.

Lemma iter_empty : iter_order ∅ = [].
Proof. apply Permutation_nil. rewrite <- map_to_list_empty. apply Permutation_sym, iter_order_perm. Qed.

(** An empty store has no price, whatever the exchanges and the pair. *)
Lemma no_prices pair le se (s : state) :
  sr_market s = MarketDataStore_new ->
  wp (get_prices_from_store pair le se)
    (fun r s' => exists id sm, r = Err (NoAsk pair le id) /\ s' = set_symbols sm s) s.
Proof.
  intros Hs. unfold wp, get_prices_from_store. destruct (get_or_insert le pair (sr_symbols s)) as [lid sm].
  destruct (get_or_insert se pair sm) as [sid sm']. rewrite Hs. eauto.
Qed.

(** Every opportunity is skipped for want of prices, and nothing is left. *)
Lemma idle_opportunity w o (s : state) :
  idle w s -> tpp (execute_opportunity fuel o)
    (fun v s' => (exists e, v = SkippedNoPrices e) /\ idle w s') s.
Proof.
  intros Hs. unfold execute_opportunity. apply tpp_bind, tpp_sync. unfold wp.
  rewrite (idle_trades _ _ Hs), iter_empty. cbn [existsb].
  apply tpp_bind, tpp_sync, in_world_spec. unfold new_uuid. apply wp_rt. intros uuid b _.
  apply tpp_bind, tpp_locking. intros _. unfold wp. apply tpp_bind. unfold check_opportunity.
  apply tpp_bind, tpp_sync. eapply wp_mono; [apply no_prices; exact (idle_market _ _ Hs) |].
  intros r s1 (id & sm & -> & ->). apply tpp_done, tpp_bind, tpp_locking. intros _. unfold wp. apply tpp_done.
  split; [eauto |]. destruct Hs as [Htr Hg Htk Hm Hp Hc]. split; cbn; try assumption.
  rewrite delete_insert_eq, Htr. apply delete_empty.
Qed.

(** ** The tasks of an idle runner *)
Definition stays_idle (w : World B) (a b : state) : Prop := idle w a -> idle w b.

#[local] Instance stays_idle_preorder w : PreOrder (stays_idle w).
Proof. split; [intros a Ha; exact Ha | intros a b c Hab Hbc Ha; auto]. Qed.

Lemma others_idle w a b : others a b -> stays_idle w a b.
Proof. intros [sm ->] Ha. now apply idle_symbols. Qed.

Definition ends_idle (w : World B) (r : result unit runner_error) (s : state) : Prop := idle w s.

(** Neither task finds a trade. *)
Lemma idle_monitor w (s : state) :
  idle w s -> rg others (stays_idle w) (stays_idle w) (monitor_active_positions fmt2) (ends_idle w) s.
Proof.
  intros Hs. unfold monitor_active_positions. apply rg_bind, rg_sync. intros s1 Ho1.
  pose proof (others_idle w _ _ Ho1 Hs) as Hs1. unfold wp. rewrite (idle_trades _ _ Hs1), iter_empty.
  split; [easy |]. apply rg_bind, rg_sync. intros s2 Ho2.
  pose proof (others_idle w _ _ Ho2 Hs1) as Hs2. unfold wp, is_real_trading. split; [easy | exact Hs2].
Qed.

Lemma idle_exits w (s : state) :
  idle w s -> rg others (stays_idle w) (stays_idle w) (check_exits (V:=V)) (ends_idle w) s.
Proof.
  intros Hs. unfold check_exits. apply rg_bind, rg_sync. intros s1 Ho1.
  pose proof (others_idle w _ _ Ho1 Hs) as Hs1. unfold wp. rewrite (idle_trades _ _ Hs1), iter_empty.
  split; [easy | exact Hs1].
Qed.

(** ** Every reachable state *)
Abbreviation jidle w := (joined_safe others (stays_idle w) (stays_idle w) (ends_idle w) (ends_idle w)).

Definition idle_phase (w : World B) (p : phase) : Prop :=
  no_consumer p /\ idle w (runner_of p) /\
  match p with AtTop _ => True | InJoin _ _ j => jidle w j end.

Lemma idle_process (l : loop_state B T F E MQ OQ) : lp_market_consumer l = None -> process_updates l = l.
Proof. unfold process_updates. now intros ->. Qed.

Lemma idle_turn w (l l' : loop_state B T F E MQ OQ) :
  lp_market_consumer l = None -> idle w (lp_runner l) -> turn_head fuel l = Some l' -> idle w (lp_runner l').
Proof.
  intros Hn Hs. unfold turn_head. rewrite idle_process by exact Hn.
  destruct (oq_pop _) as [[o |] oq]; [| intros [= <-]; exact Hs].
  pose proof (idle_opportunity w o _ Hs) as Ho. destruct (run _ _) as [[v s] |] eqn:Er; [| discriminate].
  intros [= <-]. exact (proj2 (tpp_run _ _ _ _ _ Ho Er)).
Qed.

Lemma idle_join w (l : loop_state B T F E MQ OQ) :
  idle w (lp_runner l) ->
  jidle w (join_tasks (monitor_active_positions fmt2) (check_exits (V:=V)) (lp_runner l)).
Proof. intros Hs. apply joined_safe_start; [now apply idle_monitor | intros s1 Ho; apply idle_exits; auto]. Qed.

Lemma idle_phase_step w (p p' : phase) : idle_phase w p -> main_step p p' -> idle_phase w p'.
Proof.
  intros (Hn & Hs & Hj) [Hst Hn']. split; [exact Hn' |].
  destruct Hst as [l mc oc sm | l l' Hh | mc oc j j' Hs' | mc oc s l r b mc' oc' sm | mc oc s a c b];
    cbn [runner_of no_consumer jn_state start_join lp_runner lp_market_consumer] in *.
  - split; [now apply idle_symbols | exact I].
  - pose proof (idle_turn w _ _ Hn Hs Hh) as Hs'. split; [exact Hs' |].
    exact (idle_join w l' Hs').
  - destruct (joined_safe_step others (stays_idle w) (stays_idle w) (ends_idle w) (ends_idle w)
      (fun _ _ _ Ha Hb => Hb Ha) (fun _ _ _ Ha Hb => Hb Ha) j j' Hj Hs') as [Hj' [Hg | Hg]];
      (split; [exact (Hg Hs) | exact Hj']).
  - split; [now apply idle_symbols |].
    refine (joined_safe_env others (stays_idle w) (stays_idle w) (others_idle w) (others_idle w) (ends_idle w)
      (ends_idle w) (fun _ _ _ Ha Hb => Hb Ha) (fun _ _ _ Ha Hb => Hb Ha) _ _ _ _ _ _ Hj). now exists sm.
  - split; [exact Hs | exact I].
Qed.

Lemma idle_reachable w env sm oc (p : phase) :
  star main_step (main_start w env sm oc) p -> idle_phase w p.
Proof.
  apply star_invariant; [| apply idle_phase_step].
  split; [reflexivity |]. split; [now split | exact I].
Qed.
End start.

Section main.
Context {T F E V MQ OQ : Type} `{DashMap T key Z} `{DashMap F Z key} `{!Sharding}
  `{!ShardingLaws} `{RunnerEnv E} `{JV : Json V} `{ArrayQueue MQ MarketUpdate}
  `{ArrayQueue OQ ArbitrageOpportunity}.
Context (fmt2 : f64 -> string) (fuel : nat).
Abbreviation phase := (phase PaperTradingBackend T F E MQ OQ).

(** C11. The program [main] starts never trades: whatever opportunities the
    detector finds, whatever the other threads do and however the tasks are
    interleaved, the runner has no trade, has made no call to the backend, and
    its portfolio is the one it started with. *)
Theorem main_never_trades env sm oc (p : phase) :
  star (main_step (V:=V) fmt2 fuel) (main_start main_world env sm oc) p ->
  sr_trades (runner_of p) = ∅ /\ w_calls (sr_world (runner_of p)) = [] /\
  sr_portfolio (runner_of p) = PortfolioState_new main_capital.
Proof.
  intros Hr. destruct (idle_reachable fmt2 fuel _ _ _ _ _ Hr) as (_ & [] & _). auto.
Qed.
End main.

(** The queue holds an opportunity, and a turn is taken. *)
Definition main_demo : phase PaperTradingBackend sym_ids sym_keys (list io) market_queue opportunity_queue :=
  main_start main_world [] demo_symbols (oq_push demo_opportunity (oq_with_capacity 16)).

Definition main_demo_after : phase PaperTradingBackend sym_ids sym_keys (list io) market_queue opportunity_queue :=
  match main_demo with
  | AtTop l => match turn_head demo_fuel l with
               | Some l' => start_join (V:=json) demo_text l'
               | None => main_demo
               end
  | p => p
  end.

Lemma main_demo_turn :
  match main_demo with AtTop l => bool_decide (is_Some (turn_head demo_fuel l)) | _ => false end = true.
Proof. vm_compute. reflexivity. Qed.

Lemma main_never_trades_witness :
  star (main_step (V:=json) demo_text demo_fuel) main_demo main_demo_after /\
  sr_trades (runner_of main_demo_after) = ∅.
Proof.
  assert (Hr : star (main_step (V:=json) demo_text demo_fuel) main_demo main_demo_after).
  { eapply star_step; [constructor |].
    pose proof main_demo_turn as Ht. revert Ht. unfold main_demo_after, main_demo, main_start.
    match goal with |- context [turn_head demo_fuel ?l] => destruct (turn_head demo_fuel l) as [l' |] eqn:E end;
      [| intros Hf; discriminate Hf].
    intros _. split; [now constructor |]. revert E. unfold turn_head, process_updates. cbn [lp_market_consumer].
    destruct (oq_pop _) as [[o |] oq]; [destruct (run _ _) as [[v s] |]; [| discriminate] |]; intros [= <-]; reflexivity. }
  split; [exact Hr | exact (proj1 (main_never_trades _ _ _ _ _ _ Hr))].
Defined.
