(* ===== verification/Shutdown.v ===== *)
(** How the program ends ([src/src/main.rs]): the signal, [request_shutdown], and
    [perform_graceful_shutdown] under its timeout, next to the tasks it waits for.

    A step is one of the strategy task, the bridge or the Redis writer, a message
    sent to the bridge, the end of a connector or of the poller, time that passes, the
    signal, or a poll of [main].  The channel is as long as it needs to be.  The process is over when [main] has returned.  The disk is a map
    from file names to texts; the text of the snapshot is the JSON library's. *)
From Stdlib Require Import ZArith Lia Bool.
From stdpp Require Import base option list gmap strings pretty.
From S2P Require Import Prelude Float64 Types ArrayQueue Pipeline OpportunityQueue SymbolMap Portfolio Backend ExchangeParser Ingest Persistence Runner RunnerMonitor RunnerLoop ScriptedRunner Startup JsonValue.

#[local] Open Scope string_scope.
#[local] Open Scope list_scope.
#[local] Open Scope Z_scope.

Definition SHUTDOWN_TIMEOUT_SECS : Z := 30.
(** [CARGO_PKG_VERSION] of [src/Cargo.toml]. *)
Definition CARGO_PKG_VERSION : string := "0.1.0".

(** ** The program and its steps *)

(** Where [main] is: waiting for a signal; in [perform_graceful_shutdown], waiting for
    the strategy task, for the bridge, joined to the writer thread; at its end. *)
Inductive main_pc := MRunning | MStrategy | MBridge | MWriter | MReturned (r : result unit string).

Section shutdown.
Context {S RQ : Type} `{!ArrayQueue RQ message}.
(** The strategy task: a step of it, and whether it has ended. *)
Context (strategy_step : S -> S -> Prop) (strategy_ended : S -> bool) (to_string_pretty : json -> string).

(** [pg_senders] are the connectors' ends of the channel; the poller holds another as
    long as it runs. *)
Record program := {
  pg_main : main_pc;
  pg_elapsed_ms : Z;
  pg_strategy : S;
  pg_detector : bool;
  pg_oi_poller : bool;
  pg_senders : nat;
  pg_channel : list message;
  pg_bridge : bool;
  pg_io : io_config RQ;
  pg_disk : gmap string string
}.

Definition program_start (strategy : S) (connectors : nat) (queue : RQ) (disk : gmap string string) : program :=
  {| pg_main := MRunning; pg_elapsed_ms := 0; pg_strategy := strategy; pg_detector := true; pg_oi_poller := true;
     pg_senders := connectors; pg_channel := []; pg_bridge := true; pg_io := io_start queue; pg_disk := disk |}.

Definition set_main (pc : main_pc) (p : program) : program :=
  {| pg_main := pc; pg_elapsed_ms := pg_elapsed_ms p; pg_strategy := pg_strategy p; pg_detector := pg_detector p;
     pg_oi_poller := pg_oi_poller p; pg_senders := pg_senders p; pg_channel := pg_channel p; pg_bridge := pg_bridge p;
     pg_io := pg_io p; pg_disk := pg_disk p |}.

Definition set_elapsed (ms : Z) (p : program) : program :=
  {| pg_main := pg_main p; pg_elapsed_ms := ms; pg_strategy := pg_strategy p; pg_detector := pg_detector p;
     pg_oi_poller := pg_oi_poller p; pg_senders := pg_senders p; pg_channel := pg_channel p; pg_bridge := pg_bridge p;
     pg_io := pg_io p; pg_disk := pg_disk p |}.

Definition set_strategy (s : S) (p : program) : program :=
  {| pg_main := pg_main p; pg_elapsed_ms := pg_elapsed_ms p; pg_strategy := s; pg_detector := pg_detector p;
     pg_oi_poller := pg_oi_poller p; pg_senders := pg_senders p; pg_channel := pg_channel p; pg_bridge := pg_bridge p;
     pg_io := pg_io p; pg_disk := pg_disk p |}.

(** [detector_handle.abort()], [oi_handle.abort()]: the poller's sender is dropped with
    its task. *)
Definition abort_tasks (p : program) : program :=
  {| pg_main := pg_main p; pg_elapsed_ms := pg_elapsed_ms p; pg_strategy := pg_strategy p; pg_detector := false;
     pg_oi_poller := false; pg_senders := pg_senders p; pg_channel := pg_channel p; pg_bridge := pg_bridge p;
     pg_io := pg_io p; pg_disk := pg_disk p |}.

(** The channel, the bridge's state and the queue. *)
Definition set_ingest (senders : nat) (channel : list message) (bridge : bool) (io : io_config RQ) (p : program) : program :=
  {| pg_main := pg_main p; pg_elapsed_ms := pg_elapsed_ms p; pg_strategy := pg_strategy p; pg_detector := pg_detector p;
     pg_oi_poller := pg_oi_poller p; pg_senders := senders; pg_channel := channel; pg_bridge := bridge;
     pg_io := io; pg_disk := pg_disk p |}.

Definition set_disk (disk : gmap string string) (p : program) : program :=
  {| pg_main := pg_main p; pg_elapsed_ms := pg_elapsed_ms p; pg_strategy := pg_strategy p; pg_detector := pg_detector p;
     pg_oi_poller := pg_oi_poller p; pg_senders := pg_senders p; pg_channel := pg_channel p; pg_bridge := pg_bridge p;
     pg_io := pg_io p; pg_disk := disk |}.

(** [save_shutdown_state]; [written]: whether the file could be written.  The object's
    keys come out sorted. *)
Definition state_file (timestamp : Z) : string := "shutdown_state_" +:+ pretty timestamp +:+ ".json".
Definition save_shutdown_state (timestamp : Z) (written : bool) (p : program) : program :=
  let state := JObject [("shutdown_reason", JString "graceful"); ("timestamp", JInt timestamp);
                        ("version", JString CARGO_PKG_VERSION)] in
  if written then set_disk (<[state_file timestamp := to_string_pretty state]> (pg_disk p)) p else p.

(** [perform_graceful_shutdown] from one await point to the next, without its blocking
    join of the writer thread. *)
Definition poll_shutdown (p : program) : program :=
  let p := match pg_main p with
           | MStrategy => if strategy_ended (pg_strategy p) then set_main MBridge (abort_tasks p) else p
           | _ => p
           end in
  match pg_main p with
  | MBridge => if pg_bridge p then p else set_main MWriter p
  | _ => p
  end.

(** [tokio::time::timeout] polls the shutdown first and its own timer when that is not
    ready; [main] answers [Err("Shutdown timeout")]. *)
Definition poll_main (p : program) : program :=
  let p := poll_shutdown p in
  match pg_main p with
  | MStrategy | MBridge =>
      if SHUTDOWN_TIMEOUT_SECS * 1000 <=? pg_elapsed_ms p then set_main (MReturned (Err "Shutdown timeout")) p else p
  | _ => p
  end.

Definition is_over (p : program) : bool := match pg_main p with MReturned _ => true | _ => false end.

Inductive program_step : program -> program -> Prop :=
| step_strategy p s :
    is_over p = false -> strategy_ended (pg_strategy p) = false -> strategy_step (pg_strategy p) s ->
    program_step p (set_strategy s p)
| step_send p m :
    is_over p = false -> (0 < pg_senders p)%nat \/ pg_oi_poller p = true ->
    program_step p (set_ingest (pg_senders p) (pg_channel p ++ [m]) (pg_bridge p) (pg_io p) p)
| step_connector_ends p n :
    is_over p = false -> pg_senders p = Datatypes.S n ->
    program_step p (set_ingest n (pg_channel p) (pg_bridge p) (pg_io p) p)
| step_poller_fails p :
    is_over p = false ->
    program_step p {| pg_main := pg_main p; pg_elapsed_ms := pg_elapsed_ms p; pg_strategy := pg_strategy p;
      pg_detector := pg_detector p; pg_oi_poller := false; pg_senders := pg_senders p; pg_channel := pg_channel p;
      pg_bridge := pg_bridge p; pg_io := pg_io p; pg_disk := pg_disk p |}
| step_bridge_takes p m ms :
    is_over p = false -> pg_bridge p = true -> io_bridge (pg_io p) = BIdle -> pg_channel p = m :: ms ->
    program_step p (set_ingest (pg_senders p) ms true (bridge_step m (pg_io p)) p)
| step_bridge_pushes p m :
    is_over p = false -> pg_bridge p = true -> io_bridge (pg_io p) <> BIdle ->
    program_step p (set_ingest (pg_senders p) (pg_channel p) true (bridge_step m (pg_io p)) p)
| step_bridge_ends p :
    is_over p = false -> pg_bridge p = true -> io_bridge (pg_io p) = BIdle -> pg_channel p = [] ->
    pg_senders p = 0%nat -> pg_oi_poller p = false ->
    program_step p (set_ingest 0 [] false (pg_io p) p)
| step_writer p ok :
    is_over p = false ->
    program_step p (set_ingest (pg_senders p) (pg_channel p) (pg_bridge p) (writer_step ok (pg_io p)) p)
| step_time p ms :
    is_over p = false -> 0 <= ms -> program_step p (set_elapsed (pg_elapsed_ms p + ms) p)
| step_signal p :
    pg_main p = MRunning ->
    program_step p
      (set_main MStrategy (set_elapsed 0
        (set_ingest (pg_senders p) (pg_channel p) (pg_bridge p) (request_shutdown (pg_io p)) p)))
| step_poll p :
    is_over p = false -> program_step p (poll_main p)
| step_join p now written :
    pg_main p = MWriter -> io_writer (pg_io p) = WExit ->
    program_step p (set_main (MReturned (Ok tt)) (save_shutdown_state now written p)).

End shutdown.
Arguments program S RQ : clear implicits.

(** ** What the answer of [main] means *)
Section contract.
Context {S RQ : Type} `{!ArrayQueue RQ message} `{!ArrayQueueLaws RQ message}.
Context (strategy_step : S -> S -> Prop) (strategy_ended : S -> bool) (to_string_pretty : json -> string).
Abbreviation step := (program_step strategy_step strategy_ended to_string_pretty).

(** The steps of [perform_graceful_shutdown] that are behind [main]. *)
Definition strategy_done (pc : main_pc) : bool :=
  match pc with MBridge | MWriter | MReturned (Ok _) => true | _ => false end.
Definition bridge_done (pc : main_pc) : bool :=
  match pc with MWriter | MReturned (Ok _) => true | _ => false end.

Record program_inv (queue : RQ) (disk : gmap string string) (p : program S RQ) : Prop := {
  pi_io : star io_step (io_start queue) (pg_io p);
  pi_strategy : strategy_done (pg_main p) = true ->
    strategy_ended (pg_strategy p) = true /\ pg_detector p = false /\ pg_oi_poller p = false;
  pi_bridge : bridge_done (pg_main p) = true -> pg_bridge p = false;
  pi_closed : pg_bridge p = false ->
    pg_senders p = 0%nat /\ pg_oi_poller p = false /\ pg_channel p = [] /\ io_bridge (pg_io p) = BIdle;
  pi_answer : match pg_main p with
    | MReturned (Ok _) => io_writer (pg_io p) = WExit /\
        (pg_disk p = disk \/ exists now text, pg_disk p = <[state_file now := text]> disk)
    | MReturned (Err e) => e = "Shutdown timeout" /\ SHUTDOWN_TIMEOUT_SECS * 1000 <= pg_elapsed_ms p /\ pg_disk p = disk
    | _ => pg_disk p = disk
    end
}.

(** The writer leaves the bridge alone. *)
Lemma writer_bridge ok (c : io_config RQ) : io_bridge (writer_step ok c) = io_bridge c.
Proof.
  assert (Ht : io_bridge (snd (take_item c)) = io_bridge c) by (unfold take_item; now destruct (aq_pop _)).
  assert (Hf : forall c' : io_config RQ, io_bridge (flush_some ok c') = io_bridge c')
    by (intros c'; unfold flush_some; now destruct (io_buffer c')).
  unfold writer_step. destruct (io_writer c), (take_item c) as [[m |] c']; cbn [snd] in Ht;
    repeat match goal with |- context [if ?b then _ else _] => destruct b end; auto;
    try exact (Hf c); exact Ht.
Qed.

Lemma program_start_inv s n queue disk : program_inv queue disk (program_start s n queue disk).
Proof. split; cbn; try discriminate; [apply star_refl | reflexivity]. Qed.

(** A step that leaves [main] where it is keeps the answer. *)
Lemma answer_kept queue disk (p p' : program S RQ) :
  program_inv queue disk p -> is_over p = false -> pg_main p' = pg_main p -> pg_disk p' = pg_disk p ->
  match pg_main p' with
  | MReturned (Ok _) => io_writer (pg_io p') = WExit /\
      (pg_disk p' = disk \/ exists now text, pg_disk p' = <[state_file now := text]> disk)
  | MReturned (Err e) => e = "Shutdown timeout" /\ SHUTDOWN_TIMEOUT_SECS * 1000 <= pg_elapsed_ms p' /\ pg_disk p' = disk
  | _ => pg_disk p' = disk
  end.
Proof. intros Hp. pose proof (pi_answer _ _ _ Hp) as Ha. unfold is_over. intros Ho -> ->. now destruct (pg_main p). Qed.

(** The poll itself. *)
Lemma poll_inv queue disk (p : program S RQ) :
  program_inv queue disk p -> is_over p = false -> program_inv queue disk (poll_main strategy_ended p).
Proof.
  intros [Hio Hs Hb Hc Ha] Ho. unfold is_over in Ho. unfold poll_main, poll_shutdown.
  destruct (pg_main p) eqn:Em; try discriminate; cbn [set_main pg_main abort_tasks].
  - rewrite Em. now split; rewrite ?Em.
  - destruct (strategy_ended (pg_strategy p)) eqn:Ee; cbn [set_main pg_main abort_tasks pg_bridge].
    + destruct (pg_bridge p) eqn:Eb; cbn [set_main pg_main pg_elapsed_ms abort_tasks].
      * destruct (_ <=? _) eqn:El; split; cbn; auto; try congruence; repeat split; auto; now apply Z.leb_le.
      * specialize (Hc eq_refl). split; cbn; auto; tauto.
    + rewrite Em. destruct (_ <=? _) eqn:El; split; cbn; rewrite ?Em; auto; try discriminate; repeat split; auto; now apply Z.leb_le.
  - rewrite Em. destruct (pg_bridge p) eqn:Eb; cbn [set_main pg_main].
    + rewrite Em. destruct (_ <=? _) eqn:El; split; cbn; rewrite ?Em; auto; try discriminate; try congruence; repeat split; auto; now apply Z.leb_le.
    + specialize (Hs eq_refl). split; cbn; auto.
  - rewrite Em. cbn [set_main pg_main]. rewrite Em. now split; rewrite ?Em.
Qed.

Lemma step_inv queue disk p p' : program_inv queue disk p -> step p p' -> program_inv queue disk p'.
Proof.
  intros Hp Hstep. pose proof Hp as [Hio Hs Hb Hc Ha].
  destruct Hstep as [p s Ho He Hst | p m Ho Hor | p n Ho Hn | p Ho | p m ms Ho Hbr Hid Hch | p m Ho Hbr Hid | p Ho Hbr Hid Hch Hn Hpo
    | p ok Ho | p ms Ho Hms | p Hm | p Ho | p now written Hm Hw].
  - split; auto. intros Hd. destruct (Hs Hd). congruence.
  - split; auto.
    intros Hd. destruct (Hc Hd) as (Hn & Hpo & _). destruct Hor; [lia | congruence].
  - split; auto. intros Hd. destruct (Hc Hd) as (Hn' & _). congruence.
  - split; auto; cbn; intuition.
  - split; auto; [exact (star_step _ _ _ _ Hio (io_step_bridge _ _)) | intros Hd; specialize (Hb Hd); congruence | discriminate |
      now apply (answer_kept queue disk p)].
  - split; auto; [exact (star_step _ _ _ _ Hio (io_step_bridge _ _)) | intros Hd; specialize (Hb Hd); congruence | discriminate |
      now apply (answer_kept queue disk p)].
  - split; auto; now apply (answer_kept queue disk p).
  - split; auto; [exact (star_step _ _ _ _ Hio (io_step_writer _ _)) | | now apply (answer_kept queue disk p)].
    intros Hd. destruct (Hc Hd) as (? & ? & ? & Hid). repeat split; auto. exact (eq_trans (writer_bridge _ _) Hid).
  - split; auto; now apply (answer_kept queue disk p).
  - split; cbn; try discriminate.
    + exact (star_step _ _ _ _ Hio (io_step_shutdown _)).
    + exact Hc.
    + now rewrite Hm in Ha.
  - now apply poll_inv.
  - rewrite Hm in Ha, Hs, Hb. destruct (Hs eq_refl) as (? & ? & ?). specialize (Hb eq_refl).
    unfold save_shutdown_state. destruct written; split; cbn; auto.
    split; [exact Hw | right]. rewrite Ha. eauto.
Qed.

Lemma reachable_inv s n queue disk p :
  star step (program_start s n queue disk) p -> program_inv queue disk p.
Proof. apply star_invariant; [apply program_start_inv | apply step_inv]. Qed.

(** What the end of the program reports is true.  [Ok]: the strategy task had
    returned, the detector and the poller were stopped, every connector had ended,
    the bridge had taken every message and ended, and so had the writer; each text
    the bridge took was accepted by Redis, or it made room for a newer one, or the
    writer left it behind; the snapshot, if anything, was added to the disk.  An
    error: 30 seconds had passed since the signal, and nothing was saved. *)
Theorem shutdown_reports s n queue disk p r :
  aq_view queue = [] -> star step (program_start s n queue disk) p -> pg_main p = MReturned r ->
  match r with
  | Ok _ =>
      strategy_ended (pg_strategy p) = true /\ pg_detector p = false /\ pg_oi_poller p = false /\
      pg_senders p = 0%nat /\ pg_channel p = [] /\ pg_bridge p = false /\ io_writer (pg_io p) = WExit /\
      map snd (io_taken (pg_io p)) ++ aq_view (io_queue (pg_io p)) = io_sent (pg_io p) /\
      received (io_taken (pg_io p)) = io_acked (pg_io p) ++ io_buffer (pg_io p) /\
      (pg_disk p = disk \/ exists now text, pg_disk p = <[state_file now := text]> disk)
  | Err e => e = "Shutdown timeout" /\ SHUTDOWN_TIMEOUT_SECS * 1000 <= pg_elapsed_ms p /\ pg_disk p = disk
  end.
Proof.
  intros Hq Hr Hm. destruct (reachable_inv _ _ _ _ _ Hr) as [Hio Hs Hb Hc Ha]. rewrite Hm in *.
  destruct r as [[] | e]; [| exact Ha]. destruct (Hs eq_refl) as (? & ? & ?).
  destruct (Hc (Hb eq_refl)) as (? & _ & ? & Hid). destruct Ha as [? ?].
  destruct (io_reachable_inv _ _ Hq Hio) as [Hacc Hrec _ _ _ _ _ _]. rewrite Hid, app_nil_r in Hacc. auto 20.
Qed.
End contract.

(** ** The program as [main] starts it *)
Section main.
Context {T F E V MQ OQ RQ : Type} `{DashMap T key Z} `{DashMap F Z key} `{!Sharding}
  `{!ShardingLaws} `{RunnerEnv E} `{JV : Json V} `{ArrayQueue MQ MarketUpdate}
  `{ArrayQueue OQ ArbitrageOpportunity} `{!ArrayQueue RQ message}.
Context (fmt2 : f64 -> string) (fuel : nat) (to_string_pretty : json -> string).
Abbreviation strategy := (phase PaperTradingBackend T F E MQ OQ).

(** The loop of [run_scanning_loop] has no [break] and no [return], and it does not look
    at the shutdown flag: from neither of its two places does it return. *)
Definition scanning_ended (p : strategy) : bool := match p with AtTop _ | InJoin _ _ _ => false end.

Definition main_program_step : program strategy RQ -> program strategy RQ -> Prop :=
  program_step (main_step (V:=V) fmt2 fuel) scanning_ended to_string_pretty.

Definition main_program (env : E) (sm : SymbolMap T F) (oc : OpportunityQueue OQ) (connectors : nat) (queue : RQ)
  (disk : gmap string string) : program strategy RQ :=
  program_start (main_start main_world env sm oc) connectors queue disk.

Record never_past_strategy (disk : gmap string string) (p : program strategy RQ) : Prop := {
  np_main : pg_main p = MRunning \/ pg_main p = MStrategy \/
    (pg_main p = MReturned (Err "Shutdown timeout") /\ SHUTDOWN_TIMEOUT_SECS * 1000 <= pg_elapsed_ms p);
  np_detector : pg_detector p = true;
  np_disk : pg_disk p = disk
}.

(** The strategy task of a reachable program is one of the runner's own. *)
Lemma strategy_reachable env sm oc n queue disk p :
  star main_program_step (main_program env sm oc n queue disk) p ->
  star (main_step (V:=V) fmt2 fuel) (main_start main_world env sm oc) (pg_strategy p).
Proof.
  apply (star_invariant main_program_step (fun p => star _ _ (pg_strategy p))); [apply star_refl |].
  intros q q' Hq Hstep. destruct Hstep; try exact Hq; [eapply star_step; eauto | | ].
  - assert (Hs : pg_strategy (poll_main scanning_ended p0) = pg_strategy p0); [| now rewrite Hs].
    unfold poll_main, poll_shutdown. repeat first [reflexivity | case_match | progress cbn].
  - unfold save_shutdown_state. now destruct written.
Qed.

(** A poll of [main] finds the strategy task running; only the timer can be ready. *)
Lemma poll_running (p : program strategy RQ) :
  poll_main scanning_ended p =
    match pg_main p with
    | MStrategy => if SHUTDOWN_TIMEOUT_SECS * 1000 <=? pg_elapsed_ms p then set_main (MReturned (Err "Shutdown timeout")) p else p
    | _ => poll_main scanning_ended p
    end.
Proof.
  destruct (pg_main p) eqn:Em; auto. unfold poll_main, poll_shutdown. rewrite Em.
  assert (He : scanning_ended (pg_strategy p) = false) by now destruct (pg_strategy p).
  now rewrite He, Em, Em.
Qed.

Lemma main_step_past disk p p' :
  never_past_strategy disk p -> main_program_step p p' -> never_past_strategy disk p'.
Proof.
  intros Hp Hstep. pose proof Hp as [Hm Hd Hdisk].
  destruct Hstep; try (split; cbn; auto; fail).
  - split; cbn; auto. destruct Hm as [Hm | [Hm | [Hm _]]]; auto. unfold is_over in *. now rewrite Hm in *.
  - rewrite poll_running. destruct Hm as [Hm | [Hm | [Hm _]]].
    + unfold poll_main, poll_shutdown. rewrite Hm. cbv zeta. rewrite !Hm. exact Hp.
    + rewrite Hm. destruct (_ <=? _) eqn:El; [| exact Hp]. split; cbn; auto. right; right. split; [reflexivity | now apply Z.leb_le].
    + unfold is_over in *. now rewrite Hm in *.
  - destruct Hm as [Hm | [Hm | [Hm _]]]; congruence.
Qed.

(** C28. The program never shuts down gracefully: from the signal on [main] waits for
    the strategy task, which does not end, until the 30 seconds are over, and then
    returns an error; nothing was stopped, joined or saved.  That end is always
    within reach.  At no time is there a trade to be wound up. *)
Theorem shutdown_never_completes env sm oc n queue disk p :
  star main_program_step (main_program env sm oc n queue disk) p ->
  (pg_main p = MRunning \/ pg_main p = MStrategy \/
     (pg_main p = MReturned (Err "Shutdown timeout") /\ SHUTDOWN_TIMEOUT_SECS * 1000 <= pg_elapsed_ms p)) /\
  pg_detector p = true /\ pg_disk p = disk /\
  sr_trades (runner_of (pg_strategy p)) = ∅ /\
  (pg_main p = MStrategy ->
     exists p', star main_program_step p p' /\ pg_main p' = MReturned (Err "Shutdown timeout")).
Proof.
  intros Hr.
  assert (Hp : never_past_strategy disk p).
  { revert Hr. apply star_invariant; [split; cbn; auto | apply main_step_past]. }
  destruct Hp as [Hm Hd Hk]. pose proof (strategy_reachable _ _ _ _ _ _ _ Hr) as Hs.
  destruct (idle_reachable fmt2 fuel _ _ _ _ _ Hs) as (_ & [Htr _ _ _ _ _] & _).
  repeat (split; [assumption |]). intros Hms.
  exists (poll_main scanning_ended (set_elapsed (pg_elapsed_ms p + Z.max 0 (30000 - pg_elapsed_ms p)) p)). split.
  - eapply star_step; [eapply star_step; [apply star_refl | apply step_time] | apply step_poll]; unfold is_over; cbn; rewrite ?Hms; auto; lia.
  - rewrite poll_running. cbn [set_elapsed pg_main pg_elapsed_ms]. rewrite Hms.
    destruct (Z.leb_spec (SHUTDOWN_TIMEOUT_SECS * 1000) (pg_elapsed_ms p + Z.max 0 (30000 - pg_elapsed_ms p))); [reflexivity |].
    unfold SHUTDOWN_TIMEOUT_SECS in *. lia.
Qed.
End main.

(** ** Runs *)

Abbreviation demo_strategy := (phase PaperTradingBackend sym_ids sym_keys (list io) market_queue opportunity_queue).

Definition demo_program : program demo_strategy (list_queue message) :=
  main_program [] demo_symbols (oq_with_capacity 16) 6 (lq_new 2) ∅.

(** Ctrl+C, and thirty seconds later. *)
Definition demo_timeout : program demo_strategy (list_queue message) :=
  poll_main scanning_ended
    (set_elapsed 30000 (set_main MStrategy (set_elapsed 0
      (set_ingest 6 [] true (request_shutdown (pg_io demo_program)) demo_program)))).

Lemma shutdown_never_completes_witness :
  star (main_program_step (V:=ScriptedRunner.json) ScriptedRunner.demo_text demo_fuel (fun _ => "")) demo_program demo_timeout /\
  pg_main demo_timeout = MReturned (Err "Shutdown timeout") /\ pg_disk demo_timeout = ∅.
Proof.
  assert (Hr : star (main_program_step (V:=ScriptedRunner.json) ScriptedRunner.demo_text demo_fuel (fun _ => "")) demo_program demo_timeout).
  { unfold demo_timeout. eapply star_step; [| now apply step_poll].
    eapply star_step; [eapply star_step; [apply star_refl | now apply step_signal] |].
    refine (step_time _ _ _ _ 30000 _ _); [reflexivity | lia]. }
  pose proof (shutdown_never_completes ScriptedRunner.demo_text demo_fuel (fun _ => "") [] demo_symbols (oq_with_capacity 16) 6 (lq_new 2) ∅ _ Hr)
    as (_ & _ & Hd & _).
  split; [exact Hr | split; [vm_compute; reflexivity | exact Hd]].
Defined.

(** A program whose strategy task does end: the writer finds the queue empty and is
    gone before a connector sends its last text; everything else ends after that. *)
Definition ends_once (s s' : bool) : Prop := s = false /\ s' = true.

Definition ending_program : program bool (list_queue message) := program_start false 1 (lq_new 2) ∅.

Definition last_text : message := Persistence.demo_text 0.

(** After the signal, and after [k] steps of the writer. *)
Definition signalled (k : nat) : program bool (list_queue message) :=
  set_main MStrategy (set_ingest 1 [] true (writer_turns (repeat true k) (request_shutdown (pg_io ending_program))) ending_program).

Definition text_queued : program bool (list_queue message) :=
  set_ingest 1 [] true (bridge_step last_text (pg_io (signalled 3))) (signalled 3).

Definition ended_gracefully : program bool (list_queue message) :=
  set_main (MReturned (Ok tt))
    (save_shutdown_state (fun _ => "{}") 1700000000 true
      (poll_main id (set_ingest 0 [] false (pg_io text_queued)
        (poll_main id (set_strategy true text_queued))))).

Lemma graceful_run : star (program_step ends_once id (fun _ => "{}")) ending_program ended_gracefully.
Proof.
  unfold ended_gracefully.
  eapply star_step; [| apply step_join; reflexivity].
  eapply star_step; [| now apply step_poll].
  eapply star_step; [| refine (step_bridge_ends _ _ _ (set_ingest 0 [] true (pg_io text_queued) (poll_main id (set_strategy true text_queued))) _ _ _ _ _ _); reflexivity].
  eapply star_step; [| now refine (step_connector_ends _ _ _ (poll_main id (set_strategy true text_queued)) 0 _ _)].
  eapply star_step; [| now apply step_poll].
  eapply star_step; [| now apply step_strategy].
  eapply star_step; [| refine (step_bridge_takes _ _ _ (set_ingest 1 [last_text] true (pg_io (signalled 3)) (signalled 3)) last_text [] _ _ _ _); reflexivity].
  eapply star_step; [| refine (step_send _ _ _ (signalled 3) last_text _ _); [reflexivity | left; cbn; lia]].
  eapply star_step; [| refine (step_writer _ _ _ (signalled 2) true _); reflexivity].
  eapply star_step; [| refine (step_writer _ _ _ (signalled 1) true _); reflexivity].
  eapply star_step; [| refine (step_writer _ _ _ (signalled 0) true _); reflexivity].
  eapply star_step; [apply star_refl | now apply step_signal].
Qed.

(** [Ok], and the last text is still in the queue. *)
Lemma shutdown_reports_witness :
  star (program_step ends_once id (fun _ => "{}")) ending_program ended_gracefully /\
  io_writer (pg_io ended_gracefully) = WExit /\ pg_channel ended_gracefully = [] /\
  io_acked (pg_io ended_gracefully) = [] /\ aq_view (io_queue (pg_io ended_gracefully)) = [last_text].
Proof.
  assert (Hq : aq_view (Q:=list_queue message) (lq_new 2) = []) by reflexivity.
  destruct (shutdown_reports ends_once id (fun _ => "{}") false 1 (lq_new 2) ∅ ended_gracefully (Ok tt) Hq graceful_run eq_refl)
    as (_ & _ & _ & _ & Hc & _ & Hw & _).
  split; [exact graceful_run | split; [exact Hw | split; [exact Hc | split; vm_compute; reflexivity]]].
Defined.
