(* ===== verification/BybitClient.v ===== *)
(** The Bybit demo client ([src/src/strategy/testnet/bybit_testnet.rs]): server
    time, the quantity step and order book caches, the requests it signs, and
    what it reads in the answers.

    [Net] is what the client takes from outside: an HTTP exchange (the status
    and the text of the answer, or the error's text) and HMAC-SHA256 in hex;
    [Runtime] has the clocks.  JSON is the [Json] interface of the message parser with the calls
    only this client makes ([JsonApi]). *)
From Stdlib Require Import ZArith Lia Bool Ascii String.
From stdpp Require Import base option list gmap strings pretty.
From S2P Require Import Prelude Float64 NumberText Types ExchangeParser.

#[local] Open Scope string_scope.
#[local] Open Scope Z_scope.
#[local] Infix ".>" := and_then (at level 50, left associativity).

(** ** What the client takes from outside *)

(** A request: POST with a JSON body or GET, and the key, the timestamp and the
    signature of its headers, if it is signed. *)
Record request := {
  rq_url : string;
  rq_body : option string;
  rq_auth : option (string * string * string)
}.

(** The clocks ([Instant] in nanoseconds, the wall clock), [sleep] and UUIDs. *)
Class Runtime (N : Type) := {
  rt_instant : ST N Z;
  rt_unix_millis : ST N Z;
  rt_unix_secs : ST N Z;
  rt_sleep_ms : Z -> ST N unit;
  rt_uuid : ST N string
}.

Class Net (N : Type) := {
  n_send : request -> ST N (result (Z * string) string);
  n_hmac : string -> string -> string;
  n_status_text : Z -> string   (* the text of an HTTP status *)
}.

Class JsonApi (V : Type) := {
  j_as_i64 : V -> option Z;
  j_error : string -> string;                  (* the text of [from_str]'s error *)
  j_object : list (string * string) -> string  (* [json!({..}).to_string()] *)
}.

(** ** State *)
Record CachedOrderBook := { co_depth : OrderBookDepth; co_cached_at : Z }.

Record BybitDemoClient := {
  bc_api_key : string;
  bc_api_secret : string;
  bc_qty_step_cache : gmap string f64;
  bc_order_book_cache : gmap (string * Z) CachedOrderBook;
  bc_time_offset : Z;
  bc_last_sync : Z
}.

Record ExchangeCredentials := {
  ec_api_key : string;
  ec_api_secret : string;
  ec_passphrase : option string
}.

Definition BybitDemoClient_new (credentials : ExchangeCredentials) (now : Z) : BybitDemoClient :=
  {| bc_api_key := ec_api_key credentials; bc_api_secret := ec_api_secret credentials;
     bc_qty_step_cache := ∅; bc_order_book_cache := ∅; bc_time_offset := 0; bc_last_sync := now |}.

Definition set_qty_steps (m : gmap string f64) (c : BybitDemoClient) : BybitDemoClient :=
  {| bc_api_key := bc_api_key c; bc_api_secret := bc_api_secret c; bc_qty_step_cache := m;
     bc_order_book_cache := bc_order_book_cache c; bc_time_offset := bc_time_offset c;
     bc_last_sync := bc_last_sync c |}.
Definition set_books (m : gmap (string * Z) CachedOrderBook) (c : BybitDemoClient) : BybitDemoClient :=
  {| bc_api_key := bc_api_key c; bc_api_secret := bc_api_secret c;
     bc_qty_step_cache := bc_qty_step_cache c; bc_order_book_cache := m;
     bc_time_offset := bc_time_offset c; bc_last_sync := bc_last_sync c |}.
Definition set_sync (offset now : Z) (c : BybitDemoClient) : BybitDemoClient :=
  {| bc_api_key := bc_api_key c; bc_api_secret := bc_api_secret c;
     bc_qty_step_cache := bc_qty_step_cache c; bc_order_book_cache := bc_order_book_cache c;
     bc_time_offset := offset; bc_last_sync := now |}.

Definition BYBIT_DEMO_URL : string := "https://api-demo.bybit.com".
Definition ORDER_BOOK_CACHE_TTL : Z := 100 * 1000000.   (* ns *)
Definition recv_window : string := "5000".

Section client.
Context {N V : Type} `{Runtime N} `{Net N} `{Json V} `{JsonApi V}.
Abbreviation M A := (ST (N * BybitDemoClient) A).

Definition on_net {A} (m : ST N A) : M A := fun '(n, c) => let '(a, n) := m n in (a, (n, c)).
Definition client : M BybitDemoClient := fun '(n, c) => (c, (n, c)).
Definition upd_client (f : BybitDemoClient -> BybitDemoClient) : M unit := fun '(n, c) => (tt, (n, f c)).

(** [option.ok_or(e)?] and [serde_json::from_str(text)?] *)
Definition ok_or {A} (o : option A) (e : string) : result A string :=
  match o with Some a => Ok a | None => Err e end.
Definition from_str (text : string) : M (result V string) :=
  ret (ok_or (j_from_str text) (j_error text)).

(** ** Answers *)

(** A [retCode] that is not zero, with its message. *)
Definition api_error (json : V) : option (Z * string) :=
  match j_get "retCode" json .> j_as_i64 with
  | Some ret_code =>
      if ret_code =? 0 then None
      else Some (ret_code, default "Unknown error" (j_get "retMsg" json .> j_as_str))
  | None => None
  end.

Definition first_of (ks : list string) (json : V) : option V := get_path ks json .> j_as_array .> head.
Definition f64_at (ks : list string) (json : V) : option f64 := str_at ks json .> std_parse_f64.
Definition i64_at (ks : list string) (json : V) : option Z := str_at ks json .> parse_i64.

(** ** Server time *)
Definition server_time (json : V) : option Z :=
  match (fun nano => Z.quot nano 1000000) <$> i64_at ["result"; "timeNano"] json with
  | Some t => Some t
  | None => (fun sec => wrap_i64 (sec * 1000)) <$> i64_at ["result"; "timeSecond"] json
  end.

Definition get_request (url : string) : request :=
  {| rq_url := BYBIT_DEMO_URL ++ url; rq_body := None; rq_auth := None |}.

Definition sync_server_time : M (result unit string) :=
  (let! local_time_before := on_net rt_unix_millis in
   let? '(_, text) := on_net (n_send (get_request "/v5/market/time")) in
   let? json := from_str text in
   let! local_time_after := on_net rt_unix_millis in
   let? server_time := ret (ok_or (server_time json) "Failed to extract server time") in
   let local_time_avg := Z.quot (wrap_i64 (local_time_before + local_time_after)) 2 in
   let offset := wrap_i64 (server_time - local_time_avg) in
   let! now := on_net rt_instant in
   do! upd_client (set_sync offset now) in
   ret (Ok tt))%st.

(** Resynchronised when more than five seconds old; a failure is only printed.
    The clock and the offset are read afterwards. *)
Definition get_timestamp : M string :=
  (let! now := on_net rt_instant in
   let! c := client in
   do! (if 5 * 1000000000 <? now - bc_last_sync c then sync_server_time else ret (Ok tt)) in
   let! local_time := on_net rt_unix_millis in
   let! c := client in
   ret (pretty (wrap_i64 (local_time + bc_time_offset c))))%st.

(** ** Signed requests *)
Definition generate_signature (c : BybitDemoClient) (timestamp payload : string) : string :=
  n_hmac (bc_api_secret c) (timestamp ++ bc_api_key c ++ recv_window ++ payload).

Definition post (timestamp url : string) (fields : list (string * string)) : M (result (Z * string) string) :=
  (let! c := client in
   let body := j_object fields in
   on_net (n_send {| rq_url := BYBIT_DEMO_URL ++ url; rq_body := Some body;
                     rq_auth := Some (bc_api_key c, timestamp, generate_signature c timestamp body) |}))%st.

Definition signed_get (timestamp url query_string : string) : M (result (Z * string) string) :=
  (let! c := client in
   on_net (n_send {| rq_url := BYBIT_DEMO_URL ++ url ++ "?" ++ query_string; rq_body := None;
                     rq_auth := Some (bc_api_key c, timestamp, generate_signature c timestamp query_string) |}))%st.

(** ** Instruments *)
Definition get_qty_step (symbol : string) : M (result f64 string) :=
  (let! c := client in
   match bc_qty_step_cache c !! symbol with
   | Some qty_step => ret (Ok qty_step)
   | None =>
       let? '(_, text) := on_net (n_send (get_request
         ("/v5/market/instruments-info?category=linear&symbol=" ++ symbol))) in
       let? json := from_str text in
       let? qty_step := ret (ok_or (first_of ["result"; "list"] json .> f64_at ["lotSizeFilter"; "qtyStep"])
                               "Failed to extract qtyStep from response") in
       do! upd_client (fun c => set_qty_steps (<[symbol := qty_step]> (bc_qty_step_cache c)) c) in
       ret (Ok qty_step)
   end)%st.

(** Any answer of the exchange counts as success; only the transport fails. *)
Definition set_leverage (symbol : string) : M (result unit string) :=
  (let! timestamp := get_timestamp in
   let? '(_, text) := post timestamp "/v5/position/set-leverage"
     [("category", "linear"); ("symbol", symbol); ("buyLeverage", "1"); ("sellLeverage", "1")] in
   let? _ := from_str text in
   ret (Ok tt))%st.

Definition is_symbol_tradeable (symbol : string) : M (result bool string) :=
  (let? '(_, text) := on_net (n_send (get_request "/v5/market/instruments-info?category=linear")) in
   let? json := from_str text in
   let instruments := default [] (get_path ["result"; "list"] json .> j_as_array) in
   ret (Ok match List.find (fun i => bool_decide (str_at ["symbol"] i = Some symbol)) instruments with
           | Some i => String.eqb (default "" (str_at ["status"] i)) "Trading"
           | None => false
           end))%st.

(** ** Orders *)
Definition side_text (s : OrderSide) : string := match s with Long => "Buy" | Short => "Sell" end.

(** Eight decimals without the zeros, and the point, at the end. *)
Definition trimmed (x : f64) : string := trim_end_matches "." (trim_end_matches "0" (fixed 8 x)).

Definition qty_text (size qty_step : f64) : string := trimmed (fround (size / qty_step) * qty_step)%F.
Definition price_text (price : f64) : string :=
  trimmed (fround (price * 100000000.0%f64) / 100000000.0%f64)%F.

(** The order id of an accepted order. *)
Definition created (text : string) : M (result string string) :=
  (let? json := from_str text in
   ret match api_error json with
       | Some (ret_code, ret_msg) => Err ("Bybit API error (" ++ pretty ret_code ++ "): " ++ ret_msg)
       | None => ok_or (str_at ["result"; "orderId"] json) "Failed to extract order ID from response"
       end)%st.

Definition order_fields (order : SimulatedOrder) : list (string * string) :=
  [("category", "linear"); ("symbol", so_symbol order); ("side", side_text (so_side order))].

Definition place_market_order (order : SimulatedOrder) : M (result SimulatedOrder string) :=
  (let! timestamp := get_timestamp in
   let? qty_step := get_qty_step (so_symbol order) in
   let? '(_, text) := post timestamp "/v5/order/create"
     (order_fields order ++
      [("orderType", "Market"); ("qty", qty_text (so_size order) qty_step); ("timeInForce", "IOC")])%list in
   let? order_id := created text in
   let at_ := default 0 (parse_u64 timestamp) in
   ret (Ok (set_so_fill_price (Some (so_price order)) (set_so_filled_at (Some at_)
     (set_so_created_at at_ (set_so_status Filled (set_so_id order_id order)))))))%st.

Definition place_order (order : SimulatedOrder) : M (result SimulatedOrder string) :=
  (let! timestamp := get_timestamp in
   let? qty_step := get_qty_step (so_symbol order) in
   let? '(_, text) := post timestamp "/v5/order/create"
     (order_fields order ++
      [("orderType", "Limit"); ("qty", qty_text (so_size order) qty_step);
       ("price", price_text (so_price order)); ("timeInForce", "GTC"); ("leverage", "1")])%list in
   let? order_id := created text in
   ret (Ok (set_so_created_at (default 0 (parse_u64 timestamp))
     (set_so_status Pending (set_so_id order_id order)))))%st.

(** Everything but the two final states counts as pending. *)
Definition order_status_of (status_str : string) : OrderStatus :=
  if String.eqb status_str "Filled" then Filled
  else if String.eqb status_str "Cancelled" then Cancelled else Pending.

Definition order_query (order_id symbol : string) : string :=
  "category=linear&symbol=" ++ symbol ++ "&orderId=" ++ order_id.

(** The error code of the answer is not looked at. *)
Definition get_order_status (order_id symbol : string) : M (result OrderStatus string) :=
  (let! timestamp := get_timestamp in
   let? '(_, text) := signed_get timestamp "/v5/order/realtime" (order_query order_id symbol) in
   let? json := from_str text in
   ret (Ok (order_status_of (default "Unknown" (first_of ["result"; "list"] json .> str_at ["orderStatus"])))))%st.

Definition get_order_status_detailed (order_id symbol : string) : M (result OrderStatusInfo string) :=
  (let! timestamp := get_timestamp in
   let? '(_, text) := signed_get timestamp "/v5/order/realtime" (order_query order_id symbol) in
   let? json := from_str text in
   ret match api_error json with
       | Some (_, ret_msg) => Err ("Bybit API error: " ++ ret_msg)
       | None =>
           match first_of ["result"; "list"] json with
           | None => Err "Order not found in response"
           | Some order_data =>
               Ok {| osi_status := order_status_of (default "Unknown" (str_at ["orderStatus"] order_data));
                     osi_filled_quantity := default 0.0%f64 (f64_at ["cumExecQty"] order_data);
                     osi_total_quantity := default 0.0%f64 (f64_at ["qty"] order_data) |}
           end
       end)%st.

Definition cancel_order (order_id symbol : string) : M (result unit string) :=
  (let! timestamp := get_timestamp in
   let? '(_, text) := post timestamp "/v5/order/cancel"
     [("category", "linear"); ("symbol", symbol); ("orderId", order_id)] in
   let? json := from_str text in
   ret match api_error json with
       | Some (_, ret_msg) => Err ("Failed to cancel order: " ++ ret_msg)
       | None => Ok tt
       end)%st.

(** ** Account *)
Definition http_error (status : Z) (text : string) : string := "HTTP " ++ n_status_text status ++ ": " ++ text.
Definition is_success (status : Z) : bool := (200 <=? status) && (status <? 300).

Definition usdt_balance (json : V) : option f64 :=
  let coins := first_of ["result"; "list"] json .> j_get "coin" .> j_as_array in
  match coins .> List.find (fun coin => bool_decide (str_at ["coin"] coin = Some "USDT")) with
  | Some usdt => match f64_at ["equity"] usdt with
                 | Some balance => Some balance
                 | None => f64_at ["walletBalance"] usdt
                 end
  | None => None
  end.

Definition get_balance : M (result f64 string) :=
  (let! timestamp := get_timestamp in
   let? '(status, text) := signed_get timestamp "/v5/account/wallet-balance" "accountType=UNIFIED" in
   if negb (is_success status) then ret (Err (http_error status text))
   else if String.eqb text "" then ret (Err "Empty response from API")
   else
     let? json := from_str text in
     ret (ok_or (usdt_balance json) "Failed to extract USDT available balance"))%st.

(** ** Order book *)
Definition book_limit (levels : Z) : Z :=
  if levels <=? 1 then 1 else if levels <=? 25 then 25 else if levels <=? 50 then 50
  else if levels <=? 100 then 100 else 200.

Definition parse_level (level : V) : option PriceLevel :=
  match nth_of 0 level .> j_as_str .> std_parse_f64, nth_of 1 level .> j_as_str .> std_parse_f64 with
  | Some price, Some quantity => Some {| pl_price := price; pl_quantity := quantity |}
  | _, _ => None
  end.

Definition parse_side (k : string) (levels : Z) (result : V) : option (list PriceLevel) :=
  (fun l => omap parse_level (take (Z.to_nat levels) l)) <$> (j_get k result .> j_as_array).

Definition fetch_order_book (symbol : string) (levels : Z) : M (result OrderBookDepth string) :=
  (let? '(status, text) := on_net (n_send (get_request
     ("/v5/market/orderbook?category=linear&symbol=" ++ symbol ++ "&limit=" ++ pretty (book_limit levels)))) in
   if negb (is_success status) then ret (Err (http_error status text))
   else
     let? json := from_str text in
     match api_error json with
     | Some (_, ret_msg) => ret (Err ("Bybit API error: " ++ ret_msg))
     | None =>
         let? result := ret (ok_or (j_get "result" json) "Missing result in response") in
         let? bids := ret (ok_or (parse_side "b" levels result) "Missing bids in response") in
         let? asks := ret (ok_or (parse_side "a" levels result) "Missing asks in response") in
         let! timestamp := on_net rt_unix_millis in
         ret (Ok {| obd_bids := bids; obd_asks := asks; obd_timestamp := timestamp |})
     end)%st.

(** A book less than 100 ms old is answered from the cache. *)
Definition get_order_book_depth (symbol : string) (levels : Z) : M (result OrderBookDepth string) :=
  (let! c := client in
   let! fresh := match bc_order_book_cache c !! (symbol, levels) with
                 | Some cached =>
                     let! now := on_net rt_instant in
                     ret (if now - co_cached_at cached <? ORDER_BOOK_CACHE_TTL
                          then Some (co_depth cached) else None)
                 | None => ret None
                 end in
   match fresh with
   | Some depth => ret (Ok depth)
   | None =>
       let? depth := fetch_order_book symbol levels in
       let! cached_at := on_net rt_instant in
       do! upd_client (fun c => set_books
         (<[(symbol, levels) := {| co_depth := depth; co_cached_at := cached_at |}]> (bc_order_book_cache c)) c) in
       ret (Ok depth)
   end)%st.

Definition get_best_bid (symbol : string) : M (result f64 string) :=
  (let? depth := get_order_book_depth symbol 5 in
   ret (ok_or (pl_price <$> head (obd_bids depth)) "No bids available in order book"))%st.

Definition get_best_ask (symbol : string) : M (result f64 string) :=
  (let? depth := get_order_book_depth symbol 5 in
   ret (ok_or (pl_price <$> head (obd_asks depth)) "No asks available in order book"))%st.
End client.
