(* ===== verification/BitgetClient.v ===== *)
(** The Bitget demo client ([src/src/strategy/testnet/bitget_demo.rs]): the requests it
    signs and what it reads in the answers.  No code of the program creates it.

    [BitgetNet] is what the client takes from outside: an HTTP exchange (the status and
    the text of the answer, or the error's text) and the base64 text of HMAC-SHA256; the
    clock and the JSON interfaces are those of [BybitClient.v]. *)
From Stdlib Require Import ZArith Lia Bool Ascii String.
From stdpp Require Import base option list gmap strings pretty.
From S2P Require Import Prelude Float64 NumberText Types ExchangeParser BybitClient.

#[local] Open Scope string_scope.
#[local] Open Scope Z_scope.
#[local] Infix ".>" := and_then (at level 50, left associativity).

(** A request as [reqwest] builds it: [query] is what [.query(..)] appends to the URL. *)
Record bitget_request := {
  bq_method : string;
  bq_url : string;
  bq_query : list (string * string);
  bq_headers : list (string * string);
  bq_body : string
}.

Class BitgetNet (N : Type) := {
  bn_send : bitget_request -> ST N (result (Z * string) string);
  bn_hmac_base64 : string -> string -> string;
  bn_status_text : Z -> string
}.

Record BitgetDemoClient := {
  bg_api_key : string;
  bg_api_secret : string;
  bg_passphrase : string
}.

Definition BitgetDemoClient_new (credentials : ExchangeCredentials) : BitgetDemoClient :=
  {| bg_api_key := ec_api_key credentials; bg_api_secret := ec_api_secret credentials;
     bg_passphrase := default "" (ec_passphrase credentials) |}.

Definition BITGET_DEMO_URL : string := "https://api.bitget.com".

(** [k=v] pairs joined by ampersands. *)
Definition query_text (params : list (string * string)) : string :=
  String.concat "&" ((fun '(k, v) => (k ++ "=" ++ v)%string) <$> params).

Section bitget.
Context {N V : Type} `{Runtime N} `{BitgetNet N} `{Json V} `{JsonApi V}.
Context (c : BitgetDemoClient).

Definition bitget_signature (timestamp method path query_string body : string) : string :=
  let message := if String.eqb query_string ""
                 then timestamp ++ upper method ++ path ++ body
                 else timestamp ++ upper method ++ path ++ "?" ++ query_string ++ body in
  bn_hmac_base64 (bg_api_secret c) message.

Definition auth_headers (timestamp signature : string) : list (string * string) :=
  [("ACCESS-KEY", bg_api_key c); ("ACCESS-SIGN", signature); ("ACCESS-TIMESTAMP", timestamp);
   ("ACCESS-PASSPHRASE", bg_passphrase c); ("paptrading", "1")].

(** [serde_json::from_str(text)?] *)
Definition bitget_json (text : string) : result V string := ok_or (j_from_str text) (j_error text).

Definition bitget_timestamp : ST N string := (let! ms := rt_unix_millis in ret (pretty ms))%st.

(** A POST with a JSON object, signed over its text. *)
Definition bitget_post (timestamp path : string) (fields : list (string * string)) : ST N (result (Z * string) string) :=
  let body_str := j_object fields in
  let signature := bitget_signature timestamp "POST" path "" body_str in
  bn_send {| bq_method := "POST"; bq_url := BITGET_DEMO_URL ++ path; bq_query := [];
             bq_headers := (auth_headers timestamp signature ++ [("Content-Type", "application/json")])%list;
             bq_body := body_str |}.

(** ** Markets *)

(** Only the first contract of that name counts. *)
Definition bitget_is_symbol_tradeable (symbol : string) : ST N (result bool string) :=
  (let? '(_, text) := bn_send {| bq_method := "GET";
       bq_url := BITGET_DEMO_URL ++ "/api/v2/mix/market/contracts?productType=usdt-futures";
       bq_query := []; bq_headers := []; bq_body := "" |} in
   let? response_json := ret (bitget_json text) in
   let contracts := default [] (get_path ["data"] response_json .> j_as_array) in
   ret (Ok match List.find (fun contract => bool_decide (str_at ["symbol"] contract = Some symbol)) contracts with
           | Some contract =>
               String.eqb (default "" (str_at ["symbolType"] contract)) "perpetual" &&
               String.eqb (default "" (str_at ["symbolStatus"] contract)) "normal"
           | None => false
           end))%st.

(** ** Orders *)

(** The message of an answer whose code is not [00000]. *)
Definition bitget_error (json : V) : option string :=
  match str_at ["code"] json with
  | Some code => if String.eqb code "00000" then None
                 else Some (default "Unknown error" (str_at ["msg"] json))
  | None => None
  end.

Definition bitget_side (s : OrderSide) : string := match s with Long => "buy" | Short => "sell" end.

Definition bitget_place_order (order : SimulatedOrder) : ST N (result SimulatedOrder string) :=
  (let! timestamp := bitget_timestamp in
   let? '(_, text) := bitget_post timestamp "/api/v2/mix/order/place-order"
     [("symbol", so_symbol order); ("productType", "USDT-FUTURES"); ("marginMode", "crossed");
      ("marginCoin", "USDT"); ("size", display_f64 (so_size order)); ("price", display_f64 (so_price order));
      ("side", bitget_side (so_side order)); ("tradeSide", "open"); ("orderType", "limit"); ("force", "gtc")] in
   let? response_json := ret (bitget_json text) in
   ret match bitget_error response_json with
       | Some msg => Err ("Bitget API error: " ++ msg)
       | None =>
           match str_at ["data"; "orderId"] response_json with
           | None => Err "Failed to extract order ID from response"
           | Some order_id =>
               Ok (set_so_created_at (default 0 (parse_u64 timestamp))
                    (set_so_status Pending (set_so_id order_id order)))
           end
       end)%st.

(** The code of the answer is not looked at. *)
Definition bitget_get_order_status (order_id symbol : string) : ST N (result OrderStatus string) :=
  (let! timestamp := bitget_timestamp in
   let query_string := "symbol=" ++ symbol ++ "&productType=USDT-FUTURES&orderId=" ++ order_id in
   let path := "/api/v2/mix/order/orders-pending" in
   let signature := bitget_signature timestamp "GET" path query_string "" in
   let? '(_, text) := bn_send {| bq_method := "GET"; bq_url := BITGET_DEMO_URL ++ path ++ "?" ++ query_string;
       bq_query := []; bq_headers := auth_headers timestamp signature; bq_body := "" |} in
   let? response_json := ret (bitget_json text) in
   let status_str := default "unknown" (first_of ["data"] response_json .> str_at ["status"]) in
   ret (Ok (if String.eqb status_str "filled" then Filled
            else if String.eqb status_str "canceled" then Cancelled else Pending)))%st.

Definition bitget_cancel_order (order_id symbol : string) : ST N (result unit string) :=
  (let! timestamp := bitget_timestamp in
   let? '(_, text) := bitget_post timestamp "/api/v2/mix/order/cancel-order"
     [("symbol", symbol); ("productType", "USDT-FUTURES"); ("marginCoin", "USDT"); ("orderId", order_id)] in
   let? response_json := ret (bitget_json text) in
   ret match bitget_error response_json with
       | Some msg => Err ("Failed to cancel order: " ++ msg)
       | None => Ok tt
       end)%st.

(** ** Account *)
Definition available (data : V) : option V :=
  match j_as_array data with
  | Some accounts => head accounts .> j_get "available"
  | None => j_get "available" data
  end.

Definition bitget_get_balance : ST N (result f64 string) :=
  (let! timestamp := bitget_timestamp in
   let path := "/api/v2/mix/account/accounts" in
   let query_params := [("productType", "usdt-futures")] in
   let signature := bitget_signature timestamp "GET" path (query_text query_params) "" in
   let? '(status, text) := bn_send {| bq_method := "GET"; bq_url := BITGET_DEMO_URL ++ path;
       bq_query := query_params;
       bq_headers := (auth_headers timestamp signature ++ [("locale", "en-US"); ("Content-Type", "application/json")])%list;
       bq_body := "" |} in
   if negb (is_success status) then ret (Err ("HTTP " ++ bn_status_text status ++ ": " ++ text))
   else if String.eqb text "" then ret (Err "Empty response from API")
   else
     let? response_json := ret (bitget_json text) in
     ret (ok_or (get_path ["data"] response_json .> available .> j_as_str .> std_parse_f64)
            "Failed to extract USDT balance from response"))%st.
End bitget.

(** ** The requests are signed over what they carry

    A client that looks at its transport through a log of the requests it makes. *)
Section logged.
Context {N V : Type} `{Runtime N} `{BitgetNet N} `{Json V} `{JsonApi V}.

#[local] Instance logged_runtime : Runtime (N * list bitget_request) := {|
  rt_instant '(n, log) := let '(t, n) := rt_instant n in (t, (n, log));
  rt_unix_millis '(n, log) := let '(t, n) := rt_unix_millis n in (t, (n, log));
  rt_unix_secs '(n, log) := let '(t, n) := rt_unix_secs n in (t, (n, log));
  rt_sleep_ms ms '(n, log) := let '(t, n) := rt_sleep_ms ms n in (t, (n, log));
  rt_uuid '(n, log) := let '(t, n) := rt_uuid n in (t, (n, log))
|}.
#[local] Instance logged_net : BitgetNet (N * list bitget_request) := {|
  bn_send r '(n, log) := let '(a, n) := bn_send r n in (a, (n, (log ++ [r])%list));
  bn_hmac_base64 := bn_hmac_base64;
  bn_status_text := bn_status_text
|}.

(** The path and query a request arrives with. *)
Definition sent_target (r : bitget_request) : string :=
  match bq_query r with [] => bq_url r | q => bq_url r ++ "?" ++ query_text q end.

(** What the exchange checks of a private request: the signature of timestamp, method,
    path with query, and body, under the client's secret. *)
Definition signed_request (c : BitgetDemoClient) (r : bitget_request) : Prop :=
  exists timestamp target,
    sent_target r = BITGET_DEMO_URL ++ target /\
    ("ACCESS-TIMESTAMP", timestamp) ∈ bq_headers r /\ ("ACCESS-KEY", bg_api_key c) ∈ bq_headers r /\
    ("ACCESS-SIGN", bn_hmac_base64 (bg_api_secret c) (timestamp ++ bq_method r ++ target ++ bq_body r)) ∈ bq_headers r.

(** A public request carries no credentials. *)
Definition unsigned_request (r : bitget_request) : Prop := bq_headers r = [].

Inductive bitget_call :=
| CallTradeable (symbol : string) | CallPlace (order : SimulatedOrder)
| CallStatus (order_id symbol : string) | CallCancel (order_id symbol : string) | CallBalance.

Definition after_call (c : BitgetDemoClient) (call : bitget_call) (s : N * list bitget_request) : N * list bitget_request :=
  match call with
  | CallTradeable symbol => snd (bitget_is_symbol_tradeable symbol s)
  | CallPlace order => snd (bitget_place_order c order s)
  | CallStatus order_id symbol => snd (bitget_get_order_status c order_id symbol s)
  | CallCancel order_id symbol => snd (bitget_cancel_order c order_id symbol s)
  | CallBalance => snd (bitget_get_balance c s)
  end.

(** [m] sends one request that satisfies [P], whatever it makes of the answer. *)
Definition sends_one {A} (P : bitget_request -> Prop) (m : ST (N * list bitget_request) A) : Prop :=
  forall n log, exists r, snd (snd (m (n, log))) = (log ++ [r])%list /\ P r.

(** [m] sends nothing. *)
Definition silent {A} (m : ST (N * list bitget_request) A) : Prop := forall n log, snd (snd (m (n, log))) = log.

Lemma silent_ret {A} (a : A) : silent (ret a).
Proof. intros n log. reflexivity. Qed.

Lemma silent_bind_ok {A B} (r : result A string) (k : A -> ST (N * list bitget_request) (result B string)) :
  (forall a, silent (k a)) -> silent (bind_ok (ret r) k).
Proof. intros Hk n log. unfold bind_ok, ret. destruct r; [apply Hk | reflexivity]. Qed.

Lemma send_then {B} (P : bitget_request -> Prop) r (k : Z * string -> ST (N * list bitget_request) (result B string)) :
  P r -> (forall a, silent (k a)) -> sends_one P (bind_ok (bn_send r) k).
Proof.
  intros HP Hk n log. exists r. split; [| exact HP]. unfold bind_ok. cbn [bn_send logged_net].
  destruct (bn_send r n) as [[a | e] n1]; [apply Hk | reflexivity].
Qed.

Lemma timestamp_then {B} (P : bitget_request -> Prop) (k : string -> ST (N * list bitget_request) B) :
  (forall t, sends_one P (k t)) -> sends_one P (bind bitget_timestamp k).
Proof.
  intros Hk n log. unfold bitget_timestamp, bind. cbn. destruct (rt_unix_millis n) as [t n1]. cbn. apply Hk.
Qed.

(** A request whose headers are the client's, over the target and body it has. *)
Lemma signed_intro c timestamp target message headers r :
  sent_target r = BITGET_DEMO_URL ++ target ->
  bq_headers r = (auth_headers c timestamp (bn_hmac_base64 (bg_api_secret c) message) ++ headers)%list ->
  message = timestamp ++ bq_method r ++ target ++ bq_body r ->
  signed_request c r.
Proof.
  intros Ht Hh ->. exists timestamp, target. rewrite Hh.
  split_and!; [exact Ht | ..]; repeat first [left; fail | constructor].
Qed.

(** A path and its query, as they are signed and as they are sent. *)
Lemma query_signature c timestamp method path query body :
  query <> "" ->
  bitget_signature c timestamp method path query body =
  bn_hmac_base64 (bg_api_secret c) (timestamp ++ upper method ++ (path ++ "?" ++ query) ++ body).
Proof.
  intros Hq. unfold bitget_signature. apply String.eqb_neq in Hq. now rewrite Hq, !append_assoc.
Qed.

Ltac silent := repeat first [apply silent_ret | apply silent_bind_ok; intros ? | case_match].

(** Whatever it is asked and whatever it is answered, the Bitget client makes one
    request, a private one signed over the timestamp it carries, its method, its path
    with the query, and its body. *)
Theorem bitget_calls_signed c call n log :
  exists r, snd (after_call c call (n, log)) = (log ++ [r])%list /\
    match call with CallTradeable _ => unsigned_request r | _ => signed_request c r end.
Proof.
  destruct call as [symbol | order | id symbol | id symbol |]; cbn [after_call].
  - apply (send_then unsigned_request); [reflexivity | intros [? ?]; silent].
  - apply timestamp_then. intros t. apply send_then; [| intros [? ?]; silent].
    eapply (signed_intro c t "/api/v2/mix/order/place-order"); reflexivity.
  - apply timestamp_then. intros t. cbv zeta. rewrite query_signature by discriminate.
    apply send_then; [| intros [? ?]; silent].
    eapply (signed_intro c t _ _ []); [reflexivity | reflexivity |]. reflexivity.
  - apply timestamp_then. intros t. apply send_then; [| intros [? ?]; silent].
    eapply (signed_intro c t "/api/v2/mix/order/cancel-order"); reflexivity.
  - apply timestamp_then. intros t. cbv zeta. rewrite query_signature by discriminate.
    apply send_then; [| intros [? ?]; silent].
    eapply (signed_intro c t); reflexivity.
Qed.
End logged.

(** ** What the answers mean *)
Section answers.
Context {N V : Type} `{Runtime N} `{BitgetNet N} `{Json V} `{JsonApi V}.
Context (c : BitgetDemoClient) (status : Z) (text : string) (json : V).
Hypothesis answered : forall r n, fst (bn_send r n) = Ok (status, text).
Hypothesis read : j_from_str text = Some json.

Lemma answer_read {B} r (k : Z * string -> ST N (result B string)) n :
  bind_ok (bn_send r) k n = k (status, text) (snd (bn_send r n)).
Proof. unfold bind_ok. specialize (answered r n). destruct (bn_send r n) as [a n1]. cbn in *. now subst. Qed.

Ltac read_answer :=
  unfold bitget_timestamp, bind;
  match goal with |- context [rt_unix_millis ?n] => destruct (rt_unix_millis n) as [ms n1] end; cbn [ret];
  rewrite answer_read; cbn; unfold bind_ok, ret, bitget_json; rewrite read; cbn.

(** An answer without an order, an error included, says that the order is pending. *)
Lemma bitget_error_is_pending id symbol n :
  first_of ["data"] json = None -> fst (bitget_get_order_status c id symbol n) = Ok Pending.
Proof. intros Hd. unfold bitget_get_order_status. read_answer. now rewrite Hd. Qed.

(** An accepted order is pending under the id of the answer; what was ordered stays. *)
Lemma bitget_place_order_ok order n order' :
  fst (bitget_place_order c order n) = Ok order' ->
  bitget_error json = None /\ str_at ["data"; "orderId"] json = Some (so_id order') /\
  so_status order' = Pending /\ so_symbol order' = so_symbol order /\ so_side order' = so_side order /\
  so_size order' = so_size order /\ so_price order' = so_price order.
Proof.
  unfold bitget_place_order, bitget_post. read_answer.
  destruct (bitget_error json); [discriminate |]. destruct (str_at _ json) as [order_id |] eqn:Hi; [| discriminate].
  intros [= <-]. auto 10.
Qed.

Lemma bitget_cancel_order_ok id symbol n :
  fst (bitget_cancel_order c id symbol n) = Ok tt <-> bitget_error json = None.
Proof.
  unfold bitget_cancel_order, bitget_post. read_answer. destruct (bitget_error json); split; congruence.
Qed.
End answers.
