(* ===== verification/BinanceClient.v ===== *)
(** The Binance demo client ([src/src/strategy/testnet/binance_demo.rs]): server time,
    the precision and order book caches, the rate limiter its requests share, except the
    one for the order book, the
    requests it signs, and what it reads in the answers.  The file is in no module of
    the program.

    [BinanceNet] is what the client takes from outside: an HTTP exchange (the status and
    the text of the answer, or the error's text) and HMAC-SHA256 in hex; the clocks and
    the JSON interfaces are those of [BybitClient.v].  The wall clock is after 1970. *)
From Stdlib Require Import ZArith Lia Bool Ascii String.
From stdpp Require Import base option list gmap strings pretty.
From S2P Require Import Prelude Float64 NumberText Types RateLimiter ExchangeParser BybitClient.

#[local] Open Scope string_scope.
#[local] Open Scope Z_scope.
#[local] Infix ".>" := and_then (at level 50, left associativity).

Inductive http_method := GET | POST | DELETE.

(** A request, with the key of its [X-MBX-APIKEY] header. *)
Record binance_request := {
  nq_method : http_method;
  nq_url : string;
  nq_api_key : option string
}.

Class BinanceNet (N : Type) := {
  nn_send : binance_request -> ST N (result (Z * string) string);
  nn_hmac : string -> string -> string;
  nn_status_text : Z -> string
}.

Class JsonUnsigned (V : Type) := { j_as_u64 : V -> option Z }.

(** ** State *)

(** Quantity and price precision, smallest price, tick size. *)
Record SymbolPrecision := {
  sp_quantity : Z;
  sp_price : Z;
  sp_min_price : f64;
  sp_tick_size : f64
}.

Record BinanceDemoClient := {
  nc_api_key : string;
  nc_api_secret : string;
  nc_precision_cache : gmap string SymbolPrecision;
  nc_order_book_cache : gmap (string * Z) CachedOrderBook;
  nc_time_offset : Z;
  nc_last_sync : Z
}.

Definition BinanceDemoClient_new (credentials : ExchangeCredentials) (now : Z) : BinanceDemoClient :=
  {| nc_api_key := ec_api_key credentials; nc_api_secret := ec_api_secret credentials;
     nc_precision_cache := ∅; nc_order_book_cache := ∅; nc_time_offset := 0; nc_last_sync := now |}.

Definition set_precisions (m : gmap string SymbolPrecision) (c : BinanceDemoClient) : BinanceDemoClient :=
  {| nc_api_key := nc_api_key c; nc_api_secret := nc_api_secret c; nc_precision_cache := m;
     nc_order_book_cache := nc_order_book_cache c; nc_time_offset := nc_time_offset c;
     nc_last_sync := nc_last_sync c |}.
Definition set_order_books (m : gmap (string * Z) CachedOrderBook) (c : BinanceDemoClient) : BinanceDemoClient :=
  {| nc_api_key := nc_api_key c; nc_api_secret := nc_api_secret c;
     nc_precision_cache := nc_precision_cache c; nc_order_book_cache := m;
     nc_time_offset := nc_time_offset c; nc_last_sync := nc_last_sync c |}.
Definition set_time (offset now : Z) (c : BinanceDemoClient) : BinanceDemoClient :=
  {| nc_api_key := nc_api_key c; nc_api_secret := nc_api_secret c;
     nc_precision_cache := nc_precision_cache c; nc_order_book_cache := nc_order_book_cache c;
     nc_time_offset := offset; nc_last_sync := now |}.

Definition BINANCE_DEMO_URL : string := "https://testnet.binancefuture.com".
Definition BOOK_CACHE_TTL : Z := 100 * 1000000.   (* ns *)

(** The limiter of all requests: twenty a second, in bursts of thirty. *)
Definition BINANCE_RATE_LIMITER (now : Z) : RateLimiter := RateLimiter_new 20 30 now.

(** [from_secs_f64(1.0 / 20.0)] *)
Definition WAIT_MS : Z := 50.
Example wait_of_limiter : (1.0%f64 / f_of_Z 20)%F = 0.05%f64.
Proof. vm_compute. reflexivity. Qed.

(** ** Rounding *)

(** [f64::powi] for any exponent. *)
Definition powi_int (a : f64) (n : Z) : f64 :=
  if n <? 0 then (1.0%f64 / powi a (- n))%F else powi a n.

(** [precision as i32] *)
Definition u32_as_i32 (z : Z) : Z := if z <? 2 ^ 31 then z else z - 2 ^ 32.

Definition round_quantity (quantity : f64) (precision : Z) : f64 :=
  let multiplier := powi_int 10.0%f64 (u32_as_i32 precision) in
  (ffloor (quantity * multiplier) / multiplier)%F.

(** The digits behind the point. *)
Definition decimals_of (tick_str : string) : Z :=
  match index 0 "." tick_str with
  | Some dot_pos => Z.of_nat (String.length tick_str - dot_pos - 1)
  | None => 0
  end.

Definition round_price_to_tick (price tick_size : f64) : string :=
  if (tick_size <=? 0.0%f64)%F then display_f64 price
  else
    let rounded := (fround (price / tick_size) * tick_size)%F in
    let tick_str := trim_end_matches "0" (fixed 10 tick_size) in
    fixed (Z.to_nat (decimals_of tick_str)) rounded.

Example rounding_examples :
  round_quantity 0.123456%f64 3 = 0.123%f64 /\ round_quantity 12.9%f64 0 = 12.0%f64 /\
  round_price_to_tick 97123.456%f64 0.1%f64 = "97123.5" /\ round_price_to_tick 0.00012349%f64 0.0000001%f64 = "0.0001235" /\
  round_price_to_tick 1234.0%f64 5.0%f64 = "1235".
Proof. vm_compute. repeat split; reflexivity. Qed.

Section binance.
Context {N V : Type} `{Runtime N} `{BinanceNet N} `{Json V} `{JsonApi V} `{JsonUnsigned V}.
Abbreviation M A := (ST (N * BinanceDemoClient * RateLimiter) A).

Definition on_net {A} (m : ST N A) : M A := fun '(n, c, l) => let '(a, n) := m n in (a, (n, c, l)).
Definition on_limiter {A} (m : ST RateLimiter A) : M A := fun '(n, c, l) => let '(a, l) := m l in (a, (n, c, l)).
Definition binance : M BinanceDemoClient := fun '(n, c, l) => (c, (n, c, l)).
Definition upd_binance (f : BinanceDemoClient -> BinanceDemoClient) : M unit := fun '(n, c, l) => (tt, (n, f c, l)).

(** ** Requests through the limiter *)

(** [acquire]: turns of the limiter with sleeps between them; [fuel] bounds the turns. *)
Fixpoint acquire (fuel : nat) : M bool :=
  match fuel with
  | O => ret false
  | S fuel =>
      let! now := on_net rt_instant in
      let! wait := on_limiter (acquire_turn now) in
      match wait with
      | None => ret true
      | Some _ => do! on_net (rt_sleep_ms WAIT_MS) in acquire fuel
      end
  end%st.

Context (fuel : nat).
Definition out_of_fuel : string := "rate limiter: out of fuel".

Definition rate_limited (r : binance_request) : M (result (Z * string) string) :=
  (let! granted := acquire fuel in
   if granted then on_net (nn_send r) else ret (Err out_of_fuel))%st.

Definition rate_limited_get (url : string) : M (result (Z * string) string) :=
  rate_limited {| nq_method := GET; nq_url := url; nq_api_key := None |}.
Definition with_key (m : http_method) (url : string) : M (result (Z * string) string) :=
  (let! c := binance in rate_limited {| nq_method := m; nq_url := url; nq_api_key := Some (nc_api_key c) |})%st.
Definition rate_limited_post (url : string) : M (result (Z * string) string) := with_key POST url.
Definition rate_limited_delete (url : string) : M (result (Z * string) string) := with_key DELETE url.
Definition rate_limited_get_with_key (url : string) : M (result (Z * string) string) := with_key GET url.

(** [serde_json::from_str(text)?] *)
Definition read_json (text : string) : M (result V string) := ret (ok_or (j_from_str text) (j_error text)).

(** The message of an answer with a code that is not zero. *)
Definition binance_error (json : V) : option string :=
  match j_get "code" json .> j_as_i64 with
  | Some code => if code =? 0 then None else Some (default "Unknown error" (str_at ["msg"] json))
  | None => None
  end.

(** ** Server time *)
Definition binance_sync_server_time : M (result unit string) :=
  (let! local_time_before := on_net rt_unix_millis in
   let? '(_, text) := rate_limited_get (BINANCE_DEMO_URL ++ "/fapi/v1/time") in
   let? json := read_json text in
   let! local_time_after := on_net rt_unix_millis in
   let? server_time := ret (ok_or (j_get "serverTime" json .> j_as_i64) "Failed to extract server time") in
   let local_time_avg := Z.quot (wrap_i64 (local_time_before + local_time_after)) 2 in
   let offset := wrap_i64 (server_time - local_time_avg) in
   let! now := on_net rt_instant in
   do! upd_binance (set_time offset now) in
   ret (Ok tt))%st.

(** Resynchronised when more than five seconds old; a failure is only printed. *)
Definition binance_timestamp : M string :=
  (let! now := on_net rt_instant in
   let! c := binance in
   do! (if 5 * 1000000000 <? now - nc_last_sync c then binance_sync_server_time else ret (Ok tt)) in
   let! local_time := on_net rt_unix_millis in
   let! c := binance in
   ret (pretty (wrap_i64 (local_time + nc_time_offset c))))%st.

(** ** Symbols *)
Definition find_symbol (symbol : string) (json : V) : option V :=
  get_path ["symbols"] json .> j_as_array .>
    List.find (fun sym => bool_decide (str_at ["symbol"] sym = Some symbol)).

(** The last price filter wins. *)
Definition price_filter (ticks : f64 * f64) (filter : V) : f64 * f64 :=
  if bool_decide (str_at ["filterType"] filter = Some "PRICE_FILTER") then
    let '(tick_size, min_price) := ticks in
    (match str_at ["tickSize"] filter with
     | Some tick_str => default 0.00000001%f64 (std_parse_f64 tick_str) | None => tick_size end,
     match str_at ["minPrice"] filter with
     | Some min_str => default 0.00000001%f64 (std_parse_f64 min_str) | None => min_price end)
  else ticks.

Definition precision_of (sym : V) : SymbolPrecision :=
  let '(tick_size, min_price) :=
    fold_left price_filter (default [] (get_path ["filters"] sym .> j_as_array)) (0.00000001%f64, 0.00000001%f64) in
  {| sp_quantity := wrap32 (default 8 (j_get "quantityPrecision" sym .> j_as_u64));
     sp_price := wrap32 (default 8 (j_get "pricePrecision" sym .> j_as_u64));
     sp_min_price := min_price; sp_tick_size := tick_size |}.

Definition exchange_info : M (result V string) :=
  (let? '(_, text) := rate_limited_get (BINANCE_DEMO_URL ++ "/fapi/v1/exchangeInfo") in read_json text)%st.

Definition get_symbol_precision (symbol : string) : M (result SymbolPrecision string) :=
  (let! c := binance in
   match nc_precision_cache c !! symbol with
   | Some precision => ret (Ok precision)
   | None =>
       let? json := exchange_info in
       match find_symbol symbol json with
       | Some sym =>
           do! upd_binance (fun c => set_precisions (<[symbol := precision_of sym]> (nc_precision_cache c)) c) in
           ret (Ok (precision_of sym))
       | None => ret (Err ("Symbol " ++ symbol ++ " not found in exchange info"))
       end
   end)%st.

Definition binance_is_symbol_tradeable (symbol : string) : M (result bool string) :=
  (let? json := exchange_info in
   ret (Ok match find_symbol symbol json with
           | Some sym => String.eqb (default "" (str_at ["status"] sym)) "TRADING"
           | None => false
           end))%st.

(** ** Signed requests *)
Definition binance_signature (c : BinanceDemoClient) (query_string : string) : string :=
  lower (nn_hmac (nc_api_secret c) query_string).

(** The query carries the window, the time and, last, its own signature. *)
Definition signed (m : http_method) (path query timestamp : string) : M (result (Z * string) string) :=
  (let! c := binance in
   let query_string := query ++ "recvWindow=5000&timestamp=" ++ timestamp in
   with_key m (BINANCE_DEMO_URL ++ path ++ "?" ++ query_string ++ "&signature=" ++ binance_signature c query_string))%st.

(** An error of the exchange, a leverage already set say, does not fail. *)
Definition binance_set_leverage (symbol : string) : M (result unit string) :=
  (let! timestamp := binance_timestamp in
   let? '(_, text) := signed POST "/fapi/v1/leverage" ("symbol=" ++ symbol ++ "&leverage=1&") timestamp in
   let? _ := read_json text in
   ret (Ok tt))%st.

Definition binance_set_margin_type_isolated (symbol : string) : M (result unit string) :=
  (let! timestamp := binance_timestamp in
   let? '(_, text) := signed POST "/fapi/v1/marginType" ("symbol=" ++ symbol ++ "&marginType=ISOLATED&") timestamp in
   let? _ := read_json text in
   ret (Ok tt))%st.

(** ** Orders *)
Definition binance_side (s : OrderSide) : string := match s with Long => "BUY" | Short => "SELL" end.

Definition binance_status (status_str : string) : OrderStatus :=
  if String.eqb status_str "FILLED" then Filled
  else if String.eqb status_str "CANCELED" || String.eqb status_str "CANCELLED" || String.eqb status_str "EXPIRED"
  then Cancelled else Pending.

Definition order_path : string := "/fapi/v1/order".
Definition id_query (symbol order_id : string) : string := "symbol=" ++ symbol ++ "&orderId=" ++ order_id ++ "&".

(** The id of an accepted order. *)
Definition accepted (json : V) : result string string :=
  match binance_error json with
  | Some msg => Err ("Binance API error: " ++ msg)
  | None => ok_or (pretty <$> (j_get "orderId" json .> j_as_i64)) "Failed to extract order ID from response"
  end.

(** A positive average price. *)
Definition avg_price (json : V) : option f64 :=
  match f64_at ["avgPrice"] json with
  | Some p => if (p >? 0.0%f64)%F then Some p else None
  | None => None
  end.

(** An error of the exchange counts as pending. *)
Definition binance_get_order_status (order_id symbol : string) : M (result OrderStatus string) :=
  (let! timestamp := binance_timestamp in
   let? '(_, text) := signed GET order_path (id_query symbol order_id) timestamp in
   let? json := read_json text in
   ret (Ok match binance_error json with
           | Some _ => Pending
           | None => binance_status (default "UNKNOWN" (str_at ["status"] json))
           end))%st.

(** The price of a market order: what its status says after 200 ms, else what the
    answer said, else the price it was ordered at. *)
Definition actual_fill_price (order_id symbol : string) (fill_price : f64) : M f64 :=
  (do! on_net (rt_sleep_ms 200) in
   let! status := binance_get_order_status order_id symbol in
   match status with
   | Ok Filled =>
       let! status_timestamp := binance_timestamp in
       let! answer := signed GET order_path (id_query symbol order_id) status_timestamp in
       ret match answer with
           | Ok (_, status_text) =>
               match j_from_str status_text with
               | Some status_json => default fill_price (avg_price status_json)
               | None => fill_price
               end
           | Err _ => fill_price
           end
   | _ => ret fill_price
   end)%st.

Definition binance_place_market_order (order : SimulatedOrder) : M (result SimulatedOrder string) :=
  (let! timestamp := binance_timestamp in
   let? precision := get_symbol_precision (so_symbol order) in
   let rounded_qty := round_quantity (so_size order) (sp_quantity precision) in
   let? '(_, text) := signed POST order_path
     ("symbol=" ++ so_symbol order ++ "&side=" ++ binance_side (so_side order) ++ "&type=MARKET&quantity=" ++
      display_f64 rounded_qty ++ "&") timestamp in
   let? json := read_json text in
   let? order_id := ret (accepted json) in
   let! price := actual_fill_price order_id (so_symbol order) (default (so_price order) (avg_price json)) in
   let at_ := default 0 (parse_u64 timestamp) in
   ret (Ok (set_so_fill_price (Some price) (set_so_price price (set_so_size rounded_qty
     (set_so_filled_at (Some at_) (set_so_created_at at_ (set_so_status Filled (set_so_id order_id order)))))))))%st.

Definition binance_place_order (order : SimulatedOrder) : M (result SimulatedOrder string) :=
  (let! timestamp := binance_timestamp in
   let? precision := get_symbol_precision (so_symbol order) in
   let rounded_qty := round_quantity (so_size order) (sp_quantity precision) in
   let rounded_price_str := round_price_to_tick (so_price order) (sp_tick_size precision) in
   let rounded_price := default (so_price order) (std_parse_f64 rounded_price_str) in
   let? '(_, text) := signed POST order_path
     ("symbol=" ++ so_symbol order ++ "&side=" ++ binance_side (so_side order) ++
      "&type=LIMIT&timeInForce=GTC&quantity=" ++ display_f64 rounded_qty ++ "&price=" ++ rounded_price_str ++
      "&leverage=1&") timestamp in
   let? json := read_json text in
   let? order_id := ret (accepted json) in
   ret (Ok (set_so_price rounded_price (set_so_size rounded_qty
     (set_so_created_at (default 0 (parse_u64 timestamp)) (set_so_status Pending (set_so_id order_id order)))))))%st.

Definition binance_get_order_status_detailed (order_id symbol : string) : M (result OrderStatusInfo string) :=
  (let! timestamp := binance_timestamp in
   let? '(_, text) := signed GET order_path (id_query symbol order_id) timestamp in
   let? json := read_json text in
   ret match binance_error json with
       | Some msg => Err ("Binance API error: " ++ msg)
       | None =>
           Ok {| osi_status := binance_status (default "UNKNOWN" (str_at ["status"] json));
                 osi_filled_quantity := default 0.0%f64 (f64_at ["executedQty"] json);
                 osi_total_quantity := default 0.0%f64 (f64_at ["origQty"] json) |}
       end)%st.

Definition binance_cancel_order (order_id symbol : string) : M (result unit string) :=
  (let! timestamp := binance_timestamp in
   let? '(_, text) := signed DELETE order_path (id_query symbol order_id) timestamp in
   let? json := read_json text in
   ret match binance_error json with
       | Some msg => Err ("Failed to cancel order: " ++ msg)
       | None => Ok tt
       end)%st.

(** ** Account *)
Definition binance_http_error (status : Z) (text : string) : string :=
  "HTTP " ++ nn_status_text status ++ ": " ++ text.

Definition usdt_available (json : V) : option f64 :=
  get_path ["assets"] json .> j_as_array .>
    List.find (fun asset => bool_decide (str_at ["asset"] asset = Some "USDT")) .> f64_at ["availableBalance"].

Definition binance_get_balance : M (result f64 string) :=
  (let! timestamp := binance_timestamp in
   let? '(status, text) := signed GET "/fapi/v2/account" "" timestamp in
   if negb (is_success status) then ret (Err (binance_http_error status text))
   else if String.eqb text "" then ret (Err "Empty response from API")
   else
     let? json := read_json text in
     ret (ok_or (usdt_available json) "Failed to extract USDT available balance"))%st.

(** ** Order book *)
Definition depth_limit (levels : Z) : Z :=
  if levels <=? 5 then 5 else if levels <=? 10 then 10 else if levels <=? 20 then 20
  else if levels <=? 50 then 50 else if levels <=? 100 then 100 else if levels <=? 500 then 500 else 1000.

(** This request does not go through the limiter. *)
Definition fetch_depth (symbol : string) (levels : Z) : M (result OrderBookDepth string) :=
  (let? '(status, text) := on_net (nn_send {| nq_method := GET;
     nq_url := BINANCE_DEMO_URL ++ "/fapi/v1/depth?symbol=" ++ symbol ++ "&limit=" ++ pretty (depth_limit levels);
     nq_api_key := None |}) in
   if negb (is_success status) then ret (Err (binance_http_error status text))
   else
     let? json := read_json text in
     match binance_error json with
     | Some msg => ret (Err ("Binance API error: " ++ msg))
     | None =>
         let? bids := ret (ok_or (parse_side "bids" levels json) "Missing bids in response") in
         let? asks := ret (ok_or (parse_side "asks" levels json) "Missing asks in response") in
         let! timestamp := on_net rt_unix_millis in
         ret (Ok {| obd_bids := bids; obd_asks := asks; obd_timestamp := timestamp |})
     end)%st.

(** A book less than 100 ms old is answered from the cache. *)
Definition binance_order_book_depth (symbol : string) (levels : Z) : M (result OrderBookDepth string) :=
  (let! c := binance in
   let! fresh := match nc_order_book_cache c !! (symbol, levels) with
                 | Some cached =>
                     let! now := on_net rt_instant in
                     ret (if now - co_cached_at cached <? BOOK_CACHE_TTL then Some (co_depth cached) else None)
                 | None => ret None
                 end in
   match fresh with
   | Some depth => ret (Ok depth)
   | None =>
       let? depth := fetch_depth symbol levels in
       let! cached_at := on_net rt_instant in
       do! upd_binance (fun c => set_order_books
         (<[(symbol, levels) := {| co_depth := depth; co_cached_at := cached_at |}]> (nc_order_book_cache c)) c) in
       ret (Ok depth)
   end)%st.

Definition binance_best_bid (symbol : string) : M (result f64 string) :=
  (let? depth := binance_order_book_depth symbol 5 in
   ret (ok_or (pl_price <$> head (obd_bids depth)) "No bids available in order book"))%st.

Definition binance_best_ask (symbol : string) : M (result f64 string) :=
  (let? depth := binance_order_book_depth symbol 5 in
   ret (ok_or (pl_price <$> head (obd_asks depth)) "No asks available in order book"))%st.
End binance.
