(* ===== verification/BinanceSpec.v ===== *)
(** The rate of the Binance client's requests: whatever it is asked and answered, in any
    stretch of time it makes no more requests through its limiter than the rate allows.

    The transport is looked at through a log of the clock's readings and the requests. *)
From Stdlib Require Import ZArith Lia Bool Ascii String.
From stdpp Require Import base option list gmap strings pretty.
From S2P Require Import Prelude Float64 NumberText Types RateLimiter RateBound ExchangeParser BybitClient BinanceClient.

#[local] Open Scope Z_scope.
#[local] Open Scope list_scope.

(** A clock that does not go back, whatever the network does, and sleeps that last. *)
Class SteadyClock (N : Type) `{Runtime N} `{BinanceNet N} := {
  sc_now : N -> Z;
  sc_instant n : let '(t, n') := rt_instant n in sc_now n <= t /\ t <= sc_now n';
  sc_millis n : sc_now n <= sc_now (snd (rt_unix_millis n));
  sc_sleep ms n : 0 <= ms -> sc_now n + 1000000 * ms <= sc_now (snd (rt_sleep_ms ms n));
  sc_send r n : sc_now n <= sc_now (snd (nn_send r n))
}.

Inductive event := Tick (t : Z) | Sent (r : binance_request).

Section logged.
Context {N V : Type} `{SteadyClock N} `{Json V} `{JsonApi V} `{JsonUnsigned V}.
Abbreviation L := (N * list event)%type.

#[local] Instance logged_runtime : Runtime L := {|
  rt_instant '(n, log) := let '(t, n) := rt_instant n in (t, (n, log ++ [Tick t]));
  rt_unix_millis '(n, log) := let '(t, n) := rt_unix_millis n in (t, (n, log));
  rt_unix_secs '(n, log) := let '(t, n) := rt_unix_secs n in (t, (n, log));
  rt_sleep_ms ms '(n, log) := let '(x, n) := rt_sleep_ms ms n in (x, (n, log));
  rt_uuid '(n, log) := let '(x, n) := rt_uuid n in (x, (n, log))
|}.
#[local] Instance logged_net : BinanceNet L := {|
  nn_send r '(n, log) := let '(a, n) := nn_send r n in (a, (n, log ++ [Sent r]));
  nn_hmac := nn_hmac;
  nn_status_text := nn_status_text
|}.

(** The order book is asked for past the limiter. *)
Definition depth_url : string := (BINANCE_DEMO_URL ++ "/fapi/v1/depth?symbol=")%string.
Definition is_limited (r : binance_request) : bool := negb (String.prefix depth_url (nq_url r)).

(** The times of the limited requests: each is sent at the last reading before it. *)
Fixpoint sent_times (last : Z) (log : list event) : list Z :=
  match log with
  | [] => []
  | Tick t :: log => sent_times t log
  | Sent r :: log => if is_limited r then last :: sent_times last log else sent_times last log
  end.

Definition last_tick (last : Z) (log : list event) : Z :=
  fold_left (fun last e => match e with Tick t => t | Sent _ => last end) log last.

Lemma sent_times_app last a b : sent_times last (a ++ b) = sent_times last a ++ sent_times (last_tick last a) b.
Proof.
  revert last. induction a as [| [t | r] a IH]; intros last; [reflexivity | apply IH |].
  cbn [app sent_times]. change (last_tick last (Sent r :: a)) with (last_tick last a). rewrite IH.
  now destruct (is_limited r).
Qed.

Lemma last_tick_app last a b : last_tick last (a ++ b) = last_tick (last_tick last a) b.
Proof. apply fold_left_app. Qed.

(** ** The limiter's turns and the requests in the log *)
Abbreviation world := (L * BinanceDemoClient * RateLimiter)%type.
Context (start : Z).

Fixpoint ascends (now : Z) (readings : list Z) : Prop :=
  match readings with [] => True | t :: readings => now <= t /\ ascends t readings end.

(** The turns at [readings] led to the limiter's state; the requests they let through are
    those of the log, and [pending] ones still to be sent. *)
Record in_step (pending readings : list Z) (w : world) : Prop := {
  is_limiter : snd w = fst (turns readings (BINANCE_RATE_LIMITER start));
  is_sent : snd (turns readings (BINANCE_RATE_LIMITER start)) = sent_times start (snd (fst (fst w))) ++ pending;
  is_ascending : ascends start readings;
  is_past : Forall (fun t => t <= sc_now (fst (fst (fst w)))) readings;
  is_started : start <= sc_now (fst (fst (fst w)))
}.
Definition stepped (w : world) : Prop := exists readings, in_step [] readings w.
Definition keeps (w w' : world) : Prop :=
  stepped w -> stepped w' /\ sc_now (fst (fst (fst w))) <= sc_now (fst (fst (fst w'))).

#[local] Instance keeps_preorder : PreOrder keeps.
Proof.
  split; [intros w Hw; split; [exact Hw | reflexivity] |].
  intros a b c K1 K2 Ha. destruct (K1 Ha) as [Hb L1]. destruct (K2 Hb) as [Hc L2]. split; [exact Hc | lia].
Qed.

Lemma turns_snoc readings t s :
  turns (readings ++ [t]) s =
  (snd (acquire_turn t (fst (turns readings s))),
   snd (turns readings s) ++ match fst (acquire_turn t (fst (turns readings s))) with None => [t] | Some _ => [] end).
Proof.
  revert s. induction readings as [| x readings IH]; intros s; cbn [app turns fst snd].
  - destruct (acquire_turn t s) as [[] s']; reflexivity.
  - destruct (acquire_turn x s) as [r s']. rewrite IH. destruct (turns readings s') as [s2 g]. cbn [fst snd].
    now destruct r.
Qed.

Lemma ascends_snoc now readings t :
  ascends now readings -> Forall (fun x => x <= t) readings -> now <= t -> ascends now (readings ++ [t]).
Proof.
  revert now. induction readings as [| x readings IH]; intros now; cbn; [auto |].
  intros [K1 K2] Hf%Forall_cons. split; [exact K1 |]. apply IH; tauto.
Qed.

Lemma in_step_later pending readings n log c l n' log' c' :
  in_step pending readings (n, log, c, l) -> sc_now n <= sc_now n' -> sent_times start log' = sent_times start log ->
  in_step pending readings (n', log', c', l).
Proof.
  intros [K1 K2 K3 K4 K5] Hn Hl. constructor; cbn [fst snd] in *; try assumption; [now rewrite Hl | | lia].
  eapply Forall_impl; [exact K4 |]. cbn. lia.
Qed.

(** A world that only gets later and sends nothing through the limiter. *)
Lemma keeps_later n log c l n' log' c' :
  sc_now n <= sc_now n' -> sent_times start log' = sent_times start log -> keeps (n, log, c, l) (n', log', c', l).
Proof. intros Hn Hl [readings Hr]. split; [| exact Hn]. exists readings. eauto using in_step_later. Qed.

Lemma tick_silent log t : sent_times start (log ++ [Tick t]) = sent_times start log.
Proof. rewrite sent_times_app. cbn. apply app_nil_r. Qed.
(** [acquire] is granted at its last reading of the clock. *)
Lemma acquire_in_step k : forall w readings,
  in_step [] readings w ->
  let '(granted, w') := acquire k w in
  sc_now (fst (fst (fst w))) <= sc_now (fst (fst (fst w'))) /\
  exists readings' pending, in_step pending readings' w' /\
    pending = if granted then [last_tick start (snd (fst (fst w')))] else [].
Proof.
  induction k as [| k IH]; intros [[[n log] c] l] readings Hs; cbn [acquire]; [split; [reflexivity |]; exists readings, []; auto |].
  unfold bind, on_net at 1. cbn [rt_instant logged_runtime].
  pose proof (sc_instant n) as Hi. destruct (rt_instant n) as [now n1]. destruct Hi as [Hi1 Hi2].
  unfold on_limiter. destruct (acquire_turn now l) as [r l'] eqn:Ea.
  pose proof (turns_snoc readings now (BINANCE_RATE_LIMITER start)) as Ht. destruct Hs as [K1 K2 K3 K4 K5]. cbn [fst snd] in *.
  rewrite <- K1, Ea in Ht. cbn [fst snd] in Ht. rewrite app_nil_r in K2.
  assert (Hs' : in_step (match r with None => [now] | Some _ => [] end) (readings ++ [now]) (n1, log ++ [Tick now], c, l')).
  { constructor; cbn [fst snd]; rewrite ?Ht; cbn [fst snd]; [reflexivity | | | | lia].
    - now rewrite tick_silent, K2.
    - apply ascends_snoc; [exact K3 | | lia]. eapply Forall_impl; [exact K4 |]. cbn. lia.
    - apply Forall_app. split; [| repeat constructor; lia]. eapply Forall_impl; [exact K4 |]. cbn. lia. }
  destruct r as [wait |].
  - unfold on_net. cbn [rt_sleep_ms logged_runtime]. pose proof (sc_sleep WAIT_MS n1 ltac:(unfold WAIT_MS; lia)) as Hz.
    destruct (rt_sleep_ms WAIT_MS n1) as [x n2]. cbn [snd] in Hz.
    assert (Hz' : sc_now n1 <= sc_now n2) by (unfold WAIT_MS in Hz; lia).
    specialize (IH _ _ (in_step_later _ _ _ _ _ _ n2 _ c Hs' Hz' eq_refl)). cbn [fst snd] in IH.
    destruct (acquire k _) as [granted w']. destruct IH as [IH1 IH2]. split; [lia | exact IH2].
  - cbn [ret]. split; [cbn; lia |]. eexists _, _. split; [exact Hs' |]. cbn [fst snd]. now rewrite last_tick_app.
Qed.

(** A request that is let through is in the log at the time it was let through. *)
Lemma rate_limited_keeps k r : is_limited r = true -> respects keeps (rate_limited k r).
Proof.
  intros Hr w [readings Hs]. unfold rate_limited, bind. pose proof (acquire_in_step k w readings Hs) as Ha.
  destruct (acquire k w) as [granted [[[n log] c] l]]. destruct Ha as (Ht & rs & pending & Hs' & ->). cbn [fst snd] in *.
  destruct granted; cbn [ret snd]; [| split; [now exists rs | exact Ht]].
  unfold on_net. cbn [nn_send logged_net]. pose proof (sc_send r n) as Hn. destruct (nn_send r n) as [a n']. cbn [fst snd] in *.
  split; [| lia]. exists rs. destruct Hs' as [K1 K2 K3 K4 K5]. cbn [fst snd] in *. constructor; cbn [fst snd]; try assumption.
  - rewrite K2, sent_times_app. cbn [sent_times]. rewrite Hr. now rewrite app_nil_r.
  - eapply Forall_impl; [exact K4 |]. cbn. lia.
  - lia.
Qed.

(** ** Every call of the client *)
Lemma instant_keeps : respects keeps (on_net rt_instant : ST world Z).
Proof.
  intros [[[n log] c] l]. unfold on_net. cbn [rt_instant logged_runtime]. pose proof (sc_instant n) as Hi.
  destruct (rt_instant n) as [t n1]. apply keeps_later; [lia | apply tick_silent].
Qed.

Lemma millis_keeps : respects keeps (on_net rt_unix_millis : ST world Z).
Proof.
  intros [[[n log] c] l]. unfold on_net. cbn [rt_unix_millis logged_runtime]. pose proof (sc_millis n) as Hi.
  destruct (rt_unix_millis n) as [t n1]. now apply keeps_later.
Qed.

Lemma sleep_keeps ms : 0 <= ms -> respects keeps (on_net (rt_sleep_ms ms) : ST world unit).
Proof.
  intros Hms [[[n log] c] l]. unfold on_net. cbn [rt_sleep_ms logged_runtime]. pose proof (sc_sleep ms n Hms) as Hi.
  destruct (rt_sleep_ms ms n) as [t n1]. apply keeps_later; [cbn [snd] in Hi; lia | reflexivity].
Qed.

Lemma depth_keeps r : is_limited r = false -> respects keeps (on_net (nn_send r) : ST world (result (Z * string) string)).
Proof.
  intros Hr [[[n log] c] l]. unfold on_net. cbn [nn_send logged_net]. pose proof (sc_send r n) as Hi.
  destruct (nn_send r n) as [t n1]. apply keeps_later; [exact Hi |]. rewrite sent_times_app. cbn. rewrite Hr. apply app_nil_r.
Qed.

Lemma binance_keeps : respects keeps (binance : ST world BinanceDemoClient).
Proof. intros [[[n log] c] l]. now apply keeps_later. Qed.

Lemma upd_keeps f : respects keeps (upd_binance f : ST world unit).
Proof. intros [[[n log] c] l]. now apply keeps_later. Qed.

Ltac keeps_tac :=
  repeat first
    [ respects_step
    | apply instant_keeps | apply millis_keeps | apply sleep_keeps; lia | apply binance_keeps | apply upd_keeps
    | apply rate_limited_keeps; reflexivity | apply depth_keeps; reflexivity
    | assumption | progress cbv zeta ].

Context (fuel : nat).

Lemma sync_keeps : respects keeps (binance_sync_server_time fuel : ST world _).
Proof. unfold binance_sync_server_time, rate_limited_get, read_json. keeps_tac. Qed.

Lemma timestamp_keeps : respects keeps (binance_timestamp fuel : ST world _).
Proof. unfold binance_timestamp. keeps_tac. apply sync_keeps. Qed.

Lemma info_keeps : respects keeps (exchange_info fuel : ST world _).
Proof. unfold exchange_info, rate_limited_get, read_json. keeps_tac. Qed.

Lemma precision_keeps symbol : respects keeps (get_symbol_precision fuel symbol : ST world _).
Proof. unfold get_symbol_precision. keeps_tac. apply info_keeps. Qed.

(** A signed request asks for another path than the order book's. *)
Lemma signed_keeps m path query timestamp :
  (forall rest, String.prefix depth_url (BINANCE_DEMO_URL ++ path ++ "?" ++ rest)%string = false) ->
  respects keeps (signed fuel m path query timestamp : ST world _).
Proof. intros Hp. unfold signed, with_key. keeps_tac. apply rate_limited_keeps. unfold is_limited. cbn [nq_url]. now rewrite Hp. Qed.

Ltac signed_tac :=
  repeat first [keeps_tac; fail | progress keeps_tac | apply timestamp_keeps | apply precision_keeps | apply info_keeps
               | apply signed_keeps; intros; reflexivity].

Lemma order_status_keeps order_id symbol : respects keeps (binance_get_order_status fuel order_id symbol : ST world _).
Proof. unfold binance_get_order_status, read_json. signed_tac. Qed.

Lemma fill_price_keeps order_id symbol p : respects keeps (actual_fill_price fuel order_id symbol p : ST world _).
Proof. unfold actual_fill_price. keeps_tac; try apply order_status_keeps; signed_tac. Qed.

(** The order book's address is the one the limiter does not see. *)
Lemma depth_prefix rest : String.prefix depth_url (BINANCE_DEMO_URL ++ "/fapi/v1/depth?symbol=" ++ rest)%string = true.
Proof. destruct rest; reflexivity. Qed.

Lemma depth_book_keeps symbol levels : respects keeps (binance_order_book_depth symbol levels : ST world _).
Proof. unfold binance_order_book_depth, fetch_depth, read_json. keeps_tac. apply depth_keeps. unfold is_limited. cbn [nq_url]. now rewrite depth_prefix. Qed.

(** What the client can be asked. *)
Inductive binance_call :=
| NSync | NTradeable (symbol : string) | NPrecision (symbol : string) | NLeverage (symbol : string) | NMargin (symbol : string)
| NMarket (order : SimulatedOrder) | NLimit (order : SimulatedOrder)
| NStatus (order_id symbol : string) | NDetailed (order_id symbol : string) | NCancel (order_id symbol : string)
| NBalance | NDepth (symbol : string) (levels : Z) | NBid (symbol : string) | NAsk (symbol : string).

Definition after_call (w : world) (call : binance_call) : world :=
  match call with
  | NSync => snd (binance_sync_server_time fuel w)
  | NTradeable symbol => snd (binance_is_symbol_tradeable fuel symbol w)
  | NPrecision symbol => snd (get_symbol_precision fuel symbol w)
  | NLeverage symbol => snd (binance_set_leverage fuel symbol w)
  | NMargin symbol => snd (binance_set_margin_type_isolated fuel symbol w)
  | NMarket order => snd (binance_place_market_order fuel order w)
  | NLimit order => snd (binance_place_order fuel order w)
  | NStatus order_id symbol => snd (binance_get_order_status fuel order_id symbol w)
  | NDetailed order_id symbol => snd (binance_get_order_status_detailed fuel order_id symbol w)
  | NCancel order_id symbol => snd (binance_cancel_order fuel order_id symbol w)
  | NBalance => snd (binance_get_balance fuel w)
  | NDepth symbol levels => snd (binance_order_book_depth symbol levels w)
  | NBid symbol => snd (binance_best_bid symbol w)
  | NAsk symbol => snd (binance_best_ask symbol w)
  end.

Lemma call_keeps call w : keeps w (after_call w call).
Proof.
  assert (Hr : forall A (m : ST world A), respects keeps m -> keeps w (snd (m w))) by (intros A m Hm; apply Hm).
  destruct call; cbn [after_call]; apply Hr.
  - apply sync_keeps.
  - unfold binance_is_symbol_tradeable. signed_tac.
  - apply precision_keeps.
  - unfold binance_set_leverage, read_json. signed_tac.
  - unfold binance_set_margin_type_isolated, read_json. signed_tac.
  - unfold binance_place_market_order, read_json. signed_tac. apply fill_price_keeps.
  - unfold binance_place_order, read_json. signed_tac.
  - apply order_status_keeps.
  - unfold binance_get_order_status_detailed, read_json. signed_tac.
  - unfold binance_cancel_order, read_json. signed_tac.
  - unfold binance_get_balance, read_json. signed_tac.
  - apply depth_book_keeps.
  - unfold binance_best_bid. keeps_tac. apply depth_book_keeps.
  - unfold binance_best_ask. keeps_tac. apply depth_book_keeps.
Qed.

Lemma ascends_clock now m readings :
  ascends now readings -> Forall (fun t => t <= m) readings -> m < start + 2 ^ 64 -> clock_from start now readings.
Proof.
  intros Ha Hf Hm. revert now Ha. induction Hf as [| t readings Ht Hf IH]; intros now Ha; [exact I |].
  destruct Ha as [Ha1 Ha2]. split; [lia | now apply IH].
Qed.

(** C27. Whatever a Binance client is asked, in whatever order, and whatever it is
    answered, no stretch of time sees more requests through its limiter than twenty a
    second and thirty-one. *)
Theorem client_rate_bounded n c calls a b :
  start <= sc_now n -> a <= b ->
  let w := fold_left after_call calls ((n, []), c, BINANCE_RATE_LIMITER start) in
  sc_now (fst (fst (fst w))) < start + 2 ^ 64 ->
  SECOND * Z.of_nat (length (window a b (sent_times start (snd (fst (fst w)))))) <= SECOND * 31 + 20 * (b - a).
Proof.
  intros Hn Hab w Hw.
  assert (Hk : keeps ((n, []), c, BINANCE_RATE_LIMITER start) w).
  { apply (fold_left_preserves after_call (keeps _)); [| reflexivity]. intros w' call _ Hw'. etransitivity; [exact Hw' | apply call_keeps]. }
  destruct Hk as [[readings [K1 K2 K3 K4 K5]] _].
  { exists []. constructor; cbn; auto. }
  rewrite app_nil_r in K2. rewrite <- K2. apply (requests_in_window 20 30) with (start := start) (now := start).
  - unfold U32_MAX. lia.
  - lia.
  - eapply ascends_clock; eauto.
  - apply new_bucket. lia.
  - cbn. lia.
  - exact Hab.
Qed.

End logged.

(** ** The limiter lets a caller on its own through *)
Section waiting.
Context {N : Type} `{SteadyClock N}.

(** One turn of [acquire]: at a reading of the clock, with a sleep behind it if refused. *)
Lemma acquire_step k n c l :
  exists t n1, sc_now n <= t /\ t <= sc_now n1 /\
    match fst (acquire_turn t l) with
    | None => acquire (S k) (n, c, l) = (true, (n1, c, snd (acquire_turn t l)))
    | Some _ => exists n2, sc_now n1 + 50000000 <= sc_now n2 /\
                  acquire (S k) (n, c, l) = acquire k (n2, c, snd (acquire_turn t l))
    end.
Proof.
  pose proof (sc_instant n) as Hi. cbn [acquire]. unfold bind, on_limiter, on_net. destruct (rt_instant n) as [t n1].
  exists t, n1. split; [apply Hi |]. split; [apply Hi |].
  destruct (acquire_turn t l) as [[wait |] l']; cbn [fst snd]; [| reflexivity].
  pose proof (sc_sleep WAIT_MS n1 ltac:(unfold WAIT_MS; lia)) as Hz.
  destruct (rt_sleep_ms WAIT_MS n1) as [x n2]. exists n2. split; [unfold WAIT_MS in Hz; cbn [snd] in Hz; lia | reflexivity].
Qed.

(** Three turns are enough, so with fuel for them no request is given up. *)
Theorem acquire_ends n c l :
  bucket 20 30 (sc_now n) l ->
  let '(granted, (n', _, _)) := acquire 3 (n, c, l) in
  sc_now n' - rl_last_refill l < 2 ^ 64 -> granted = true.
Proof.
  intros Hb. destruct (acquire_step 2 n c l) as (t0 & n1 & A0 & B0 & C0).
  destruct (fst (acquire_turn t0 l)) eqn:E0; [destruct C0 as (m1 & D0 & ->) | now rewrite C0].
  destruct (acquire_step 1 m1 c (snd (acquire_turn t0 l))) as (t1 & n2 & A1 & B1 & C1).
  destruct (fst (acquire_turn t1 _)) eqn:E1; [destruct C1 as (m2 & D1 & ->) | now rewrite C1].
  destruct (acquire_step 0 m2 c (snd (acquire_turn t1 (snd (acquire_turn t0 l))))) as (t2 & n3 & A2 & B2 & C2).
  destruct (fst (acquire_turn t2 _)) eqn:E2; [destruct C2 as (m3 & D2 & ->) | now rewrite C2].
  cbn [acquire ret]. intros Hrange.
  destruct (third_turn_granted 20 30 ltac:(unfold U32_MAX; lia) ltac:(lia) t0 t1 t2 l) as [E | [E | E]]; try congruence.
  - destruct Hb. constructor; auto; lia.
  - lia.
  - lia.
  - unfold SECOND. lia.
Qed.
End waiting.

(** ** A client of a concrete clock *)
Section concrete.

(** The network is its clock, in nanoseconds: a reading takes one, an answer a million. *)
#[local] Instance tick_runtime : Runtime Z := {|
  rt_instant n := (n, n + 1); rt_unix_millis n := (n / 1000000, n + 1); rt_unix_secs n := (n / SECOND, n + 1);
  rt_sleep_ms ms n := (tt, n + 1000000 * Z.max 0 ms); rt_uuid n := (EmptyString, n)
|}.
#[local] Instance tick_net : BinanceNet Z := {|
  nn_send _ n := (Ok (200, "{}"%string), n + 1000000); nn_hmac _ _ := "ab"%string; nn_status_text _ := "OK"%string
|}.
#[local] Program Instance tick_steady : SteadyClock Z := {| sc_now n := n |}.
Next Obligation. intros n. cbn. lia. Qed.
Next Obligation. intros n. cbn. lia. Qed.
Next Obligation. intros ms n Hms. cbn. lia. Qed.
Next Obligation. intros r n. cbn. lia. Qed.
#[local] Instance empty_json : Json unit := {|
  j_get _ _ := None; j_as_str _ := None; j_as_array _ := None; j_is_f64 _ := false; j_as_f64 _ := None;
  j_from_str _ := Some tt
|}.
#[local] Instance empty_api : JsonApi unit := {| j_as_i64 _ := None; j_error t := t; j_object _ := "{}"%string |}.
#[local] Instance empty_unsigned : JsonUnsigned unit := {| j_as_u64 _ := None |}.

Definition credentials : ExchangeCredentials := {| ec_api_key := "key"; ec_api_secret := "secret"; ec_passphrase := None |}.

(** Forty questions for a status in one go: thirty-one in the first tenth of a second. *)
Definition forty : list binance_call := replicate 40 (NStatus "1" "BTCUSDT").

Lemma client_rate_bounded_witness :
  let w := fold_left (after_call (V:=unit) 3) forty ((0, []), BinanceDemoClient_new credentials 0, BINANCE_RATE_LIMITER 0) in
  (0 <= 0 /\ 0 <= 100000000 /\ sc_now (fst (fst (fst w))) < 0 + 2 ^ 64) /\
  length (window 0 100000000 (sent_times 0 (snd (fst (fst w))))) = 31%nat /\
  SECOND * Z.of_nat (length (window 0 100000000 (sent_times 0 (snd (fst (fst w)))))) <= SECOND * 31 + 20 * (100000000 - 0).
Proof.
  cbv zeta. split; [split; [lia | split; [lia | vm_compute; reflexivity]] |]. split; [vm_compute; reflexivity |].
  apply (client_rate_bounded (V:=unit) 0 3 0); [cbn; lia | lia | vm_compute; reflexivity].
Defined.
End concrete.
