(* ===== verification/TestnetBackend.v ===== *)
(** The demo backend ([src/src/strategy/testnet_backend.rs]): every call is
    routed to the one exchange client there is, Bybit's; in single-exchange mode
    orders for any other exchange than the primary one are simulated.

    [ExchangeClient] is what the backend takes from a client; [bybit_client] is
    the client of BybitClient.v. *)
From Stdlib Require Import ZArith Lia Bool String.
From stdpp Require Import base option list gmap strings pretty.
From S2P Require Import Prelude Float64 NumberText Types ExchangeParser BybitClient Backend.

#[local] Open Scope string_scope.
#[local] Open Scope Z_scope.

Class ExchangeClient (N C : Type) := {
  c_sync_server_time : ST (N * C) (result unit string);
  c_set_leverage : string -> ST (N * C) (result unit string);
  c_place_order : SimulatedOrder -> ST (N * C) (result SimulatedOrder string);
  c_place_market_order : SimulatedOrder -> ST (N * C) (result SimulatedOrder string);
  c_cancel_order : string -> string -> ST (N * C) (result unit string);
  c_get_order_status : string -> string -> ST (N * C) (result OrderStatus string);
  c_get_order_status_detailed : string -> string -> ST (N * C) (result OrderStatusInfo string);
  c_get_balance : ST (N * C) (result f64 string);
  c_get_order_book_depth : string -> Z -> ST (N * C) (result OrderBookDepth string);
  c_get_best_bid : string -> ST (N * C) (result f64 string);
  c_get_best_ask : string -> ST (N * C) (result f64 string);
  c_get_qty_step : string -> ST (N * C) (result f64 string)
}.

#[export] Instance bybit_client {N V} `{Runtime N} `{Net N} `{Json V} `{JsonApi V}
  : ExchangeClient N BybitDemoClient := {
  c_sync_server_time := BybitClient.sync_server_time (V:=V);
  c_set_leverage := BybitClient.set_leverage (V:=V);
  c_place_order := BybitClient.place_order (V:=V);
  c_place_market_order := BybitClient.place_market_order (V:=V);
  c_cancel_order := BybitClient.cancel_order (V:=V);
  c_get_order_status := BybitClient.get_order_status (V:=V);
  c_get_order_status_detailed := BybitClient.get_order_status_detailed (V:=V);
  c_get_balance := BybitClient.get_balance (V:=V);
  c_get_order_book_depth := BybitClient.get_order_book_depth (V:=V);
  c_get_best_bid := BybitClient.get_best_bid (V:=V);
  c_get_best_ask := BybitClient.get_best_ask (V:=V);
  c_get_qty_step := BybitClient.get_qty_step (V:=V)
}.

(** ** State *)
Record TestnetConfig := {
  tc_bybit : option ExchangeCredentials;
  tc_okx : option ExchangeCredentials;
  tc_kucoin : option ExchangeCredentials;
  tc_bitget : option ExchangeCredentials;
  tc_single_exchange_mode : bool;
  tc_primary_exchange : string
}.

Definition has_any_configured (c : TestnetConfig) : bool :=
  bool_decide (is_Some (tc_bybit c)) || bool_decide (is_Some (tc_okx c)) ||
  bool_decide (is_Some (tc_kucoin c)) || bool_decide (is_Some (tc_bitget c)).

Record TestnetBackend (N C : Type) := {
  tb_net : N;
  tb_bybit : option C;
  tb_order_metadata : gmap string (string * string);
  tb_failed_symbols : gmap (string * string) bool;
  tb_single_exchange_mode : bool;
  tb_primary_exchange : string
}.
Arguments tb_net {N C} _.
Arguments tb_bybit {N C} _.
Arguments tb_order_metadata {N C} _.
Arguments tb_failed_symbols {N C} _.
Arguments tb_single_exchange_mode {N C} _.
Arguments tb_primary_exchange {N C} _.

Definition TestnetBackend_new {N} (config : TestnetConfig) (net : N) (now : Z)
  : TestnetBackend N BybitDemoClient :=
  {| tb_net := net; tb_bybit := (fun creds => BybitDemoClient_new creds now) <$> tc_bybit config;
     tb_order_metadata := ∅; tb_failed_symbols := ∅;
     tb_single_exchange_mode := tc_single_exchange_mode config;
     tb_primary_exchange := tc_primary_exchange config |}.

Section backend.
Context {N C : Type} `{Runtime N} `{ExchangeClient N C}.
Abbreviation state := (TestnetBackend N C).
Abbreviation M A := (ST state (result A string)).

Definition tb_set (n : N) (c : option C) (b : state) : state :=
  {| tb_net := n; tb_bybit := c; tb_order_metadata := tb_order_metadata b;
     tb_failed_symbols := tb_failed_symbols b; tb_single_exchange_mode := tb_single_exchange_mode b;
     tb_primary_exchange := tb_primary_exchange b |}.

(** [metadata.insert(id, (exchange, symbol))] *)
Definition remember (id exchange symbol : string) : ST state unit := fun b =>
  (tt, {| tb_net := tb_net b; tb_bybit := tb_bybit b;
          tb_order_metadata := <[id := (exchange, symbol)]> (tb_order_metadata b);
          tb_failed_symbols := tb_failed_symbols b; tb_single_exchange_mode := tb_single_exchange_mode b;
          tb_primary_exchange := tb_primary_exchange b |}).

Definition runtime {A} (m : ST N A) : ST state A := fun b =>
  let '(a, n) := m (tb_net b) in (a, tb_set n (tb_bybit b) b).

(** [if let Some(client) = &self.bybit { .. } else { Err(..) }] *)
Definition with_client {A} (m : ST (N * C) (result A string)) : M A := fun b =>
  match tb_bybit b with
  | Some c => let '(r, (n, c)) := m (tb_net b, c) in (r, tb_set n (Some c) b)
  | None => (Err "Bybit demo not configured", b)
  end.

Definition unsupported (exchange : string) : string := "Exchange " ++ exchange ++ " not supported in demo".

(** [match exchange { "bybit" => .., _ => Err(..) }] *)
Definition on_exchange {A} (exchange : string) (m : ST (N * C) (result A string)) : M A :=
  if String.eqb exchange "bybit" then with_client m else ret (Err (unsupported exchange)).

(** The order book calls know one more exchange, to say it is missing. *)
Definition on_book_exchange {A} (what exchange : string) (m : ST (N * C) (result A string)) : M A :=
  if String.eqb exchange "bitget" then ret (Err (what ++ " not yet implemented for Bitget"))
  else on_exchange exchange m.

(** An order on its exchange, remembered if it is accepted. *)
Definition real_order (send : SimulatedOrder -> ST (N * C) (result SimulatedOrder string))
  (order : SimulatedOrder) : M SimulatedOrder :=
  (let! result := on_exchange (so_exchange order) (send order) in
   match result with
   | Ok placed_order =>
       do! remember (so_id placed_order) (so_exchange order) (so_symbol placed_order) in
       ret (Ok placed_order)
   | Err e => ret (Err e)
   end)%st.

Definition simulated_order (order : SimulatedOrder) (ty : OrderType) (uuid : string) (t1 t2 : Z)
  : SimulatedOrder :=
  {| so_id := "sim_" ++ uuid; so_exchange := so_exchange order; so_symbol := so_symbol order;
     so_side := so_side order; so_order_type := ty; so_price := so_price order;
     so_size := so_size order;
     so_queue_position := Some {| qp_price := so_price order; qp_cumulative_volume_at_price := 0.0%f64;
                                  qp_resting_depth_at_entry := 0.0%f64; qp_fill_threshold_pct := 100.0%f64;
                                  qp_is_filled := true |};
     so_created_at := t1; so_filled_at := Some t2; so_fill_price := Some (so_price order);
     so_status := Filled |}.

Definition simulate (order : SimulatedOrder) (ty : OrderType) : M SimulatedOrder :=
  (let! uuid := runtime rt_uuid in
   let! t1 := runtime rt_unix_secs in
   let! t2 := runtime rt_unix_secs in
   let simulated := simulated_order order ty uuid t1 t2 in
   do! remember (so_id simulated) (so_exchange order) (so_symbol simulated) in
   ret (Ok simulated))%st.

(** Not on the primary exchange of single-exchange mode. *)
Definition simulates (exchange : string) (b : state) : bool :=
  tb_single_exchange_mode b && negb (String.eqb exchange (tb_primary_exchange b)).

Definition tb_place_order (order : SimulatedOrder) : M SimulatedOrder := fun b =>
  if simulates (so_exchange order) b then simulate order (so_order_type order) b
  else real_order c_place_order order b.

Definition tb_place_market_order (order : SimulatedOrder) : M SimulatedOrder := fun b =>
  if simulates (so_exchange order) b then simulate order Market b
  else real_order c_place_market_order order b.

(** [metadata.get(id)]: the exchange and the symbol the order was placed with. *)
Definition for_order {A} (order_id : string) (m : string -> ST (N * C) (result A string)) : M A := fun b =>
  match tb_order_metadata b !! order_id with
  | Some (exchange, symbol) => on_exchange exchange (m symbol) b
  | None => (Err ("Order " ++ order_id ++ " not found in metadata"), b)
  end.

Definition is_simulated (order_id : string) : bool := String.prefix "sim_" order_id.

Definition tb_cancel_order (_exchange order_id : string) : M unit :=
  if is_simulated order_id then ret (Ok tt) else for_order order_id (c_cancel_order order_id).

Definition tb_get_order_status (_exchange order_id : string) : M OrderStatus :=
  if is_simulated order_id then ret (Ok Filled) else for_order order_id (c_get_order_status order_id).

(** No case for simulated orders. *)
Definition tb_get_order_status_detailed (_exchange order_id symbol : string) : M OrderStatusInfo :=
  for_order order_id (fun _ => c_get_order_status_detailed order_id symbol).

Definition tb_get_available_balance (exchange : string) : M f64 := fun b =>
  if simulates exchange b then (Ok 1000000.0%f64, b) else on_exchange exchange c_get_balance b.

Definition tb_get_all_balances : M (gmap string f64) := fun b =>
  match with_client c_get_balance b with
  | (Ok balance, b) => (Ok {[ "bybit" := balance ]}, b)
  | (Err _, b) => (Ok ∅, b)
  end.

Definition tb_is_symbol_tradeable (exchange symbol : string) : M bool := fun b =>
  (Ok (bool_decide (tb_failed_symbols b !! (exchange, symbol) = None)), b).

(** Always 1x: the leverage asked for is ignored. *)
Definition tb_set_leverage (exchange symbol : string) (_leverage : Z) : M unit :=
  on_exchange exchange (c_set_leverage symbol).
Definition tb_set_margin_type_isolated (exchange symbol : string) : M unit :=
  if String.eqb exchange "bybit" then ret (Ok tt) else ret (Err (unsupported exchange)).

Definition tb_get_order_book_depth (exchange symbol : string) (levels : Z) : M OrderBookDepth :=
  on_book_exchange "get_order_book_depth" exchange (c_get_order_book_depth symbol levels).
Definition tb_get_best_bid (exchange symbol : string) : M f64 :=
  on_book_exchange "get_best_bid" exchange (c_get_best_bid symbol).
Definition tb_get_best_ask (exchange symbol : string) : M f64 :=
  on_book_exchange "get_best_ask" exchange (c_get_best_ask symbol).
Definition tb_get_quantity_step (exchange symbol : string) : M f64 :=
  on_exchange exchange (c_get_qty_step symbol).

(** Called once after start-up; a failure is only printed. *)
Definition tb_sync_server_time : M unit := fun b =>
  match tb_bybit b with
  | Some _ => let '(_, b) := with_client c_sync_server_time b in (Ok tt, b)
  | None => (Ok tt, b)
  end.

#[export] Instance testnet_backend : Backend state := {
  b_set_leverage := tb_set_leverage;
  b_set_margin_type_isolated := tb_set_margin_type_isolated;
  b_place_order := tb_place_order;
  b_place_market_order := tb_place_market_order;
  b_cancel_order := tb_cancel_order;
  b_get_order_status := tb_get_order_status;
  b_get_order_status_detailed := tb_get_order_status_detailed;
  b_get_available_balance := tb_get_available_balance;
  b_get_all_balances := tb_get_all_balances;
  b_is_symbol_tradeable := tb_is_symbol_tradeable;
  b_get_order_book_depth := tb_get_order_book_depth;
  b_get_best_bid := tb_get_best_bid;
  b_get_best_ask := tb_get_best_ask;
  b_backend_name _ := "Demo";
  b_get_quantity_step := tb_get_quantity_step;
  b_instant := runtime rt_instant;
  b_unix_secs := runtime rt_unix_secs;
  b_sleep_ms ms := runtime (rt_sleep_ms ms);
  b_new_uuid := runtime rt_uuid
}.
End backend.
