(* ===== verification/TestnetSpec.v ===== *)
(** What the demo backend promises the execution code
    ([src/src/strategy/testnet_backend.rs] and
    [src/src/strategy/testnet/bybit_testnet.rs]): its clock, the routing of
    orders, and what its two simulations do to the code built on it (the hedge of
    a simulated leg, the exit timeout). *)
From Stdlib Require Import ZArith Lia Bool String.
From stdpp Require Import base option list gmap strings pretty.
From S2P Require Import Prelude Float64 NumberText Types ExchangeParser BybitClient Backend AtomicExecution Entry TestnetBackend Portfolio Runner RunnerMonitor.

#[local] Open Scope string_scope.
#[local] Open Scope list_scope.
#[local] Open Scope Z_scope.

(** ** Time

    Time passes in the runtime, in the exchanges' answers, and so in the
    backend. *)
Class RuntimeClock (N : Type) `{Runtime N} := {
  rt_now : N -> Z;
  rt_instant_now n : fst (rt_instant n) = rt_now n /\ rt_now n <= rt_now (snd (rt_instant n));
  rt_sleep_now ms n : rt_now n + Z.max 0 ms * 1000000 <= rt_now (snd (rt_sleep_ms ms n));
  rt_millis_mono n : rt_now n <= rt_now (snd (rt_unix_millis n));
  rt_secs_mono n : rt_now n <= rt_now (snd (rt_unix_secs n));
  rt_uuid_mono n : rt_now n <= rt_now (snd (rt_uuid n))
}.

Class NetClock (N : Type) `{RuntimeClock N} `{Net N} := {
  n_send_mono q n : rt_now n <= rt_now (snd (n_send q n))
}.

Definition client_later {N C} `{RuntimeClock N} (p p' : N * C) : Prop := rt_now (fst p) <= rt_now (fst p').

#[export] Instance client_later_preorder {N C} `{RuntimeClock N} : PreOrder (client_later (C:=C)).
Proof. split; unfold client_later; [intros p | intros p q r]; lia. Qed.

Class ClientClock (N C : Type) `{RuntimeClock N} `{ExchangeClient N C} := {
  c_leverage_mono y : respects client_later (c_set_leverage y);
  c_place_mono o : respects client_later (c_place_order o);
  c_market_mono o : respects client_later (c_place_market_order o);
  c_cancel_mono i y : respects client_later (c_cancel_order i y);
  c_status_mono i y : respects client_later (c_get_order_status i y);
  c_detailed_mono i y : respects client_later (c_get_order_status_detailed i y);
  c_balance_mono : respects client_later c_get_balance;
  c_depth_mono y l : respects client_later (c_get_order_book_depth y l);
  c_bid_mono y : respects client_later (c_get_best_bid y);
  c_ask_mono y : respects client_later (c_get_best_ask y);
  c_step_mono y : respects client_later (c_get_qty_step y)
}.

Section client_clock.
Context {N V : Type} `{NetClock N} `{Json V} `{JsonApi V}.

Lemma on_net_later {A} (m : ST N A) :
  (forall n, rt_now n <= rt_now (snd (m n))) -> respects client_later (on_net m).
Proof. intros Hm [n c]. specialize (Hm n). unfold on_net, client_later. now destruct (m n). Qed.
Lemma client_same_later : respects client_later (client (N:=N)).
Proof. intros [n c]. unfold client_later. cbn. lia. Qed.
Lemma upd_client_later f : respects client_later (upd_client (N:=N) f).
Proof. intros [n c]. unfold client_later. cbn. lia. Qed.
Lemma instant_mono n : rt_now n <= rt_now (snd (rt_instant n)).
Proof. apply rt_instant_now. Qed.
Hint Resolve on_net_later client_same_later upd_client_later instant_mono rt_millis_mono n_send_mono : arb.

Ltac solve_client := repeat first [respects_step | solve [auto with arb]].

Lemma from_str_later text : respects client_later (from_str (N:=N) (V:=V) text).
Proof. unfold from_str. solve_client. Qed.
Hint Resolve from_str_later : arb.
Lemma sync_later : respects client_later (sync_server_time (N:=N) (V:=V)).
Proof. unfold sync_server_time. solve_client. Qed.
Hint Resolve sync_later : arb.
Lemma get_timestamp_later : respects client_later (get_timestamp (N:=N) (V:=V)).
Proof. unfold get_timestamp. solve_client. Qed.
Lemma post_later t u fs : respects client_later (post (N:=N) t u fs).
Proof. unfold post. solve_client. Qed.
Lemma signed_get_later t u q : respects client_later (signed_get (N:=N) t u q).
Proof. unfold signed_get. solve_client. Qed.
Lemma get_qty_step_later y : respects client_later (BybitClient.get_qty_step (N:=N) (V:=V) y).
Proof. unfold get_qty_step. solve_client. Qed.
Lemma created_later text : respects client_later (created (N:=N) (V:=V) text).
Proof. unfold created. solve_client. Qed.
Lemma fetch_later y l : respects client_later (fetch_order_book (N:=N) (V:=V) y l).
Proof. unfold fetch_order_book. solve_client. Qed.
Hint Resolve get_timestamp_later post_later signed_get_later get_qty_step_later created_later fetch_later : arb.
Lemma depth_later y l : respects client_later (BybitClient.get_order_book_depth (N:=N) (V:=V) y l).
Proof. unfold BybitClient.get_order_book_depth. solve_client. Qed.
Hint Resolve depth_later : arb.

#[export] Instance bybit_client_clock : ClientClock N BybitDemoClient.
Proof.
  split; intros; cbn; [unfold BybitClient.set_leverage | unfold BybitClient.place_order
    | unfold BybitClient.place_market_order | unfold BybitClient.cancel_order | unfold BybitClient.get_order_status
    | unfold BybitClient.get_order_status_detailed | unfold BybitClient.get_balance | | unfold BybitClient.get_best_bid
    | unfold BybitClient.get_best_ask |]; solve_client.
Qed.
End client_clock.

Section backend_clock.
Context {N C : Type} `{ClientClock N C}.
Abbreviation state := (TestnetBackend N C).

Definition tb_now (b : state) : Z := rt_now (tb_net b).
Definition tb_later (b b' : state) : Prop := tb_now b <= tb_now b'.

#[local] Instance tb_later_preorder : PreOrder tb_later.
Proof. split; unfold tb_later; [intros b | intros b c d]; lia. Qed.

Lemma runtime_later {A} (m : ST N A) : (forall n, rt_now n <= rt_now (snd (m n))) -> respects tb_later (runtime (C:=C) m).
Proof. intros Hm b. specialize (Hm (tb_net b)). unfold runtime, tb_later, tb_now. now destruct (m (tb_net b)). Qed.
Lemma with_client_later {A} (m : ST (N * C) (result A string)) :
  respects client_later m -> respects tb_later (with_client m).
Proof.
  intros Hm b. unfold with_client. destruct (tb_bybit b) as [c |]; [| reflexivity].
  specialize (Hm (tb_net b, c)). destruct (m (tb_net b, c)) as [r [n c']]. exact Hm.
Qed.
Lemma on_exchange_later {A} e (m : ST (N * C) (result A string)) :
  respects client_later m -> respects tb_later (on_exchange e m).
Proof. intros Hm. unfold on_exchange. respects_step; [now apply with_client_later | respects_step]. Qed.
Lemma on_book_later {A} w e (m : ST (N * C) (result A string)) :
  respects client_later m -> respects tb_later (on_book_exchange w e m).
Proof. intros Hm. unfold on_book_exchange. respects_step; [respects_step | now apply on_exchange_later]. Qed.
Lemma remember_later i e y : respects tb_later (remember (N:=N) (C:=C) i e y).
Proof. intros b. unfold tb_later, tb_now. cbn. lia. Qed.
Lemma real_order_later send o :
  (forall o, respects client_later (send o)) -> respects tb_later (real_order (N:=N) (C:=C) send o).
Proof.
  intros Hs. unfold real_order. repeat first [respects_step | now apply on_exchange_later | apply remember_later].
Qed.
Lemma simulate_later o ty : respects tb_later (simulate (N:=N) (C:=C) o ty).
Proof.
  unfold simulate. cbv zeta.
  repeat first [respects_step | apply remember_later | apply runtime_later; intros; first [apply rt_uuid_mono | apply rt_secs_mono]].
Qed.
Lemma for_order_later {A} i (m : string -> ST (N * C) (result A string)) :
  (forall y, respects client_later (m y)) -> respects tb_later (for_order i m).
Proof.
  intros Hm b. unfold for_order. destruct (tb_order_metadata b !! i) as [[e y] |]; [| reflexivity].
  now apply on_exchange_later.
Qed.

Lemma if_later {A} (c : state -> bool) (m k : ST state A) :
  respects tb_later m -> respects tb_later k -> respects tb_later (fun b => if c b then m b else k b).
Proof. intros Hm Hk b. destruct (c b); [apply Hm | apply Hk]. Qed.

(** With a client whose clock does not go back, the demo backend is a backend
    of the timed interface: what is proved of the execution code for every such
    backend holds on it. *)
#[export] Instance testnet_backend_clock : BackendClock state.
Proof.
  refine {| b_now := tb_now |}; cbn.
  - intros b. unfold runtime, tb_now. pose proof (rt_instant_now (tb_net b)) as Hi.
    destruct (rt_instant (tb_net b)). exact Hi.
  - intros ms b. unfold runtime, tb_now. pose proof (rt_sleep_now ms (tb_net b)) as Hi.
    destruct (rt_sleep_ms ms (tb_net b)). exact Hi.
  - apply runtime_later, rt_secs_mono.
  - apply runtime_later, rt_uuid_mono.
  - intros e y l. unfold tb_set_leverage. apply on_exchange_later, c_leverage_mono.
  - intros e y b. unfold tb_set_margin_type_isolated. destruct (String.eqb e "bybit"); reflexivity.
  - intros o. unfold tb_place_order. apply (if_later (simulates _)); [apply simulate_later | apply real_order_later, c_place_mono].
  - intros o. unfold tb_place_market_order. apply (if_later (simulates _)); [apply simulate_later | apply real_order_later, c_market_mono].
  - intros e i. change (respects tb_later (tb_cancel_order e i)). unfold tb_cancel_order. respects_step; [respects_step | apply for_order_later, c_cancel_mono].
  - intros e i. change (respects tb_later (tb_get_order_status e i)). unfold tb_get_order_status. respects_step; [respects_step | apply for_order_later, c_status_mono].
  - intros e i y. unfold tb_get_order_status_detailed. apply for_order_later. intros _. apply c_detailed_mono.
  - intros e. unfold tb_get_available_balance. apply (if_later (simulates _)); [intros b; reflexivity | apply on_exchange_later, c_balance_mono].
  - intros e y b. reflexivity.
  - intros e y l. unfold tb_get_order_book_depth. apply on_book_later, c_depth_mono.
  - intros e y. unfold tb_get_best_bid. apply on_book_later, c_bid_mono.
  - intros e y. unfold tb_get_best_ask. apply on_book_later, c_ask_mono.
  - intros e y. unfold tb_get_quantity_step. apply on_exchange_later, c_step_mono.
Qed.
End backend_clock.
