(* ===== verification/TestnetRouting.v ===== *)
(** Where the demo backend sends orders, and what its simulated orders and its
    timestamps do to the code built on it ([src/src/strategy/testnet_backend.rs],
    [src/src/strategy/testnet/bybit_testnet.rs], and through them the hedge of
    [entry.rs] and the exit timeout of [runner.rs]). *)
From Stdlib Require Import ZArith Lia Bool String.
From stdpp Require Import base option list gmap strings pretty.
From S2P Require Import Prelude Float64 NumberText Types ExchangeParser BybitClient Backend AtomicExecution Entry TestnetBackend Runner RunnerMonitor.

#[local] Open Scope string_scope.
#[local] Open Scope list_scope.
#[local] Open Scope Z_scope.

Lemma sim_prefix u : is_simulated ("sim_" ++ u)%string = true.
Proof. unfold is_simulated. cbn. now destruct u. Qed.

(** ** Calls of the client

    They change the client and the network only, so they respect every relation
    that does not look at these. *)
Section client.
Context {N C : Type} `{Runtime N} `{ExchangeClient N C}.
Context (R : TestnetBackend N C -> TestnetBackend N C -> Prop) `{!PreOrder R}
  (Hset : forall n c b, R b (tb_set n c b)).

Lemma runtime_respects {A} (m : ST N A) : respects R (runtime (C:=C) m).
Proof using Hset. intros b. unfold runtime. destruct (m (tb_net b)). apply Hset. Qed.

Lemma with_client_respects {A} (m : ST (N * C) (result A string)) : respects R (with_client m).
Proof using All.
  intros b. unfold with_client. destruct (tb_bybit b) as [c |]; [| reflexivity].
  destruct (m (tb_net b, c)) as [r [n c']]. apply Hset.
Qed.

Lemma on_exchange_respects {A} e (m : ST (N * C) (result A string)) : respects R (on_exchange e m).
Proof using All. unfold on_exchange. respects_step; [apply with_client_respects | respects_step]. Qed.

Lemma on_book_respects {A} w e (m : ST (N * C) (result A string)) : respects R (on_book_exchange w e m).
Proof using All. unfold on_book_exchange. respects_step; [respects_step | apply on_exchange_respects]. Qed.

Lemma for_order_respects {A} i (m : string -> ST (N * C) (result A string)) : respects R (for_order i m).
Proof using All.
  intros b. unfold for_order. destruct (tb_order_metadata b !! i) as [[e y] |]; [| reflexivity].
  apply on_exchange_respects.
Qed.
End client.

(** ** Routing *)
Section routing.
Context {N C : Type} `{Runtime N} `{ExchangeClient N C}.
Abbreviation state := (TestnetBackend N C).

(** An order is remembered for Bybit, or it is a simulated one of another
    exchange. *)
Definition routed (b : state) (id exchange : string) : Prop :=
  exchange = "bybit" \/ (is_simulated id = true /\ simulates exchange b = true).

Definition metadata_wf (b : state) : Prop :=
  forall id e y, tb_order_metadata b !! id = Some (e, y) -> routed b id e.

(** What every operation does to the bookkeeping: the mode and the blacklist
    stay, and new entries are routed. *)
Definition bookkeeping (b b' : state) : Prop :=
  tb_single_exchange_mode b' = tb_single_exchange_mode b /\
  tb_primary_exchange b' = tb_primary_exchange b /\
  tb_failed_symbols b' = tb_failed_symbols b /\
  forall id e y, tb_order_metadata b' !! id = Some (e, y) ->
    tb_order_metadata b !! id = Some (e, y) \/ routed b id e.

Lemma simulates_same e (b b' : state) :
  tb_single_exchange_mode b' = tb_single_exchange_mode b -> tb_primary_exchange b' = tb_primary_exchange b ->
  simulates e b' = simulates e b.
Proof. unfold simulates. now intros -> ->. Qed.

#[local] Instance bookkeeping_preorder : PreOrder bookkeeping.
Proof.
  split; [intros b; unfold bookkeeping; auto |]. intros b1 b2 b3 (Hm & Hp & Hf & Ho) (Hm' & Hp' & Hf' & Ho').
  split; [congruence |]. split; [congruence |]. split; [congruence |]. intros id e y Hi.
  destruct (Ho' id e y Hi) as [Hi' | [Hr | [Hs Hr]]]; [auto | right; now left |].
  right. right. now rewrite <- (simulates_same e b1 b2).
Qed.

Lemma same_books n c (b : state) : bookkeeping b (tb_set n c b).
Proof. unfold bookkeeping. auto. Qed.

Lemma runtime_books {A} (m : ST N A) : respects bookkeeping (runtime (C:=C) m).
Proof. apply runtime_respects, same_books. Qed.
Lemma on_exchange_books {A} e (m : ST (N * C) (result A string)) : respects bookkeeping (on_exchange e m).
Proof. apply on_exchange_respects, same_books; exact _. Qed.
Lemma on_book_books {A} w e (m : ST (N * C) (result A string)) : respects bookkeeping (on_book_exchange w e m).
Proof. apply on_book_respects, same_books; exact _. Qed.
Lemma for_order_books {A} i (m : string -> ST (N * C) (result A string)) : respects bookkeeping (for_order i m).
Proof. apply for_order_respects, same_books; exact _. Qed.
Lemma with_client_books {A} (m : ST (N * C) (result A string)) : respects bookkeeping (with_client m).
Proof. apply with_client_respects, same_books; exact _. Qed.

(** Only an order that is routed is remembered. *)
Lemma remember_books id e y (b : state) :
  routed b id e -> bookkeeping b (snd (remember id e y b)).
Proof.
  intros Hr. unfold remember. cbn. split; [reflexivity |]. split; [reflexivity |]. split; [reflexivity |].
  cbn. intros i e' y'. rewrite lookup_insert. case_decide; [intros [= <- <-]; subst; auto | auto].
Qed.

Lemma real_order_books send o : respects bookkeeping (real_order (N:=N) (C:=C) send o).
Proof.
  intros b. unfold real_order, bind, on_exchange. destruct (String.eqb_spec (so_exchange o) "bybit") as [He | He]; [| reflexivity].
  pose proof (with_client_books (send o) b) as Hb. destruct (with_client (send o) b) as [[o' | e] b']; [| exact Hb].
  etransitivity; [exact Hb |]. apply remember_books. now left.
Qed.

Lemma simulate_books o ty (b : state) :
  simulates (so_exchange o) b = true -> bookkeeping b (snd (simulate o ty b)).
Proof.
  intros Hs. unfold simulate, bind, runtime. destruct (rt_uuid (tb_net b)) as [u n1]. cbn.
  destruct (rt_unix_secs n1) as [t1 n2]. cbn. destruct (rt_unix_secs n2) as [t2 n3]. cbn.
  apply (remember_books ("sim_" ++ u)%string (so_exchange o) (so_symbol o) (tb_set n3 (tb_bybit b) b)).
  right. split; [apply sim_prefix | exact Hs].
Qed.

Lemma step_books (b b' : state) : backend_step b b' -> bookkeeping b b'.
Proof.
  intros Hs. destruct Hs; cbn.
  - apply on_exchange_books.
  - unfold tb_set_margin_type_isolated. destruct (String.eqb e "bybit"); reflexivity.
  - unfold tb_place_order. destruct (simulates _ b) eqn:Es; [now apply simulate_books | apply real_order_books].
  - unfold tb_place_market_order. destruct (simulates _ b) eqn:Es; [now apply simulate_books | apply real_order_books].
  - unfold tb_cancel_order. destruct (is_simulated i); [reflexivity | apply for_order_books].
  - unfold tb_get_order_status. destruct (is_simulated i); [reflexivity | apply for_order_books].
  - apply for_order_books.
  - unfold tb_get_available_balance. destruct (simulates e b); [reflexivity | apply on_exchange_books].
  - unfold tb_get_all_balances. pose proof (with_client_books c_get_balance b) as Hb.
    destruct (with_client c_get_balance b) as [[x | x] b']; exact Hb.
  - reflexivity.
  - apply on_book_books.
  - apply on_book_books.
  - apply on_book_books.
  - apply on_exchange_books.
  - apply runtime_books.
  - apply runtime_books.
  - apply runtime_books.
  - apply runtime_books.
Qed.

(** C15. The bookkeeping of the demo backend, in every state it can reach: each
    order it remembers is for Bybit or is a simulated one of an exchange it
    simulates; so a query about a real order never ends in "not supported".  The
    blacklist of symbols stays as empty as it was created: every symbol of every
    exchange is answered tradeable. *)
Theorem demo_bookkeeping (b0 b : state) :
  tb_order_metadata b0 = ∅ -> tb_failed_symbols b0 = ∅ -> star backend_step b0 b ->
  metadata_wf b /\
  (forall id e y, is_simulated id = false -> tb_order_metadata b !! id = Some (e, y) ->
     forall A (m : string -> ST (N * C) (result A string)), for_order id m b = with_client (m y) b) /\
  forall e y, fst (tb_is_symbol_tradeable e y b) = Ok true.
Proof.
  intros Hm Hf Hr.
  assert (Hb : bookkeeping b0 b).
  { revert Hr. apply (star_invariant backend_step (bookkeeping b0)); [reflexivity |].
    intros x y Hx Hs. etransitivity; [exact Hx | now apply step_books]. }
  destruct Hb as (Hmode & Hprim & Hfail & Hmeta).
  assert (Hwf : metadata_wf b).
  { intros id e y Hi. destruct (Hmeta id e y Hi) as [Hi0 | [He | [Hs He]]].
    - rewrite Hm, lookup_empty in Hi0. discriminate.
    - now left.
    - right. split; [exact Hs |]. now rewrite (simulates_same e b0 b). }
  split; [exact Hwf |]. split.
  - intros id e y Hid Hi A m. unfold for_order. rewrite Hi.
    destruct (Hwf id e y Hi) as [-> | [Hs _]]; [reflexivity | congruence].
  - intros e y. unfold tb_is_symbol_tradeable. cbn. now rewrite Hfail, Hf, lookup_empty.
Qed.
End routing.

(** ** Orders and the queries about them *)
Section orders.
Context {N C : Type} `{Runtime N} `{ExchangeClient N C}.
Abbreviation state := (TestnetBackend N C).

(** The two ways to place an order, and the client's. *)
Definition place (market : bool) : SimulatedOrder -> ST state (result SimulatedOrder string) :=
  if market then tb_place_market_order else tb_place_order.
Definition client_place (market : bool) : SimulatedOrder -> ST (N * C) (result SimulatedOrder string) :=
  if market then c_place_market_order else c_place_order.

(** A step of the backend in which no order comes back under [id]. *)
Inductive other_step (id : string) : state -> state -> Prop :=
| os_place market o b :
    (forall o', fst (place market o b) = Ok o' -> so_id o' <> id) -> other_step id b (snd (place market o b))
| os_cancel e i b : other_step id b (snd (tb_cancel_order e i b))
| os_status e i b : other_step id b (snd (tb_get_order_status e i b))
| os_detailed e i y b : other_step id b (snd (tb_get_order_status_detailed e i y b))
| os_leverage e y l b : other_step id b (snd (tb_set_leverage e y l b))
| os_margin e y b : other_step id b (snd (tb_set_margin_type_isolated e y b))
| os_balance e b : other_step id b (snd (tb_get_available_balance e b))
| os_balances b : other_step id b (snd (tb_get_all_balances b))
| os_tradeable e y b : other_step id b (snd (tb_is_symbol_tradeable e y b))
| os_depth e y l b : other_step id b (snd (tb_get_order_book_depth e y l b))
| os_bid e y b : other_step id b (snd (tb_get_best_bid e y b))
| os_ask e y b : other_step id b (snd (tb_get_best_ask e y b))
| os_quantity e y b : other_step id b (snd (tb_get_quantity_step e y b))
| os_runtime {A} (m : ST N A) b : other_step id b (snd (runtime (C:=C) m b)).

(** Every step of the backend is one, or gives out [id] again. *)
Lemma other_step_complete id (b b' : state) :
  backend_step b b' ->
  other_step id b b' \/ exists market o o', place market o b = (Ok o', b') /\ so_id o' = id.
Proof.
  intros Hs.
  assert (Hp : forall market o, b' = snd (place market o b) ->
    other_step id b b' \/ exists market o o', place market o b = (Ok o', b') /\ so_id o' = id).
  { intros market o ->. destruct (place market o b) as [[o' | e] b1] eqn:Ep; cbn.
    - destruct (decide (so_id o' = id)) as [Hid | Hid]; [right; eauto 6 | left].
      replace b1 with (snd (place market o b)) by now rewrite Ep.
      apply os_place. rewrite Ep. intros x [= <-]. exact Hid.
    - left. replace b1 with (snd (place market o b)) by now rewrite Ep.
      apply os_place. rewrite Ep. discriminate. }
  destruct Hs; try exact (Hp false o eq_refl); try exact (Hp true o eq_refl); left; constructor.
Qed.

(** What is remembered of the order [id] is the same. *)
Definition recalled (id : string) (b b' : state) : Prop :=
  tb_order_metadata b' !! id = tb_order_metadata b !! id.

#[local] Instance recalled_preorder id : PreOrder (recalled id).
Proof. split; unfold recalled; [intros b | intros b1 b2 b3]; congruence. Qed.

Lemma recalled_set id n c (b : state) : recalled id b (tb_set n c b).
Proof. reflexivity. Qed.

Lemma remember_recalled id id' e y (b : state) : id' <> id -> recalled id b (snd (remember id' e y b)).
Proof. intros Hne. unfold recalled, remember. cbn. now rewrite lookup_insert_ne. Qed.

Lemma real_recalled id send o (b : state) :
  (forall o', fst (real_order send o b) = Ok o' -> so_id o' <> id) -> recalled id b (snd (real_order send o b)).
Proof.
  unfold real_order, bind. pose proof (on_exchange_respects (recalled id) (recalled_set id) (so_exchange o) (send o) b) as Hb.
  destruct (on_exchange _ _ b) as [[o' | e] b1]; intros Hid; [| exact Hb].
  etransitivity; [exact Hb |]. apply remember_recalled, Hid. reflexivity.
Qed.

Lemma simulate_recalled id o ty (b : state) :
  (forall o', fst (simulate o ty b) = Ok o' -> so_id o' <> id) -> recalled id b (snd (simulate o ty b)).
Proof.
  unfold simulate, bind, runtime. destruct (rt_uuid (tb_net b)) as [u n1]. cbn.
  destruct (rt_unix_secs n1) as [t1 n2]. cbn. destruct (rt_unix_secs n2) as [t2 n3]. cbn. intros Hid.
  specialize (Hid _ eq_refl). unfold recalled. cbn in *. now rewrite lookup_insert_ne.
Qed.

Lemma place_recalled id market o (b : state) :
  (forall o', fst (place market o b) = Ok o' -> so_id o' <> id) -> recalled id b (snd (place market o b)).
Proof.
  destruct market; cbn; unfold tb_place_order, tb_place_market_order; destruct (simulates _ b);
    auto using simulate_recalled, real_recalled.
Qed.

Lemma other_step_recalled id (b b' : state) : other_step id b b' -> recalled id b b'.
Proof.
  pose proof (fun A => on_exchange_respects (recalled id) (recalled_set id) (A:=A)) as Hex.
  pose proof (fun A => on_book_respects (recalled id) (recalled_set id) (A:=A)) as Hbook.
  pose proof (fun A => for_order_respects (recalled id) (recalled_set id) (A:=A)) as Hord.
  intros []; cbn; try solve [apply Hex | apply Hbook | apply Hord | reflexivity].
  - now apply place_recalled.
  - unfold tb_cancel_order. destruct (is_simulated i); [reflexivity | apply Hord].
  - unfold tb_get_order_status. destruct (is_simulated i); [reflexivity | apply Hord].
  - unfold tb_set_margin_type_isolated. now destruct (String.eqb e "bybit").
  - unfold tb_get_available_balance. destruct (simulates e b0); [reflexivity | apply Hex].
  - unfold tb_get_all_balances.
    pose proof (with_client_respects (recalled id) (recalled_set id) c_get_balance b0) as Hb.
    destruct (with_client c_get_balance b0) as [[x | x] b1]; exact Hb.
  - apply (runtime_respects (recalled id) (recalled_set id)).
Qed.

(** C14. A real order that was accepted, as a limit or as a market order, is found
    again for as long as the backend runs, provided no later order comes back
    under the same id: whatever exchange the caller names, cancelling it and
    asking for its status go to the Bybit client with its id and the symbol it
    was placed with; the detailed query goes there with its id and the symbol
    the caller gives. *)
Theorem placed_order_is_found market o o' (b b1 b2 : state) :
  simulates (so_exchange o) b = false -> place market o b = (Ok o', b1) -> is_simulated (so_id o') = false ->
  star (other_step (so_id o')) b1 b2 ->
  so_exchange o = "bybit" /\
  (exists p, with_client (client_place market o) b = (Ok o', p)) /\
  forall e, tb_cancel_order e (so_id o') b2 = with_client (c_cancel_order (so_id o') (so_symbol o')) b2 /\
    tb_get_order_status e (so_id o') b2 = with_client (c_get_order_status (so_id o') (so_symbol o')) b2 /\
    forall y, tb_get_order_status_detailed e (so_id o') y b2 = with_client (c_get_order_status_detailed (so_id o') y) b2.
Proof.
  intros Hs Hp Hid Hrun.
  assert (Hkept : recalled (so_id o') b1 b2).
  { revert Hrun. apply (star_invariant _ (recalled (so_id o') b1)); [reflexivity |].
    intros x y Hx Hy. etransitivity; [exact Hx | now apply other_step_recalled]. }
  assert (Hreal : real_order (client_place market) o b = (Ok o', b1)).
  { destruct market; cbn in Hp; unfold tb_place_order, tb_place_market_order in Hp; now rewrite Hs in Hp. }
  unfold real_order, bind, on_exchange in Hreal.
  destruct (String.eqb_spec (so_exchange o) "bybit") as [He | He]; [| discriminate].
  destruct (with_client (client_place market o) b) as [[x | x] bc]; [| discriminate]. cbn in Hreal.
  injection Hreal as -> <-. unfold recalled in Hkept. cbn in Hkept. rewrite lookup_insert_eq, He in Hkept.
  split; [exact He |]. split; [eauto |]. intros e.
  unfold tb_cancel_order, tb_get_order_status, tb_get_order_status_detailed, for_order. rewrite Hid, Hkept. auto.
Qed.

(** A simulated order, as it comes back and as it is remembered. *)
Lemma simulate_result o ty (b : state) :
  exists u t1 t2 b', simulate o ty b = (Ok (simulated_order o ty u t1 t2), b') /\
    tb_order_metadata b' !! ("sim_" ++ u)%string = Some (so_exchange o, so_symbol o) /\
    tb_bybit b' = tb_bybit b /\ forall e, simulates e b' = simulates e b.
Proof.
  unfold simulate, bind, runtime. destruct (rt_uuid (tb_net b)) as [u n1]. cbn.
  destruct (rt_unix_secs n1) as [t1 n2]. cbn. destruct (rt_unix_secs n2) as [t2 n3]. cbn.
  do 4 eexists. split; [reflexivity |]. cbn. rewrite lookup_insert_eq. auto.
Qed.

(** In single-exchange mode an order for another exchange touches no exchange:
    it comes back filled at its own price and size, its status is filled and
    cancelling it succeeds, yet asking for its filled quantity is an error. *)
Theorem simulated_order_contract o (b : state) :
  simulates (so_exchange o) b = true -> so_exchange o <> "bybit" ->
  exists o' b', tb_place_order o b = (Ok o', b') /\ tb_bybit b' = tb_bybit b /\
    so_status o' = Filled /\ so_size o' = so_size o /\ so_fill_price o' = Some (so_price o) /\
    so_exchange o' = so_exchange o /\ so_side o' = so_side o /\
    forall e y, tb_cancel_order e (so_id o') b' = (Ok tt, b') /\
      tb_get_order_status e (so_id o') b' = (Ok Filled, b') /\
      tb_get_order_status_detailed e (so_id o') y b' = (Err (unsupported (so_exchange o)), b').
Proof.
  intros Hs He. unfold tb_place_order. rewrite Hs.
  destruct (simulate_result o (so_order_type o) b) as (u & t1 & t2 & b' & -> & Hm & Hc & _).
  do 2 eexists. split; [reflexivity |]. split; [exact Hc |]. cbn. repeat (split; [reflexivity |]). intros e y.
  unfold tb_cancel_order, tb_get_order_status, tb_get_order_status_detailed. rewrite sim_prefix.
  split; [reflexivity |]. split; [reflexivity |]. unfold for_order. rewrite Hm. unfold on_exchange.
  destruct (String.eqb_spec (so_exchange o) "bybit"); [contradiction | reflexivity].
Qed.

(** ** The hedge of a simulated leg *)

Lemma runtime_keeps {A} (m : ST N A) a (b b' : state) :
  runtime m b = (a, b') ->
  tb_order_metadata b' = tb_order_metadata b /\ forall e, simulates e b' = simulates e b.
Proof. unfold runtime. destruct (m (tb_net b)) as [x n]. intros [= <- <-]. auto. Qed.

(** A market order of [target] that was filled, or a query that failed. *)
Definition unconfirmed (e : string) (target : f64) (c : call) : Prop :=
  match c with
  | CMarket o (Ok o') => so_size o = target /\ so_size o' = target /\ so_status o' = Filled
  | CDetailed _ _ _ (Err m) => m = unsupported e
  | _ => False
  end.

Definition hedge_unconfirmed (e : string) (target : f64) (n : nat) (w : World state)
  (r : result SimulatedOrder hedge_error) (w' : World state) : Prop :=
  r = Err (HVerifyFailed (unsupported e)) /\
  exists cs, w_calls w' = w_calls w ++ cs /\ Forall (unconfirmed e target) cs /\ markets cs = n.

Lemma unconfirmed_attempts n template target last m (w : World state) :
  simulates (so_exchange template) (w_backend w) = true -> so_exchange template <> "bybit" ->
  (target <=? 0.0%f64)%F = false -> (1 <= n <= 3)%nat ->
  wp (market_attempts n template target 0.0%f64 last m)
     (fun '(r, _) w' => hedge_unconfirmed (so_exchange template) target n w r w') w.
Proof.
  intros Hs He Ht. set (e := so_exchange template) in *. revert last m w Hs. induction n as [| n IH]; [lia |].
  intros last m w Hs Hn. cbn [market_attempts]. cbv zeta. rewrite fsub_zero, Ht.
  do 2 wp_step. destruct (runtime_keeps _ _ _ _ E) as [Hm1 Hs1].
  do 2 wp_step. cbn in E0. unfold tb_place_market_order in E0.
  change (so_exchange (set_so_size target template)) with e in E0. rewrite Hs1, Hs in E0.
  destruct (simulate_result (set_so_size target template) Market b) as (u & t1 & t2 & b' & Er & Hm2 & _ & Hs2).
  rewrite Er in E0. injection E0 as <- <-. set (o' := simulated_order _ _ _ _ _) in *.
  do 2 wp_step. destruct (runtime_keeps _ _ _ _ E0) as [Hm3 Hs3].
  do 2 wp_step. destruct (runtime_keeps _ _ _ _ E1) as [Hm4 Hs4].
  do 2 wp_step. cbn in E2. unfold tb_get_order_status_detailed, for_order in E2.
  rewrite Hm4, Hm3 in E2. change (so_id o') with ("sim_" ++ u)%string in E2. rewrite Hm2 in E2.
  unfold on_exchange in E2. change (so_exchange (set_so_size target template)) with e in E2.
  destruct (String.eqb_spec e "bybit"); [contradiction |]. injection E2 as <- <-.
  set (c1 := CMarket (set_so_size target template) (Ok o')).
  set (c2 := CDetailed (so_exchange o') ("sim_" ++ u)%string (so_symbol template) (Err (unsupported e))).
  assert (Hc : Forall (unconfirmed e target) [c1; c2]) by (repeat constructor).
  destruct (Z.ltb_spec (MAX_RETRIES - Z.of_nat n) MAX_RETRIES) as [Hlt | Hge].
  - do 2 wp_step. destruct (runtime_keeps _ _ _ _ E2) as [Hm5 Hs5].
    eapply wp_mono; [apply IH; [cbn; rewrite Hs5, Hs4, Hs3, Hs2, Hs1; exact Hs | lia] |].
    intros [r m'] w' [Hr (cs & Hw & Hf & Hk)]. split; [exact Hr |]. exists ([c1; c2] ++ cs).
    rewrite Hw. cbn [w_calls after_call after_rt]. rewrite <- !app_assoc. split; [reflexivity |].
    split; [now apply Forall_app | rewrite markets_app, Hk; reflexivity].
  - apply wp_ret. split; [reflexivity |]. exists [c1; c2]. cbn [w_calls after_call after_rt].
    rewrite <- !app_assoc. split; [reflexivity |]. split; [exact Hc |]. cbn. lia.
Qed.

(** C12. In single-exchange mode a market hedge on another exchange cannot succeed:
    three orders for the whole quantity are filled one after the other, none of
    their fills can be confirmed, and the hedge is reported as failed. *)
Theorem simulated_hedge_fails template target m (w : World state) :
  simulates (so_exchange template) (w_backend w) = true -> so_exchange template <> "bybit" ->
  (target <=? 0.0%f64)%F = false ->
  wp (place_market_order_with_retry template target m)
     (fun '(r, _) w' => hedge_unconfirmed (so_exchange template) target 3 w r w') w.
Proof. intros Hs He Ht. now apply unconfirmed_attempts; [| | | lia]. Qed.
End orders.
