(* ===== verification/TestnetTimeout.v ===== *)
(** The timestamps of Bybit's orders and the exit timeout
    ([place_order] of [src/src/strategy/testnet/bybit_testnet.rs] and
    [monitor_active_positions] of [src/src/strategy/runner.rs]), and concrete
    surroundings of the demo backend for the witnesses of its theorems. *)
From Stdlib Require Import ZArith Lia Bool String.
From stdpp Require Import base option list gmap strings pretty.
From S2P Require Import Prelude Float64 NumberText Types Coop ExchangeParser BybitClient Backend ScriptedBackend AtomicExecution Entry TestnetBackend TestnetSpec TestnetRouting Runner RunnerMonitor RunnerLoop ScriptedRunner.

#[local] Open Scope string_scope.
#[local] Open Scope list_scope.
#[local] Open Scope Z_scope.

Section timestamps.
Context {N V : Type} `{Runtime N} `{Net N} `{Json V} `{JsonApi V}.
Abbreviation pair := (N * BybitDemoClient)%type.

Definition same_offset (s s' : pair) : Prop := bc_time_offset (snd s') = bc_time_offset (snd s).

#[local] Instance same_offset_preorder : PreOrder same_offset.
Proof. split; [intros s; reflexivity | intros s1 s2 s3; unfold same_offset; congruence]. Qed.

Lemma on_net_offset {A} (m : ST N A) : respects same_offset (on_net m).
Proof. intros [n c]. unfold on_net. now destruct (m n). Qed.
Lemma client_offset : respects same_offset (client (N:=N)).
Proof. intros [n c]. reflexivity. Qed.
Lemma upd_offset f : (forall c, bc_time_offset (f c) = bc_time_offset c) -> respects same_offset (upd_client (N:=N) f).
Proof. intros Hf [n c]. apply Hf. Qed.
Hint Resolve on_net_offset client_offset upd_offset : arb.

Ltac solve_offset := repeat first [respects_step | solve [auto with arb]].

Lemma qty_step_offset y : respects same_offset (BybitClient.get_qty_step (N:=N) (V:=V) y).
Proof. unfold BybitClient.get_qty_step, from_str. solve_offset. Qed.
Lemma post_offset t u fs : respects same_offset (post (N:=N) t u fs).
Proof. unfold post. solve_offset. Qed.
Lemma created_offset text : respects same_offset (created (N:=N) (V:=V) text).
Proof. unfold created, from_str. solve_offset. Qed.

(** A timestamp is a reading of the millisecond clock plus the offset. *)
Lemma get_timestamp_spec (s : pair) :
  wp (get_timestamp (V:=V))
     (fun t s' => exists n, t = pretty (wrap_i64 (fst (rt_unix_millis n) + bc_time_offset (snd s')))) s.
Proof.
  unfold get_timestamp. apply wp_bind. unfold wp at 1. destruct (on_net rt_instant s) as [now [n1 c1]].
  apply wp_bind. unfold wp at 1, client. apply wp_bind.
  match goal with |- wp ?m _ ?w => unfold wp at 1; destruct (m w) as [r [n2 c2]] end.
  apply wp_bind. unfold wp at 1, on_net. destruct (rt_unix_millis n2) as [t n3] eqn:Et.
  apply wp_bind. unfold wp, client, ret. exists n2. now rewrite Et.
Qed.

Lemma place_order_created o (s : pair) :
  wp (BybitClient.place_order (V:=V) o)
     (fun r s' => forall o', r = Ok o' -> exists n,
        so_created_at o' = default 0 (parse_u64 (pretty (wrap_i64 (fst (rt_unix_millis n) + bc_time_offset (snd s')))))) s.
Proof.
  unfold BybitClient.place_order. apply wp_bind. eapply wp_mono; [apply get_timestamp_spec |].
  intros t s1 [n Ht]. apply wp_bind_ok. eapply (wp_respects same_offset); [apply qty_step_offset |].
  intros [step | e] s2 _ Ho2; [| discriminate]. apply wp_bind_ok.
  eapply (wp_respects same_offset); [apply post_offset |]. intros [[code text] | e] s3 _ Ho3; [| discriminate].
  apply wp_bind_ok. eapply (wp_respects same_offset); [apply created_offset |].
  intros [id | e] s4 _ Ho4; [| discriminate]. apply wp_ret. intros o' [= <-]. exists n. cbn.
  rewrite Ho4, Ho3, Ho2. now rewrite Ht.
Qed.

(** C13. An order accepted by Bybit carries its creation time in milliseconds, and
    the runner compares it with the clock in seconds: an order placed after
    second [T] of the epoch never looks older than 0 seconds until second
    [500 * T], so the exit timeout of three seconds never fires for it. *)
Theorem exit_timeout_never_fires o o' (s s' : pair) (T now : Z) :
  0 <= T -> (forall n, 1000 * T <= fst (rt_unix_millis n) < 2 ^ 62) ->
  BybitClient.place_order (V:=V) o s = (Ok o', s') ->
  - 500 * T <= bc_time_offset (snd s') < 2 ^ 62 -> now <= 500 * T ->
  exit_age now (Some o') = 0 /\ (EXIT_TIMEOUT_SECONDS <? exit_age now (Some o')) = false.
Proof.
  intros HT Hclock Hp Hoff Hnow. pose proof (place_order_created o s) as Hc. unfold wp in Hc. rewrite Hp in Hc.
  destruct (Hc o' eq_refl) as [n Hn]. specialize (Hclock n). unfold wrap_i64 in Hn.
  rewrite Z.mod_small in Hn by lia. rewrite parse_u64_pretty in Hn by (unfold in_u64; lia). cbn in Hn.
  enough (Ha : exit_age now (Some o') = 0) by (rewrite Ha; auto). unfold exit_age, age. lia.
Qed.
End timestamps.

(** ** Concrete surroundings

    A runtime that is one clock, an exchange that answers every order, and JSON
    texts that are the URL of the request. *)
#[local] Instance clock_runtime : Runtime Z := {
  rt_instant n := (n, n);
  rt_unix_millis n := (1700000000000, n);
  rt_unix_secs n := (1700000000, n);
  rt_sleep_ms ms n := (tt, n + Z.max 0 ms * 1000000);
  rt_uuid n := ("u", n + 1)
}.

#[local] Instance echo_net : Net Z := {
  n_send q n := (Ok (200, rq_url q), n);
  n_hmac _ _ := "signature";
  n_status_text _ := "200 OK"
}.

#[local] Instance answers : JsonApi json := {
  j_as_i64 v := match v with JNumber x => Some (ftrunc_Z x) | _ => None end;
  j_error _ := "no JSON";
  j_object _ := "{}"
}.

#[local] Instance echo_json : Json json := {
  j_get := j_get; j_as_str := j_as_str; j_as_array := j_as_array; j_is_f64 := j_is_f64; j_as_f64 := j_as_f64;
  j_from_str text :=
    if has_substring "order/create" text
    then Some (JObject [("retCode", JNumber 0.0%f64); ("result", JObject [("orderId", JString "42")])])
    else if has_substring "instruments-info" text
    then Some (JObject [("result", JObject [("list", JArray [JObject
           [("lotSizeFilter", JObject [("qtyStep", JString "0.001")])]])])])
    else None
}.

Definition demo_credentials : ExchangeCredentials :=
  {| ec_api_key := "key"; ec_api_secret := "secret"; ec_passphrase := None |}.
Definition demo_client : BybitDemoClient := BybitDemoClient_new demo_credentials 0.

Definition demo_backend (single : bool) : TestnetBackend Z BybitDemoClient :=
  TestnetBackend_new {| tc_bybit := Some demo_credentials; tc_okx := None; tc_kucoin := None;
                        tc_bitget := None; tc_single_exchange_mode := single;
                        tc_primary_exchange := "bybit" |} 0 0.

Definition demo_order (exchange : string) : SimulatedOrder :=
  {| so_id := ""; so_exchange := exchange; so_symbol := "BTCUSDT"; so_side := Long; so_order_type := Limit;
     so_price := 100.0%f64; so_size := 1.2344%f64; so_queue_position := None; so_created_at := 1700000000;
     so_filled_at := None; so_fill_price := None; so_status := Pending |}.

Lemma exit_timeout_never_fires_witness :
  exists o' s', BybitClient.place_order (V:=json) (demo_order "bybit") (0, demo_client) = (Ok o', s') /\
    exit_age 1700000060 (Some o') = 0 /\ (EXIT_TIMEOUT_SECONDS <? exit_age 1700000060 (Some o')) = false.
Proof.
  pose proof (fun o' s' => exit_timeout_never_fires (V:=json) (demo_order "bybit") o' (0, demo_client) s' 1700000000 1700000060) as Hp.
  assert (Hr : match BybitClient.place_order (V:=json) (demo_order "bybit") (0, demo_client) with
               | (Ok o', s') => bc_time_offset (snd s') =? 0 | _ => false end = true) by (vm_compute; reflexivity).
  revert Hp Hr. destruct (BybitClient.place_order _ _) as [[o' | e] s']; [| discriminate]. intros Hp Hr.
  apply Z.eqb_eq in Hr. exists o', s'. split; [reflexivity |].
  apply (Hp o' s'); [lia | intros n; cbn; lia | reflexivity | lia | lia].
Defined.

Lemma demo_bookkeeping_witness :
  let b := snd (b_place_order (demo_order "okx") (snd (b_place_order (demo_order "bybit") (demo_backend true)))) in
  metadata_wf b /\
  (forall id e y, is_simulated id = false -> tb_order_metadata b !! id = Some (e, y) ->
     forall A (m : string -> ST (Z * BybitDemoClient) (result A string)), for_order id m b = with_client (m y) b) /\
  forall e y, fst (tb_is_symbol_tradeable e y b) = Ok true.
Proof.
  intros b. refine (demo_bookkeeping (demo_backend true) b eq_refl eq_refl _).
  eapply star_step; [eapply star_step; [apply star_refl |] |]; apply bs_place.
Defined.

(** A market order, then a limit order for another exchange. *)
Lemma placed_order_is_found_witness :
  exists o' b1 b2, place true (demo_order "bybit") (demo_backend true) = (Ok o', b1) /\
    b2 = snd (tb_place_order (demo_order "okx") b1) /\
    forall e, tb_cancel_order e (so_id o') b2 = with_client (c_cancel_order (so_id o') (so_symbol o')) b2 /\
      tb_get_order_status e (so_id o') b2 = with_client (c_get_order_status (so_id o') (so_symbol o')) b2 /\
      forall y, tb_get_order_status_detailed e (so_id o') y b2 = with_client (c_get_order_status_detailed (so_id o') y) b2.
Proof.
  pose proof (fun o' b1 b2 => placed_order_is_found true (demo_order "bybit") o' (demo_backend true) b1 b2 eq_refl) as Hp.
  assert (Hr : match place true (demo_order "bybit") (demo_backend true) with
               | (Ok o', b1) => negb (is_simulated (so_id o')) && simulates "okx" b1
               | _ => false end = true) by (vm_compute; reflexivity).
  revert Hp Hr. destruct (place true _ _) as [[o' | e] b1]; [| discriminate]. intros Hp Hr.
  apply andb_true_iff in Hr. destruct Hr as [Hid Hsim]. apply negb_true_iff in Hid.
  eexists o', b1, _. split; [reflexivity |]. split; [reflexivity |].
  refine (proj2 (proj2 (Hp o' b1 _ eq_refl Hid _))). eapply star_step; [apply star_refl |].
  apply (os_place (so_id o') false). intros o2. cbn. unfold tb_place_order. cbn [so_exchange demo_order].
  rewrite Hsim. destruct (simulate_result (demo_order "okx") Limit b1) as (u & t1 & t2 & b2 & Es & _).
  cbn [so_order_type demo_order]. rewrite Es. cbn [fst]. intros [= <-] Heq.
  rewrite <- Heq in Hid. cbn [so_id simulated_order] in Hid. now rewrite sim_prefix in Hid.
Defined.

Lemma simulated_order_contract_witness :
  exists o' b', tb_place_order (demo_order "okx") (demo_backend true) = (Ok o', b') /\
    so_status o' = Filled /\
    forall y, tb_get_order_status_detailed "okx" (so_id o') y b' = (Err (unsupported "okx"), b').
Proof.
  destruct (simulated_order_contract (demo_order "okx") (demo_backend true) eq_refl ltac:(discriminate))
    as (o' & b' & Hp & _ & Hst & _ & _ & _ & _ & Hq).
  exists o', b'. split; [exact Hp |]. split; [exact Hst |]. intros y. apply (Hq "okx" y).
Defined.

Lemma simulated_hedge_fails_witness :
  let w := {| w_backend := demo_backend true; w_hedge_locks := ∅; w_halted := false; w_calls := [] |} in
  wp (place_market_order_with_retry (demo_order "okx") 1.2344%f64 None)
     (fun '(r, _) w' => hedge_unconfirmed "okx" 1.2344%f64 3 w r w') w.
Proof.
  intros w. refine (simulated_hedge_fails (demo_order "okx") 1.2344%f64 None w eq_refl _ _);
    [discriminate | vm_compute; reflexivity].
Defined.

Example quantity_text :
  qty_text 1.2344%f64 0.001%f64 = "1.234" /\ qty_text 1.2346%f64 0.001%f64 = "1.235" /\
  qty_text 0.0004%f64 0.001%f64 = "0" /\ price_text 100.25%f64 = "100.25".
Proof. vm_compute. auto. Qed.
