(* ===== verification/Configs.v ===== *)
(** Configuration from the environment ([src/src/strategy/synthetic_config.rs]
    and [src/src/strategy/testnet_config.rs]).

    The environment is a function from variable names to values
    ([std::env::var(..).ok()]). *)
From Stdlib Require Import ZArith Lia Bool Ascii String.
From stdpp Require Import base option list strings.
From S2P Require Import Prelude Float64 NumberText BybitClient TestnetBackend.

#[local] Open Scope string_scope.
#[local] Open Scope Z_scope.

Section env.
Context (env : string -> option string).

(** [var(k).ok().and_then(|v| v.parse().ok()).unwrap_or(d)] *)
Definition var_or {A} (parse : string -> option A) (k : string) (d : A) : A :=
  match env k with Some v => default d (parse v) | None => d end.

(** ** The synthetic test mode *)
Record SyntheticConfig := {
  synthetic_spread_bps : f64;
  synthetic_funding_delta : f64;
  estimated_position_size : f64;
  max_concurrent_trades : Z;
  symbols_to_trade : list string
}.

Definition SyntheticConfig_default : SyntheticConfig :=
  {| synthetic_spread_bps := 30.0%f64; synthetic_funding_delta := 0.01%f64;
     estimated_position_size := 1000.0%f64; max_concurrent_trades := 3;
     symbols_to_trade := ["BTCUSDT"; "ETHUSDT"] |}.

Definition validate (c : SyntheticConfig) : result unit string :=
  if (synthetic_spread_bps c <=? 0.0%f64)%F then Err "synthetic_spread_bps must be greater than 0"
  else if (synthetic_funding_delta c <=? 0.0%f64)%F then Err "synthetic_funding_delta must be greater than 0"
  else if (estimated_position_size c <=? 0.0%f64)%F then Err "estimated_position_size must be greater than 0"
  else if max_concurrent_trades c =? 0 then Err "max_concurrent_trades must be greater than 0"
  else match symbols_to_trade c with
       | [] => Err "symbols_to_trade cannot be empty"
       | _ => Ok tt
       end.

Definition SyntheticConfig_new (spread delta size : f64) (trades : Z) (symbols : list string)
  : result SyntheticConfig string :=
  let c := {| synthetic_spread_bps := spread; synthetic_funding_delta := delta;
              estimated_position_size := size; max_concurrent_trades := trades;
              symbols_to_trade := symbols |} in
  match validate c with Ok _ => Ok c | Err e => Err e end.

(** [trim()] on ASCII. *)
Definition is_space (c : ascii) : bool :=
  let n := nat_of_ascii c in ((n =? 32)%nat || ((9 <=? n)%nat && (n <=? 13)%nat)).
Fixpoint trim_start (s : string) : string :=
  match s with String c s' => if is_space c then trim_start s' else s | EmptyString => EmptyString end.
Fixpoint trim_end (s : string) : string :=
  match s with
  | EmptyString => EmptyString
  | String c s => match trim_end s with
                  | EmptyString => if is_space c then EmptyString else String c EmptyString
                  | t => String c t
                  end
  end.
Definition trim (s : string) : string := trim_end (trim_start s).

Definition synthetic_from_env : result SyntheticConfig string :=
  SyntheticConfig_new
    (var_or std_parse_f64 "SYNTHETIC_SPREAD_BPS" 30.0%f64)
    (var_or std_parse_f64 "SYNTHETIC_FUNDING_DELTA" 0.01%f64)
    (var_or std_parse_f64 "ESTIMATED_POSITION_SIZE" 1000.0%f64)
    (var_or parse_u64 "MAX_CONCURRENT_TRADES" 3)
    (match env "SYMBOLS_TO_TRADE" with
     | Some s => trim <$> split_char "," s
     | None => ["BTCUSDT"; "ETHUSDT"]
     end).

(** ** The demo accounts *)
Definition incomplete (prefix : string) : string :=
  "Incomplete credentials for " ++ prefix ++ ": both API_KEY and API_SECRET required".

Definition load_creds (prefix : string) (passphrase : option string) : result (option ExchangeCredentials) string :=
  match env (prefix ++ "_API_KEY"), env (prefix ++ "_API_SECRET") with
  | Some key, Some secret =>
      Ok (Some {| ec_api_key := key; ec_api_secret := secret; ec_passphrase := passphrase |})
  | None, None => Ok None
  | _, _ => Err (incomplete prefix)
  end.

Definition load_exchange_creds (prefix : string) : result (option ExchangeCredentials) string :=
  load_creds prefix None.
Definition load_exchange_creds_with_passphrase (prefix : string) : result (option ExchangeCredentials) string :=
  load_creds prefix (env (prefix ++ "_PASSPHRASE")).

Definition parse_bool (s : string) : option bool :=
  if String.eqb s "true" then Some true else if String.eqb s "false" then Some false else None.

(** [e?] *)
Definition and_ok {A B E} (r : result A E) (k : A -> result B E) : result B E :=
  match r with Ok a => k a | Err e => Err e end.

Definition testnet_from_env : result TestnetConfig string :=
  let single_exchange_mode := var_or parse_bool "SINGLE_EXCHANGE_MODE" false in
  let primary_exchange := default "bybit" (env "PRIMARY_EXCHANGE") in
  if single_exchange_mode && String.eqb primary_exchange ""
  then Err "PRIMARY_EXCHANGE must be set when SINGLE_EXCHANGE_MODE=true"
  else
    and_ok (load_exchange_creds "BYBIT_DEMO") (fun bybit =>
    and_ok (load_exchange_creds_with_passphrase "OKX_DEMO") (fun okx =>
    and_ok (load_exchange_creds_with_passphrase "KUCOIN_DEMO") (fun kucoin =>
    and_ok (load_exchange_creds_with_passphrase "BITGET_DEMO") (fun bitget =>
    Ok {| tc_bybit := bybit; tc_okx := okx; tc_kucoin := kucoin; tc_bitget := bitget;
          tc_single_exchange_mode := single_exchange_mode; tc_primary_exchange := primary_exchange |})))).
End env.

(** ** What a configuration that was accepted holds *)

(** A synthetic configuration that was accepted has no field that is not above
    zero, NaN excepted; the list of symbols is never empty. *)
Lemma synthetic_accepted env c :
  synthetic_from_env env = Ok c ->
  (synthetic_spread_bps c <=? 0.0%f64)%F = false /\ (synthetic_funding_delta c <=? 0.0%f64)%F = false /\
  (estimated_position_size c <=? 0.0%f64)%F = false /\ max_concurrent_trades c <> 0 /\ symbols_to_trade c <> [].
Proof.
  unfold synthetic_from_env, SyntheticConfig_new. destruct (validate _) as [u | e] eqn:Ev; [| discriminate].
  intros [= <-]. revert Ev. unfold validate. repeat (destruct_if; [discriminate |]).
  cbn [symbols_to_trade max_concurrent_trades] in *. destruct (match env "SYMBOLS_TO_TRADE" with _ => _ end); [discriminate |].
  intros _. apply Z.eqb_neq in E2. auto 10.
Qed.

(** ["NaN"] is a number for [parse], and no comparison rejects it. *)
Lemma nan_spread_accepted :
  exists c, synthetic_from_env (fun k => if String.eqb k "SYNTHETIC_SPREAD_BPS" then Some "NaN" else None) = Ok c /\
    is_nan (synthetic_spread_bps c) = true.
Proof. eexists. split; vm_compute; reflexivity. Qed.

(** Half a pair of credentials is refused for each of the four exchanges. *)
Lemma half_credentials_refused env prefix :
  In prefix ["BYBIT_DEMO"; "OKX_DEMO"; "KUCOIN_DEMO"; "BITGET_DEMO"] ->
  is_Some (env (prefix ++ "_API_KEY")) -> env (prefix ++ "_API_SECRET") = None ->
  is_ok (testnet_from_env env) = false.
Proof.
  intros Hp [key Hk] Hs. unfold testnet_from_env. cbv zeta. destruct (_ && _); [reflexivity |].
  unfold load_exchange_creds, load_exchange_creds_with_passphrase.
  assert (Hbad : forall pass, load_creds env prefix pass = Err (incomplete prefix))
    by (intros pass; unfold load_creds; now rewrite Hk, Hs).
  unfold and_ok. destruct Hp as [<- | [<- | [<- | [<- | []]]]]; rewrite Hbad;
    repeat match goal with |- context [load_creds env ?p ?q] => destruct (load_creds env p q) end; reflexivity.
Qed.
