(* ===== verification/TestMetrics.v ===== *)
(** The statistics of the synthetic test mode
    ([src/src/strategy/test_metrics.rs]): eight counters and five lists of
    latencies (in nanoseconds) with their percentiles.

    The counters are [AtomicU64]s; a list is behind a mutex that no code path
    poisons.  The two reports only print. *)
From Stdlib Require Import ZArith Lia Bool Sorting.Sorted Sorting.Permutation.
From stdpp Require Import base option list sorting.
From S2P Require Import Prelude Float64.

#[local] Open Scope Z_scope.

Inductive counter :=
| Opportunities | TradesExecuted | TradesSuccessful | TradesFailed
| PartialFills | Cancellations | Timeouts | EmergencyCloses.
Inductive stage :=
| WebsocketToQueue | QueueToStrategy | OpportunityDetection | OrderPlacement | EndToEnd.

#[export] Instance counter_eq_dec : EqDecision counter.
Proof. solve_decision. Defined.
#[export] Instance stage_eq_dec : EqDecision stage.
Proof. solve_decision. Defined.

Record TestMetricsCollector := {
  tm_counters : counter -> Z;
  tm_latencies : stage -> list Z
}.

Definition TestMetricsCollector_new : TestMetricsCollector :=
  {| tm_counters _ := 0; tm_latencies _ := [] |}.

(** [fetch_add(1)] of a counter: [record_opportunity], [record_trade_executed],
    [record_success], [record_failure], [record_partial_fill],
    [record_cancellation], [record_timeout] and [record_emergency_close]. *)
Definition count_event (k : counter) (m : TestMetricsCollector) : TestMetricsCollector :=
  {| tm_counters k' := if decide (k' = k) then wrap64 (tm_counters m k + 1) else tm_counters m k';
     tm_latencies := tm_latencies m |}.

(** [push] of a latency: [record_websocket_latency], [record_queue_latency],
    [record_opportunity_detection_latency], [record_order_placement_latency] and
    [record_end_to_end_latency]. *)
Definition record_latency (g : stage) (latency : Z) (m : TestMetricsCollector) : TestMetricsCollector :=
  {| tm_counters := tm_counters m;
     tm_latencies g' := if decide (g' = g) then tm_latencies m g ++ [latency] else tm_latencies m g' |}.

Definition calculate_success_rate (m : TestMetricsCollector) : f64 :=
  let total := tm_counters m TradesExecuted in
  if total =? 0 then 0.0%f64
  else ((f_of_Z (tm_counters m TradesSuccessful) / f_of_Z total) * 100.0%f64)%F.

Definition calculate_percentile (sorted_values : list Z) (percentile : f64) : option Z :=
  match sorted_values with
  | [] => None
  | _ =>
      let index := f_to_u64 ((percentile / 100.0%f64) * f_of_Z (Z.of_nat (length sorted_values)))%F in
      let index := Z.min index (Z.of_nat (length sorted_values) - 1) in
      sorted_values !! Z.to_nat index
  end.

Definition calculate_latency_percentiles (latencies : list Z) : option Z * option Z * option Z :=
  match latencies with
  | [] => (None, None, None)
  | _ =>
      let sorted := merge_sort Z.le latencies in
      (calculate_percentile sorted 50.0%f64, calculate_percentile sorted 95.0%f64,
       calculate_percentile sorted 99.0%f64)
  end.

Definition get_percentiles (g : stage) (m : TestMetricsCollector) : option Z * option Z * option Z :=
  calculate_latency_percentiles (tm_latencies m g).

(** ** Properties *)

(** An event or a latency. *)
Inductive metric_event := Event (k : counter) | Latency (g : stage) (ns : Z).
Definition apply_event (m : TestMetricsCollector) (e : metric_event) : TestMetricsCollector :=
  match e with Event k => count_event k m | Latency g ns => record_latency g ns m end.
Definition latencies_of (g : stage) (es : list metric_event) : list Z :=
  omap (fun e => match e with Latency g' ns => if decide (g' = g) then Some ns else None | _ => None end) es.

Lemma recorded_latencies g es m :
  tm_latencies (fold_left apply_event es m) g = tm_latencies m g ++ latencies_of g es.
Proof.
  revert m. induction es as [| e es IH]; intros m; cbn; [now rewrite app_nil_r |]. rewrite IH.
  destruct e as [k | g' ns]; cbn; [reflexivity |].
  destruct (decide (g = g')) as [-> | Hn].
  - rewrite decide_True by reflexivity. now rewrite <- app_assoc.
  - now rewrite decide_False by congruence.
Qed.

Lemma percentile_in sorted p : sorted <> [] ->
  exists x, calculate_percentile sorted p = Some x /\ x ∈ sorted.
Proof.
  intros Hs. unfold calculate_percentile. destruct sorted as [| y l]; [congruence |].
  set (n := f_to_u64 _). pose proof (f_to_uint_range U64_MAX (p / 100.0%f64 * f_of_Z (Z.of_nat (length (y :: l))))%F ltac:(discriminate)) as Hn.
  fold (f_to_u64 (p / 100.0%f64 * f_of_Z (Z.of_nat (length (y :: l))))%F) in Hn. fold n in Hn.
  destruct (lookup_lt_is_Some_2 (y :: l) (Z.to_nat (Z.min n (Z.of_nat (length (y :: l)) - 1)))) as [x Hx].
  { cbn [length]. lia. }
  exists x. split; [exact Hx | eapply list_elem_of_lookup_2; exact Hx].
Qed.

(** After any events, the three percentiles of a stage are latencies recorded for
    that very stage, or absent when there is none. *)
Lemma percentiles_are_recorded g es :
  let '(p50, p95, p99) := get_percentiles g (fold_left apply_event es TestMetricsCollector_new) in
  match latencies_of g es with
  | [] => p50 = None /\ p95 = None /\ p99 = None
  | _ => (exists x, p50 = Some x /\ x ∈ latencies_of g es) /\ (exists x, p95 = Some x /\ x ∈ latencies_of g es) /\
         (exists x, p99 = Some x /\ x ∈ latencies_of g es)
  end.
Proof.
  unfold get_percentiles. rewrite recorded_latencies. cbn [tm_latencies TestMetricsCollector_new app].
  destruct (latencies_of g es) as [| x l] eqn:El; [vm_compute; auto |]. unfold calculate_latency_percentiles.
  pose proof (merge_sort_Permutation Z.le (x :: l)) as Hp.
  assert (Hne : merge_sort Z.le (x :: l) <> []) by (intros Hn; rewrite Hn in Hp; now apply Permutation_nil in Hp).
  assert (Hall : forall p, exists y, calculate_percentile (merge_sort Z.le (x :: l)) p = Some y /\ y ∈ x :: l).
  { intros p. destruct (percentile_in _ p Hne) as (y & Hy & Hin). exists y. split; [exact Hy | now rewrite <- Hp]. }
  auto.
Qed.

Example percentiles_of_five :
  calculate_latency_percentiles [500; 100; 300; 200; 400] = (Some 300, Some 500, Some 500).
Proof. vm_compute. reflexivity. Qed.
