(* ===== verification/Monitor.v ===== *)
(** The metrics server ([src/src/bin/monitor.rs]): a collector task that updates four
    groups of numbers every second, each behind a lock of its own, and connections
    that answer [/metrics] and [/health] with them.

    The collector does not look at the program: the numbers are simulated.  Requests
    are ASCII. *)
From Stdlib Require Import ZArith Lia Bool Ascii String.
From stdpp Require Import base option list strings pretty.
From S2P Require Import Prelude Float64 NumberText SymbolNames.

#[local] Open Scope string_scope.
#[local] Open Scope list_scope.
#[local] Open Scope Z_scope.

Definition lf : ascii := ascii_of_nat 10.
Definition cr : ascii := ascii_of_nat 13.
Definition nl : string := String lf "".
Definition crlf : string := String cr nl.
Definition quote : string := String (ascii_of_nat 34) "".

(** ** The numbers *)
Record LatencyMetrics := { p50_ns : Z; p95_ns : Z; p99_ns : Z; max_ns : Z; lm_count : Z }.
Record QueueMetrics := {
  market_depth : Z; market_capacity : Z; order_depth : Z; order_capacity : Z; market_push_count : Z;
  market_drop_count : Z; order_submit_count : Z; order_drop_count : Z
}.
(** The time of the last measurement is never set. *)
Record AllocationMetrics := {
  hot_path_allocations : Z; warm_path_allocations : Z; cold_path_allocations : Z; allocations_per_second : f64
}.
Record CpuMetrics := {
  strategy_thread_percent : f64; websocket_threads_percent : f64; system_percent : f64; context_switches : Z
}.

Record MetricsState := {
  ms_latency : LatencyMetrics; ms_queue : QueueMetrics; ms_allocation : AllocationMetrics; ms_cpu : CpuMetrics
}.

Definition MetricsState_new : MetricsState :=
  {| ms_latency := {| p50_ns := 0; p95_ns := 0; p99_ns := 0; max_ns := 0; lm_count := 0 |};
     ms_queue := {| market_depth := 0; market_capacity := 0; order_depth := 0; order_capacity := 0; market_push_count := 0;
                    market_drop_count := 0; order_submit_count := 0; order_drop_count := 0 |};
     ms_allocation := {| hot_path_allocations := 0; warm_path_allocations := 0; cold_path_allocations := 0;
                         allocations_per_second := 0.0%f64 |};
     ms_cpu := {| strategy_thread_percent := 0.0%f64; websocket_threads_percent := 0.0%f64; system_percent := 0.0%f64;
                  context_switches := 0 |} |}.

(** ** The texts *)

(** The three lines of a metric. *)
Definition metric (name help kind value : string) : string :=
  "# HELP " +:+ name +:+ " " +:+ help +:+ nl +:+ "# TYPE " +:+ name +:+ " " +:+ kind +:+ nl +:+ name +:+ " " +:+ value +:+ nl.

(** [ns as f64 / 1000.0], two decimals. *)
Definition micros (ns : Z) : string := fixed 2 (f_of_Z ns / 1000.0%f64)%F.

Definition latency_to_prometheus (m : LatencyMetrics) : string :=
  metric "latency_p50_microseconds" "P50 latency in microseconds" "gauge" (micros (p50_ns m)) +:+
  metric "latency_p95_microseconds" "P95 latency in microseconds" "gauge" (micros (p95_ns m)) +:+
  metric "latency_p99_microseconds" "P99 latency in microseconds" "gauge" (micros (p99_ns m)) +:+
  metric "latency_max_microseconds" "Maximum latency in microseconds" "gauge" (micros (max_ns m)) +:+
  metric "latency_measurements_total" "Total number of latency measurements" "counter" (pretty (lm_count m)).

(** [part] of [whole] in percent; 0 of nothing. *)
Definition percent (part whole : Z) : f64 :=
  if 0 <? whole then ((f_of_Z part / f_of_Z whole) * 100.0%f64)%F else 0.0%f64.

Definition queue_to_prometheus (m : QueueMetrics) : string :=
  metric "queue_depth_market" "Current market data queue depth" "gauge" (pretty (market_depth m)) +:+
  metric "queue_capacity_market" "Market data queue capacity" "gauge" (pretty (market_capacity m)) +:+
  metric "queue_utilization_market_percent" "Market data queue utilization percentage" "gauge"
    (fixed 2 (percent (market_depth m) (market_capacity m))) +:+
  metric "queue_depth_order" "Current order execution queue depth" "gauge" (pretty (order_depth m)) +:+
  metric "queue_capacity_order" "Order execution queue capacity" "gauge" (pretty (order_capacity m)) +:+
  metric "queue_utilization_order_percent" "Order execution queue utilization percentage" "gauge"
    (fixed 2 (percent (order_depth m) (order_capacity m))) +:+
  metric "queue_market_push_total" "Total market updates pushed" "counter" (pretty (market_push_count m)) +:+
  metric "queue_market_drop_total" "Total market updates dropped" "counter" (pretty (market_drop_count m)) +:+
  metric "queue_market_drop_rate_percent" "Market data drop rate percentage" "gauge"
    (fixed 2 (percent (market_drop_count m) (market_push_count m))) +:+
  metric "queue_order_submit_total" "Total orders submitted" "counter" (pretty (order_submit_count m)) +:+
  metric "queue_order_drop_total" "Total orders dropped" "counter" (pretty (order_drop_count m)) +:+
  metric "queue_order_drop_rate_percent" "Order drop rate percentage" "gauge"
    (fixed 2 (percent (order_drop_count m) (order_submit_count m))).

Definition allocation_to_prometheus (m : AllocationMetrics) : string :=
  metric "allocations_hot_path_total" "Total allocations in hot path" "counter" (pretty (hot_path_allocations m)) +:+
  metric "allocations_warm_path_total" "Total allocations in warm path" "counter" (pretty (warm_path_allocations m)) +:+
  metric "allocations_cold_path_total" "Total allocations in cold path" "counter" (pretty (cold_path_allocations m)) +:+
  metric "allocations_per_second" "Allocations per second" "gauge" (fixed 2 (allocations_per_second m)).

Definition cpu_to_prometheus (m : CpuMetrics) : string :=
  metric "cpu_strategy_thread_percent" "Strategy thread CPU utilization percentage" "gauge" (fixed 2 (strategy_thread_percent m)) +:+
  metric "cpu_websocket_threads_percent" "WebSocket threads CPU utilization percentage" "gauge" (fixed 2 (websocket_threads_percent m)) +:+
  metric "cpu_system_percent" "Overall system CPU utilization percentage" "gauge" (fixed 2 (system_percent m)) +:+
  metric "cpu_context_switches_total" "Total number of context switches" "counter" (pretty (context_switches m)).

Definition metrics_body (uptime : Z) (s : MetricsState) : string :=
  "# Low-Latency Trading System Metrics" +:+ nl +:+ "# Uptime: " +:+ pretty uptime +:+ " seconds" +:+ nl +:+ nl +:+
  latency_to_prometheus (ms_latency s) +:+ queue_to_prometheus (ms_queue s) +:+
  allocation_to_prometheus (ms_allocation s) +:+ cpu_to_prometheus (ms_cpu s).

(** ** The answers *)
Definition response (status content_type body : string) : string :=
  "HTTP/1.1 " +:+ status +:+ crlf +:+ "Content-Type: " +:+ content_type +:+ crlf +:+
  "Content-Length: " +:+ pretty (Z.of_nat (String.length body)) +:+ crlf +:+ crlf +:+ body.

Definition handle_metrics (uptime : Z) (s : MetricsState) : string :=
  response "200 OK" "text/plain; version=0.0.4" (metrics_body uptime s).

Definition market_utilization (q : QueueMetrics) : f64 := percent (market_depth q) (market_capacity q).
Definition order_utilization (q : QueueMetrics) : f64 := percent (order_depth q) (order_capacity q).
Definition is_healthy (q : QueueMetrics) : bool := (market_utilization q <? 90.0%f64)%F && (order_utilization q <? 90.0%f64)%F.

Definition quoted (s : string) : string := quote +:+ s +:+ quote.

Definition health_body (uptime : Z) (q : QueueMetrics) : string :=
  "{" +:+ nl +:+
  quoted "status" +:+ ": " +:+ quoted (if is_healthy q then "healthy" else "degraded") +:+ "," +:+ nl +:+
  quoted "uptime_seconds" +:+ ": " +:+ pretty uptime +:+ "," +:+ nl +:+
  quoted "market_queue_utilization_percent" +:+ ": " +:+ fixed 2 (market_utilization q) +:+ "," +:+ nl +:+
  quoted "order_queue_utilization_percent" +:+ ": " +:+ fixed 2 (order_utilization q) +:+ nl +:+
  "}".

Definition handle_health (uptime : Z) (q : QueueMetrics) : string :=
  response (if is_healthy q then "200 OK" else "503 Service Unavailable") "application/json" (health_body uptime q).

Definition not_found_body : string :=
  "404 Not Found" +:+ nl +:+ nl +:+ "Available endpoints:" +:+ nl +:+ "  - /metrics" +:+ nl +:+ "  - /health" +:+ nl.
Definition handle_not_found : string := response "404 Not Found" "text/plain" not_found_body.

(** ** The request *)

(** [lines().next().unwrap_or("")]: up to the first line feed, without a carriage return
    before it. *)
Fixpoint up_to_lf (s : string) : string :=
  match s with EmptyString => "" | String c s => if Ascii.eqb c lf then "" else String c (up_to_lf s) end.
Definition first_line (s : string) : string :=
  let l := up_to_lf s in if (String.length l <? String.length s)%nat && ends_with (String cr "") l then drop_end 1 l else l.

Definition is_whitespace (c : ascii) : bool :=
  let n := nat_of_ascii c in ((n =? 32) || ((9 <=? n) && (n <=? 13)))%nat.
(** [split_whitespace] *)
Fixpoint words (s : string) : list string :=
  match s with
  | EmptyString => []
  | String c rest =>
      if is_whitespace c then words rest
      else match rest with
           | EmptyString => [String c ""]
           | String d _ => if is_whitespace d then String c "" :: words rest
                           else match words rest with w :: ws => String c w :: ws | [] => [String c ""] end
           end
  end.

(** What a connection is sent for what was read from it: nothing for an empty request,
    an error, or a line of fewer than two words. *)
Definition respond (uptime : Z) (s : MetricsState) (request : result string string) : option string :=
  match request with
  | Err _ => None
  | Ok request =>
      match request with
      | EmptyString => None
      | request =>
          match words (first_line request) with
          | _ :: path :: _ =>
              Some (if String.eqb path "/metrics" then handle_metrics uptime s
                    else if String.eqb path "/health" then handle_health uptime (ms_queue s)
                    else handle_not_found)
          | _ => None
          end
      end
  end.

(** ** The collector: four updates a second *)
Definition collect_latency (m : LatencyMetrics) : LatencyMetrics :=
  {| p50_ns := 2000000; p95_ns := 5000000; p99_ns := 10000000; max_ns := 20000000; lm_count := wrap64 (lm_count m + 1000) |}.
Definition collect_queue (m : QueueMetrics) : QueueMetrics :=
  {| market_depth := 500; market_capacity := 10000; order_depth := 50; order_capacity := 1000;
     market_push_count := wrap64 (market_push_count m + 10000); market_drop_count := wrap64 (market_drop_count m + 0);
     order_submit_count := wrap64 (order_submit_count m + 100); order_drop_count := wrap64 (order_drop_count m + 0) |}.
Definition collect_allocation (m : AllocationMetrics) : AllocationMetrics :=
  {| hot_path_allocations := 0; warm_path_allocations := wrap64 (warm_path_allocations m + 10);
     cold_path_allocations := wrap64 (cold_path_allocations m + 100); allocations_per_second := 0.0%f64 |}.
Definition collect_cpu (m : CpuMetrics) : CpuMetrics :=
  {| strategy_thread_percent := 45.0%f64; websocket_threads_percent := 30.0%f64; system_percent := 25.0%f64;
     context_switches := wrap64 (context_switches m + 10) |}.

(** The [i]-th of the four. *)
Definition collect_section (i : nat) (s : MetricsState) : MetricsState :=
  {| ms_latency := if (i =? 0)%nat then collect_latency (ms_latency s) else ms_latency s;
     ms_queue := if (i =? 1)%nat then collect_queue (ms_queue s) else ms_queue s;
     ms_allocation := if (i =? 2)%nat then collect_allocation (ms_allocation s) else ms_allocation s;
     ms_cpu := if (i =? 3)%nat then collect_cpu (ms_cpu s) else ms_cpu s |}.

(** ** The collector next to the connections

    A write lock waits for the readers of its section; [handle_metrics] takes the four
    read locks in order and keeps them until the answer is made.  A reader is the
    number of locks it has and what it saw. *)
Record server := {
  sv_state : MetricsState;
  sv_next : nat;                             (* the section the collector writes next *)
  sv_ticks : nat;                            (* the rounds it has completed *)
  sv_readers : list (nat * MetricsState)
}.

Definition server_start (connections : nat) : server :=
  {| sv_state := MetricsState_new; sv_next := 0; sv_ticks := 0; sv_readers := replicate connections (0%nat, MetricsState_new) |}.

(** The [i]-th section as it is in [s]. *)
Definition see_section (i : nat) (s seen : MetricsState) : MetricsState :=
  {| ms_latency := if (i =? 0)%nat then ms_latency s else ms_latency seen;
     ms_queue := if (i =? 1)%nat then ms_queue s else ms_queue seen;
     ms_allocation := if (i =? 2)%nat then ms_allocation s else ms_allocation seen;
     ms_cpu := if (i =? 3)%nat then ms_cpu s else ms_cpu seen |}.

Inductive server_step : server -> server -> Prop :=
| collector_writes c :
    (sv_next c < 4)%nat ->
    Forall (fun r => (fst r <= sv_next c)%nat) (sv_readers c) ->
    server_step c
      {| sv_state := collect_section (sv_next c) (sv_state c); sv_next := S (sv_next c); sv_ticks := sv_ticks c;
         sv_readers := sv_readers c |}
| collector_ticks c :
    sv_next c = 4%nat ->
    server_step c {| sv_state := sv_state c; sv_next := 0; sv_ticks := S (sv_ticks c); sv_readers := sv_readers c |}
| reader_locks c j k seen :
    sv_readers c !! j = Some (k, seen) -> (k < 4)%nat ->
    server_step c
      {| sv_state := sv_state c; sv_next := sv_next c; sv_ticks := sv_ticks c;
         sv_readers := <[j := (S k, see_section k (sv_state c) seen)]> (sv_readers c) |}
| reader_answers c j seen :
    sv_readers c !! j = Some (4%nat, seen) ->
    server_step c
      {| sv_state := sv_state c; sv_next := sv_next c; sv_ticks := sv_ticks c; sv_readers := <[j := (0%nat, seen)]> (sv_readers c) |}.

(** The first [k] sections of what was seen are the present ones. *)
Definition sees (k : nat) (seen s : MetricsState) : Prop :=
  ((0 < k)%nat -> ms_latency seen = ms_latency s) /\ ((1 < k)%nat -> ms_queue seen = ms_queue s) /\
  ((2 < k)%nat -> ms_allocation seen = ms_allocation s) /\ ((3 < k)%nat -> ms_cpu seen = ms_cpu s).

(** The numbers after [n] rounds. *)
Definition latency_after (n : nat) : LatencyMetrics := Nat.iter n collect_latency (ms_latency MetricsState_new).
Definition queue_after (n : nat) : QueueMetrics := Nat.iter n collect_queue (ms_queue MetricsState_new).
Definition allocation_after (n : nat) : AllocationMetrics := Nat.iter n collect_allocation (ms_allocation MetricsState_new).
Definition cpu_after (n : nat) : CpuMetrics := Nat.iter n collect_cpu (ms_cpu MetricsState_new).

(** The collector in its round after [n] complete ones, before it writes section [i]. *)
Definition state_after (n i : nat) : MetricsState :=
  {| ms_latency := latency_after (if (0 <? i)%nat then S n else n);
     ms_queue := queue_after (if (1 <? i)%nat then S n else n);
     ms_allocation := allocation_after (if (2 <? i)%nat then S n else n);
     ms_cpu := cpu_after (if (3 <? i)%nat then S n else n) |}.

Record server_ok (c : server) : Prop := {
  so_state : sv_state c = state_after (sv_ticks c) (sv_next c);
  so_next : (sv_next c <= 4)%nat;
  so_seen : Forall (fun r => sees (fst r) (snd r) (sv_state c)) (sv_readers c)
}.

Lemma server_ok_step c c' : server_ok c -> server_step c c' -> server_ok c'.
Proof.
  intros [Hs Hn Hr] Hstep. destruct Hstep as [c Hlt Hfree | c Heq | c j k seen Hj Hk | c j seen Hj]; split; cbn [sv_state sv_next sv_ticks sv_readers]; auto.
  - rewrite Hs. unfold state_after, collect_section. cbn [ms_latency ms_queue ms_allocation ms_cpu].
    destruct (sv_next c) as [| [| [| [| n]]]]; try lia; reflexivity.
  - rewrite Forall_forall in Hfree, Hr |- *. intros r Hin. specialize (Hfree r Hin). destruct (Hr r Hin) as (H0 & H1 & H2 & H3).
    unfold sees, collect_section. cbn [ms_latency ms_queue ms_allocation ms_cpu].
    repeat split; intros Hlt'; [rewrite H0 | rewrite H1 | rewrite H2 | rewrite H3]; auto;
      destruct (Nat.eqb_spec (sv_next c) 0), (Nat.eqb_spec (sv_next c) 1), (Nat.eqb_spec (sv_next c) 2), (Nat.eqb_spec (sv_next c) 3); auto; lia.
  - rewrite Hs, Heq. reflexivity.
  - apply Forall_insert; [exact Hr |]. rewrite Forall_forall in Hr. destruct (Hr (k, seen)) as (H0 & H1 & H2 & H3); [apply list_elem_of_lookup; eauto |].
    cbn [fst snd] in *. unfold sees, see_section. cbn [ms_latency ms_queue ms_allocation ms_cpu].
    destruct k as [| [| [| [| k]]]]; cbn [Nat.eqb]; repeat split; intros; try lia; auto with lia.
  - apply Forall_insert; [exact Hr |]. unfold sees. cbn [fst snd]. repeat split; intros; lia.
Qed.

Lemma reachable_ok connections c : star server_step (server_start connections) c -> server_ok c.
Proof.
  intros Hreach. eapply (star_invariant server_step server_ok); [| | exact Hreach].
  - split; cbn; [reflexivity | lia |]. apply Forall_replicate. unfold sees. cbn. repeat split; intros; lia.
  - intros a b. apply server_ok_step.
Qed.

(** A scrape is a moment of the collector: whatever the connections and the
    collector do in between, when a connection has its four locks what it saw is
    the state of that moment, the numbers of one round for the sections the
    collector has passed and of the round before for the others. *)
Theorem scrape_consistent connections c j seen
  (Hreach : star server_step (server_start connections) c) (Hj : sv_readers c !! j = Some (4%nat, seen)) :
  seen = sv_state c /\ seen = state_after (sv_ticks c) (sv_next c).
Proof.
  destruct (reachable_ok _ _ Hreach) as [Hs _ Hr]. rewrite Forall_forall in Hr.
  destruct (Hr (4%nat, seen)) as (H0 & H1 & H2 & H3); [apply list_elem_of_lookup; eauto |]. cbn [fst snd] in *.
  assert (Heq : seen = sv_state c).
  { destruct seen, (sv_state c). cbn in *. rewrite H0, H1, H2, H3 by lia. reflexivity. }
  split; [exact Heq | now rewrite Heq].
Qed.

(** ** What a client reads *)

(** A line that ends in a carriage return and a line feed, and the rest. *)
Fixpoint read_line (s : string) : option (string * string) :=
  match s with
  | EmptyString => None
  | String c rest =>
      if Ascii.eqb c cr
      then match rest with String d rest => if Ascii.eqb d lf then Some ("", rest) else None | EmptyString => None end
      else match read_line rest with Some (l, rest) => Some (String c l, rest) | None => None end
  end.

(** The lines up to an empty one, and the body after it. *)
Fixpoint read_head (fuel : nat) (s : string) : option (list string * string) :=
  match fuel with
  | O => None
  | S fuel =>
      match read_line s with
      | Some (EmptyString, body) => Some ([], body)
      | Some (l, rest) => match read_head fuel rest with Some (ls, body) => Some (l :: ls, body) | None => None end
      | None => None
      end
  end.

Definition LENGTH_HEADER : string := "Content-Length: ".
Definition content_length (lines : list string) : option Z :=
  match List.find (String.prefix LENGTH_HEADER) lines with
  | Some l => parse_u64 (String.substring (String.length LENGTH_HEADER) (String.length l - String.length LENGTH_HEADER) l)
  | None => None
  end.

Fixpoint no_cr (s : string) : Prop := match s with EmptyString => True | String c s => c <> cr /\ no_cr s end.

Lemma read_line_crlf l rest : no_cr l -> read_line (l +:+ crlf +:+ rest) = Some (l, rest).
Proof.
  induction l as [| c l IH]; intros Hl; [reflexivity |]. destruct Hl as [Hc Hl].
  change (String c l +:+ crlf +:+ rest) with (String c (l +:+ crlf +:+ rest)). cbn [read_line].
  destruct (Ascii.eqb_spec c cr); [contradiction |]. now rewrite (IH Hl).
Qed.

Lemma no_cr_app a b : no_cr a -> no_cr b -> no_cr (a +:+ b).
Proof. intros Ha Hb. induction a as [| c a IH]; [exact Hb |]. destruct Ha as [Hc Ha]. split; [exact Hc | exact (IH Ha)]. Qed.

Lemma no_cr_pretty z : 0 <= z -> no_cr (pretty z).
Proof.
  intros Hz. destruct z as [| p | p]; [split; [discriminate | exact I] | | lia].
  change (pretty (Z.pos p)) with (pretty (N.pos p)). unfold pretty, pretty_N. rewrite decide_False by lia.
  assert (Hg : forall x t, no_cr t -> no_cr (pretty_N_go x t)).
  { clear. induction x as [x IH] using (well_founded_induction N.lt_wf_0). intros t Ht.
    destruct (decide (0 < x)%N) as [Hx | Hx].
    - rewrite pretty_N_go_step by exact Hx. apply IH; [apply N.div_lt; lia |]. split; [| exact Ht].
      unfold pretty_N_char. repeat case_match; discriminate.
    - assert (x = 0)%N as -> by lia. now rewrite pretty_N_go_0. }
  now apply Hg.
Qed.

(** An answer is its three header lines and its body, and the length it announces is
    that of its body. *)
Lemma response_read status content_type body :
  no_cr status -> no_cr content_type -> Z.of_nat (String.length body) <= U64_MAX ->
  let lines := ["HTTP/1.1 " +:+ status; "Content-Type: " +:+ content_type; LENGTH_HEADER +:+ pretty (Z.of_nat (String.length body))] in
  read_head 4 (response status content_type body) = Some (lines, body) /\
  content_length lines = Some (Z.of_nat (String.length body)).
Proof.
  intros Hs Ht Hlen lines. split.
  - unfold response.
    change ("HTTP/1.1 " +:+ status +:+ crlf +:+ ?r) with ("HTTP/1.1 " +:+ (status +:+ (crlf +:+ r))).
    rewrite <- (append_assoc "HTTP/1.1 "), <- (append_assoc "Content-Type: "), <- (append_assoc "Content-Length: ").
    cbn [read_head]. rewrite read_line_crlf by (apply no_cr_app; [cbn; repeat split; discriminate | exact Hs]). cbn [append].
    rewrite read_line_crlf by (apply no_cr_app; [cbn; repeat split; discriminate | exact Ht]). cbn [append].
    rewrite read_line_crlf by (apply no_cr_app; [cbn; repeat split; discriminate | apply no_cr_pretty; lia]). cbn [append].
    reflexivity.
  - unfold content_length. subst lines. cbn [List.find].
    change (String.prefix LENGTH_HEADER ("HTTP/1.1 " +:+ status)) with false.
    change (String.prefix LENGTH_HEADER ("Content-Type: " +:+ content_type)) with false. cbv iota.
    change (String.prefix LENGTH_HEADER (LENGTH_HEADER +:+ pretty (Z.of_nat (String.length body)))) with
      (String.prefix "" (pretty (Z.of_nat (String.length body)))).
    replace (String.prefix "" (pretty (Z.of_nat (String.length body)))) with true by now destruct (pretty (Z.of_nat (String.length body))).
    change (String.length (LENGTH_HEADER +:+ pretty (Z.of_nat (String.length body))) - String.length LENGTH_HEADER)%nat
      with (String.length (pretty (Z.of_nat (String.length body))) - 0)%nat.
    rewrite Nat.sub_0_r.
    change (String.substring (String.length LENGTH_HEADER) ?n (LENGTH_HEADER +:+ ?s)) with (String.substring 0 n s).
    rewrite substring_whole. apply parse_u64_pretty. unfold in_u64, U64_MAX in *. lia.
Qed.

Lemma length_append a b : String.length (a +:+ b) = (String.length a + String.length b)%nat.
Proof. induction a as [| c a IH]; [reflexivity |]. cbn. now rewrite <- IH. Qed.

Lemma response_longer status content_type body : (String.length body <= String.length (response status content_type body))%nat.
Proof. unfold response. rewrite !length_append. lia. Qed.

(** The queues of the simulated numbers are never near full. *)
Lemma simulated_healthy n : is_healthy (queue_after n) = true.
Proof.
  destruct n as [| n]; [vm_compute; reflexivity |].
  assert (Hq : market_depth (queue_after (S n)) = 500 /\ market_capacity (queue_after (S n)) = 10000 /\
               order_depth (queue_after (S n)) = 50 /\ order_capacity (queue_after (S n)) = 1000) by (repeat split).
  unfold is_healthy, market_utilization, order_utilization. destruct Hq as (-> & -> & -> & ->). vm_compute. reflexivity.
Qed.

(** Every request that names a path is answered completely: three header lines,
    the last of which announces the length of the body that follows them.  The
    status is 200 for the two endpoints, at any moment of the collector, and 404
    for every other path: the numbers are simulated, and the 503 of a degraded
    system is never sent. *)
Theorem server_answers connections c uptime request verb path rest
  (Hreach : star server_step (server_start connections) c)
  (Hwords : words (first_line request) = verb :: path :: rest) :
  exists answer, respond uptime (sv_state c) (Ok request) = Some answer /\
    (Z.of_nat (String.length answer) <= U64_MAX ->
     exists status content_type body,
       read_head 4 answer = Some (["HTTP/1.1 " +:+ status; content_type;
                                   LENGTH_HEADER +:+ pretty (Z.of_nat (String.length body))], body) /\
       content_length ["HTTP/1.1 " +:+ status; content_type; LENGTH_HEADER +:+ pretty (Z.of_nat (String.length body))] =
         Some (Z.of_nat (String.length body)) /\
       status = (if String.eqb path "/metrics" || String.eqb path "/health" then "200 OK" else "404 Not Found") /\
       body = (if String.eqb path "/metrics" then metrics_body uptime (sv_state c)
               else if String.eqb path "/health" then health_body uptime (ms_queue (sv_state c)) else not_found_body)).
Proof.
  pose proof (reachable_ok _ _ Hreach) as Hs.
  assert (Hh : is_healthy (ms_queue (sv_state c)) = true) by (rewrite (so_state _ Hs); apply simulated_healthy).
  unfold respond. destruct request as [| ch request]; [discriminate |]. rewrite Hwords. eexists. split; [reflexivity |].
  assert (Hframe : forall status content_type body,
    no_cr status -> no_cr content_type -> Z.of_nat (String.length (response status content_type body)) <= U64_MAX ->
    read_head 4 (response status content_type body) =
      Some (["HTTP/1.1 " +:+ status; "Content-Type: " +:+ content_type; LENGTH_HEADER +:+ pretty (Z.of_nat (String.length body))], body) /\
    content_length ["HTTP/1.1 " +:+ status; "Content-Type: " +:+ content_type; LENGTH_HEADER +:+ pretty (Z.of_nat (String.length body))] =
      Some (Z.of_nat (String.length body))).
  { intros status ty body Hst Hty Hlen. apply response_read; auto. pose proof (response_longer status ty body). lia. }
  destruct (String.eqb path "/metrics"); [| destruct (String.eqb path "/health")]; intros Hlen.
  - destruct (Hframe "200 OK" "text/plain; version=0.0.4" (metrics_body uptime (sv_state c))) as [Hr Hc];
      [cbn; repeat split; discriminate .. | exact Hlen |]. eauto 10.
  - unfold handle_health in *. rewrite Hh in *.
    destruct (Hframe "200 OK" "application/json" (health_body uptime (ms_queue (sv_state c)))) as [Hr Hc];
      [cbn; repeat split; discriminate .. | exact Hlen |]. eauto 10.
  - destruct (Hframe "404 Not Found" "text/plain" not_found_body) as [Hr Hc]; [cbn; repeat split; discriminate .. | exact Hlen |]. eauto 10.
Qed.

(** ** Concrete requests *)

(** Two connections; one has its four locks in the middle of the first round. *)
Definition step_reader (j : nat) (c : server) : server :=
  match sv_readers c !! j with
  | Some (k, seen) => {| sv_state := sv_state c; sv_next := sv_next c; sv_ticks := sv_ticks c;
                         sv_readers := <[j := (S k, see_section k (sv_state c) seen)]> (sv_readers c) |}
  | None => c
  end.
Definition write_section (c : server) : server :=
  {| sv_state := collect_section (sv_next c) (sv_state c); sv_next := S (sv_next c); sv_ticks := sv_ticks c; sv_readers := sv_readers c |}.
Definition half_round : server := write_section (write_section (server_start 2)).
Definition scraped : server := Nat.iter 4 (step_reader 1) half_round.

Lemma scraped_reachable : star server_step (server_start 2) scraped.
Proof.
  assert (Hhalf : star server_step (server_start 2) half_round).
  { eapply star_step; [eapply star_step; [apply star_refl |] |]; apply collector_writes; cbn; try lia; repeat constructor; cbn; lia. }
  assert (Hread : forall c k seen, sv_readers c !! 1%nat = Some (k, seen) -> (k < 4)%nat -> server_step c (step_reader 1 c)).
  { intros c k seen Hj Hk. unfold step_reader. rewrite Hj. now apply reader_locks. }
  eapply star_step; [eapply star_step; [eapply star_step; [eapply star_step; [exact Hhalf |] |] |] |];
    (eapply Hread; [vm_compute; reflexivity | lia]).
Qed.

Lemma scrape_consistent_witness :
  exists seen, sv_readers scraped !! 1%nat = Some (4%nat, seen) /\ seen = state_after 0 2 /\
    lm_count (ms_latency seen) = 1000 /\ warm_path_allocations (ms_allocation seen) = 0.
Proof.
  destruct (sv_readers scraped !! 1%nat) as [[k seen] |] eqn:E; [| vm_compute in E; discriminate].
  assert (k = 4%nat) as -> by (vm_compute in E; congruence).
  destruct (scrape_consistent 2 scraped 1 seen scraped_reachable E) as [_ Hs]. exists seen.
  split; [reflexivity |]. split; [exact Hs |]. rewrite Hs. vm_compute. auto.
Defined.

Definition get_health : string := "GET /health HTTP/1.1" +:+ crlf +:+ "Host: localhost" +:+ crlf +:+ crlf.

Lemma server_answers_witness :
  exists answer body, respond 3 (sv_state scraped) (Ok get_health) = Some answer /\
    read_head 4 answer = Some (["HTTP/1.1 200 OK"; "Content-Type: application/json"; "Content-Length: 127"], body) /\
    body = health_body 3 (ms_queue (sv_state scraped)).
Proof.
  destruct (server_answers 2 scraped 3 get_health "GET" "/health" ["HTTP/1.1"] scraped_reachable) as (answer & Ha & Hr);
    [vm_compute; reflexivity |].
  exists answer, (health_body 3 (ms_queue (sv_state scraped))). split; [exact Ha |].
  injection Ha as <-. split; [| reflexivity].
  destruct Hr as (status & ty & body & Hread & _ & Hst & Hb); [vm_compute; discriminate |].
  change (status = "200 OK") in Hst. change (body = health_body 3 (ms_queue (sv_state scraped))) in Hb. subst status body.
  revert Hread. vm_compute. intros Hread. injection Hread as <-. reflexivity.
Defined.

(** A line of one word gets no answer. *)
Example one_word : respond 3 MetricsState_new (Ok ("GET" +:+ crlf)) = None.
Proof. vm_compute. reflexivity. Qed.
