(* ===== verification/EntryPoints.v ===== *)
(** The two other programs that put a strategy runner together
    ([src/src/bin/demo-runner.rs], [src/src/bin/bybit-synthetic-test.rs]).

    What they ask of the outside is an argument: the environment's variables, the
    answers of Redis, the clock, the exchange behind the backend.  A program ends with
    an error, panics, or goes on in [run_scanning_loop], whose steps are those of
    [RunnerLoop.v]. *)
From Stdlib Require Import ZArith Lia Bool.
From stdpp Require Import base option list gmap strings pretty.
From S2P Require Import Prelude Float64 Coop NumberText Types ArrayQueue Pipeline OpportunityQueue SymbolMap MarketData Portfolio Detector Backend ExchangeParser BybitClient TestnetBackend Configs Runner RunnerMonitor RunnerLoop JsonValue PortfolioStore TradingMonitor RunnerSpec ScriptedRunner JsonValue.

#[local] Open Scope string_scope.
#[local] Open Scope list_scope.
#[local] Open Scope Z_scope.

(** ** Starting the loop *)

Inductive process (P : Type) := Failed (e : string) | Panicked (message : string) | Scanning (p : P).
Arguments Failed {P} e.
Arguments Panicked {P} message.
Arguments Scanning {P} p.

Section entry_points.
Context {N T F E W V MQ OQ : Type} `{Runtime N} `{Net N} `{Json V} `{JsonApi V} `{DashMap T key Z} `{DashMap F Z key}
  `{!Sharding} `{RunnerEnv E} `{Redis W} `{JsonText} `{ArrayQueue MQ MarketUpdate} `{ArrayQueue OQ ArbitrageOpportunity}.
Abbreviation backend := (TestnetBackend N BybitDemoClient).
Abbreviation phase := (phase backend T F E MQ OQ).

(** The head of [run_scanning_loop]: the opportunity consumer is expected, the market
    consumer is not. *)
Definition run_scanning_loop (runner : StrategyRunner backend T F E) (market_consumer : option (CountedQueue MQ))
  (opportunity_consumer : option (OpportunityQueue OQ)) : process phase :=
  match opportunity_consumer with
  | Some oc => Scanning (AtTop {| lp_runner := runner; lp_market_consumer := market_consumer; lp_opportunity_consumer := oc |})
  | None => Panicked "OpportunityConsumer not set - call set_opportunity_consumer() before run_scanning_loop()"
  end.

(** [TestnetBackend::new] and [sync_server_time], which never fails. *)
Definition synced_backend (config : TestnetConfig) (net : N) (now : Z) : backend :=
  snd (tb_sync_server_time (TestnetBackend_new config net now)).

Definition runner_world (b : backend) : World backend :=
  {| w_backend := b; w_hedge_locks := ∅; w_halted := false; w_calls := [] |}.

(** [StrategyRunner::new]: the capital is the caller's; the portfolio manager clears and
    writes Redis. *)
Definition new_runner (b : backend) (renv : E) (redis : W) (capital : f64) (redis_prefix : string) (start_time now : Z)
  (symbol_map : SymbolMap T F) : result (StrategyRunner backend T F E) string * W :=
  match PortfolioManager_new capital (Some redis_prefix) start_time now redis with
  | (Ok _, redis) => (Ok (StrategyRunner_new (runner_world b) renv capital symbol_map), redis)
  | (Err e, redis) => (Err e, redis)
  end.

(** ** [demo-runner.rs] *)
Section demo.
Context (env : string -> option string) (net : N) (renv : E) (connect : result unit string) (clock start_time now : Z).

Definition demo_main (redis : W) : process phase * W :=
  match testnet_from_env env with
  | Err e => (Failed e, redis)
  | Ok config =>
      if negb (has_any_configured config) then (Failed "Missing demo credentials", redis) else
      let b := synced_backend config net clock in
      match connect with
      | Err e => (Failed e, redis)
      | Ok _ =>
          match new_runner b renv redis 0.0%f64 "demo" start_time now SymbolMap_new with
          | (Err e, redis) => (Failed e, redis)
          | (Ok runner, redis) => (run_scanning_loop runner (Some MarketPipeline_new) None, redis)
          end
      end
  end.
End demo.

(** ** [bybit-synthetic-test.rs] *)
Section synthetic.
Context (env : string -> option string) (net : N) (renv : E) (connect : result unit string) (clock start_time now : Z).

(** The balance the exchange reports, or 20,000. *)
Definition synthetic_capital (b : backend) : f64 * backend :=
  match tb_get_available_balance "bybit" b with
  | (Ok balance, b) => (balance, b)
  | (Err _, b) => (20000.0%f64, b)
  end.

(** The connectors, the bridge and the detector are running when the configuration is
    read; the runner gets consumers of the detector's own pipeline and queue. *)
Definition synthetic_main (symbol_map : SymbolMap T F) (market_pipeline : CountedQueue MQ)
  (opportunity_queue : OpportunityQueue OQ) (redis : W) : process phase * W :=
  match testnet_from_env env with
  | Err e => (Failed e, redis)
  | Ok config =>
      let b := synced_backend config net clock in
      match connect with
      | Err e => (Failed e, redis)
      | Ok _ =>
          let '(actual_balance, b) := synthetic_capital b in
          match new_runner b renv redis actual_balance "synthetic" start_time now symbol_map with
          | (Err e, redis) => (Failed e, redis)
          | (Ok runner, redis) => (run_scanning_loop runner (Some market_pipeline) (Some opportunity_queue), redis)
          end
      end
  end.
End synthetic.

End entry_points.

(** ** What becomes of them *)
Section outcomes.
Context {N T F E W V MQ OQ : Type} `{Runtime N} `{Net N} `{Json V} `{JsonApi V} `{DashMap T key Z} `{DashMap F Z key}
  `{!Sharding} `{!ShardingLaws} `{RunnerEnv E} `{RedisLaws W} `{JsonText} `{ArrayQueue MQ MarketUpdate}
  `{ArrayQueue OQ ArbitrageOpportunity}.
Abbreviation backend := (TestnetBackend N BybitDemoClient).
Abbreviation phase := (phase backend T F E MQ OQ).

(** A manager that was made has stored its fresh portfolio. *)
Lemma manager_stored capital prefix start now (w w' : W) s :
  PortfolioManager_new capital (Some prefix) start now w = (Ok s, w') ->
  s = PortfolioState_new capital /\ stored prefix start now s w' /\
  forall k, k <> state_key prefix -> k <> metrics_key prefix -> rd_get k w' = rd_get k w.
Proof.
  unfold PortfolioManager_new, bind_ok, ret. change (default "trade" (Some prefix)) with prefix. cbv zeta.
  pose proof (rd_del_get [state_key prefix; metrics_key prefix] w) as Hd.
  destruct (rd_del _ w) as [[[] | e] w1]; [| discriminate]. cbn [fst snd] in Hd. specialize (Hd eq_refl).
  pose proof (persist_state_stored prefix start now (PortfolioState_new capital) w1) as Hp.
  destruct (persist_state prefix start now _ w1) as [[[] | e] w2]; [| discriminate].
  destruct (Hp eq_refl) as [Hs Hk]. cbn [snd] in *. intros [= <- <-]. split; [reflexivity | split; [exact Hs |]].
  intros k Hk1 Hk2. rewrite Hk, Hd by assumption. apply decide_False. rewrite !elem_of_cons, elem_of_nil. tauto.
Qed.

(** The demo runner never runs: whatever the environment holds and whatever Redis
    answers, it ends before the first turn of its loop.  When everything goes well it
    ends with a panic, for it has no opportunity consumer, and by then it has
    replaced the demo portfolio in Redis by an empty one without capital. *)
Theorem demo_never_scans env net renv connect clock start now (w : W) :
  match demo_main (T:=T) (F:=F) (E:=E) (V:=V) (MQ:=MQ) (OQ:=OQ) env net renv connect clock start now w with
  | (Scanning _, _) => False
  | (Failed _, _) => True
  | (Panicked message, w') =>
      String.prefix "OpportunityConsumer not set" message = true /\
      stored "demo" start now (PortfolioState_new 0.0%f64) w'
  end.
Proof.
  unfold demo_main. destruct (testnet_from_env env) as [config | e]; [| exact I].
  destruct (negb _); [exact I |]. destruct connect; [| exact I]. unfold new_runner.
  destruct (PortfolioManager_new _ _ _ _ _) as [[s | e] w'] eqn:Em; [| exact I].
  destruct (manager_stored _ _ _ _ _ _ _ Em) as (-> & Hs & _). split; [reflexivity | exact Hs].
Qed.

(** The synthetic test trades with the balance its exchange reported, or with
    20,000; the runner shares the detector's pipeline; and however its loop and the
    other threads go on, no symbol has two live trades. *)
Theorem synthetic_runs env net renv connect clock start now sm mp oq (w w' : W) (p0 : phase) :
  synthetic_main (V:=V) env net renv connect clock start now sm mp oq w = (Scanning p0, w') ->
  (exists config, testnet_from_env env = Ok config /\
     sr_portfolio (runner_of p0) = PortfolioState_new (fst (synthetic_capital (V:=V) (synced_backend (V:=V) config net clock)))) /\
  (exists l, p0 = AtTop l /\ lp_market_consumer l = Some mp /\ lp_opportunity_consumer l = oq) /\
  forall fmt2 fuel p, star (loop_step (V:=V) fmt2 fuel) p0 p ->
    forall i j t u, sr_trades (runner_of p) !! i = Some t -> sr_trades (runner_of p) !! j = Some u ->
      pt_symbol t = pt_symbol u -> i = j.
Proof.
  unfold synthetic_main. destruct (testnet_from_env env) as [config | e]; [| discriminate].
  destruct connect; [| discriminate]. destruct (synthetic_capital _) as [capital b] eqn:Eb. unfold new_runner.
  destruct (PortfolioManager_new _ _ _ _ _) as [[s | e] w1]; [| discriminate]. cbn [run_scanning_loop].
  intros [= <- <-]. split; [exists config; rewrite Eb; auto | split; [eauto |]].
  intros fmt2 fuel p Hr. destruct (phase_ok_reachable _ _ _ _ (phase_ok_start _ _ _ _ _ _) Hr) as ([_ _ Hu] & _). exact Hu.
Qed.

(** The monitor looks under the prefixes "trade" and "demo" only: what the synthetic
    test stores is not what it reads. *)
Lemma synthetic_unseen args start now s (w : W) k :
  fst (persist_state "synthetic" start now s w) = Ok tt ->
  k ∈ [state_key (redis_prefix_of args); metrics_key (redis_prefix_of args)] ->
  rd_get k (snd (persist_state "synthetic" start now s w)) = rd_get k w.
Proof.
  intros Hok Hk. rewrite !elem_of_cons, elem_of_nil in Hk. unfold redis_prefix_of in Hk.
  apply (persist_state_stored _ _ _ _ _ Hok); intros ->; destruct (existsb _ _); vm_compute in Hk;
    destruct Hk as [Hk | [Hk | []]]; discriminate.
Qed.
End outcomes.

(** ** Two readers of one pipeline

    The detector and the runner of the synthetic test pop the same queue, each for its
    own store. *)
Section readers.
Context {MQ : Type} `{ArrayQueueLaws MQ MarketUpdate}.

Record readers := {
  rs_pipeline : CountedQueue MQ;
  rs_detector : MarketDataStore;
  rs_runner : MarketDataStore
}.

Inductive reader_event := BridgePushes (u : MarketUpdate) | ReaderPops (runner : bool).

Definition reader_step (s : readers) (e : reader_event) : readers :=
  match e with
  | BridgePushes u =>
      {| rs_pipeline := MarketProducer_push u (rs_pipeline s); rs_detector := rs_detector s; rs_runner := rs_runner s |}
  | ReaderPops runner =>
      match MarketConsumer_pop (rs_pipeline s) with
      | (Some u, q) =>
          {| rs_pipeline := q;
             rs_detector := if runner then rs_detector s else update_from_market_update u (rs_detector s);
             rs_runner := if runner then update_from_market_update u (rs_runner s) else rs_runner s |}
      | (None, q) => {| rs_pipeline := q; rs_detector := rs_detector s; rs_runner := rs_runner s |}
      end
  end.

Definition readers_start (q : CountedQueue MQ) : readers :=
  {| rs_pipeline := q; rs_detector := MarketDataStore_new; rs_runner := MarketDataStore_new |}.

Definition pushes (evs : list reader_event) : list MarketUpdate :=
  omap (fun e => match e with BridgePushes u => Some u | _ => None end) evs.

(** What became of an update that is no longer in the queue. *)
Inductive fate := ReadBy (runner : bool) | Dropped.
#[local] Instance fate_eq_dec : EqDecision fate.
Proof. solve_decision. Defined.

Definition with_fate (x : fate) (settled : list (MarketUpdate * fate)) : list MarketUpdate :=
  omap (fun uf => if decide (uf.2 = x) then Some uf.1 else None) settled.

(** The length of a queue of [cap] and how many pushes found it full. *)
Definition backlog_step (cap : nat) (bf : nat * nat) (e : reader_event) : nat * nat :=
  let '(waiting, full) := bf in
  match e with
  | BridgePushes _ => if (waiting <? cap)%nat then (S waiting, full) else (waiting, S full)
  | ReaderPops _ => (pred waiting, full)
  end.
Definition backlog (cap : nat) (evs : list reader_event) : nat * nat := fold_left (backlog_step cap) evs (0%nat, 0%nat).

Lemma replay_snoc us u s : replay (us ++ [u]) s = update_from_market_update u (replay us s).
Proof. unfold replay. now rewrite fold_left_app. Qed.

Lemma with_fate_snoc x settled u y :
  with_fate x (settled ++ [(u, y)]) = with_fate x settled ++ (if decide (y = x) then [u] else []).
Proof. unfold with_fate. rewrite omap_app. cbn. now destruct (decide (y = x)). Qed.

Abbreviation waiting s := (aq_view (cq_queue (rs_pipeline s))).

(** Every update pushed is settled or waits; [settled] has them in the order pushed. *)
Record readers_inv (q : CountedQueue MQ) (evs : list reader_event) (s : readers) (settled : list (MarketUpdate * fate)) : Prop := {
  ri_all : settled.*1 ++ waiting s = pushes evs;
  ri_detector : rs_detector s = replay (with_fate (ReadBy false) settled) MarketDataStore_new;
  ri_runner : rs_runner s = replay (with_fate (ReadBy true) settled) MarketDataStore_new;
  ri_capacity : capacity (rs_pipeline s) = capacity q;
  ri_backlog : backlog (Z.to_nat (capacity q)) evs = (length (waiting s), length (with_fate Dropped settled))
}.

(** A settled update changes one of the two stores, or counts as dropped. *)
Ltac settle := rewrite ?with_fate_snoc; repeat (rewrite decide_True by reflexivity || rewrite decide_False by discriminate);
  rewrite ?app_nil_r, ?replay_snoc; try congruence.

Lemma push_inv q evs u s settled :
  readers_inv q evs s settled -> exists settled', readers_inv q (evs ++ [BridgePushes u]) (reader_step s (BridgePushes u)) settled'.
Proof.
  intros [Ha Hd Hr Hc Hb]. assert (Hp : pushes (evs ++ [BridgePushes u]) = pushes evs ++ [u]) by (unfold pushes; now rewrite omap_app).
  assert (Hbl : backlog (Z.to_nat (capacity q)) (evs ++ [BridgePushes u]) =
    backlog_step (Z.to_nat (capacity q)) (length (waiting s), length (with_fate Dropped settled)) (BridgePushes u))
    by (unfold backlog in *; rewrite fold_left_app; cbn [fold_left]; now rewrite Hb).
  cbn [reader_step backlog_step] in *. rewrite <- Hc in *. pose proof (view_bound (rs_pipeline s)) as Hvb.
  destruct (Nat.ltb_spec (length (waiting s)) (Z.to_nat (capacity (rs_pipeline s)))) as [Hlt | Hge].
  - destruct (push_room u (rs_pipeline s) Hlt) as (Hv & Hcap & _). exists settled.
    split; cbn [rs_pipeline rs_detector rs_runner]; unfold MarketProducer_push; rewrite ?Hv, ?Hcap, ?Hp; auto.
    + now rewrite <- Ha, app_assoc.
    + rewrite <- Hc, Hbl, length_app. cbn. f_equal. lia.
  - destruct (push_full u (rs_pipeline s) ltac:(lia)) as (Hv & Hcap & _). pose proof (cap_pos (rs_pipeline s)) as Hcp.
    destruct (waiting s) as [| u0 l] eqn:Ew; [cbn in *; lia |]. exists (settled ++ [(u0, Dropped)]).
    split; cbn [rs_pipeline rs_detector rs_runner]; unfold MarketProducer_push; rewrite ?Hv, ?Hcap, ?Hp; settle; auto.
    + rewrite fmap_app, <- Ha, <- !app_assoc. reflexivity.
    + rewrite <- Hc, Hbl, !length_app. cbn. f_equal; lia.
Qed.

Lemma pop_inv q evs runner s settled :
  readers_inv q evs s settled -> exists settled', readers_inv q (evs ++ [ReaderPops runner]) (reader_step s (ReaderPops runner)) settled'.
Proof.
  intros [Ha Hd Hr Hc Hb]. assert (Hp : pushes (evs ++ [ReaderPops runner]) = pushes evs ++ []) by (unfold pushes; now rewrite omap_app).
  assert (Hbl : backlog (Z.to_nat (capacity q)) (evs ++ [ReaderPops runner]) =
    (pred (length (waiting s)), length (with_fate Dropped settled)))
    by (unfold backlog in *; rewrite fold_left_app; cbn [fold_left]; now rewrite Hb).
  rewrite app_nil_r in Hp. cbn [reader_step]. destruct (pop_spec (rs_pipeline s)) as (Hh & Ht & Hcap). unfold MarketConsumer_pop.
  destruct (pop (rs_pipeline s)) as [[u |] q']; cbn [fst snd] in *.
  - destruct (waiting s) as [| u' l] eqn:Ew; [discriminate |]. injection Hh as ->. exists (settled ++ [(u', ReadBy runner)]).
    split; cbn [rs_pipeline rs_detector rs_runner]; rewrite ?Ht, ?Hcap, ?Hp; auto; [| destruct runner; settle .. |].
    + rewrite fmap_app, <- Ha, <- app_assoc. reflexivity.
    + settle. rewrite Hbl. reflexivity.
  - destruct (waiting s) as [| u' l] eqn:Ew; [| discriminate]. exists settled.
    split; cbn [rs_pipeline rs_detector rs_runner]; rewrite ?Ht, ?Hcap, ?Hp, ?Ew; auto.
Qed.

(** C25. The stream of updates is split between the two stores of the synthetic test: in
    the order the bridge pushed them, every update was read by the detector, or by the
    runner, or dropped, or still waits, and is only one of these.  Each store is what its
    own reader read, and as many updates were dropped as pushes found the queue full. *)
Theorem each_update_read_once evs (q : CountedQueue MQ) :
  aq_view (cq_queue q) = [] ->
  let s := fold_left reader_step evs (readers_start q) in
  exists settled : list (MarketUpdate * fate),
    settled.*1 ++ aq_view (cq_queue (rs_pipeline s)) = pushes evs /\
    rs_detector s = replay (with_fate (ReadBy false) settled) MarketDataStore_new /\
    rs_runner s = replay (with_fate (ReadBy true) settled) MarketDataStore_new /\
    length (with_fate Dropped settled) = snd (backlog (Z.to_nat (capacity q)) evs).
Proof.
  intros Hq s. enough (Hi : exists settled, readers_inv q evs s settled).
  { destruct Hi as (settled & [Ha Hd Hr _ Hb]). exists settled. rewrite Hb. auto. }
  subst s. induction evs as [| e evs (settled & IH)] using rev_ind.
  - exists []. split; cbn; rewrite ?Hq; auto.
  - rewrite fold_left_app. cbn [fold_left]. destruct e; [now apply push_inv with settled | now apply pop_inv with settled].
Qed.

(** The pops are those of the code: a turn of the detector's loop is one of its pops,
    and what the runner does about prices at the head of a turn is at most a hundred
    of the runner's. *)
Lemma runner_head_pops {B T F E OQ : Type} (l : loop_state B T F E MQ OQ) (s : readers) :
  lp_market_consumer l = Some (rs_pipeline s) -> sr_market (lp_runner l) = rs_runner s ->
  exists n, (n <= 100)%nat /\
    let s' := fold_left reader_step (replicate n (ReaderPops true)) s in
    lp_market_consumer (process_updates l) = Some (rs_pipeline s') /\
    sr_market (lp_runner (process_updates l)) = rs_runner s' /\ rs_detector s' = rs_detector s.
Proof.
  intros Hq Hm. unfold process_updates. rewrite Hq, Hm. clear. generalize 100%nat as n. intros n.
  enough (He : exists k, (k <= n)%nat /\
    let s' := fold_left reader_step (replicate k (ReaderPops true)) s in
    drain_updates n (rs_pipeline s) (rs_runner s) = (rs_pipeline s', rs_runner s') /\ rs_detector s' = rs_detector s).
  { destruct He as (k & Hk & He & Hd). exists k. rewrite He. cbn. auto. }
  revert s. induction n as [| n IH]; intros s; [exists 0%nat; auto |]. cbn [drain_updates].
  destruct (MarketConsumer_pop (rs_pipeline s)) as [[u |] q] eqn:Ep.
  - destruct (IH (reader_step s (ReaderPops true))) as (k & Hk & He). exists (S k). split; [lia |].
    cbn [replicate fold_left]. revert He. cbn [reader_step]. rewrite Ep. auto.
  - exists 1%nat. split; [lia |]. cbn [replicate fold_left reader_step]. rewrite Ep. auto.
Qed.

Lemma detector_turn_pops {OQ T F : Type} `{ArrayQueueLaws OQ ArbitrageOpportunity} `{DashMap T key Z} `{DashMap F Z key}
  `{!DashMapLaws T key Z} `{!DashMapLaws F Z key}
  (instant_ms unix_secs : nat -> Z) (d : OpportunityDetector MQ OQ T F) (s : readers) :
  market_consumer d = rs_pipeline s -> market_data_store d = rs_detector s ->
  let s' := reader_step s (ReaderPops false) in
  market_consumer (run_iteration instant_ms unix_secs d) = rs_pipeline s' /\
  market_data_store (run_iteration instant_ms unix_secs d) = rs_detector s' /\ rs_runner s' = rs_runner s.
Proof.
  intros Hq Hm. cbn [reader_step]. unfold run_iteration, MarketConsumer_pop. rewrite Hq.
  destruct (pop (rs_pipeline s)) as [[u |] q]; cbn [rs_pipeline rs_detector rs_runner]; [| now rewrite <- Hm].
  cbn [market_data_store set_market_consumer upd]. rewrite Hm.
  destruct (sm_get _ _) as [[e y] |]; [| auto].
  match goal with |- context [detect_opportunities_for_symbol _ _ y e ?d0] =>
    destruct (detect_preserves instant_ms unix_secs (fun d' => market_consumer d' = market_consumer d0 /\
      market_data_store d' = market_data_store d0) y e d0) as [-> ->] end; auto.
  - intros d1 d2 (_ & _ & _ & -> & ->) _. auto.
  - intros ex1 ex2 d1 _ _ _. destruct (check_pair_config instant_ms unix_secs y ex1 ex2 d1) as (_ & _ & _ & -> & ->). auto.
Qed.
End readers.

(** ** Concrete runs *)

(** One Bybit account; a network that answers every request with a balance. *)
#[local] Existing Instance coded_json.
#[local] Existing Instance coded_json_laws.

#[local] Instance still_runtime : Runtime Z := {
  rt_instant n := (n, n);
  rt_unix_millis n := (1700000000000, n);
  rt_unix_secs n := (1700000000, n);
  rt_sleep_ms ms n := (tt, n + Z.max 0 ms * 1000000);
  rt_uuid n := ("u", n + 1)
}.

Definition balance_text : string :=
  to_text (JObject [("result", JObject [("list", JArray [JObject [("coin", JArray [JObject
    [("coin", JString "USDT"); ("equity", JString "5000")]])]])])]).

#[local] Instance balance_net : Net Z := {
  n_send _ n := (Ok (200, balance_text), n);
  n_hmac _ _ := "signature";
  n_status_text _ := "200 OK"
}.

#[local] Instance integers : JsonApi json := {
  j_as_i64 v := match v with JInt n => Some n | _ => None end;
  j_error _ := "no JSON";
  j_object _ := "{}"
}.

Definition demo_vars (k : string) : option string :=
  if String.eqb k "BYBIT_DEMO_API_KEY" then Some "key" else if String.eqb k "BYBIT_DEMO_API_SECRET" then Some "secret" else None.

Abbreviation demo_process :=
  (process (phase (TestnetBackend Z BybitDemoClient) sym_ids sym_keys (list io) market_queue opportunity_queue) * memory)%type.

Definition demo_run : demo_process := demo_main (V:=json) demo_vars 0 [] (Ok tt) 0 0 86400 ∅.

Lemma demo_never_scans_witness :
  match demo_run with
  | (Panicked _, w) => stored "demo" 0 86400 (PortfolioState_new 0.0%f64) w
  | _ => False
  end.
Proof.
  pose proof (demo_never_scans (T:=sym_ids) (F:=sym_keys) (V:=json) (MQ:=market_queue) (OQ:=opportunity_queue)
    demo_vars 0 ([] : list io) (Ok tt) 0 0 86400 (∅ : memory)) as Hn.
  fold demo_run in Hn. revert Hn.
  assert (Hp : match fst demo_run with Panicked _ => true | _ => false end = true) by (vm_compute; reflexivity).
  destruct demo_run as [[e | m | p] w]; cbn [fst] in Hp; try discriminate. now intros [_ Hs].
Defined.

Definition synthetic_demo : demo_process :=
  synthetic_main (V:=json) demo_vars 0 [] (Ok tt) 0 0 86400 demo_symbols demo_updates (oq_with_capacity 16) ∅.

(** The capital is the 5,000 of the account; the runner's first turn takes both updates
    of the shared pipeline. *)
Lemma synthetic_runs_witness :
  match synthetic_demo with
  | (Scanning p, _) => sr_portfolio (runner_of p) = PortfolioState_new 5000.0%f64
  | _ => False
  end.
Proof.
  pose proof (fun p w => synthetic_runs (V:=json) demo_vars 0 ([] : list io) (Ok tt) 0 0 86400 demo_symbols demo_updates
    (oq_with_capacity 16) (∅ : memory) w p) as Hs.
  fold synthetic_demo in Hs. revert Hs.
  assert (Hp : match fst synthetic_demo with Scanning _ => true | _ => false end = true) by (vm_compute; reflexivity).
  destruct synthetic_demo as [[e | m | p] w]; cbn [fst] in Hp; try discriminate. intros Hs.
  destruct (Hs p w eq_refl) as ((config & Hc & ->) & _ & _). f_equal. revert Hc.
  assert (Hb : match testnet_from_env demo_vars with
    | Ok config => fst (synthetic_capital (V:=json) (synced_backend (V:=json) config 0 0)) = 5000.0%f64
    | Err _ => False end) by (vm_compute; reflexivity).
  destruct (testnet_from_env demo_vars) as [c | e]; [| easy]. now intros [= <-].
Defined.

(** Both prices arrive; the detector takes one and the runner the other, and neither
    store has both. *)
Definition split_events : list reader_event :=
  [BridgePushes (MarketUpdate_new 1 99.9%f64 100.0%f64 1); BridgePushes (MarketUpdate_new 2 101.0%f64 101.1%f64 1);
   ReaderPops false; ReaderPops true].

Lemma each_update_read_once_witness :
  let s := fold_left reader_step split_events (readers_start (with_capacity 16 : CountedQueue market_queue)) in
  (exists settled, settled.*1 ++ aq_view (cq_queue (rs_pipeline s)) = pushes split_events /\ with_fate Dropped settled = []) /\
  get_ask 2 (rs_detector s) = None /\ get_ask 2 (rs_runner s) = Some 101.1%f64 /\
  default 0.0%f64 (get_ask 1 (rs_runner s)) = 0.0%f64.
Proof.
  intros s. assert (Hq : aq_view (cq_queue (with_capacity 16 : CountedQueue market_queue)) = []) by reflexivity.
  destruct (each_update_read_once split_events (with_capacity 16 : CountedQueue market_queue) Hq) as (settled & Ha & _ & _ & Hd).
  split; [exists settled; split; [exact Ha | now apply nil_length_inv] | split; [| split]; vm_compute; reflexivity].
Defined.

(** A queue of one: the second push drops the first update. *)
Example full_queue_drops :
  backlog 1 [BridgePushes (MarketUpdate_new 1 99.9%f64 100.0%f64 1); BridgePushes (MarketUpdate_new 2 101.0%f64 101.1%f64 1);
             ReaderPops true; ReaderPops false] = (0%nat, 1%nat).
Proof. reflexivity. Qed.
